(** * Dynamic port mapper: the container store and the port-remapping engine

    A shallow embedding of [container_store.go] and of the parts of
    [main.go] it depends on.  Go strings are byte strings ([string]),
    [int] is the 64-bit machine integer (a [Z] with its wrap-around
    written out where the code computes), Go maps held by the store are
    [gmap]s, decoded JSON / YAML documents are [GoValue]s, and every
    call that leaves the process (the docker CLI, the file system, the
    random source, the TCP probe) goes through an explicit world. *)

From Stdlib Require Import ZArith Ascii String List Lia Bool.
From stdpp Require Import gmap strings list fin_maps sorting.

Open Scope string_scope.
Open Scope list_scope.
Open Scope Z_scope.

(** ** Bytes and the [strings] / [strconv] helpers the code calls *)

Module GoStrings.

Definition byte_val (a : ascii) : Z := Z.of_N (N_of_ascii a).

Definition is_digit (a : ascii) : bool :=
  (48 <=? byte_val a) && (byte_val a <=? 57).

(** [\w] of the regexp package: ASCII letters, digits and underscore. *)
Definition is_word (a : ascii) : bool :=
  is_digit a
  || ((65 <=? byte_val a) && (byte_val a <=? 90))
  || ((97 <=? byte_val a) && (byte_val a <=? 122))
  || (byte_val a =? 95).

(** [unicode.IsSpace] below [utf8.RuneSelf]: the six ASCII blanks. *)
Definition is_space (a : ascii) : bool :=
  (byte_val a =? 32) || ((9 <=? byte_val a) && (byte_val a <=? 13)).

(** The other runes of Unicode's [White_Space], as UTF-8 decodes them:
    U+0085 and U+00A0 in two bytes; U+1680, U+2000 to U+200A, U+2028,
    U+2029, U+202F, U+205F and U+3000 in three. *)
Definition is_space2 (a b : ascii) : bool :=
  (byte_val a =? 194) && ((byte_val b =? 133) || (byte_val b =? 160)).

Definition is_space3 (a b c : ascii) : bool :=
  ((byte_val a =? 225) && (byte_val b =? 154) && (byte_val c =? 128))
  || ((byte_val a =? 226) && (byte_val b =? 128)
      && (((128 <=? byte_val c) && (byte_val c <=? 138))
          || (byte_val c =? 168) || (byte_val c =? 169)
          || (byte_val c =? 175)))
  || ((byte_val a =? 226) && (byte_val b =? 129) && (byte_val c =? 159))
  || ((byte_val a =? 227) && (byte_val b =? 128) && (byte_val c =? 128)).

Fixpoint HasPrefix (s p : string) : bool :=
  match p, s with
  | EmptyString, _ => true
  | String c p', String d s' => bool_decide (c = d) && HasPrefix s' p'
  | String _ _, EmptyString => false
  end.

Fixpoint drop_bytes (n : nat) (s : string) : string :=
  match n, s with
  | O, _ => s
  | S k, String _ s' => drop_bytes k s'
  | S _, EmptyString => EmptyString
  end.

Definition TrimPrefix (s p : string) : string :=
  if HasPrefix s p then drop_bytes (String.length p) s else s.

(** The bytes of [s] without the white-space runes it starts with;
    [two] and [three] recognise the runes of two and three bytes.  A
    byte that starts no white-space rune (an invalid or truncated
    encoding decodes to [utf8.RuneError]) ends the run. *)
Fixpoint trim_front (two : ascii -> ascii -> bool)
    (three : ascii -> ascii -> ascii -> bool) (s : string) : string :=
  match s with
  | EmptyString => EmptyString
  | String a s1 =>
      if is_space a then trim_front two three s1
      else
        match s1 with
        | EmptyString => s
        | String b s2 =>
            if two a b then trim_front two three s2
            else
              match s2 with
              | EmptyString => s
              | String c s3 =>
                  if three a b c then trim_front two three s3 else s
              end
        end
  end.

Definition reverse_bytes (s : string) : string :=
  string_of_list_ascii (rev (list_ascii_of_string s)).

(** [strings.TrimLeftFunc(s, unicode.IsSpace)] *)
Definition trim_left (s : string) : string := trim_front is_space2 is_space3 s.

(** [strings.TrimRightFunc(s, unicode.IsSpace)]: [DecodeLastRune]
    finds a white-space rune at the end exactly when the bytes end
    with its encoding, so the bytes are read backwards. *)
Definition trim_right (s : string) : string :=
  reverse_bytes
    (trim_front (fun a b => is_space2 b a) (fun a b c => is_space3 c b a)
                (reverse_bytes s)).

(** [strings.TrimSpace]: leading and trailing white space, as Unicode
    defines it, removed. *)
Definition TrimSpace (s : string) : string := trim_right (trim_left s).

(** [strings.Split(s, sep)] for a one-byte separator: always at least one
    field, empty fields kept. *)
Fixpoint Split (s : string) (sep : ascii) : list string :=
  match s with
  | EmptyString => [EmptyString]
  | String c s' =>
      if bool_decide (c = sep) then EmptyString :: Split s' sep
      else match Split s' sep with
           | f :: fs => String c f :: fs
           | [] => [String c EmptyString]
           end
  end.

(** *** [strconv.Atoi] and [strconv.Itoa] on a 64-bit [int] *)

Definition maxUint64 : Z := 2 ^ 64 - 1.
Definition maxInt64 : Z := 2 ^ 63 - 1.
Definition minInt64 : Z := - 2 ^ 63.

(** Two's-complement wrap-around of [int] arithmetic. *)
Definition wrap64 (z : Z) : Z := (z + 2 ^ 63) mod 2 ^ 64 - 2 ^ 63.

Inductive UintResult := UOk (n : Z) | USyntax | URange.

(** The digit loop of [strconv.ParseUint(s, 10, 64)]. *)
Fixpoint parseUintLoop (n : Z) (s : string) : UintResult :=
  match s with
  | EmptyString => UOk n
  | String c s' =>
      if is_digit c then
        if maxUint64 / 10 + 1 <=? n then URange
        else
          let n1 := n * 10 + (byte_val c - 48) in
          if maxUint64 <? n1 then URange else parseUintLoop n1 s'
      else USyntax
  end.

Definition ParseUint (s : string) : UintResult :=
  match s with
  | EmptyString => USyntax
  | _ => parseUintLoop 0 s
  end.

(** [strconv.Atoi]: the value and whether [err == nil].  The fast path
    for short inputs computes what [ParseInt(s, 10, 0)] computes, so one
    definition covers both.  A syntax error yields 0, a range error the
    nearest bound. *)
Definition Atoi (s : string) : Z * bool :=
  match s with
  | EmptyString => (0, false)
  | String c s' =>
      let neg := bool_decide (c = "-"%char) in
      let body := if neg || bool_decide (c = "+"%char) then s' else s in
      match ParseUint body with
      | USyntax => (0, false)
      | URange => (if neg then minInt64 else maxInt64, false)
      | UOk un =>
          if negb neg && (2 ^ 63 <=? un) then (maxInt64, false)
          else if neg && (2 ^ 63 <? un) then (minInt64, false)
          else (if neg then - un else un, true)
      end
  end.

Definition digit_char (d : Z) : ascii := ascii_of_N (Z.to_N (48 + d)).

Fixpoint itoa_digits (fuel : nat) (n : Z) (acc : string) : string :=
  match fuel with
  | O => acc
  | S k =>
      let acc' := String (digit_char (n mod 10)) acc in
      if n / 10 =? 0 then acc' else itoa_digits k (n / 10) acc'
  end.

(** [strconv.Itoa]; an [int] has at most 19 decimal digits. *)
Definition Itoa (n : Z) : string :=
  if n <? 0 then String "-" (itoa_digits 20 (- n) EmptyString)
  else itoa_digits 20 n EmptyString.

End GoStrings.
Export GoStrings.

(** ** [portRegex]

    [(?:(\d+\.\d+\.\d+\.\d+):)?(\d+)->(\d+)\/(\w+)].  Every repetition is
    followed by a byte outside its class (or ends the pattern), so the
    leftmost-first match at a position is found without search: take the
    longest run each time, try the optional address first and fall back
    to matching without it. *)

Module PortRegex.

(** One match: the submatches 2, 3 and 4 the code reads. *)
Record Submatch := { m_host : string; m_cport : string; m_proto : string }.

Fixpoint span (p : ascii -> bool) (s : list ascii) : list ascii * list ascii :=
  match s with
  | c :: s' => if p c then let '(a, b) := span p s' in (c :: a, b) else ([], s)
  | [] => ([], [])
  end.

(** [\d+] and [\w+]: a non-empty longest run. *)
Definition run1 (p : ascii -> bool) (s : list ascii)
  : option (list ascii * list ascii) :=
  match span p s with
  | ([], _) => None
  | r => Some r
  end.

Definition lit (c : ascii) (s : list ascii) : option (list ascii) :=
  match s with
  | d :: s' => if bool_decide (c = d) then Some s' else None
  | [] => None
  end.

(** [(\d+)->(\d+)\/(\w+)] at the head of [s]; the rest of the input is
    returned with the match. *)
Definition match_core (s : list ascii) : option (Submatch * list ascii) :=
  '(h, s1) ← run1 is_digit s;
  s2 ← lit "-" s1;
  s3 ← lit ">" s2;
  '(c, s4) ← run1 is_digit s3;
  s5 ← lit "/" s4;
  '(p, s6) ← run1 is_word s5;
  Some ({| m_host := string_of_list_ascii h;
           m_cport := string_of_list_ascii c;
           m_proto := string_of_list_ascii p |}, s6).

(** [(\d+\.\d+\.\d+\.\d+):] at the head of [s]. *)
Definition match_addr (s : list ascii) : option (list ascii) :=
  '(_, s1) ← run1 is_digit s;
  s2 ← lit "." s1;
  '(_, s3) ← run1 is_digit s2;
  s4 ← lit "." s3;
  '(_, s5) ← run1 is_digit s4;
  s6 ← lit "." s5;
  '(_, s7) ← run1 is_digit s6;
  lit ":" s7.

Definition match_here (s : list ascii) : option (Submatch * list ascii) :=
  match match_addr s ≫= match_core with
  | Some r => Some r
  | None => match_core s
  end.

(** Successive non-overlapping matches: [skip] counts the bytes of the
    previous match still to step over. *)
Fixpoint scan (skip : nat) (s : list ascii) : list Submatch :=
  match s with
  | [] => []
  | _ :: s' =>
      match skip with
      | S k => scan k s'
      | O =>
          match match_here s with
          | Some (m, rest) =>
              m :: scan (List.length s - List.length rest - 1) s'
          | None => scan 0 s'
          end
      end
  end.

(** [portRegex.FindAllStringSubmatch(portsStr, -1)]. *)
Definition FindAllStringSubmatch (portsStr : string) : list Submatch :=
  scan 0 (list_ascii_of_string portsStr).

End PortRegex.
Export PortRegex.

(** ** Data model ([main.go]) *)

Record PortMapping := {
  ContainerPort : string;
  HostPort : string;
  Protocol : string;
  OriginalPort : string   (* the original host port before remapping *)
}.

Record Container := {
  ID : string;
  Image : string;
  Command : string;
  Created : string;
  Status : string;
  Ports : string;
  Names : string;
  ComposeProject : string;
  ComposeService : string;
  PortMappings : list PortMapping;
  DynamicPorts : bool
}.

(** [ContainerStore]: the three maps and the port range.  The mutex is
    modelled by [locked] below, the event command and the [done] channel
    are not part of the state the claims speak about. *)
Record ContainerStore := {
  containers : gmap string Container;
  portMappings : gmap string (gmap string string);
  processedContainers : gmap string bool;
  portRangeMin : Z;
  portRangeMax : Z
}.

(** One decoded line of [docker ps --format {{json .}}]. *)
Record dockerContainer := {
  dc_ID : string;
  dc_Image : string;
  dc_Command : string;
  dc_RunningFor : string;
  dc_Status : string;
  dc_Ports : string;
  dc_Names : string
}.

(** One line of the output of [docker ps]: how many bytes it has
    before the line end, and what [json.Unmarshal] makes of it ([None]
    when it does not unmarshal). *)
Record OutputLine := {
  line_bytes : Z;
  line_json : option dockerContainer
}.

(** The fields of [DockerEvent] the dispatcher reads. *)
Record DockerEvent := {
  ev_Status : string;
  ev_ID : string;
  ev_Type : string
}.

(** ** Decoded documents

    What [json.Unmarshal] and [yaml.Unmarshal] store in an
    [interface{}]: JSON numbers arrive as [float64] (only integral ones
    are modelled), YAML integers as [int].  A decoded map is the list of
    its entries; lookups take the first entry with the key.  A [range]
    over it visits the entries as the list has them, or, where the
    function takes the order of its loops as a parameter, by
    [visitBy]. *)

#[local] Set Warnings "-register-all".

Inductive GoValue :=
| GNil
| GBool (b : bool)
| GInt (z : Z)
| GFloat (z : Z)
| GString (s : string)
| GSlice (l : list GoValue)
| GMap (m : list (string * GoValue)).

Abbreviation GoObject := (list (string * GoValue)).

Module Dyn.

(** [v, ok := m[k]] *)
Fixpoint lookup {V} (m : list (string * V)) (k : string) : option V :=
  match m with
  | [] => None
  | (k', v) :: m' => if bool_decide (k' = k) then Some v else lookup m' k
  end.

(** [m[k]] on a [map[string]interface{}]: [nil] when the key is absent. *)
Definition index (m : GoObject) (k : string) : GoValue :=
  default GNil (lookup m k).

(** [m[k] = v]: in place when the key exists, a new entry otherwise. *)
Fixpoint assign {V} (m : list (string * V)) (k : string) (v : V)
  : list (string * V) :=
  match m with
  | [] => [(k, v)]
  | (k', v') :: m' =>
      if bool_decide (k' = k) then (k, v) :: m' else (k', v') :: assign m' k v
  end.

(** The comma-ok type assertions [v.(T)]. *)
Definition asString (v : GoValue) : option string :=
  match v with GString s => Some s | _ => None end.
Definition asInt (v : GoValue) : option Z :=
  match v with GInt z => Some z | _ => None end.
Definition asFloat (v : GoValue) : option Z :=
  match v with GFloat z => Some z | _ => None end.
Definition asSlice (v : GoValue) : option (list GoValue) :=
  match v with GSlice l => Some l | _ => None end.
Definition asMap (v : GoValue) : option GoObject :=
  match v with GMap m => Some m | _ => None end.

End Dyn.

(** *** The order of a [range] over a map

    Go visits the entries of a map in an order it does not specify,
    and which differs from one loop to the next.  Where what a loop
    does depends on that order, the order is a parameter of the
    function: a rank for every key, the loop visiting the entries by
    increasing rank (entries of equal rank as the list has them). *)
Fixpoint insertBy {V} (rank : string -> Z) (e : string * V)
    (l : list (string * V)) : list (string * V) :=
  match l with
  | [] => [e]
  | x :: l' =>
      if rank (fst e) <=? rank (fst x) then e :: l
      else x :: insertBy rank e l'
  end.

Definition visitBy {V} (rank : string -> Z) (m : list (string * V))
  : list (string * V) :=
  fold_right (insertBy rank) [] m.

(** The rank that visits the entries in the order of a given list: the
    place of each key in it. *)
Fixpoint place {V} (m : list (string * V)) (k : string) : Z :=
  match m with
  | [] => 0
  | x :: m' => if bool_decide (fst x = k) then 0 else 1 + place m' k
  end.

(** The orders of the three loops of [handleContainerStart]: the two
    over [portBindings] and the one over [portsToRemap]. *)
Record LoopOrders := {
  rangeLoop : string -> Z;
  conflictLoop : string -> Z;
  remapLoop : string -> Z
}.

(** Every loop visiting the entries as the list has them. *)
Definition asListed : LoopOrders :=
  {| rangeLoop := fun _ => 0; conflictLoop := fun _ => 0;
     remapLoop := fun _ => 0 |}.

(** ** The world outside the process *)

(** Result of a command whose output the code decodes. *)
Inductive Decoded (A : Type) :=
| CmdFailed          (* the command or the read returned an error *)
| Malformed          (* the output did not unmarshal *)
| Parsed (a : A).
Arguments CmdFailed {A}.
Arguments Malformed {A}.
Arguments Parsed {A} a.

(** The container runtime and the files, as the code reaches them.
    Queries leave the runtime unchanged; every other docker invocation
    goes through [docker_exec] with the argument list the code builds. *)
Class Runtime (R : Type) := {
  (* docker ps --format {{json .}} --no-trunc : the lines of its
     standard output *)
  docker_ps_output : R -> option (list OutputLine);
  (* docker inspect --format <template> <id> : standard output *)
  docker_inspect_format : R -> string -> string -> option string;
  (* docker inspect <id>, unmarshalled into []map[string]interface{} *)
  docker_inspect : R -> string -> Decoded (list GoObject);
  (* docker inspect --format {{json .}} <id>, into map[string]interface{} *)
  docker_inspect_json : R -> string -> Decoded GoObject;
  (* docker <args> : new state, exit status zero, combined output *)
  docker_exec : R -> list string -> R * (bool * string);
  (* docker-compose -f <file> config, unmarshalled from YAML *)
  compose_config : R -> string -> Decoded GoObject;
  (* os.ReadFile <file> and yaml.Unmarshal *)
  read_compose_file : R -> string -> Decoded GoObject;
  (* yaml.Marshal, os.CreateTemp and Write: the name of the new file *)
  write_temp_compose : R -> GoObject -> R * option string
}.

(** A docker invocation that was made, with what it returned. *)
Record Invocation := {
  inv_args : list string;
  inv_ok : bool;
  inv_out : string
}.

(** Go's [error]: [None] is [nil], otherwise the message (without the
    wrapped cause). *)
Abbreviation error := (option string).

(** ** The engine *)

Section Engine.

Context {R : Type} `{!Runtime R}.

(** Everything a call can read or change.  [invocations] and [snapshots]
    are ghost state, newest first: the state-changing docker commands
    issued so far, and the store as each exclusive section left it. *)
Record World := {
  store : ContainerStore;
  runtime : R;
  rand_src : nat -> Z;          (* what math/rand will draw *)
  rand_pos : nat;
  listen_ok : Z -> bool;        (* net.Listen("tcp", ":p") succeeds *)
  invocations : list Invocation;
  snapshots : list ContainerStore
}.

(** A call returns, or panics with a message. *)
Inductive Outcome (A : Type) :=
| Done (a : A) (w : World)
| Panicked (msg : string) (w : World).
Arguments Done {A} a w.
Arguments Panicked {A} msg w.

Definition Go (A : Type) : Type := World -> Outcome A.

Definition ret {A} (a : A) : Go A := fun w => Done a w.

Definition bind {A B} (m : Go A) (k : A -> Go B) : Go B :=
  fun w => match m w with
           | Done a w' => k a w'
           | Panicked msg w' => Panicked msg w'
           end.

Notation "'let!' x := m 'in' k" := (bind m (fun x => k))
  (at level 10, x name, m at level 100, k at level 200, only parsing).
Notation "'let!' ' p := m 'in' k" :=
  (bind m (fun x => match x with p => k end))
  (at level 10, p pattern, m at level 100, k at level 200, only parsing).
Notation "'run!' m 'in' k" := (bind m (fun _ => k))
  (at level 10, m at level 100, k at level 200, only parsing).

Definition panic {A} (msg : string) : Go A := fun w => Panicked msg w.

(** Reading the store, under the read lock or (as several functions do)
    under none. *)
Definition getStore : Go ContainerStore := fun w => Done (store w) w.

(** [s.mu.Lock(); ...; s.mu.Unlock()] around the update [f]. *)
Definition locked (f : ContainerStore -> ContainerStore) : Go unit :=
  fun w =>
    let s := f (store w) in
    Done tt {| store := s; runtime := runtime w;
               rand_src := rand_src w; rand_pos := rand_pos w;
               listen_ok := listen_ok w; invocations := invocations w;
               snapshots := s :: snapshots w |}.

(** A query of the runtime. *)
Definition query {A} (f : R -> A) : Go A := fun w => Done (f (runtime w)) w.

(** [exec.Command("docker", args...)] run for its effect. *)
Definition docker (args : list string) : Go (bool * string) :=
  fun w =>
    let '(r, (ok, out)) := docker_exec (runtime w) args in
    Done (ok, out)
         {| store := store w; runtime := r;
            rand_src := rand_src w; rand_pos := rand_pos w;
            listen_ok := listen_ok w;
            invocations := {| inv_args := args; inv_ok := ok; inv_out := out |}
                           :: invocations w;
            snapshots := snapshots w |}.

(** [rand.Intn(n)]: panics unless [0 < n], otherwise some value of
    [[0, n)]. *)
Definition Intn (n : Z) : Go Z :=
  fun w =>
    if n <=? 0 then Panicked "invalid argument to Intn" w
    else Done (rand_src w (rand_pos w) mod n)
              {| store := store w; runtime := runtime w;
                 rand_src := rand_src w; rand_pos := S (rand_pos w);
                 listen_ok := listen_ok w; invocations := invocations w;
                 snapshots := snapshots w |}.

(** [net.Listen("tcp", ":port")] followed by [Close] on success. *)
Definition Listen (port : Z) : Go bool := fun w => Done (listen_ok w port) w.

(** A [for ... range] loop with an accumulator. *)
Fixpoint forEach {A B} (f : B -> A -> Go B) (acc : B) (l : list A) : Go B :=
  match l with
  | [] => ret acc
  | x :: l' => let! acc' := f acc x in forEach f acc' l'
  end.

Definition setProcessed (id : string) (s : ContainerStore) : ContainerStore :=
  {| containers := containers s;
     portMappings := portMappings s;
     processedContainers := <[id := true]> (processedContainers s);
     portRangeMin := portRangeMin s;
     portRangeMax := portRangeMax s |}.

Definition dquote : string := String "034"%char EmptyString.

Definition sentinelLabel : string := "com.dynamic-port-mapper.has-dynamic-ports".

(** What [extractLabel] returns, from the two [docker inspect] queries. *)
Definition labelOf (r : R) (containerID label : string) : string :=
  let fallback : string :=
    match docker_inspect_format r ("{{.Config.Labels." +:+ label +:+ "}}")
                                containerID with
    | None => EmptyString
    | Some o =>
        let value := TrimSpace o in
        if bool_decide (value = "<no value>") || bool_decide (value = EmptyString)
        then EmptyString else value
    end in
  match docker_inspect_format r
          ("{{index .Config.Labels " +:+ dquote +:+ label +:+ dquote +:+ "}}")
          containerID with
  | Some o =>
      let value := TrimSpace o in
      if bool_decide (value ≠ "<no value>") && bool_decide (value ≠ EmptyString)
      then value else fallback
  | None => fallback
  end.

(** [extractLabel] *)
Definition extractLabel (containerID label : string) : Go string :=
  query (fun r => labelOf r containerID label).

(** [addDynamicPortLabel]: the in-memory mark first, then the label,
    best effort. *)
Definition addDynamicPortLabel (containerID : string) : Go unit :=
  run! locked (setProcessed containerID) in
  let! chk := query (fun r => docker_inspect_format r "{{.ID}}" containerID) in
  match chk with
  | None => ret tt
  | Some _ =>
      let! '(ok, _) := docker ["container"; "update"; "--label";
                               sentinelLabel +:+ "=true"; containerID] in
      if ok then ret tt
      else
        run! docker ["container"; "label"; containerID;
                     sentinelLabel +:+ "=true"] in
        ret tt
  end.

(** [isContainerProcessed] *)
Definition isContainerProcessed (containerID : string) : Go bool :=
  let! s := getStore in
  match processedContainers s !! containerID with
  | Some true => ret true
  | _ =>
      let! hasDynamicPorts := extractLabel containerID sentinelLabel in
      if bool_decide (hasDynamicPorts = "true") then
        run! locked (setProcessed containerID) in
        ret true
      else ret false
  end.

Definition portKey (containerPort protocol : string) : string :=
  containerPort +:+ "/" +:+ protocol.

(** [restorePortMappings] *)
Definition restorePortMappings (portsStr : string)
    (storedMappings : gmap string string) : list PortMapping * bool :=
  fold_left
    (fun (acc : list PortMapping * bool) m =>
       let '(mappings, dynamicPorts) := acc in
       let originalHostPort := m_host m in
       let containerPort := m_cport m in
       let protocol := m_proto m in
       let key := portKey containerPort protocol in
       match storedMappings !! key with
       | Some storedPort =>
           if bool_decide (storedPort ≠ originalHostPort) then
             (mappings ++ [{| ContainerPort := containerPort;
                              HostPort := storedPort;
                              Protocol := protocol;
                              OriginalPort := originalHostPort |}], true)
           else
             (mappings ++ [{| ContainerPort := containerPort;
                              HostPort := originalHostPort;
                              Protocol := protocol;
                              OriginalPort := originalHostPort |}], dynamicPorts)
       | None =>
           (mappings ++ [{| ContainerPort := containerPort;
                            HostPort := originalHostPort;
                            Protocol := protocol;
                            OriginalPort := originalHostPort |}], dynamicPorts)
       end)
    (FindAllStringSubmatch portsStr) (@nil PortMapping, false).

(** [portInt < s.portRangeMin || portInt > s.portRangeMax], after a
    successful [Atoi]. *)
Definition inDynamicRange (s : ContainerStore) (hostPort : string) : bool :=
  let '(portInt, ok) := Atoi hostPort in
  ok && negb ((portInt <? portRangeMin s) || (portRangeMax s <? portInt)).

(** The mapping recorded for a match when nothing is restored: since we
    are not remapping, original = current. *)
Definition observed (m : Submatch) : PortMapping :=
  {| ContainerPort := m_cport m;
     HostPort := m_host m;
     Protocol := m_proto m;
     OriginalPort := m_host m |}.

(** [parsePortsWithoutRemapping] *)
Definition parsePortsWithoutRemapping (containerID portsStr : string)
    (existingMappings : gmap string (gmap string string))
  : Go (list PortMapping * bool) :=
  match existingMappings !! containerID with
  | Some mappings => ret (restorePortMappings portsStr mappings)
  | None =>
      let! processed := isContainerProcessed containerID in
      let matches := FindAllStringSubmatch portsStr in
      let mappings := map observed matches in
      if processed then ret (mappings, true)
      else
        let! s := getStore in
        match matches with
        | [] => ret (mappings, false)
        | _ =>
            if forallb (fun m => inDynamicRange s (m_host m)) matches then
              run! addDynamicPortLabel containerID in
              ret (mappings, true)
            else ret (mappings, false)
        end
  end.

(** *** [refreshContainers] *)

(** The new maps a refresh builds before it swaps them in. *)
Record Fresh := {
  newContainers : gmap string Container;
  newPortMappings : gmap string (gmap string string);
  newProcessedContainers : gmap string bool
}.

Definition alternativeProjectLabels : list string :=
  ["docker-compose.project"; "io.compose.project"; "com.docker.project";
   "project"].

Definition alternativeServiceLabels : list string :=
  ["docker-compose.service"; "io.compose.service"; "com.docker.service";
   "service"].

(** [for _, altLabel := range labels { v = extractLabel(id, altLabel);
    if v != "" { break } }] *)
Fixpoint firstLabel (containerID : string) (labels : list string)
    (current : string) : Go string :=
  match labels with
  | [] => ret current
  | altLabel :: rest =>
      let! v := extractLabel containerID altLabel in
      if bool_decide (v ≠ EmptyString) then ret v
      else firstLabel containerID rest v
  end.

(** The project name read off the container name. *)
Definition inferProject (names : string) : string :=
  let containerName := TrimPrefix names "/" in
  let parts := Split containerName "_" in
  if (2 <=? Z.of_nat (length parts))
     && bool_decide (default EmptyString (parts !! 0%nat) ≠ EmptyString)
  then default EmptyString (parts !! 0%nat)
  else
    let parts := Split containerName "-" in
    if (3 <=? Z.of_nat (length parts))
       && bool_decide (default EmptyString (parts !! 0%nat) ≠ EmptyString)
    then default EmptyString (parts !! 0%nat)
    else EmptyString.

Definition storedMappingsOf (pms : list PortMapping) : gmap string string :=
  fold_left
    (fun mappings pm =>
       <[portKey (ContainerPort pm) (Protocol pm) := HostPort pm]> mappings)
    pms ∅.

(** The compose project and service of a listed container: the labels,
    the alternative labels, then the container name. *)
Definition composeNames (dc : dockerContainer) : Go (string * string) :=
  let! composeProject :=
    extractLabel (dc_ID dc) "com.docker.compose.project" in
  let! composeService :=
    extractLabel (dc_ID dc) "com.docker.compose.service" in
  let! composeProject :=
    if bool_decide (composeProject = EmptyString) then
      let! p := firstLabel (dc_ID dc) alternativeProjectLabels
                           composeProject in
      if bool_decide (p = EmptyString)
      then ret (inferProject (dc_Names dc)) else ret p
    else ret composeProject in
  let! composeService :=
    if bool_decide (composeService = EmptyString)
       && bool_decide (composeProject ≠ EmptyString) then
      let! sv := firstLabel (dc_ID dc) alternativeServiceLabels
                            composeService in
      if bool_decide (sv = EmptyString) then
        let parts := Split (dc_Names dc) "_" in
        if 2 <=? Z.of_nat (length parts)
        then ret (default EmptyString (parts !! 1%nat)) else ret sv
      else ret sv
    else ret composeService in
  ret (composeProject, composeService).

(** What one listed container adds to the new maps. *)
Definition record (processedBefore : gmap string bool) (acc : Fresh)
    (container : Container) : Fresh :=
  {| newContainers := <[ID container := container]> (newContainers acc);
     newPortMappings :=
       match PortMappings container with
       | [] => newPortMappings acc
       | pms => <[ID container := storedMappingsOf pms]> (newPortMappings acc)
       end;
     newProcessedContainers :=
       match processedBefore !! ID container with
       | Some true => <[ID container := true]> (newProcessedContainers acc)
       | _ => newProcessedContainers acc
       end |}.

(** The body of the loop over the lines of [docker ps]. *)
Definition refreshLine
    (currentPortMappings : gmap string (gmap string string))
    (processedBefore : gmap string bool)
    (acc : Fresh) (line : option dockerContainer) : Go Fresh :=
  match line with
  | None => ret acc                       (* error parsing container JSON *)
  | Some dc =>
      let! chk := query (fun r => docker_inspect_format r "{{.ID}}" (dc_ID dc)) in
      match chk with
      | None => ret acc                   (* appears to no longer exist *)
      | Some _ =>
          let! names := composeNames dc in
          let! parsed :=
            parsePortsWithoutRemapping (dc_ID dc) (dc_Ports dc)
                                       currentPortMappings in
          ret (record processedBefore acc
                 {| ID := dc_ID dc; Image := dc_Image dc;
                    Command := dc_Command dc; Created := dc_RunningFor dc;
                    Status := dc_Status dc; Ports := dc_Ports dc;
                    Names := dc_Names dc;
                    ComposeProject := fst names;
                    ComposeService := snd names;
                    PortMappings := fst parsed;
                    DynamicPorts := snd parsed |})
      end
  end.

Definition swapIn (f : Fresh) (s : ContainerStore) : ContainerStore :=
  {| containers := newContainers f;
     portMappings := newPortMappings f;
     processedContainers := newProcessedContainers f;
     portRangeMin := portRangeMin s;
     portRangeMax := portRangeMax s |}.

(** [bufio.MaxScanTokenSize], the size the buffer of a [bufio.Scanner]
    grows to when [Buffer] is not called: a line is found when it fits
    the buffer together with its line end. *)
Definition MaxScanTokenSize : Z := 64 * 1024.

(** The lines [scanner.Scan] yields from the output, decoded: a line
    that does not fit the buffer ends the scan, so that line and all
    the lines after it are never seen ([scanner.Err] is only
    logged). *)
Fixpoint scanLines (output : list OutputLine)
  : list (option dockerContainer) :=
  match output with
  | [] => []
  | line :: rest =>
      if line_bytes line <? MaxScanTokenSize
      then line_json line :: scanLines rest
      else []
  end.

(** What the loop of [refreshContainers] reads: the output of
    [docker ps], if the command succeeded, through the scanner. *)
Definition docker_ps (r : R) : option (list (option dockerContainer)) :=
  option_map scanLines (docker_ps_output r).

Definition refreshContainers : Go error :=
  let! output := query docker_ps in
  match output with
  | None => ret (Some "error listing containers")
  | Some lines =>
      (* the copies taken under the read lock *)
      let! s := getStore in
      let currentPortMappings := portMappings s in
      let processedBefore := processedContainers s in
      let! fresh :=
        forEach (refreshLine currentPortMappings processedBefore)
                {| newContainers := ∅; newPortMappings := ∅;
                   newProcessedContainers := ∅ |} lines in
      (* the single exclusive section that applies the new maps *)
      run! locked (swapIn fresh) in
      ret None
  end.

(** *** Collision detection and allocation *)

(** Some binding of the container has this host port (and, with
    [Some protocol], this protocol). *)
Definition holdsPort (port : Z) (protocol : option string) (c : Container)
  : bool :=
  existsb
    (fun mapping =>
       (fst (Atoi (HostPort mapping)) =? port)
       && match protocol with
          | Some q => bool_decide (Protocol mapping = q)
          | None => true
          end)
    (PortMappings c).

(** The loop of [isPortUsedByOtherContainer] over [s.containers]. *)
Definition usedByOther (s : ContainerStore) (containerID : string) (port : Z)
    (protocol : string) : bool :=
  existsb
    (fun '(id, container) =>
       negb (bool_decide (id = containerID))
       && holdsPort port (Some protocol) container)
    (map_to_list (containers s)).

(** The loops of [isPortAvailable] and of [CheckComposePortConflicts]
    over [s.containers]. *)
Definition tracked (s : ContainerStore) (port : Z) (protocol : option string)
  : bool :=
  existsb (fun '(_, container) => holdsPort port protocol container)
          (map_to_list (containers s)).

(** [isPortUsedByOtherContainer] *)
Definition isPortUsedByOtherContainer (containerID : string) (port : Z)
    (protocol : string) : Go bool :=
  let! s := getStore in
  ret (usedByOther s containerID port protocol).

(** [isPortAvailable] *)
Definition isPortAvailable (port : Z) : Go bool :=
  let! s := getStore in
  if tracked s port None then ret false else Listen port.

(** [rand.Intn(s.portRangeMax-s.portRangeMin) + s.portRangeMin] *)
Definition drawPort : Go Z :=
  let! s := getStore in
  let! r := Intn (wrap64 (portRangeMax s - portRangeMin s)) in
  ret (wrap64 (r + portRangeMin s)).

(** The loop of [allocateRandomPort] with [n] attempts left, then the
    unchecked fallback draw. *)
Fixpoint allocateAttempts (n : nat) : Go Z :=
  match n with
  | O => drawPort
  | S k =>
      let! port := drawPort in
      let! free := isPortAvailable port in
      if free then ret port else allocateAttempts k
  end.

(** [allocateRandomPort] *)
Definition allocateRandomPort : Go Z := allocateAttempts 100.

(** [checkPortCollision] *)
Definition checkPortCollision (containerID hostPort protocol : string)
  : Go (bool * string) :=
  let '(portInt, ok) := Atoi hostPort in
  if negb ok then ret (false, hostPort)
  else
    let! s := getStore in
    if (portRangeMin s <=? portInt) && (portInt <=? portRangeMax s) then
      let! used := isPortUsedByOtherContainer containerID portInt protocol in
      if used then
        let! newPort := allocateRandomPort in
        ret (true, Itoa newPort)
      else ret (false, hostPort)
    else
      let! newPort := allocateRandomPort in
      ret (true, Itoa newPort).

(** *** [remapContainerPort] *)

(** An unchecked type assertion [v.(T)], or an index expression. *)
Definition must {A} (o : option A) (msg : string) : Go A :=
  match o with
  | Some a => ret a
  | None => panic msg
  end.

Definition conversion : string := "interface conversion".
Definition outOfRange : string := "index out of range".

Fixpoint mapM {A B} (f : A -> Go B) (l : list A) : Go (list B) :=
  match l with
  | [] => ret []
  | x :: l' =>
      let! y := f x in
      let! ys := mapM f l' in
      ret (y :: ys)
  end.

(** [map[string][]map[string]string]: per container port, the
    [(HostIp, HostPort)] pairs. *)
Abbreviation Bindings := (list (string * list (string * string))).

Definition readBinding (b : GoValue) : Go (string * string) :=
  let! binding := must (Dyn.asMap b) conversion in
  let! hostIP :=
    match Dyn.lookup binding "HostIp" with
    | Some ip => must (Dyn.asString ip) conversion
    | None => ret EmptyString
    end in
  let! hostPort :=
    match Dyn.lookup binding "HostPort" with
    | Some hp => must (Dyn.asString hp) conversion
    | None => ret EmptyString
    end in
  ret (hostIP, hostPort).

(** The existing port bindings, without the one being remapped. *)
Definition keptBindings (hostConfig : GoObject) (portToRemap : string)
  : Go Bindings :=
  match Dyn.asMap (Dyn.index hostConfig "PortBindings") with
  | Some pb =>
      forEach
        (fun (acc : Bindings) (entry : string * GoValue) =>
           let '(port, bindings) := entry in
           if bool_decide (port = portToRemap) then ret acc
           else
             let! bindingsArray := must (Dyn.asSlice bindings) conversion in
             let! bs := mapM readBinding bindingsArray in
             ret (Dyn.assign acc port bs))
        [] pb
  | None => ret []
  end.

Definition volumeArgsOf (containerInfo : GoObject) : Go (list string) :=
  match Dyn.asSlice (Dyn.index containerInfo "Mounts") with
  | Some mounts =>
      forEach
        (fun (acc : list string) m =>
           let! mount := must (Dyn.asMap m) conversion in
           let! src := must (Dyn.asString (Dyn.index mount "Source")) conversion in
           let! dst :=
             must (Dyn.asString (Dyn.index mount "Destination")) conversion in
           ret (acc ++ ["-v"; src +:+ ":" +:+ dst]))
        [] mounts
  | None => ret []
  end.

Definition restartPolicyOf (hostConfig : GoObject) : string :=
  match Dyn.asMap (Dyn.index hostConfig "RestartPolicy") with
  | Some policy =>
      match Dyn.asString (Dyn.index policy "Name") with
      | Some name =>
          if bool_decide (name ≠ EmptyString) then
            if bool_decide (name = "on-failure") then
              match Dyn.asFloat (Dyn.index policy "MaximumRetryCount") with
              | Some maxRetry => name +:+ ":" +:+ Itoa maxRetry
              | None => name
              end
            else name
          else EmptyString
      | None => EmptyString
      end
  | None => EmptyString
  end.

Definition publishArgs (portBindings : Bindings) : list string :=
  flat_map
    (fun '(port, bindings) =>
       flat_map
         (fun '(hostIP, hostPort) =>
            if bool_decide (hostIP ≠ EmptyString)
               && bool_decide (hostIP ≠ "0.0.0.0")
            then ["-p"; hostIP +:+ ":" +:+ hostPort +:+ ":" +:+ port]
            else ["-p"; hostPort +:+ ":" +:+ port])
         bindings)
    portBindings.

(** Everything the function reads from the inspection data before it
    touches the container: the arguments of the later [docker run]
    after ["run"; "-d"]. *)
Definition collectRunArgs (containerID newHostPort containerPort protocol : string)
    (containerInfo : GoObject) : Go (list string) :=
  let! containerName :=
    must (Dyn.asString (Dyn.index containerInfo "Name")) conversion in
  let! containerName :=
    match containerName with
    | EmptyString => panic outOfRange
    | String c rest =>
        ret (if bool_decide (c = "/"%char) then rest else containerName)
    end in
  let! composeProject := extractLabel containerID "com.docker.compose.project" in
  let! config := must (Dyn.asMap (Dyn.index containerInfo "Config")) conversion in
  let! image := must (Dyn.asString (Dyn.index config "Image")) conversion in
  let! hostConfig :=
    must (Dyn.asMap (Dyn.index containerInfo "HostConfig")) conversion in
  let! networkMode :=
    must (Dyn.asString (Dyn.index hostConfig "NetworkMode")) conversion in
  let! env := must (Dyn.asSlice (Dyn.index config "Env")) conversion in
  let! envVars := mapM (fun e => must (Dyn.asString e) conversion) env in
  let! volumeArgs := volumeArgsOf containerInfo in
  let portToRemap := portKey containerPort protocol in
  let! kept := keptBindings hostConfig portToRemap in
  let portBindings :=
    Dyn.assign kept portToRemap [(EmptyString, newHostPort)] in
  let restartPolicy := restartPolicyOf hostConfig in
  let! labels := must (Dyn.asMap (Dyn.index config "Labels")) conversion in
  let labels := Dyn.assign labels sentinelLabel (GString "true") in
  let! labelArgs :=
    forEach
      (fun (acc : list string) (kv : string * GoValue) =>
         let! v := must (Dyn.asString (snd kv)) conversion in
         ret (acc ++ ["--label"; fst kv +:+ "=" +:+ v]))
      [] labels in
  ret (["--name"; containerName]
       ++ (if bool_decide (networkMode ≠ EmptyString)
              && bool_decide (networkMode ≠ "default")
           then ["--network"; networkMode] else [])
       ++ (if bool_decide (restartPolicy ≠ EmptyString)
           then ["--restart"; restartPolicy] else [])
       ++ volumeArgs
       ++ publishArgs portBindings
       ++ flat_map (fun e => ["-e"; e]) envVars
       ++ labelArgs
       ++ [image]).

(** Steps 3 to 7 of [remapContainerPort]: stop (or kill), remove,
    run the replacement and mark its id. *)
Definition replaceContainer (containerID : string) (runArgs : list string)
  : Go error :=
  let! '(stopped, _) := docker ["stop"; "--time"; "10"; containerID] in
  let! down :=
    if stopped then ret true
    else let! '(killed, _) := docker ["kill"; containerID] in ret killed in
  if negb down then ret (Some "failed to stop/kill container")
  else
    let! '(removed, _) := docker ["rm"; containerID] in
    if negb removed then ret (Some "failed to remove container")
    else
      let! '(created, createOutput) := docker ("run" :: "-d" :: runArgs) in
      if negb created
      then ret (Some "failed to create new container with remapped port")
      else
        let newContainerID := TrimSpace createOutput in
        (* mark the new container as processed right away *)
        run! locked (setProcessed newContainerID) in
        ret None.

Definition remapContainerPort
    (containerID oldHostPort newHostPort containerPort protocol : string)
  : Go error :=
  (* mark this container as processed before we do anything *)
  run! addDynamicPortLabel containerID in
  let! inspected := query (fun r => docker_inspect r containerID) in
  match inspected with
  | CmdFailed => ret (Some "failed to inspect container")
  | Malformed => ret (Some "failed to parse container inspection data")
  | Parsed [] => ret (Some "no inspection data found for container")
  | Parsed (containerInfo :: _) =>
      let! runArgs :=
        collectRunArgs containerID newHostPort containerPort protocol
                       containerInfo in
      replaceContainer containerID runArgs
  end.

(** *** [parsePortMappings]

    The variant of [parsePortsWithoutRemapping] that relocates while it
    parses; nothing in the repository calls it. *)

(** The body of its last loop, for one match: a relocation where
    [checkPortCollision] asks for one; a failed remap drops the match
    and the loop goes on. *)
Definition parseAndRemap (containerID : string)
    (acc : list PortMapping * bool) (m : Submatch)
  : Go (list PortMapping * bool) :=
  let '(mappings, dynamicPorts) := acc in
  let hostPort := m_host m in
  let containerPort := m_cport m in
  let protocol := m_proto m in
  let originalPort := hostPort in
  let! '(needsRemap, newPort) :=
    checkPortCollision containerID hostPort protocol in
  if needsRemap then
    (* remember that we changed this port from its original value *)
    let! err := remapContainerPort containerID hostPort newPort
                                   containerPort protocol in
    match err with
    | Some _ => ret (mappings, true)
    | None =>
        ret (mappings ++ [{| ContainerPort := containerPort;
                             HostPort := newPort;
                             Protocol := protocol;
                             OriginalPort := originalPort |}], true)
    end
  else
    ret (mappings ++ [{| ContainerPort := containerPort;
                         HostPort := hostPort;
                         Protocol := protocol;
                         OriginalPort := originalPort |}], dynamicPorts).

Definition parsePortMappings (containerID portsStr : string)
    (existingMappings : gmap string (gmap string string))
  : Go (list PortMapping * bool) :=
  match existingMappings !! containerID with
  | Some mappings => ret (restorePortMappings portsStr mappings)
  | None =>
      let! processed := isContainerProcessed containerID in
      let matches := FindAllStringSubmatch portsStr in
      if processed then ret (map observed matches, true)
      else
        let! s := getStore in
        let allPortsInDynamicRange :=
          forallb (fun m => inDynamicRange s (m_host m)) matches in
        if allPortsInDynamicRange && (0 <? Z.of_nat (length matches)) then
          run! addDynamicPortLabel containerID in
          ret (map observed matches, true)
        else
          let! '(mappings, dynamicPorts) :=
            forEach (parseAndRemap containerID) (@nil PortMapping, false)
                    matches in
          run! (if dynamicPorts then addDynamicPortLabel containerID
                else ret tt) in
          ret (mappings, dynamicPorts)
  end.

(** *** [handleContainerStart] *)

(** What the loops of [handleContainerStart] see in one entry of
    [PortBindings]: they look at the first binding only. *)
Inductive FirstBinding :=
| NoHostPort                   (* not an array, empty, or no host port *)
| NotAMap                      (* bindingsArray[0].(map[string]interface{}) fails *)
| HostPortOf (hostPort : string).

Definition firstBinding (bindings : GoValue) : FirstBinding :=
  match Dyn.asSlice bindings with
  | None | Some [] => NoHostPort
  | Some (b0 :: _) =>
      match Dyn.asMap b0 with
      | None => NotAMap
      | Some binding =>
          match Dyn.asString (Dyn.index binding "HostPort") with
          | None => NoHostPort
          | Some hostPort =>
              if bool_decide (hostPort = EmptyString) then NoHostPort
              else HostPortOf hostPort
          end
      end
  end.

Definition firstHostPort (bindings : GoValue) : Go (option string) :=
  match firstBinding bindings with
  | NoHostPort => ret None
  | NotAMap => panic conversion
  | HostPortOf hostPort => ret (Some hostPort)
  end.

(** The loop that decides [allInDynamicRange]; it stops at the first
    host port outside the range. *)
Fixpoint allInDynamicRange (s : ContainerStore) (portBindings : GoObject)
  : Go bool :=
  match portBindings with
  | [] => ret true
  | (_, bindings) :: rest =>
      let! hp := firstHostPort bindings in
      match hp with
      | None => allInDynamicRange s rest
      | Some hostPort =>
          if inDynamicRange s hostPort then allInDynamicRange s rest
          else ret false
      end
  end.

(** The body of the loop that fills [portsToRemap]: container port and
    protocol to new host port. *)
Definition scheduleEntry (containerID : string)
    (portsToRemap : list (string * string)) (entry : string * GoValue)
  : Go (list (string * string)) :=
  let '(containerPortProto, bindings) := entry in
  let! hp := firstHostPort bindings in
  match hp with
  | None => ret portsToRemap
  | Some hostPort =>
      match Split containerPortProto "/" with
      | [_; protocol] =>
          let! '(needsRemap, newPort) :=
            checkPortCollision containerID hostPort protocol in
          if needsRemap
          then ret (Dyn.assign portsToRemap containerPortProto newPort)
          else ret portsToRemap
      | _ => ret portsToRemap
      end
  end.

Definition scheduleRemaps (containerID : string) (portBindings : GoObject)
  : Go (list (string * string)) :=
  forEach (scheduleEntry containerID) [] portBindings.

(** The body of the loop that calls [remapContainerPort] for every
    scheduled port; a failed remap is logged and the loop goes on. *)
Definition remapEntry (containerID : string) (portBindings : GoObject)
    (_ : unit) (entry : string * string) : Go unit :=
  let '(containerPortProto, newHostPort) := entry in
  let parts := Split containerPortProto "/" in
  let! containerPort := must (parts !! 0%nat) outOfRange in
  let! protocol := must (parts !! 1%nat) outOfRange in
  let! bindings :=
    must (Dyn.asSlice (Dyn.index portBindings containerPortProto))
         conversion in
  let! b0 := must (bindings !! 0%nat) outOfRange in
  let! binding := must (Dyn.asMap b0) conversion in
  let! oldHostPort :=
    must (Dyn.asString (Dyn.index binding "HostPort")) conversion in
  run! remapContainerPort containerID oldHostPort newHostPort
                          containerPort protocol in
  ret tt.

Definition remapScheduled (containerID : string) (portBindings : GoObject)
    (portsToRemap : list (string * string)) : Go unit :=
  forEach (remapEntry containerID portBindings) tt portsToRemap.

Definition handleContainerStart (orders : LoopOrders) (containerID : string)
  : Go unit :=
  let! composeProject := extractLabel containerID "com.docker.compose.project" in
  let! processed := isContainerProcessed containerID in
  if processed then
    run! refreshContainers in ret tt
  else
    let! output := query (fun r => docker_inspect_json r containerID) in
    match output with
    | CmdFailed | Malformed => ret tt
    | Parsed containerData =>
        match Dyn.asMap (Dyn.index containerData "HostConfig") with
        | None => ret tt
        | Some hostConfig =>
            match Dyn.asMap (Dyn.index hostConfig "PortBindings") with
            | None | Some [] => ret tt      (* no port bindings to manage *)
            | Some portBindings =>
                let! s := getStore in
                let! allIn :=
                  allInDynamicRange s
                    (visitBy (rangeLoop orders) portBindings) in
                if allIn then
                  run! addDynamicPortLabel containerID in
                  run! refreshContainers in ret tt
                else
                  let! portsToRemap :=
                    scheduleRemaps containerID
                      (visitBy (conflictLoop orders) portBindings) in
                  run! match portsToRemap with
                       | [] => addDynamicPortLabel containerID
                       | _ => remapScheduled containerID portBindings
                                (visitBy (remapLoop orders) portsToRemap)
                       end in
                  run! refreshContainers in ret tt
            end
        end
    end.

(** *** [handleContainerStop] *)

Definition forget (id : string) (s : ContainerStore) : ContainerStore :=
  {| containers := delete id (containers s);
     portMappings := delete id (portMappings s);
     processedContainers := delete id (processedContainers s);
     portRangeMin := portRangeMin s;
     portRangeMax := portRangeMax s |}.

Definition handleContainerStop (containerID : string) : Go unit :=
  let! containerExists :=
    query (fun r => docker_inspect_format r "{{.ID}}" containerID) in
  run! locked (forget containerID) in
  run! refreshContainers in
  ret tt.

(** The [switch] of [processEvents] for one decoded event; the workers
    it starts are run to completion one after the other. *)
Definition dispatch (orders : LoopOrders) (event : DockerEvent) : Go unit :=
  if bool_decide (ev_Type event ≠ "container") then ret tt
  else if bool_decide (ev_Status event = "start")
  then handleContainerStart orders (ev_ID event)
  else if bool_decide (ev_Status event ∈ ["die"; "stop"; "kill"; "destroy"; "remove"])
  then handleContainerStop (ev_ID event)
  else if bool_decide (ev_Status event ∈ ["exec_create"; "exec_start"; "exec_die"])
  then ret tt
  else run! refreshContainers in ret tt.

(** *** The compose pre-planner *)

(** Host port, container port and protocol of one entry of a [ports]
    list; empty strings where the entry gives none. *)
Definition parseComposePort (portMapping : GoValue) : string * string * string :=
  match portMapping with
  | GString pm =>
      match Split pm ":" with
      | [hostPort; rest] =>
          let containerPortProto := Split rest "/" in
          (hostPort,
           default EmptyString (containerPortProto !! 0%nat),
           match containerPortProto with
           | _ :: protocol :: _ => protocol
           | _ => "tcp"
           end)
      | _ => (EmptyString, EmptyString, EmptyString)
      end
  | GMap pm =>
      (match Dyn.asString (Dyn.index pm "published") with
       | Some published => published
       | None =>
           match Dyn.asInt (Dyn.index pm "published") with
           | Some published => Itoa published
           | None => EmptyString
           end
       end,
       match Dyn.asString (Dyn.index pm "target") with
       | Some target => target
       | None =>
           match Dyn.asInt (Dyn.index pm "target") with
           | Some target => Itoa target
           | None => EmptyString
           end
       end,
       match Dyn.asString (Dyn.index pm "protocol") with
       | Some proto => proto
       | None => "tcp"
       end)
  | _ => (EmptyString, EmptyString, EmptyString)
  end.

(** The body of the loop over the [ports] of one service. *)
Definition checkComposePort (serviceName : string)
    (portRemappings : list (string * string)) (portMapping : GoValue)
  : Go (list (string * string)) :=
  let '(hostPort, containerPort, protocol) := parseComposePort portMapping in
  if bool_decide (hostPort = EmptyString)
     || bool_decide (containerPort = EmptyString)
  then ret portRemappings
  else
    let '(portInt, ok) := Atoi hostPort in
    if negb ok then ret portRemappings
    else
      let! s := getStore in
      let! inUse :=
        if tracked s portInt (Some protocol) then ret true
        else let! free := isPortAvailable portInt in ret (negb free) in
      if inUse then
        let! newPort := allocateRandomPort in
        ret (Dyn.assign portRemappings (serviceName +:+ ":" +:+ hostPort)
                        (Itoa newPort))
      else ret portRemappings.

(** [CheckComposePortConflicts]: the remappings ["service:port"] to new
    port, and the error. *)
Definition CheckComposePortConflicts (composeFile : string)
  : Go (list (string * string) * error) :=
  let! output := query (fun r => compose_config r composeFile) in
  match output with
  | CmdFailed => ret ([], Some "failed to parse compose file")
  | Malformed => ret ([], Some "failed to parse compose config")
  | Parsed composeConfig =>
      match Dyn.asMap (Dyn.index composeConfig "services") with
      | None => ret ([], Some "invalid compose file format: no services defined")
      | Some services =>
          let! portRemappings :=
            forEach
              (fun (acc : list (string * string)) (svc : string * GoValue) =>
                 let '(serviceName, serviceConfig) := svc in
                 match Dyn.asMap serviceConfig with
                 | None => ret acc
                 | Some serviceMap =>
                     match Dyn.asSlice (Dyn.index serviceMap "ports") with
                     | None => ret acc
                     | Some ports =>
                         forEach (checkComposePort serviceName) acc ports
                     end
                 end)
              [] services in
          ret (portRemappings, None)
      end
  end.

(** One entry of a [ports] list after the remapping of [oldPort]. *)
Definition rewritePort (oldPort newPort : string) (portMapping : GoValue)
  : GoValue :=
  match portMapping with
  | GString pm =>
      if HasPrefix pm (oldPort +:+ ":") then
        match Split pm ":" with
        | [_; rest] => GString (newPort +:+ ":" +:+ rest)
        | _ => portMapping
        end
      else portMapping
  | GMap pm =>
      let pm1 :=
        match Dyn.asString (Dyn.index pm "published") with
        | Some publishedStr =>
            if bool_decide (publishedStr = oldPort)
            then Dyn.assign pm "published" (GString newPort) else pm
        | None => pm
        end in
      let pm2 :=
        match Dyn.asInt (Dyn.index pm1 "published") with
        | Some publishedInt =>
            if bool_decide (Itoa publishedInt = oldPort)
            then Dyn.assign pm1 "published" (GInt (fst (Atoi newPort)))
            else pm1
        | None => pm1
        end in
      GMap pm2
  | _ => portMapping
  end.

(** The body of the loop over the remappings. *)
Definition applyRemapping (services : GoObject) (remapping : string * string)
  : GoObject :=
  let '(servicePortKey, newPort) := remapping in
  match Split servicePortKey ":" with
  | [serviceName; oldPort] =>
      match Dyn.asMap (Dyn.index services serviceName) with
      | None => services
      | Some serviceConfig =>
          match Dyn.asSlice (Dyn.index serviceConfig "ports") with
          | None => services
          | Some ports =>
              let ports := map (rewritePort oldPort newPort) ports in
              Dyn.assign services serviceName
                (GMap (Dyn.assign serviceConfig "ports" (GSlice ports)))
          end
      end
  | _ => services
  end.

(** Writing the new descriptor to a temporary file. *)
Definition writeTemp (composeConfig : GoObject) : Go (option string) :=
  fun w =>
    let '(r, name) := write_temp_compose (runtime w) composeConfig in
    Done name {| store := store w; runtime := r;
                 rand_src := rand_src w; rand_pos := rand_pos w;
                 listen_ok := listen_ok w; invocations := invocations w;
                 snapshots := snapshots w |}.

(** [GenerateRemappedComposeFile]: the descriptor it emits is returned
    with the file name. *)
Definition GenerateRemappedComposeFile (originalFile : string)
    (remappings : list (string * string))
  : Go (string * option GoObject * error) :=
  let! origContent := query (fun r => read_compose_file r originalFile) in
  match origContent with
  | CmdFailed => ret (EmptyString, None, Some "failed to read compose file")
  | Malformed => ret (EmptyString, None, Some "failed to parse compose file")
  | Parsed composeConfig =>
      match Dyn.asMap (Dyn.index composeConfig "services") with
      | None =>
          ret (EmptyString, None,
               Some "invalid compose file format: no services defined")
      | Some services =>
          let services := fold_left applyRemapping remappings services in
          let composeConfig :=
            Dyn.assign composeConfig "services" (GMap services) in
          let! tmp := writeTemp composeConfig in
          match tmp with
          | None =>
              ret (EmptyString, None, Some "failed to write updated compose file")
          | Some name => ret (name, Some composeConfig, None)
          end
      end
  end.

(** *** Start-up ([NewContainerStore] and the flags of [main]) *)

Definition emptyStore : ContainerStore :=
  {| containers := ∅; portMappings := ∅; processedContainers := ∅;
     portRangeMin := 10000; portRangeMax := 65000 |}.

(** [containerStore.portRangeMin = *minPort] and the same for the
    maximum: whatever the flags hold, unchecked. *)
Definition setPortRange (minPort maxPort : Z) (s : ContainerStore)
  : ContainerStore :=
  {| containers := containers s;
     portMappings := portMappings s;
     processedContainers := processedContainers s;
     portRangeMin := minPort;
     portRangeMax := maxPort |}.

End Engine.

Arguments Done {R A} a w.
Arguments Panicked {R A} msg w.

(** ** The views the web page reads *)

(** Go visits the entries of a map in an order it does not specify,
    and which may differ from one [range] loop to the next: an order
    in which a loop may visit [s.containers] is any list of the
    entries of the map, each once. *)
Definition visits (s : ContainerStore) (order : list (string * Container))
  : Prop :=
  order ≡ₚ map_to_list (containers s).

(** [GetContainers], for the order in which its loop visits the map. *)
Definition GetContainers (order : list (string * Container))
  : list Container :=
  map snd order.

(** First pass of [GetContainersByComposeProject]: the containers that
    carry a project. *)
Definition declaredProjects (cs : list (string * Container))
  : gmap string string :=
  fold_left
    (fun (projectsByID : gmap string string) (entry : string * Container) =>
       let '(id, container) := entry in
       if bool_decide (ComposeProject container ≠ EmptyString)
          && bool_decide (ComposeProject container ≠ "<no value>")
       then <[id := ComposeProject container]> projectsByID
       else projectsByID)
    cs ∅.

(** Second pass: a project read off the name [project_service_1] for the
    containers that have none yet. *)
Definition inferredProjects (cs : list (string * Container))
    (projectsByID : gmap string string) : gmap string string :=
  fold_left
    (fun (projectsByID : gmap string string) (entry : string * Container) =>
       let '(id, container) := entry in
       match projectsByID !! id with
       | Some _ => projectsByID
       | None =>
           let name := TrimPrefix (Names container) "/" in
           let parts := Split name "_" in
           if 2 <=? Z.of_nat (length parts) then
             let projectName := default EmptyString (parts !! 0%nat) in
             if bool_decide (projectName ≠ EmptyString)
             then <[id := projectName]> projectsByID
             else projectsByID
           else projectsByID
       end)
    cs projectsByID.

(** [GetContainersByComposeProject], for the orders in which its three
    loops visit the map; the third pass appends every container to the
    slice of its project, ["standalone"] when it has none. *)
Definition GetContainersByComposeProject
    (first second third : list (string * Container))
  : gmap string (list Container) :=
  let projectsByID := inferredProjects second (declaredProjects first) in
  fold_left
    (fun (projects : gmap string (list Container))
         (entry : string * Container) =>
       let '(id, container) := entry in
       let projectName := default "standalone" (projectsByID !! id) in
       <[projectName := default [] (projects !! projectName) ++ [container]]>
         projects)
    third ∅.

(** ** The compose command ([main.go]) *)

(** The host beside the docker CLI: running [docker-compose] with the
    given arguments (whether [cmd.Run] returned [nil]) and removing a
    file. *)
Class Host (R : Type) := {
  compose_run : R -> list string -> R * bool;
  remove_file : R -> string -> R
}.

Section Compose.

Context {R : Type} `{!Runtime R} `{!Host R}.

#[local] Notation "'let!' x ':=' m 'in' k" := (bind m (fun x => k))
  (at level 10, x name, m at level 100, k at level 200, right associativity).
#[local] Notation "'let!' ' p ':=' m 'in' k" :=
  (bind m (fun x => match x with p => k end))
  (at level 10, p pattern, m at level 100, k at level 200,
   right associativity).
#[local] Notation "'run!' m 'in' k" := (bind m (fun _ => k))
  (at level 10, m at level 100, k at level 200, right associativity).

(** [exec.Command("docker-compose", args...).Run()]; the error, if
    any. *)
Definition dockerCompose (args : list string) : Go error :=
  fun w =>
    let '(r, ok) := compose_run (runtime w) args in
    Done (if ok then None else Some "exit status")
         {| store := store w; runtime := r;
            rand_src := rand_src w; rand_pos := rand_pos w;
            listen_ok := listen_ok w; invocations := invocations w;
            snapshots := snapshots w |}.

(** [os.Remove(name)], its error ignored. *)
Definition osRemove (name : string) : Go unit :=
  fun w =>
    Done tt
         {| store := store w; runtime := remove_file (runtime w) name;
            rand_src := rand_src w; rand_pos := rand_pos w;
            listen_ok := listen_ok w; invocations := invocations w;
            snapshots := snapshots w |}.

(** [runComposeCommand] *)
Definition runComposeCommand (composeFile : string) (args : list string)
  : Go error :=
  let! '(remappings, err) := CheckComposePortConflicts composeFile in
  match err with
  | Some _ => ret (Some "failed to check for port conflicts")
  | None =>
      match remappings with
      | [] => dockerCompose ("-f" :: composeFile :: args)
      | _ =>
          let! '(remappedFile, _, err) :=
            GenerateRemappedComposeFile composeFile remappings in
          match err with
          | Some _ => ret (Some "failed to generate remapped compose file")
          | None =>
              let! result := dockerCompose ("-f" :: remappedFile :: args) in
              (* the deferred removal of the temporary file *)
              run! osRemove remappedFile in
              ret result
          end
      end
  end.

End Compose.

(** ** Vocabulary of the statements *)

Section Vocabulary.

Context {R : Type} `{!Runtime R}.

(** The argument of [rand.Intn] in [allocateRandomPort]. *)
Definition rangeWidth (s : ContainerStore) : Z :=
  wrap64 (portRangeMax s - portRangeMin s).

(** The port the [i]-th coming draw yields. *)
Definition nthDraw (w : @World R) (i : nat) : Z :=
  wrap64 (rand_src w (rand_pos w + i)%nat mod rangeWidth (store w)
          + portRangeMin (store w)).

(** What [isPortAvailable] answers. *)
Definition available (w : @World R) (port : Z) : bool :=
  negb (tracked (store w) port None) && listen_ok w port.

(** A [docker run] that succeeded. *)
Definition isRun (i : Invocation) : bool :=
  match inv_args i with
  | verb :: _ => bool_decide (verb = "run") && inv_ok i
  | [] => false
  end.

(** The ids of the containers created so far, newest first. *)
Definition created (log : list Invocation) : list string :=
  map (fun i => TrimSpace (inv_out i)) (filter (fun i => isRun i = true) log).

(** The world a call leaves behind, however it ended. *)
Definition afterwards {A} (o : @Outcome R A) : @World R :=
  match o with
  | Done _ w => w
  | Panicked _ w => w
  end.

(** A call that changes nothing, whether it returns or panics. *)
Definition readOnly {A} (m : Go A) : Prop :=
  forall w : @World R, afterwards (m w) = w.

(** The world after [k] more draws from the random source. *)
Definition drawn (k : nat) (w : @World R) : @World R :=
  {| store := store w; runtime := runtime w; rand_src := rand_src w;
     rand_pos := (rand_pos w + k)%nat; listen_ok := listen_ok w;
     invocations := invocations w; snapshots := snapshots w |}.

(** The same process facing a runtime that has moved on to [r]. *)
Definition facing (r : R) (w : @World R) : @World R :=
  {| store := store w; runtime := r; rand_src := rand_src w;
     rand_pos := rand_pos w; listen_ok := listen_ok w;
     invocations := invocations w; snapshots := snapshots w |}.

(** The bindings a refresh records for a listed container, given the
    port mappings stored before the refresh. *)
Definition bindingsOf (stored : gmap string (gmap string string))
    (containerID portsStr : string) : list PortMapping :=
  match stored !! containerID with
  | Some mappings => fst (restorePortMappings portsStr mappings)
  | None => map observed (FindAllStringSubmatch portsStr)
  end.

(** An attempt to write the sentinel label on a container. *)
Definition labelAttempt (i : Invocation) : Prop :=
  exists rest, inv_args i = "container" :: rest.

(** Since [w], the runtime was only asked to write labels: nothing was
    stopped, killed, removed or created. *)
Definition onlyLabelAttempts (w w' : @World R) : Prop :=
  exists new, invocations w' = new ++ invocations w
              /\ Forall labelAttempt new.

(** [w'] is [w] after steps that may mark containers as processed, try
    to write the sentinel label and read the runtime, and nothing else:
    the containers, the port mappings, the range and the random source
    are those of [w], and every store state in between had the
    containers and port mappings of [w]. *)
Record marksOnly (w w' : @World R) : Prop := {
  mo_containers : containers (store w') = containers (store w);
  mo_portMappings : portMappings (store w') = portMappings (store w);
  mo_min : portRangeMin (store w') = portRangeMin (store w);
  mo_max : portRangeMax (store w') = portRangeMax (store w);
  mo_processed :
    forall id, processedContainers (store w) !! id = Some true ->
               processedContainers (store w') !! id = Some true;
  mo_rand_src : rand_src w' = rand_src w;
  mo_rand_pos : rand_pos w' = rand_pos w;
  mo_listen : listen_ok w' = listen_ok w;
  mo_snapshots :
    exists mid, snapshots w' = mid ++ snapshots w
      /\ Forall (fun s => containers s = containers (store w)
                          /\ portMappings s = portMappings (store w)
                          /\ forall id,
                               processedContainers (store w) !! id = Some true ->
                               processedContainers s !! id = Some true) mid;
  mo_invocations : onlyLabelAttempts w w'
}.

(** From [w] to [w'] no processed mark was lost, and every container
    created in between is marked as processed in [w']. *)
Record grows (w w' : @World R) : Prop := {
  gr_processed :
    forall id, processedContainers (store w) !! id = Some true ->
               processedContainers (store w') !! id = Some true;
  gr_created :
    exists new, invocations w' = new ++ invocations w
      /\ forall id, In id (created new) ->
                    processedContainers (store w') !! id = Some true
}.

(** The new processed set covers every listed container that was
    processed before the refresh. *)
Definition covers (processedBefore : gmap string bool) (f : Fresh) : Prop :=
  forall id, is_Some (newContainers f !! id) ->
             processedBefore !! id = Some true ->
             newProcessedContainers f !! id = Some true.

(** The listing has an entry for this container. *)
Definition listedIn (lines : list (option dockerContainer)) (dc : dockerContainer)
  : Prop := In (Some dc) lines.

(** The runtime still lists a container with this id. *)
Definition stillListed (r : R) (id : string) : Prop :=
  exists lines dc,
    docker_ps r = Some lines /\ listedIn lines dc /\ dc_ID dc = id.

(** The mapping [restorePortMappings] records for a match: the listed
    host port as original, the stored port for the key, if any, as
    current. *)
Definition restored (storedMappings : gmap string string) (m : Submatch)
  : PortMapping :=
  {| ContainerPort := m_cport m;
     HostPort :=
       default (m_host m) (storedMappings !! portKey (m_cport m) (m_proto m));
     Protocol := m_proto m;
     OriginalPort := m_host m |}.

(** Every entry of [PortBindings] starts, if it has bindings at all,
    with a binding that is a map. *)
Definition wellFormedBindings (portBindings : GoObject) : Prop :=
  forall key bindings,
    In (key, bindings) portBindings -> firstBinding bindings <> NotAMap.

(** The bound host ports a start event looks at all lie in the range. *)
Definition allBoundInRange (s : ContainerStore) (portBindings : GoObject)
  : Prop :=
  forall key bindings hostPort,
    In (key, bindings) portBindings ->
    firstBinding bindings = HostPortOf hostPort ->
    inDynamicRange s hostPort = true.

(** A binding of the container port [key] on the host port
    [hostPort]: an element of the array under [key] that names a host
    port. *)
Definition boundOn (portBindings : GoObject) (key hostPort : string) : Prop :=
  exists bindings l b binding,
    In (key, bindings) portBindings
    /\ Dyn.asSlice bindings = Some l /\ In b l
    /\ Dyn.asMap b = Some binding
    /\ Dyn.asString (Dyn.index binding "HostPort") = Some hostPort
    /\ hostPort <> EmptyString.

(** Port bindings as the runtime emits them when no container port is
    bound twice: under every key [null], an empty array, or an array
    of one binding. *)
Definition boundOnce (portBindings : GoObject) : Prop :=
  forall key bindings,
    In (key, bindings) portBindings ->
    bindings = GNil \/ bindings = GSlice []
    \/ exists binding, bindings = GSlice [GMap binding].

(** Every bound host port lies in the range. *)
Definition everyBoundInRange (s : ContainerStore) (portBindings : GoObject)
  : Prop :=
  forall key hostPort,
    boundOn portBindings key hostPort -> inDynamicRange s hostPort = true.

(** The relocation rule in the words of the specification: a binding on
    host port [p] with protocol [q] of container [id] is relocated iff
    [p] is in the range and another tracked container holds [(p, q)],
    or [p] is outside the range. *)
Definition mustRelocate (s : ContainerStore) (id : string) (p : Z)
    (q : string) : Prop :=
  (portRangeMin s <= p <= portRangeMax s /\ usedByOther s id p q = true)
  \/ ~ (portRangeMin s <= p <= portRangeMax s).

(** The entry [key] of [PortBindings] is one the relocation rule
    selects. *)
Definition selected (s : ContainerStore) (id : string)
    (portBindings : GoObject) (key : string) : Prop :=
  exists bindings hostPort containerPort q p,
    In (key, bindings) portBindings
    /\ firstBinding bindings = HostPortOf hostPort
    /\ Split key "/" = [containerPort; q]
    /\ Atoi hostPort = (p, true)
    /\ mustRelocate s id p q.

(** The container port [key] has a binding the relocation rule
    selects. *)
Definition relocates (s : ContainerStore) (id : string)
    (portBindings : GoObject) (key : string) : Prop :=
  exists hostPort containerPort q p,
    boundOn portBindings key hostPort
    /\ Split key "/" = [containerPort; q]
    /\ Atoi hostPort = (p, true)
    /\ mustRelocate s id p q.

(** The inspection data lacks a field [remapContainerPort] asserts the
    type of, or has a label whose value is not a string. *)
Definition unexpectedInspect (containerInfo : GoObject) : Prop :=
  Dyn.asString (Dyn.index containerInfo "Name") = None
  \/ Dyn.asMap (Dyn.index containerInfo "Config") = None
  \/ Dyn.asMap (Dyn.index containerInfo "HostConfig") = None
  \/ (exists config,
        Dyn.asMap (Dyn.index containerInfo "Config") = Some config
        /\ (Dyn.asString (Dyn.index config "Image") = None
            \/ Dyn.asSlice (Dyn.index config "Env") = None
            \/ Dyn.asMap (Dyn.index config "Labels") = None
            \/ exists labels k v,
                 Dyn.asMap (Dyn.index config "Labels") = Some labels
                 /\ In (k, v) labels /\ k <> sentinelLabel
                 /\ Dyn.asString v = None))
  \/ (exists hostConfig,
        Dyn.asMap (Dyn.index containerInfo "HostConfig") = Some hostConfig
        /\ Dyn.asString (Dyn.index hostConfig "NetworkMode") = None).

(** What the pre-planner finds for a host port: some tracked binding
    has it, under whatever protocol, or the TCP probe fails. *)
Definition conflicting (w : @World R) (port : Z) : bool :=
  tracked (store w) port None || negb (listen_ok w port).

(** The conflict test in the words of the specification: some tracked
    binding holds the host port with this protocol, or the TCP probe
    fails. *)
Definition conflictingAsSpecified (w : @World R) (port : Z) (protocol : string)
  : bool :=
  tracked (store w) port (Some protocol) || negb (listen_ok w port).

(** [portMapping] is an entry of the [ports] list of service [svc]. *)
Definition declared (services : GoObject) (svc : string)
    (portMapping : GoValue) : Prop :=
  exists serviceConfig serviceMap ports,
    In (svc, serviceConfig) services
    /\ Dyn.asMap serviceConfig = Some serviceMap
    /\ Dyn.asSlice (Dyn.index serviceMap "ports") = Some ports
    /\ In portMapping ports.

(** [key] is ["<service>:<host>"] for a declared entry with a numeric
    host port that is in conflict. *)
Definition conflictKey (w : @World R) (services : GoObject) (key : string)
  : Prop :=
  exists svc portMapping hostPort containerPort protocol p,
    declared services svc portMapping
    /\ parseComposePort portMapping = (hostPort, containerPort, protocol)
    /\ hostPort <> EmptyString /\ containerPort <> EmptyString
    /\ Atoi hostPort = (p, true)
    /\ conflicting w p = true
    /\ key = svc +:+ ":" +:+ hostPort.

(** The host port of an entry of a [ports] list, as the pre-planner
    reads it. *)
Definition hostOfEntry (portMapping : GoValue) : string :=
  fst (fst (parseComposePort portMapping)).

(** The [ports] list of a service of the descriptor. *)
Definition portsOf (services : GoObject) (svc : string)
  : option (list GoValue) :=
  match Dyn.asMap (Dyn.index services svc) with
  | Some serviceConfig => Dyn.asSlice (Dyn.index serviceConfig "ports")
  | None => None
  end.

(** What one remapping does to an entry of service [svc]. *)
Definition rewriteFor (svc : string) (remapping : string * string)
    (portMapping : GoValue) : GoValue :=
  match Split (fst remapping) ":" with
  | [serviceName; oldPort] =>
      if bool_decide (serviceName = svc)
      then rewritePort oldPort (snd remapping) portMapping
      else portMapping
  | _ => portMapping
  end.

(** An entry of service [svc] after all the remappings, in order. *)
Definition substituted (svc : string) (remappings : list (string * string))
    (portMapping : GoValue) : GoValue :=
  fold_left (fun pm r => rewriteFor svc r pm) remappings portMapping.

(** No byte [c] in [s]. *)
Definition without (c : ascii) (s : string) : Prop :=
  ~ In c (list_ascii_of_string s).

(** The remappings are keyed ["<service>:<port>"] with a non-empty port,
    and no new port is itself a remapped port. *)
Definition plainRemappings (remappings : list (string * string)) : Prop :=
  NoDup (map fst remappings)
  /\ (forall key new, In (key, new) remappings ->
        without ":" new
        /\ exists svc old, key = svc +:+ ":" +:+ old
             /\ without ":" svc /\ without ":" old /\ old <> EmptyString)
  /\ (forall key new svc old new',
        In (key, new) remappings ->
        In (svc +:+ ":" +:+ old, new') remappings ->
        new <> old /\ Itoa (fst (Atoi new)) <> old).

(** Two containers have a binding with the same host port and protocol. *)
Definition sharePort (c1 c2 : Container) : Prop :=
  exists pm1 pm2,
    pm1 ∈ PortMappings c1 /\ pm2 ∈ PortMappings c2
    /\ HostPort pm1 = HostPort pm2 /\ Protocol pm1 = Protocol pm2.

(** No host port and protocol is bound by two tracked containers. *)
Definition noDoubleBinding (s : ContainerStore) : Prop :=
  forall id1 id2 c1 c2,
    containers s !! id1 = Some c1 -> containers s !! id2 = Some c2 ->
    id1 <> id2 -> ~ sharePort c1 c2.

(** *** The stores a reader can observe

    The runtime is [steady] when every listing shows a container with
    the ports column [ports] gives for its id, and shows no host port
    and protocol under two ids. *)
Definition steady (ports : string -> string)
    (lines : list (option dockerContainer)) : Prop :=
  (forall dc, listedIn lines dc -> dc_Ports dc = ports (dc_ID dc))
  /\ (forall dc1 dc2 m1 m2,
        listedIn lines dc1 -> listedIn lines dc2 ->
        m1 ∈ FindAllStringSubmatch (dc_Ports dc1) ->
        m2 ∈ FindAllStringSubmatch (dc_Ports dc2) ->
        m_host m1 = m_host m2 -> m_proto m1 = m_proto m2 ->
        dc_ID dc1 = dc_ID dc2).

(** The worlds reached from [w0] by refreshes and by the handling of
    events, one after the other, the runtime moving on in between as
    it likes. *)
Inductive reachable (w0 : @World R) : @World R -> Prop :=
| reach_start : reachable w0 w0
| reach_refresh w :
    reachable w0 w -> reachable w0 (afterwards (refreshContainers w))
| reach_event w orders event :
    reachable w0 w -> reachable w0 (afterwards (dispatch orders event w))
| reach_runtime w r :
    reachable w0 w -> reachable w0 (facing r w).

(** The store repeats what listings showed: any two tracked containers
    were listed together; every binding has the protocol and, as its
    current port, a host port of a match of the ports of its
    container under the same key; and so has every remembered
    port. *)
Definition mirrors (ports : string -> string) (s : ContainerStore) : Prop :=
  (forall id1 id2,
     is_Some (containers s !! id1) -> is_Some (containers s !! id2) ->
     exists r lines dc1 dc2,
       docker_ps r = Some lines
       /\ listedIn lines dc1 /\ dc_ID dc1 = id1
       /\ listedIn lines dc2 /\ dc_ID dc2 = id2)
  /\ (forall id c pm,
        containers s !! id = Some c -> pm ∈ PortMappings c ->
        exists m, m ∈ FindAllStringSubmatch (ports id)
          /\ portKey (ContainerPort pm) (Protocol pm)
             = portKey (m_cport m) (m_proto m)
          /\ Protocol pm = m_proto m /\ HostPort pm = m_host m)
  /\ (forall id table key h,
        portMappings s !! id = Some table -> table !! key = Some h ->
        exists m, m ∈ FindAllStringSubmatch (ports id)
          /\ key = portKey (m_cport m) (m_proto m) /\ h = m_host m).

(** Every store a reader could have observed so far mirrors the
    listings. *)
Definition allMirror (ports : string -> string) (w : @World R) : Prop :=
  Forall (mirrors ports) (store w :: snapshots w).

(** A call keeps it so, whether it returns or panics. *)
Definition keeps (ports : string -> string) {A} (m : Go A) : Prop :=
  forall w, allMirror ports w -> allMirror ports (afterwards (m w)).

(** *** The sentences that do not hold as they are written

    Each is stated here in the words of the specification; the
    reference runtime below shows where the code departs from it. *)

(** The original port of a binding never changes between two
    successive refreshes. *)
Definition originalNeverMutates : Prop :=
  forall (w w1 w2 : @World R) (r : R) id c1 c2 pm1 pm2,
    refreshContainers w = Done None w1 ->
    refreshContainers (facing r w1) = Done None w2 ->
    containers (store w1) !! id = Some c1 ->
    containers (store w2) !! id = Some c2 ->
    pm1 ∈ PortMappings c1 -> pm2 ∈ PortMappings c2 ->
    ContainerPort pm1 = ContainerPort pm2 -> Protocol pm1 = Protocol pm2 ->
    OriginalPort pm2 = OriginalPort pm1.

(** A start event for an unprocessed container all of whose bound host
    ports are in the range marks the container as processed. *)
Definition startMarksWhenAllInRange : Prop :=
  forall orders (w : @World R) id containerData hostConfig portBindings,
    processedContainers (store w) !! id <> Some true ->
    labelOf (runtime w) id sentinelLabel <> "true" ->
    docker_inspect_json (runtime w) id = Parsed containerData ->
    Dyn.asMap (Dyn.index containerData "HostConfig") = Some hostConfig ->
    Dyn.asMap (Dyn.index hostConfig "PortBindings") = Some portBindings ->
    wellFormedBindings portBindings ->
    allBoundInRange (store w) portBindings ->
    exists w', handleContainerStart orders id w = Done tt w'
               /\ In (setProcessed id (store w)) (snapshots w').

(** After a refresh, two tracked containers share a host port and
    protocol only if the runtime no longer lists one of them. *)
Definition doubleBindingOnlyWithGone : Prop :=
  forall (w w' : @World R) id1 id2 c1 c2,
    refreshContainers w = Done None w' ->
    containers (store w') !! id1 = Some c1 ->
    containers (store w') !! id2 = Some c2 ->
    id1 <> id2 -> sharePort c1 c2 ->
    ~ stillListed (runtime w') id1 \/ ~ stillListed (runtime w') id2.

(** A reader never observes a half-applied refresh: every store an
    exclusive section leaves while a refresh runs is the store as it
    was before, or the store as the refresh leaves it. *)
Definition refreshIsAtomic : Prop :=
  forall (w w' : @World R) new s,
    refreshContainers w = Done None w' ->
    snapshots w' = new ++ snapshots w ->
    In s new ->
    s = store w \/ s = store w'.

(** [conflictKey] with the conflict test of the specification. *)
Definition conflictKeyAsSpecified (w : @World R) (services : GoObject)
    (key : string) : Prop :=
  exists svc portMapping hostPort containerPort protocol p,
    declared services svc portMapping
    /\ parseComposePort portMapping = (hostPort, containerPort, protocol)
    /\ hostPort <> EmptyString /\ containerPort <> EmptyString
    /\ Atoi hostPort = (p, true)
    /\ conflictingAsSpecified w p protocol = true
    /\ key = svc +:+ ":" +:+ hostPort.

(** The pre-planner records a remapping iff the tracked bindings hold
    the host port with the protocol of the entry, or the probe fails. *)
Definition conflictsAsSpecified : Prop :=
  forall (w : @World R) file config services remappings w',
    compose_config (runtime w) file = Parsed config ->
    Dyn.asMap (Dyn.index config "services") = Some services ->
    CheckComposePortConflicts file w = Done (remappings, None) w' ->
    forall key, is_Some (Dyn.lookup remappings key)
                <-> conflictKeyAsSpecified w services key.

(** Every configuration with [max <= min] makes every call of the
    allocator panic. *)
Definition emptyRangeAlwaysPanics : Prop :=
  forall w : @World R,
    portRangeMax (store w) <= portRangeMin (store w) ->
    exists msg w', allocateRandomPort w = Panicked msg w'.

End Vocabulary.

(** ** Vocabulary of the further properties *)

Section Properties.

Context {R : Type} `{!Runtime R}.

(** The store entry [c] repeats the listing line [dc] field by field. *)
Definition copies (dc : dockerContainer) (c : Container) : Prop :=
  ID c = dc_ID dc /\ Image c = dc_Image dc /\ Command c = dc_Command dc
  /\ Created c = dc_RunningFor dc /\ Status c = dc_Status dc
  /\ Ports c = dc_Ports dc /\ Names c = dc_Names dc.

(** The refresh reads [dc] from the output of [docker ps]: some line
    decodes to it, and neither that line nor any line before it has
    [MaxScanTokenSize] bytes or more. *)
Definition reads (output : list OutputLine) (dc : dockerContainer) : Prop :=
  exists before line after,
    output = before ++ line :: after
    /\ Forall (fun l => line_bytes l < MaxScanTokenSize) (before ++ [line])
    /\ line_json line = Some dc.

(** The two commands that try to write a label leave the runtime as it
    is (neither is a command the docker CLI knows). *)
Definition labelNeutral : Prop :=
  forall (r : R) (rest : list string),
    fst (docker_exec r ("container" :: rest)) = r.

(** What a match of [portRegex] is made of: digits, digits, word
    bytes, none of them empty. *)
Definition shaped (m : Submatch) (h c p : list ascii) : Prop :=
  m_host m = string_of_list_ascii h
  /\ m_cport m = string_of_list_ascii c
  /\ m_proto m = string_of_list_ascii p
  /\ h <> [] /\ c <> [] /\ p <> []
  /\ Forall (fun x => is_digit x = true) h
  /\ Forall (fun x => is_digit x = true) c
  /\ Forall (fun x => is_word x = true) p.

(** The inspection of a container gives the start handler nothing to
    work on: it fails or does not decode, or shows no [HostConfig]
    map, no [PortBindings] map, or an empty one. *)
Definition nothingToManage (r : R) (containerID : string) : Prop :=
  match docker_inspect_json r containerID with
  | CmdFailed | Malformed => True
  | Parsed containerData =>
      match Dyn.asMap (Dyn.index containerData "HostConfig") with
      | None => True
      | Some hostConfig =>
          match Dyn.asMap (Dyn.index hostConfig "PortBindings") with
          | None | Some [] => True
          | Some _ => False
          end
      end
  end.

(** [services'] has the services of [services], under the same
    names; a service that is a table has the same keys in both and the
    same value under every key but [ports]; a service that is no table
    is the same in both. *)
Definition sameButPorts (services services' : GoObject) : Prop :=
  map fst services' = map fst services
  /\ (forall svc sm,
        Dyn.asMap (Dyn.index services svc) = Some sm ->
        exists sm',
          Dyn.asMap (Dyn.index services' svc) = Some sm'
          /\ map fst sm' = map fst sm
          /\ forall k, k <> "ports" -> Dyn.lookup sm' k = Dyn.lookup sm k)
  /\ (forall svc,
        Dyn.asMap (Dyn.index services svc) = None ->
        Dyn.lookup services' svc = Dyn.lookup services svc).

(** The group the web page shows a container under: its compose
    project if it carries one, else the part of its name before the
    first underscore if the name has one and that part is not empty,
    else ["standalone"]. *)
Definition projectOf (c : Container) : string :=
  if bool_decide (ComposeProject c ≠ EmptyString)
     && bool_decide (ComposeProject c ≠ "<no value>")
  then ComposeProject c
  else
    match Split (TrimPrefix (Names c) "/") "_" with
    | first :: _ :: _ =>
        if bool_decide (first ≠ EmptyString) then first else "standalone"
    | _ => "standalone"
    end.

(** The arguments pass [flag] followed by [value]. *)
Definition passes (flag value : string) (args : list string) : Prop :=
  exists pre post, args = pre ++ flag :: value :: post.

(** The commands of a log with their exit status, oldest first. *)
Definition steps (log : list Invocation) : list (list string * bool) :=
  map (fun i => (inv_args i, inv_ok i)) (rev log).

(** What the new maps of a refresh satisfy at every turn of its loop,
    [proc] being the processed set copied before the loop: a mark is
    [true], for a new container and one that was marked before; a
    marked container that is kept stays marked; the port table has
    entries for new containers only, and the entry of a container with
    bindings is made of its bindings. *)
Record consistent (proc : gmap string bool) (f : Fresh) : Prop := {
  cs_processed :
    forall id b, newProcessedContainers f !! id = Some b ->
      b = true /\ is_Some (newContainers f !! id) /\ proc !! id = Some true;
  cs_marked :
    forall id, is_Some (newContainers f !! id) -> proc !! id = Some true ->
      newProcessedContainers f !! id = Some true;
  cs_table_dom :
    forall id, is_Some (newPortMappings f !! id) ->
      is_Some (newContainers f !! id);
  cs_table :
    forall id c, newContainers f !! id = Some c -> PortMappings c <> [] ->
      newPortMappings f !! id = Some (storedMappingsOf (PortMappings c));
  cs_id : forall id c, newContainers f !! id = Some c -> ID c = id
}.

End Properties.

(** ** A reference runtime

    A small deterministic runtime used to run the scenarios: containers
    with the text [docker ps] prints for them and the document
    [docker inspect] returns, [stop], [kill], [rm] and [run -d] with the
    flags the engine passes, and compose descriptors by path.  It knows
    no [container update --label] and no [container label]: those
    invocations fail, as they do with the docker CLI. *)

Module Sim.

Record Box := {
  box_id : string;
  box_name : string;
  box_image : string;
  box_ports : string;                  (* the Ports column *)
  box_inspect : GoObject;
  box_labels : list (string * string);
  box_running : bool
}.

Record State := {
  boxes : list Box;
  next_id : Z;
  files : list (string * GoObject);
  temp_count : Z
}.

Definition newline : string := String "010"%char EmptyString.

Definition findBox (st : State) (id : string) : option Box :=
  find (fun b => bool_decide (box_id b = id)) (boxes st).

Definition dropLast (n : nat) (s : string) : string :=
  let l := list_ascii_of_string s in
  string_of_list_ascii (take (length l - n) l).

Definition hasDot (s : string) : bool :=
  existsb (fun c => bool_decide (c = "."%char)) (list_ascii_of_string s).

Definition inspect_format (st : State) (tmpl id : string) : option string :=
  match findBox st id with
  | None => None
  | Some b =>
      let indexed := "{{index .Config.Labels " +:+ dquote in
      let field := "{{.Config.Labels." in
      if bool_decide (tmpl = "{{.ID}}") then Some (id +:+ newline)
      else if HasPrefix tmpl indexed then
        let label := dropLast 3 (TrimPrefix tmpl indexed) in
        Some (default EmptyString (Dyn.lookup (box_labels b) label) +:+ newline)
      else if HasPrefix tmpl field then
        let label := dropLast 2 (TrimPrefix tmpl field) in
        if hasDot label then None
        else Some (default "<no value>" (Dyn.lookup (box_labels b) label)
                   +:+ newline)
      else None
  end.

(** The line of a container: the fields the program decodes, and a
    length that counts them, the labels, and 200 bytes for the rest of
    the JSON object. *)
Definition ps_line (b : Box) : OutputLine :=
  {| line_bytes :=
       Z.of_nat (String.length (box_id b) + String.length (box_image b)
                 + String.length (box_ports b) + String.length (box_name b)
                 + fold_right
                     (fun kv n =>
                        (String.length kv.1 + String.length kv.2 + 2 + n)%nat)
                     0%nat (box_labels b))
       + 200;
     line_json :=
       Some {| dc_ID := box_id b; dc_Image := box_image b;
               dc_Command := EmptyString; dc_RunningFor := "1 second ago";
               dc_Status := "Up 1 second"; dc_Ports := box_ports b;
               dc_Names := box_name b |} |}.

Definition ps (st : State) : option (list OutputLine) :=
  Some (map ps_line (filter (fun b => box_running b = true) (boxes st))).

Definition inspect (st : State) (id : string) : Decoded (list GoObject) :=
  match findBox st id with
  | None => CmdFailed
  | Some b => Parsed [box_inspect b]
  end.

Definition inspect_json (st : State) (id : string) : Decoded GoObject :=
  match findBox st id with
  | None => CmdFailed
  | Some b => Parsed (box_inspect b)
  end.

(** What [run -d] was given. *)
Record Spec := {
  sp_name : string;
  sp_image : string;
  sp_network : string;
  sp_restart : string;
  sp_volumes : list string;
  sp_publish : list string;
  sp_env : list string;
  sp_labels : list string
}.

Definition emptySpec : Spec :=
  {| sp_name := EmptyString; sp_image := EmptyString;
     sp_network := "default"; sp_restart := EmptyString;
     sp_volumes := []; sp_publish := []; sp_env := []; sp_labels := [] |}.

Fixpoint parseRun (args : list string) (sp : Spec) : option Spec :=
  match args with
  | [] => None
  | [image] =>
      Some {| sp_name := sp_name sp; sp_image := image;
              sp_network := sp_network sp; sp_restart := sp_restart sp;
              sp_volumes := sp_volumes sp; sp_publish := sp_publish sp;
              sp_env := sp_env sp; sp_labels := sp_labels sp |}
  | flag :: x :: rest =>
      if bool_decide (flag = "--name") then
        parseRun rest
          {| sp_name := x; sp_image := sp_image sp;
             sp_network := sp_network sp; sp_restart := sp_restart sp;
             sp_volumes := sp_volumes sp; sp_publish := sp_publish sp;
             sp_env := sp_env sp; sp_labels := sp_labels sp |}
      else if bool_decide (flag = "--network") then
        parseRun rest
          {| sp_name := sp_name sp; sp_image := sp_image sp;
             sp_network := x; sp_restart := sp_restart sp;
             sp_volumes := sp_volumes sp; sp_publish := sp_publish sp;
             sp_env := sp_env sp; sp_labels := sp_labels sp |}
      else if bool_decide (flag = "--restart") then
        parseRun rest
          {| sp_name := sp_name sp; sp_image := sp_image sp;
             sp_network := sp_network sp; sp_restart := x;
             sp_volumes := sp_volumes sp; sp_publish := sp_publish sp;
             sp_env := sp_env sp; sp_labels := sp_labels sp |}
      else if bool_decide (flag = "-v") then
        parseRun rest
          {| sp_name := sp_name sp; sp_image := sp_image sp;
             sp_network := sp_network sp; sp_restart := sp_restart sp;
             sp_volumes := sp_volumes sp ++ [x]; sp_publish := sp_publish sp;
             sp_env := sp_env sp; sp_labels := sp_labels sp |}
      else if bool_decide (flag = "-p") then
        parseRun rest
          {| sp_name := sp_name sp; sp_image := sp_image sp;
             sp_network := sp_network sp; sp_restart := sp_restart sp;
             sp_volumes := sp_volumes sp; sp_publish := sp_publish sp ++ [x];
             sp_env := sp_env sp; sp_labels := sp_labels sp |}
      else if bool_decide (flag = "-e") then
        parseRun rest
          {| sp_name := sp_name sp; sp_image := sp_image sp;
             sp_network := sp_network sp; sp_restart := sp_restart sp;
             sp_volumes := sp_volumes sp; sp_publish := sp_publish sp;
             sp_env := sp_env sp ++ [x]; sp_labels := sp_labels sp |}
      else if bool_decide (flag = "--label") then
        parseRun rest
          {| sp_name := sp_name sp; sp_image := sp_image sp;
             sp_network := sp_network sp; sp_restart := sp_restart sp;
             sp_volumes := sp_volumes sp; sp_publish := sp_publish sp;
             sp_env := sp_env sp; sp_labels := sp_labels sp ++ [x] |}
      else None
  end.

(** [s] cut at the first [sep]. *)
Fixpoint cut (s : string) (sep : ascii) : string * string :=
  match s with
  | EmptyString => (EmptyString, EmptyString)
  | String c s' =>
      if bool_decide (c = sep) then (EmptyString, s')
      else let '(a, b) := cut s' sep in (String c a, b)
  end.

(** Host address, host port and container port of a [-p] argument. *)
Definition publishParts (p : string) : string * string * string :=
  match Split p ":" with
  | [ip; h; c] => (ip, h, c)
  | [h; c] => (EmptyString, h, c)
  | _ => (EmptyString, EmptyString, p)
  end.

Definition withProto (c : string) : string :=
  match Split c "/" with
  | [_] => c +:+ "/tcp"
  | _ => c
  end.

Definition portsColumn (publish : list string) : string :=
  match
    map (fun p =>
           let '(ip, h, c) := publishParts p in
           (if bool_decide (ip = EmptyString) then "0.0.0.0" else ip)
           +:+ ":" +:+ h +:+ "->" +:+ withProto c)
        publish
  with
  | [] => EmptyString
  | x :: xs => fold_left (fun acc y => acc +:+ ", " +:+ y) xs x
  end.

(** A published port added to the bindings of its container port. *)
Fixpoint publishUnder (key : string) (b : GoValue) (pb : GoObject)
  : GoObject :=
  match pb with
  | [] => [(key, GSlice [b])]
  | (k, v) :: rest =>
      if bool_decide (k = key)
      then (k, match v with
               | GSlice l => GSlice (l ++ [b])
               | _ => GSlice [b]
               end) :: rest
      else (k, v) :: publishUnder key b rest
  end.

Definition portBindingsOf (publish : list string) : GoObject :=
  fold_left (fun pb p =>
               let '(ip, h, c) := publishParts p in
               publishUnder (withProto c)
                 (GMap [("HostIp", GString ip); ("HostPort", GString h)]) pb)
            publish [].

Definition inspectOf (sp : Spec) : GoObject :=
  [ ("Name", GString ("/" +:+ sp_name sp));
    ("Config",
     GMap [ ("Image", GString (sp_image sp));
            ("Env", GSlice (map GString (sp_env sp)));
            ("Labels",
             GMap (map (fun kv => let '(k, v) := cut kv "=" in (k, GString v))
                       (sp_labels sp))) ]);
    ("HostConfig",
     GMap [ ("NetworkMode", GString (sp_network sp));
            ("PortBindings", GMap (portBindingsOf (sp_publish sp)));
            ("RestartPolicy",
             GMap [ ("Name", GString (sp_restart sp));
                    ("MaximumRetryCount", GFloat 0) ]) ]);
    ("Mounts",
     GSlice (map (fun v => let '(src, dst) := cut v ":" in
                           GMap [ ("Source", GString src);
                                  ("Destination", GString dst) ])
                 (sp_volumes sp))) ].

Definition boxOf (id : string) (sp : Spec) : Box :=
  {| box_id := id; box_name := sp_name sp; box_image := sp_image sp;
     box_ports := portsColumn (sp_publish sp);
     box_inspect := inspectOf sp;
     box_labels := map (fun kv => cut kv "=") (sp_labels sp);
     box_running := true |}.

Definition setRunning (id : string) (up : bool) (st : State) : State :=
  {| boxes :=
       map (fun b =>
              if bool_decide (box_id b = id) then
                {| box_id := box_id b; box_name := box_name b;
                   box_image := box_image b; box_ports := box_ports b;
                   box_inspect := box_inspect b; box_labels := box_labels b;
                   box_running := up |}
              else b)
           (boxes st);
     next_id := next_id st; files := files st; temp_count := temp_count st |}.

Definition failed (st : State) (why : string) : State * (bool * string) :=
  (st, (false, why)).

Definition exec (st : State) (args : list string) : State * (bool * string) :=
  match args with
  | verb :: rest =>
      if bool_decide (verb = "stop") then
        match rest with
        | [_; _; id] =>
            match findBox st id with
            | Some _ => (setRunning id false st, (true, id +:+ newline))
            | None => failed st "No such container"
            end
        | _ => failed st "usage"
        end
      else if bool_decide (verb = "kill") then
        match rest with
        | [id] =>
            match findBox st id with
            | Some b =>
                if box_running b
                then (setRunning id false st, (true, id +:+ newline))
                else failed st "is not running"
            | None => failed st "No such container"
            end
        | _ => failed st "usage"
        end
      else if bool_decide (verb = "rm") then
        match rest with
        | [id] =>
            match findBox st id with
            | Some b =>
                if box_running b then failed st "container is running"
                else
                  ({| boxes := filter (fun b => box_id b ≠ id) (boxes st);
                      next_id := next_id st; files := files st;
                      temp_count := temp_count st |},
                   (true, id +:+ newline))
            | None => failed st "No such container"
            end
        | _ => failed st "usage"
        end
      else if bool_decide (verb = "run") then
        match rest with
        | _ :: flags =>
            match parseRun flags emptySpec with
            | Some sp =>
                if existsb (fun b => bool_decide (box_name b = sp_name sp))
                           (boxes st)
                then failed st "name is already in use"
                else
                  let id := "new" +:+ Itoa (next_id st) in
                  ({| boxes := boxes st ++ [boxOf id sp];
                      next_id := next_id st + 1; files := files st;
                      temp_count := temp_count st |},
                   (true, id +:+ newline))
            | None => failed st "usage"
            end
        | [] => failed st "usage"
        end
      else failed st "unknown command or flag"
  | [] => failed st "usage"
  end.

Definition readFile (st : State) (path : string) : Decoded GoObject :=
  match Dyn.lookup (files st) path with
  | Some doc => Parsed doc
  | None => CmdFailed
  end.

Definition writeTempFile (st : State) (doc : GoObject) : State * option string :=
  let name := "/tmp/dynamic-port-mapper-compose-" +:+ Itoa (temp_count st)
              +:+ ".yml" in
  ({| boxes := boxes st; next_id := next_id st;
      files := Dyn.assign (files st) name doc;
      temp_count := temp_count st + 1 |},
   Some name).

#[global] Instance simulated : Runtime State := {
  docker_ps_output := ps;
  docker_inspect_format := inspect_format;
  docker_inspect := inspect;
  docker_inspect_json := inspect_json;
  docker_exec := exec;
  compose_config := readFile;
  read_compose_file := readFile;
  write_temp_compose := writeTempFile
}.

(** A container started with [docker run -d] and these flags. *)
Definition started (id : string) (flags : list string) : Box :=
  boxOf id (default emptySpec (parseRun flags emptySpec)).

Definition world (bs : list Box) (fs : list (string * GoObject))
    (s : ContainerStore) (draw : nat -> Z) (free : Z -> bool)
  : World (R := State) :=
  {| store := s;
     runtime := {| boxes := bs; next_id := 1; files := fs; temp_count := 1 |};
     rand_src := draw; rand_pos := 0;
     listen_ok := free; invocations := []; snapshots := [] |}.

(** A world with no container and every port free. *)
Definition quiet (s : ContainerStore) (draw : nat -> Z) : World (R := State) :=
  world [] [] s draw (fun _ => true).

End Sim.

(** ** A runtime with two containers

    [A], published on 8080, and [B], published on 9090 and 9091; each
    is up or not, which is all the state there is.  Commands fail and
    change nothing: the containers come and go on their own. *)

Module Steady.

Definition State : Type := bool * bool.

Definition portsOf (id : string) : string :=
  if bool_decide (id = "A") then "0.0.0.0:8080->80/tcp"
  else if bool_decide (id = "B")
       then "0.0.0.0:9090->80/tcp, 0.0.0.0:9091->81/tcp"
       else EmptyString.

Definition up (st : State) (id : string) : bool :=
  (bool_decide (id = "A") && st.1) || (bool_decide (id = "B") && st.2).

Definition line (id : string) : OutputLine :=
  {| line_bytes := 300;
     line_json :=
       Some {| dc_ID := id; dc_Image := "nginx"; dc_Command := EmptyString;
               dc_RunningFor := "1 hour ago"; dc_Status := "Up 1 hour";
               dc_Ports := portsOf id; dc_Names := id |} |}.

Definition ps (st : State) : option (list OutputLine) :=
  Some (map line (filter (fun id => up st id = true) ["A"; "B"])).

Definition inspect_format (st : State) (tmpl id : string) : option string :=
  if up st id && bool_decide (tmpl = "{{.ID}}")
  then Some (id +:+ String "010"%char EmptyString)
  else None.

#[global] Instance two : Runtime State := {
  docker_ps_output := ps;
  docker_inspect_format := inspect_format;
  docker_inspect _ _ := CmdFailed;
  docker_inspect_json _ _ := CmdFailed;
  docker_exec r _ := (r, (false, "permission denied"));
  compose_config _ _ := CmdFailed;
  read_compose_file _ _ := CmdFailed;
  write_temp_compose r _ := (r, None)
}.

Definition world (st : State) (s : ContainerStore) : World (R := State) :=
  {| store := s; runtime := st; rand_src := fun _ => 0; rand_pos := 0;
     listen_ok := fun _ => true; invocations := []; snapshots := [] |}.

End Steady.

(** ** A daemon that cannot be reached

    Every command fails. *)

Module Down.

#[global] Instance unreachable : Runtime unit := {
  docker_ps_output _ := None;
  docker_inspect_format _ _ _ := None;
  docker_inspect _ _ := CmdFailed;
  docker_inspect_json _ _ := CmdFailed;
  docker_exec r _ := (r, (false, "Cannot connect to the Docker daemon"));
  compose_config _ _ := CmdFailed;
  read_compose_file _ _ := CmdFailed;
  write_temp_compose r _ := (r, None)
}.

Definition world (s : ContainerStore) : World (R := unit) :=
  {| store := s; runtime := tt; rand_src := fun _ => 0; rand_pos := 0;
     listen_ok := fun _ => true; invocations := []; snapshots := [] |}.

End Down.

(** ** The host of the reference runtime

    [docker-compose -f file ...] succeeds when the file exists (it
    starts nothing here); removing a file forgets it. *)

Module SimHost.

Definition composeRun (st : Sim.State) (args : list string)
  : Sim.State * bool :=
  match args with
  | flag :: file :: _ =>
      (st, bool_decide (flag = "-f")
           && match Dyn.lookup (Sim.files st) file with
              | Some _ => true
              | None => false
              end)
  | _ => (st, false)
  end.

Definition removeFile (st : Sim.State) (name : string) : Sim.State :=
  {| Sim.boxes := Sim.boxes st; Sim.next_id := Sim.next_id st;
     Sim.files := filter (fun f => f.1 ≠ name) (Sim.files st);
     Sim.temp_count := Sim.temp_count st |}.

#[global] Instance host : Host Sim.State := {
  compose_run := composeRun;
  remove_file := removeFile
}.

End SimHost.

(** ** Scenarios on the reference runtime *)

Module Scenario.

Definition free (_ : Z) : bool := true.
Definition draw1234 (_ : nat) : Z := 1234.
Definition counting (i : nat) : Z := 1234 + Z.of_nat i.

(** A host where the probe succeeds on the ports that exist. *)
Definition listens (port : Z) : bool := (0 <=? port) && (port <=? 65535).

(** What the runtime reports for a container. *)
Definition dataOf (w : World (R := Sim.State)) (id : string) : GoObject :=
  match docker_inspect_json (runtime w) id with
  | Parsed containerData => containerData
  | _ => []
  end.
Definition hostConfigOf (w : World (R := Sim.State)) (id : string)
  : GoObject :=
  default [] (Dyn.asMap (Dyn.index (dataOf w id) "HostConfig")).
Definition bindingsIn (w : World (R := Sim.State)) (id : string) : GoObject :=
  default [] (Dyn.asMap (Dyn.index (hostConfigOf w id) "PortBindings")).
(** The listing of a runtime and its entry for a container. *)
Definition listing (r : Sim.State) : list (option dockerContainer) :=
  default [] (docker_ps r).
Definition entryOf (r : Sim.State) (id : string) : dockerContainer :=
  default {| dc_ID := EmptyString; dc_Image := EmptyString;
             dc_Command := EmptyString; dc_RunningFor := EmptyString;
             dc_Status := EmptyString; dc_Ports := EmptyString;
             dc_Names := EmptyString |}
          (mjoin (List.find (fun l => match l with
                                      | Some dc => bool_decide (dc_ID dc = id)
                                      | None => false
                                      end)
                            (listing r))).
Definition servicesOf (config : GoObject) : GoObject :=
  default [] (Dyn.asMap (Dyn.index config "services")).

Definition theContainer (w : World (R := Sim.State)) (id : string)
  : Container :=
  default {| ID := EmptyString; Image := EmptyString; Command := EmptyString;
             Created := EmptyString; Status := EmptyString;
             Ports := EmptyString; Names := EmptyString;
             ComposeProject := EmptyString; ComposeService := EmptyString;
             PortMappings := []; DynamicPorts := false |}
          (containers (store w) !! id).

(** The store after a first refresh against these containers. *)
Definition tracking (bs : list Sim.Box) : ContainerStore :=
  store (afterwards (refreshContainers
                       (Sim.world bs [] emptyStore draw1234 free))).

(** S2: [A] is tracked on 8080->80/tcp, [B] starts on 8080->80/tcp. *)
Definition boxA : Sim.Box :=
  Sim.started "A" ["--name"; "a"; "-p"; "8080:80"; "nginx"].
Definition boxB : Sim.Box :=
  Sim.started "B" ["--name"; "web"; "-p"; "8080:80"; "-e"; "MODE=prod";
                   "--label"; "tier=front"; "nginx"].
Definition conflict : World (R := Sim.State) :=
  Sim.world [boxA; boxB] [] (tracking [boxA]) draw1234 free.
Definition afterConflict : World (R := Sim.State) :=
  afterwards (handleContainerStart asListed "B" conflict).

(** A container whose port 80 is published twice: on 20000, inside
    the range, and on 8080, which [A] holds. *)
Definition boxTwice : Sim.Box :=
  Sim.started "T" ["--name"; "t"; "-p"; "20000:80"; "-p"; "8080:80"; "nginx"].
Definition twice : World (R := Sim.State) :=
  Sim.world [boxA; boxTwice] [] (tracking [boxA]) draw1234 free.

(** S2 under the flags [-min 20000 -max 20000]. *)
Definition onePort : World (R := Sim.State) :=
  Sim.world [boxA; boxB] [] (setPortRange 20000 20000 (tracking [boxA]))
            draw1234 free.

(** A container published on a host port the runtime picks, restarted:
    the same id is listed with another host port. *)
Definition boxX (hostPort : string) : Sim.Box :=
  Sim.started "X" ["--name"; "x"; "-p"; hostPort +:+ ":80"; "nginx"].
Definition firstSeen : World (R := Sim.State) :=
  afterwards (refreshContainers
                (Sim.world [boxX "32768"] [] emptyStore draw1234 free)).
Definition restarted : Sim.State :=
  {| Sim.boxes := [boxX "32769"]; Sim.next_id := 1; Sim.files := [];
     Sim.temp_count := 1 |}.
Definition seenAgain : World (R := Sim.State) :=
  afterwards (refreshContainers (facing restarted firstSeen)).

(** Two containers bound to the same port on two host addresses. *)
Definition boxL1 : Sim.Box :=
  Sim.started "L1" ["--name"; "l1"; "-p"; "127.0.0.1:8080:80"; "nginx"].
Definition boxL2 : Sim.Box :=
  Sim.started "L2" ["--name"; "l2"; "-p"; "127.0.0.2:8080:80"; "nginx"].
Definition twoAddresses : World (R := Sim.State) :=
  Sim.world [boxL1; boxL2] [] emptyStore draw1234 free.

(** A container without port bindings, and one inside the range. *)
Definition boxPlain : Sim.Box := Sim.started "P" ["--name"; "p"; "nginx"].
Definition plain : World (R := Sim.State) :=
  Sim.world [boxPlain] [] emptyStore draw1234 free.
Definition boxDyn : Sim.Box :=
  Sim.started "D" ["--name"; "d"; "-p"; "54321:80"; "nginx"].
Definition dynamic : World (R := Sim.State) :=
  Sim.world [boxDyn] [] emptyStore draw1234 free.

(** A container whose inspection data has a label that is not a
    string. *)
Definition boxOdd : Sim.Box :=
  {| Sim.box_id := "O"; Sim.box_name := "odd"; Sim.box_image := "nginx";
     Sim.box_ports := "0.0.0.0:8080->80/tcp";
     Sim.box_inspect :=
       [ ("Name", GString "/odd");
         ("Config",
          GMap [ ("Image", GString "nginx"); ("Env", GSlice []);
                 ("Labels", GMap [("weight", GFloat 3)]) ]);
         ("HostConfig",
          GMap [ ("NetworkMode", GString "default");
                 ("PortBindings",
                  GMap [("80/tcp",
                         GSlice [GMap [("HostIp", GString EmptyString);
                                       ("HostPort", GString "8080")]])]) ]) ];
     Sim.box_labels := []; Sim.box_running := true |}.
Definition odd : World (R := Sim.State) :=
  Sim.world [boxOdd] [] emptyStore draw1234 free.

(** S5 with a twist: the store tracks 8080/tcp and 53/udp; the
    descriptor declares web 8080->80, db 5432->5432 and dns 53->53 over
    TCP, in string and in table form. *)
Definition boxDns : Sim.Box :=
  Sim.started "N" ["--name"; "n"; "-p"; "53:53/udp"; "bind"].
Definition webService : GoObject :=
  [ ("image", GString "nginx"); ("ports", GSlice [GString "8080:80"]) ].
Definition dbService : GoObject :=
  [ ("image", GString "postgres:13");
    ("ports", GSlice [GMap [ ("published", GInt 5432);
                             ("target", GInt 5432) ]]) ].
Definition dnsService : GoObject :=
  [ ("image", GString "bind"); ("ports", GSlice [GString "53:53"]) ].
Definition descriptor : GoObject :=
  [ ("version", GString "3");
    ("services", GMap [ ("web", GMap webService); ("db", GMap dbService);
                        ("dns", GMap dnsService) ]) ].
Definition composeFile : string := "docker-compose.yml".

(** The remappings the pre-planner records for it, and the table entry
    of [db]. *)
Definition planned : list (string * string) :=
  [("web:8080", "11234"); ("dns:53", "11235")].
Definition table : GoValue :=
  GMap [("published", GInt 5432); ("target", GInt 5432)].
Definition planning : World (R := Sim.State) :=
  Sim.world [boxA; boxDns] [(composeFile, descriptor)]
            (tracking [boxA; boxDns]) counting free.

(** The range given by the flags [-min 9223372036854775807 -max -2]. *)
Definition wrapped : World (R := Sim.State) :=
  Sim.world [] [] (setPortRange 9223372036854775807 (-2) emptyStore)
            counting listens.

(** Three running containers, the second with a label of 66000
    bytes. *)
Fixpoint filler (n : nat) : string :=
  match n with
  | O => EmptyString
  | S k => String "x" (filler k)
  end.
Definition boxWide : Sim.Box :=
  Sim.started "W" ["--name"; "w"; "-p"; "9090:80";
                   "--label"; "notes=" +:+ filler (Z.to_nat 66000); "nginx"].
Definition crowded : World (R := Sim.State) :=
  Sim.world [boxA; boxWide; boxDns] [] emptyStore draw1234 free.
Definition outputOf (r : Sim.State) : list OutputLine :=
  default [] (docker_ps_output r).

(** [A] is tracked; [D], published inside the range, has come up
    since the last refresh. *)
Definition arriving : World (R := Sim.State) :=
  Sim.world [boxA; boxDyn] [] (tracking [boxA]) draw1234 free.

(** A store with a mark for a container that is gone. *)
Definition stale : World (R := Sim.State) :=
  Sim.world [boxA] []
            (setProcessed "gone" (setProcessed "A" (tracking [boxA])))
            draw1234 free.

(** A stop event for [A]. *)
Definition stopOfA : DockerEvent :=
  {| ev_Status := "stop"; ev_ID := "A"; ev_Type := "container" |}.

(** What [docker inspect] shows for a container. *)
Definition infoOf (w : World (R := Sim.State)) (id : string) : GoObject :=
  match docker_inspect (runtime w) id with
  | Parsed (containerInfo :: _) => containerInfo
  | _ => []
  end.

(** The arguments of the [docker run] that replaces [B] in S2. *)
Definition runArgsOfB : list string :=
  match collectRunArgs "B" "11234" "80" "tcp" (infoOf conflict "B") conflict
  with
  | Done args _ => args
  | Panicked _ _ => []
  end.

(** The descriptor emitted for [planned]. *)
Definition emitted : GoObject :=
  match GenerateRemappedComposeFile composeFile planned planning with
  | Done (_, Some d, _) _ => d
  | _ => []
  end.
Definition temporary : string := "/tmp/dynamic-port-mapper-compose-1.yml".

(** A ports string with a host address, and a table of remembered
    ports. *)
Definition qualified : string := "127.0.0.1:8080:80".
Definition remembered : gmap string string := {[ "80/tcp" := "9000" ]}.

(** A store that tracks [A] and a container of the compose project
    [shop], and the order in which its map lists them. *)
Definition boxShop : Sim.Box :=
  Sim.started "S" ["--name"; "shop_web_1"; "-p"; "8081:80"; "nginx"].
Definition grouped : ContainerStore := tracking [boxA; boxShop].
Definition listed : list (string * Container) :=
  map_to_list (containers grouped).


(** Both containers of the steady runtime are up at the first refresh;
    [B] goes down and its [die] event is handled; [B] comes back and
    the store is refreshed again. *)
Definition dieOfB : DockerEvent :=
  {| ev_Status := "die"; ev_ID := "B"; ev_Type := "container" |}.
Definition bothUp : World (R := Steady.State) :=
  Steady.world (true, true) emptyStore.
Definition busy : World (R := Steady.State) :=
  afterwards
    (refreshContainers
       (facing (true, true)
          (afterwards
             (dispatch asListed dieOfB
                (facing (true, false)
                   (afterwards (refreshContainers bothUp))))))).

End Scenario.

(** * Facts and theorems *)

Section Examples.

Example Atoi_8080 : Atoi "8080" = (8080, true).
Proof. reflexivity. Qed.

Example Atoi_range : Atoi "8000-8010" = (0, false).
Proof. reflexivity. Qed.

Example Atoi_overflow : Atoi "9223372036854775808" = (maxInt64, false).
Proof. reflexivity. Qed.

Example Itoa_65000 : Itoa 65000 = "65000".
Proof. reflexivity. Qed.

Example Split_name : Split "app1_web_1" "_" = ["app1"; "web"; "1"].
Proof. reflexivity. Qed.

Example TrimSpace_id :
  TrimSpace ("  abc12 " +:+ String "010" EmptyString) = "abc12".
Proof. reflexivity. Qed.

(** A value between two no-break spaces (U+00A0), before a line end. *)
Example TrimSpace_no_break_space :
  TrimSpace (String "194" (String "160"
               ("v1" +:+ String "194" (String "160" (String "010" EmptyString)))))
  = "v1".
Proof. reflexivity. Qed.

(** An em space (U+2003) in front and a next line (U+0085) behind; the
    blank inside stays. *)
Example TrimSpace_wide_blanks :
  TrimSpace (String "226" (String "128" (String "131"
               ("  a b " +:+ String "194" (String "133" EmptyString)))))
  = "a b".
Proof. reflexivity. Qed.

(** A continuation byte on its own is no white space. *)
Example TrimSpace_stray_byte :
  TrimSpace (String "160" "v1 ") = String "160" "v1".
Proof. reflexivity. Qed.

Example FindAll_two :
  FindAllStringSubmatch "0.0.0.0:8080->80/tcp, :::8081->81/udp"
  = [ {| m_host := "8080"; m_cport := "80"; m_proto := "tcp" |};
      {| m_host := "8081"; m_cport := "81"; m_proto := "udp" |} ].
Proof. reflexivity. Qed.

End Examples.

Section AllocatorFacts.
Context {R : Type} `{!Runtime R}.
Implicit Types w : @World R.

Lemma drawPort_panics w :
  rangeWidth (store w) <= 0 ->
  drawPort w = Panicked "invalid argument to Intn" w.
Proof.
  intros Hw. unfold drawPort, bind, getStore, Intn. fold (rangeWidth (store w)).
  destruct (Z.leb_spec (rangeWidth (store w)) 0); [reflexivity | lia].
Qed.

Lemma allocateAttempts_panics n w :
  rangeWidth (store w) <= 0 ->
  allocateAttempts n w = Panicked "invalid argument to Intn" w.
Proof.
  intros Hw. destruct n; simpl.
  - by apply drawPort_panics.
  - unfold bind. by rewrite drawPort_panics.
Qed.

Lemma drawPort_done w :
  0 < rangeWidth (store w) ->
  drawPort w = Done (nthDraw w 0) (drawn 1 w).
Proof.
  intros Hw. unfold drawPort, bind, getStore, Intn, ret, nthDraw, drawn.
  fold (rangeWidth (store w)).
  destruct (Z.leb_spec (rangeWidth (store w)) 0); [lia |].
  simpl. repeat f_equal; lia.
Qed.

Lemma isPortAvailable_done port w :
  isPortAvailable port w = Done (available w port) w.
Proof.
  unfold isPortAvailable, bind, getStore, available, Listen, ret.
  by destruct (tracked (store w) port None).
Qed.

Lemma nthDraw_drawn w k i : nthDraw (drawn k w) i = nthDraw w (k + i).
Proof. unfold nthDraw, drawn; simpl. by rewrite Nat.add_assoc. Qed.

Lemma drawn_drawn w j k : drawn j (drawn k w) = drawn (k + j) w.
Proof. unfold drawn; simpl. by rewrite Nat.add_assoc. Qed.

Lemma available_drawn w k p : available (drawn k w) p = available w p.
Proof. reflexivity. Qed.

Lemma allocateAttempts_done n : forall w,
  0 < rangeWidth (store w) ->
  exists k : nat,
    allocateAttempts n w = Done (nthDraw w k) (drawn (S k) w)
    /\ (k <= n)%nat
    /\ (forall j : nat, (j < k)%nat -> available w (nthDraw w j) = false)
    /\ ((k < n)%nat -> available w (nthDraw w k) = true).
Proof.
  induction n as [|n IH]; intros w Hw; simpl.
  - exists 0%nat. rewrite drawPort_done by done. repeat split; [lia | lia | lia].
  - unfold bind at 1. rewrite drawPort_done by done.
    unfold bind at 1. rewrite isPortAvailable_done. rewrite available_drawn.
    destruct (available w (nthDraw w 0)) eqn:Hav.
    + exists 0%nat. repeat split; [lia | lia | done].
    + destruct (IH (drawn 1 w) Hw) as (k & Hk & Hle & Hbefore & Hat).
      exists (S k). rewrite Hk, nthDraw_drawn, drawn_drawn. simpl.
      repeat split; [lia | |].
      * intros [|j] Hj; [done |].
        specialize (Hbefore j ltac:(lia)).
        by rewrite nthDraw_drawn, available_drawn in Hbefore.
      * intros Hlt. specialize (Hat ltac:(lia)).
        by rewrite nthDraw_drawn, available_drawn in Hat.
Qed.

Lemma wrap64_small z : - 2 ^ 63 <= z < 2 ^ 63 -> wrap64 z = z.
Proof.
  intros Hz. unfold wrap64. rewrite Z.mod_small by lia. lia.
Qed.

Lemma allocateRandomPort_first_fit w :
  0 < rangeWidth (store w) ->
  exists k : nat,
    allocateRandomPort w = Done (nthDraw w k) (drawn (S k) w)
    /\ (k <= 100)%nat
    /\ (forall j : nat, (j < k)%nat -> available w (nthDraw w j) = false)
    /\ ((k < 100)%nat -> available w (nthDraw w k) = true).
Proof. apply allocateAttempts_done. Qed.

Lemma nthDraw_below_max w i :
  minInt64 <= portRangeMin (store w) ->
  portRangeMax (store w) <= maxInt64 ->
  0 < portRangeMax (store w) - portRangeMin (store w) <= maxInt64 ->
  rangeWidth (store w) = portRangeMax (store w) - portRangeMin (store w)
  /\ portRangeMin (store w) <= nthDraw w i < portRangeMax (store w).
Proof.
  unfold minInt64, maxInt64. intros Hmin Hmax Hwidth.
  assert (Hw : rangeWidth (store w)
               = portRangeMax (store w) - portRangeMin (store w)).
  { unfold rangeWidth. apply wrap64_small. lia. }
  split; [done |]. unfold nthDraw. rewrite Hw.
  pose proof (Z.mod_pos_bound (rand_src w (rand_pos w + i)%nat)
                (portRangeMax (store w) - portRangeMin (store w))
                ltac:(lia)) as Hr.
  rewrite wrap64_small by lia. lia.
Qed.

(** C5: [allocateRandomPort] returns the first of the next 100 draws
    that is available (no tracked binding has the port under any
    protocol and the TCP probe succeeds), or the 101st draw unchecked
    when none is; but every draw lies in [[min, max - 1]]: the port
    [max] itself is never drawn, although the range is inclusive
    everywhere else in the code. *)
Theorem allocateRandomPort_never_draws_max w :
  minInt64 <= portRangeMin (store w) ->
  portRangeMax (store w) <= maxInt64 ->
  0 < portRangeMax (store w) - portRangeMin (store w) <= maxInt64 ->
  exists k : nat,
    allocateRandomPort w = Done (nthDraw w k) (drawn (S k) w)
    /\ (k <= 100)%nat
    /\ (forall j : nat, (j < k)%nat -> available w (nthDraw w j) = false)
    /\ ((k < 100)%nat -> available w (nthDraw w k) = true)
    /\ (forall i : nat,
          portRangeMin (store w) <= nthDraw w i < portRangeMax (store w)).
Proof.
  intros Hmin Hmax Hwidth.
  destruct (allocateRandomPort_first_fit w) as (k & E & Hk & Hbefore & Hat).
  { destruct (nthDraw_below_max w 0 Hmin Hmax Hwidth) as [-> _]. lia. }
  exists k. split_and!; try done.
  intros i. by apply nthDraw_below_max.
Qed.

(** C10, as amended: with [max <= min] from the unchecked flags, and
    [max - min] not overflowing the 64-bit [int], every call of
    [allocateRandomPort] panics in [rand.Intn]. *)
Theorem allocateRandomPort_panics_on_empty_range w s minPort maxPort :
  store w = setPortRange minPort maxPort s ->
  maxPort <= minPort ->
  minPort - maxPort <= 2 ^ 63 ->
  allocateRandomPort w = Panicked "invalid argument to Intn" w.
Proof.
  intros Hs Hle Hov. apply allocateAttempts_panics.
  unfold rangeWidth. rewrite Hs. simpl.
  rewrite wrap64_small by lia. lia.
Qed.

End AllocatorFacts.

(** With the default range and the largest draw, 54999, the port is
    64999. *)
Lemma allocateRandomPort_never_draws_max_witness :
  exists k : nat,
    allocateRandomPort (Sim.quiet emptyStore (fun _ => 54999))
    = Done 64999 (drawn (S k) (Sim.quiet emptyStore (fun _ => 54999))).
Proof.
  destruct (allocateRandomPort_never_draws_max
              (Sim.quiet emptyStore (fun _ => 54999)))
    as (k & E & _); [by vm_compute | by vm_compute | by vm_compute |].
  exists k. exact E.
Defined.

(** The flags [-min 20000 -max 20000]. *)
Lemma allocateRandomPort_panics_on_empty_range_witness :
  allocateRandomPort (Sim.quiet (setPortRange 20000 20000 emptyStore)
                                 (fun _ => 0))
  = Panicked "invalid argument to Intn"
             (Sim.quiet (setPortRange 20000 20000 emptyStore) (fun _ => 0)).
Proof.
  apply (allocateRandomPort_panics_on_empty_range _ emptyStore 20000 20000);
    [reflexivity | lia | lia].
Defined.

(** C10 as stated fails: the flags [-min 9223372036854775807 -max -2]
    have [max <= min], yet [max - min] wraps around to a positive
    [int]: [rand.Intn] accepts it, the 100 candidates all fail the
    probe and the call returns the 101st draw. *)
Lemma allocateRandomPort_returns_on_wrapped_range :
  portRangeMax (store Scenario.wrapped) <= portRangeMin (store Scenario.wrapped)
  /\ allocateRandomPort Scenario.wrapped
     = Done (-9223372036854774475) (drawn 101 Scenario.wrapped)
  /\ ~ emptyRangeAlwaysPanics (R := Sim.State).
Proof.
  assert (E : allocateRandomPort Scenario.wrapped
              = Done (-9223372036854774475) (drawn 101 Scenario.wrapped))
    by (vm_compute; reflexivity).
  split_and!; [by vm_compute | exact E |].
  intros H. destruct (H Scenario.wrapped) as (msg & w' & P);
    [by vm_compute |].
  rewrite E in P. discriminate P.
Qed.

Section RefreshFacts.
Context {R : Type} `{!Runtime R}.
Implicit Types w : @World R.

Lemma onlyLabelAttempts_refl w : onlyLabelAttempts w w.
Proof. exists nil. split; [done | constructor]. Qed.

Lemma onlyLabelAttempts_trans w1 w2 w3 :
  onlyLabelAttempts w1 w2 -> onlyLabelAttempts w2 w3 ->
  onlyLabelAttempts w1 w3.
Proof.
  intros (new1 & Hi1 & G1) (new2 & Hi2 & G2).
  exists (new2 ++ new1). split.
  - by rewrite Hi2, Hi1, app_assoc.
  - by apply Forall_app.
Qed.

Lemma labelAttempt_not_run i : labelAttempt i -> isRun i = false.
Proof. intros [rest Hi]. unfold isRun. by rewrite Hi. Qed.

Lemma onlyLabelAttempts_created w w' :
  onlyLabelAttempts w w' ->
  created (invocations w') = created (invocations w).
Proof.
  intros (new & -> & Hnew). unfold created. rewrite filter_app, map_app.
  replace (filter (fun i => isRun i = true) new) with (@nil Invocation); [done |].
  symmetry. induction Hnew as [|i new Hi _ IH]; [done |].
  rewrite filter_cons. apply labelAttempt_not_run in Hi.
  destruct (decide (isRun i = true)); [congruence | done].
Qed.

Lemma marksOnly_refl w : marksOnly w w.
Proof.
  constructor; try done.
  - exists nil. split; [done | constructor].
  - apply onlyLabelAttempts_refl.
Qed.

Lemma marksOnly_trans w1 w2 w3 :
  marksOnly w1 w2 -> marksOnly w2 w3 -> marksOnly w1 w3.
Proof.
  intros [c1 p1 a1 b1 m1 rs1 rp1 l1 (mid1 & Hs1 & F1) G1]
         [c2 p2 a2 b2 m2 rs2 rp2 l2 (mid2 & Hs2 & F2) G2].
  constructor; try congruence.
  - intros id Hid. by apply m2, m1.
  - exists (mid2 ++ mid1). split.
    + by rewrite Hs2, Hs1, app_assoc.
    + apply Forall_app. split; [| done].
      eapply Forall_impl; [exact F2 |]. intros s (Hc & Hp & Hm).
      split_and!; [congruence | congruence |].
      intros id Hid. by apply Hm, m1.
  - by eapply onlyLabelAttempts_trans.
Qed.

Lemma locked_setProcessed id w :
  exists w', locked (setProcessed id) w = Done tt w'
    /\ marksOnly w w'
    /\ store w' = setProcessed id (store w)
    /\ snapshots w' = setProcessed id (store w) :: snapshots w
    /\ runtime w' = runtime w
    /\ invocations w' = invocations w.
Proof.
  eexists. split; [reflexivity |]. split; [| by simpl].
  constructor; simpl; try done.
  - intros id' Hid. destruct (decide (id = id')) as [->|Hne].
    + apply lookup_insert_eq.
    + by rewrite lookup_insert_ne.
  - exists [setProcessed id (store w)]. split; [done |].
    constructor; [| constructor]. simpl. split_and!; try done.
    intros id' Hid. destruct (decide (id = id')) as [->|Hne].
    + apply lookup_insert_eq.
    + by rewrite lookup_insert_ne.
  - exists nil. split; [done | constructor].
Qed.

Lemma docker_container_marksOnly rest w :
  exists res w', docker ("container" :: rest) w = Done res w'
    /\ marksOnly w w' /\ store w' = store w /\ snapshots w' = snapshots w.
Proof.
  unfold docker.
  destruct (docker_exec (runtime w) ("container" :: rest)) as [r [ok out]].
  eexists _, _. split; [reflexivity |]. split; [| by simpl].
  constructor; simpl; try done.
  - exists nil. split; [done | constructor].
  - eexists [_]. split; [done |]. constructor; [| constructor].
    by eexists.
Qed.

Lemma query_done {A} (f : R -> A) w : query f w = Done (f (runtime w)) w.
Proof. reflexivity. Qed.

Lemma addDynamicPortLabel_marks id w :
  exists w', addDynamicPortLabel id w = Done tt w'
    /\ marksOnly w w'
    /\ processedContainers (store w') !! id = Some true
    /\ store w' = setProcessed id (store w)
    /\ exists mid, snapshots w' = mid ++ setProcessed id (store w) :: snapshots w.
Proof.
  unfold addDynamicPortLabel.
  destruct (locked_setProcessed id w) as (w1 & E1 & M1 & S1 & N1 & R1 & I1).
  unfold bind at 1. rewrite E1.
  unfold bind at 1. rewrite query_done.
  assert (P1 : processedContainers (store w1) !! id = Some true).
  { rewrite S1. simpl. apply lookup_insert_eq. }
  destruct (docker_inspect_format (runtime w1) "{{.ID}}" id).
  2:{ exists w1. split_and!; try done. exists nil. by rewrite N1. }
  destruct (docker_container_marksOnly
              ["update"; "--label"; sentinelLabel +:+ "=true"; id] w1)
    as ([ok out] & w2 & E2 & M2 & S2 & N2).
  unfold bind at 1. rewrite E2.
  destruct ok.
  - exists w2. split; [reflexivity |]. split; [by eapply marksOnly_trans |].
    rewrite S2, N2. split_and!; try done. exists nil. by rewrite N1.
  - destruct (docker_container_marksOnly
                ["label"; id; sentinelLabel +:+ "=true"] w2)
      as (res3 & w3 & E3 & M3 & S3 & N3).
    unfold bind at 1. rewrite E3.
    exists w3. split; [reflexivity |].
    split; [eapply marksOnly_trans; [| exact M3]; by eapply marksOnly_trans |].
    rewrite S3, N3, S2, N2. split_and!; try done. exists nil. by rewrite N1.
Qed.

Lemma isContainerProcessed_marks id w :
  exists b w', isContainerProcessed id w = Done b w'
    /\ marksOnly w w'
    /\ runtime w' = runtime w
    /\ invocations w' = invocations w
    /\ (b = true -> processedContainers (store w') !! id = Some true)
    /\ (b = false -> w' = w)
    /\ (b = true <->
        processedContainers (store w) !! id = Some true
        \/ labelOf (runtime w) id sentinelLabel = "true").
Proof.
  unfold isContainerProcessed, bind at 1, getStore.
  destruct (processedContainers (store w) !! id) as [[|]|] eqn:Hp.
  { exists true, w. split_and!; try done.
    - apply marksOnly_refl.
    - split; [intros _; by left | done]. }
  all: unfold bind at 1, extractLabel; rewrite query_done.
  all: case_bool_decide as Hl.
  all: try (exists false, w; split_and!; try done;
            [apply marksOnly_refl | split; [done | intros [?|?]; congruence]]).
  all: destruct (locked_setProcessed id w) as (w1 & E1 & M1 & S1 & N1 & R1 & I1).
  all: unfold bind at 1; rewrite E1.
  all: exists true, w1; split_and!; try done.
  all: try (intros _; rewrite S1; apply lookup_insert_eq).
  all: split; [intros _; by right | done].
Qed.

Lemma parsePorts_marks id ports cur w :
  exists dyn w',
    parsePortsWithoutRemapping id ports cur w
    = Done (bindingsOf cur id ports, dyn) w'
    /\ marksOnly w w'.
Proof.
  unfold parsePortsWithoutRemapping, bindingsOf.
  destruct (cur !! id) as [m|].
  - destruct (restorePortMappings ports m) as [pms dyn] eqn:E.
    exists dyn, w. split; [reflexivity | apply marksOnly_refl].
  - destruct (isContainerProcessed_marks id w) as (b & w1 & E1 & M1 & _).
    unfold bind at 1. rewrite E1. destruct b.
    + exists true, w1. by split.
    + unfold bind at 1, getStore.
      destruct (FindAllStringSubmatch ports) as [|m0 ms] eqn:Em.
      * exists false, w1. by split.
      * destruct (forallb _ _).
        -- destruct (addDynamicPortLabel_marks id w1) as (w2 & E2 & M2 & _).
           unfold bind at 1. rewrite E2.
           exists true, w2. split; [done | by eapply marksOnly_trans].
        -- exists false, w1. by split.
Qed.

End RefreshFacts.

Section RefreshFacts2.
Context {R : Type} `{!Runtime R}.
Implicit Types w : @World R.

Lemma bind_done {A B} (m : Go A) (k : A -> Go B) w a w' :
  m w = Done a w' -> bind m k w = k a w'.
Proof. intros E. unfold bind. by rewrite E. Qed.

Lemma firstLabel_pure id labels : forall current w,
  exists v, firstLabel id labels current w = Done v w.
Proof.
  induction labels as [|l ls IH]; intros current w; simpl.
  - by eexists.
  - unfold bind, extractLabel. rewrite query_done.
    case_bool_decide; [by eexists | apply IH].
Qed.

Lemma composeNames_pure dc w : exists names, composeNames dc w = Done names w.
Proof.
  unfold composeNames.
  do 2 (unfold bind at 1, extractLabel at 1; rewrite query_done).
  set (p0 := labelOf (runtime w) (dc_ID dc) "com.docker.compose.project").
  set (s0 := labelOf (runtime w) (dc_ID dc) "com.docker.compose.service").
  assert (exists p,
    (if bool_decide (p0 = EmptyString)
     then bind (firstLabel (dc_ID dc) alternativeProjectLabels p0)
            (fun p => if bool_decide (p = EmptyString)
                      then ret (inferProject (dc_Names dc)) else ret p)
     else ret p0) w = Done p w) as [p Hp].
  { case_bool_decide; [| by eexists].
    destruct (firstLabel_pure (dc_ID dc) alternativeProjectLabels p0 w) as [v Hv].
    rewrite (bind_done _ _ _ _ _ Hv). case_bool_decide; by eexists. }
  rewrite (bind_done _ _ _ _ _ Hp).
  unfold bind at 1.
  destruct (bool_decide (s0 = EmptyString) && bool_decide (p ≠ EmptyString)).
  2:{ by eexists. }
  destruct (firstLabel_pure (dc_ID dc) alternativeServiceLabels s0 w) as [v Hv].
  rewrite (bind_done _ _ _ _ _ Hv).
  destruct (bool_decide (v = EmptyString)); [destruct (2 <=? _) |];
    unfold bind, ret; by eexists.
Qed.

Lemma covers_record proc acc c :
  covers proc acc -> covers proc (record proc acc c).
Proof.
  intros Hc id Hin Hp. unfold record in *. simpl in *.
  destruct (decide (ID c = id)) as [->|Hne].
  - rewrite Hp. apply lookup_insert_eq.
  - rewrite lookup_insert_ne in Hin by done.
    specialize (Hc id Hin Hp).
    destruct (proc !! ID c) as [[|]|]; [| done | done].
    by rewrite lookup_insert_ne.
Qed.

Lemma refreshLine_spec cur proc acc line w :
  exists acc' w', refreshLine cur proc acc line w = Done acc' w'
    /\ marksOnly w w'
    /\ (covers proc acc -> covers proc acc')
    /\ (forall id c, newContainers acc' !! id = Some c ->
          newContainers acc !! id = Some c
          \/ exists dc, line = Some dc /\ dc_ID dc = id /\ ID c = id
                        /\ Ports c = dc_Ports dc
                        /\ PortMappings c = bindingsOf cur id (dc_Ports dc)).
Proof.
  unfold refreshLine. destruct line as [dc|].
  2:{ exists acc, w. split_and!; try done; [apply marksOnly_refl | by left]. }
  unfold bind at 1. rewrite query_done.
  destruct (docker_inspect_format (runtime w) "{{.ID}}" (dc_ID dc)).
  2:{ exists acc, w. split_and!; try done; [apply marksOnly_refl | by left]. }
  destruct (composeNames_pure dc w) as [names Hn].
  rewrite (bind_done _ _ _ _ _ Hn).
  destruct (parsePorts_marks (dc_ID dc) (dc_Ports dc) cur w) as (dyn & w1 & Hp & M1).
  rewrite (bind_done _ _ _ _ _ Hp).
  eexists _, w1. split; [reflexivity |]. split; [done |]. split.
  - apply covers_record.
  - intros id c. unfold record. simpl.
    destruct (decide (dc_ID dc = id)) as [<-|Hne].
    + rewrite lookup_insert_eq. intros [= <-]. right. by exists dc.
    + rewrite lookup_insert_ne by done. by left.
Qed.

Lemma refreshLoop_spec cur proc lines : forall acc w,
  exists acc' w',
    forEach (refreshLine cur proc) acc lines w = Done acc' w'
    /\ marksOnly w w'
    /\ (covers proc acc -> covers proc acc')
    /\ (forall id c, newContainers acc' !! id = Some c ->
          newContainers acc !! id = Some c
          \/ exists dc, listedIn lines dc /\ dc_ID dc = id /\ ID c = id
                        /\ Ports c = dc_Ports dc
                        /\ PortMappings c = bindingsOf cur id (dc_Ports dc)).
Proof.
  induction lines as [|line lines IH]; intros acc w; simpl.
  - exists acc, w. split_and!; try done; [apply marksOnly_refl | by left].
  - destruct (refreshLine_spec cur proc acc line w)
      as (acc1 & w1 & E1 & M1 & C1 & L1).
    rewrite (bind_done _ _ _ _ _ E1).
    destruct (IH acc1 w1) as (acc2 & w2 & E2 & M2 & C2 & L2).
    exists acc2, w2. split; [done |].
    split; [by eapply marksOnly_trans |]. split; [tauto |].
    intros id c Hc. destruct (L2 id c Hc) as [Hin | (dc & Hl & ?)].
    + destruct (L1 id c Hin) as [? | (dc & -> & ?)]; [by left |].
      right. exists dc. split; [by left | done].
    + right. exists dc. split; [by right | done].
Qed.

(** The outcome of a successful refresh: the world after the loop, with
    the new maps swapped in. *)
Lemma refreshContainers_listed lines w :
  docker_ps (runtime w) = Some lines ->
  exists fresh w1 w',
    forEach (refreshLine (portMappings (store w)) (processedContainers (store w)))
            {| newContainers := ∅; newPortMappings := ∅;
               newProcessedContainers := ∅ |} lines w = Done fresh w1
    /\ refreshContainers w = Done None w'
    /\ marksOnly w w1
    /\ store w' = swapIn fresh (store w1)
    /\ snapshots w' = swapIn fresh (store w1) :: snapshots w1
    /\ runtime w' = runtime w1
    /\ invocations w' = invocations w1
    /\ rand_src w' = rand_src w /\ rand_pos w' = rand_pos w
    /\ listen_ok w' = listen_ok w
    /\ covers (processedContainers (store w)) fresh
    /\ (forall id c, newContainers fresh !! id = Some c ->
          exists dc, listedIn lines dc /\ dc_ID dc = id /\ ID c = id
                     /\ Ports c = dc_Ports dc
                     /\ PortMappings c
                        = bindingsOf (portMappings (store w)) id (dc_Ports dc)).
Proof.
  intros Hps.
  destruct (refreshLoop_spec (portMappings (store w))
              (processedContainers (store w)) lines
              {| newContainers := ∅; newPortMappings := ∅;
                 newProcessedContainers := ∅ |} w)
    as (fresh & w1 & E & M & C & L).
  eexists fresh, w1, _. split; [exact E |].
  unfold refreshContainers. unfold bind at 1. rewrite query_done, Hps.
  unfold bind at 1, getStore. rewrite (bind_done _ _ _ _ _ E).
  split; [reflexivity |]. simpl.
  destruct M. split_and!; try done.
  - apply C. intros id [c Hc]. simpl in Hc. by rewrite lookup_empty in Hc.
  - intros id c Hc. destruct (L id c Hc) as [Hin | ?]; [| done].
    simpl in Hin. by rewrite lookup_empty in Hin.
Qed.

Lemma refreshContainers_failed w :
  docker_ps (runtime w) = None ->
  refreshContainers w = Done (Some "error listing containers") w.
Proof.
  intros Hps. unfold refreshContainers, bind. by rewrite query_done, Hps.
Qed.

(** A refresh returns, touches no container, and keeps the random
    source. *)
Lemma refreshContainers_total w :
  exists e w', refreshContainers w = Done e w'
    /\ onlyLabelAttempts w w'
    /\ rand_src w' = rand_src w /\ rand_pos w' = rand_pos w.
Proof.
  destruct (docker_ps (runtime w)) as [lines|] eqn:Hps.
  - destruct (refreshContainers_listed lines w Hps)
      as (fresh & w1 & w' & _ & E & M & _ & _ & _ & I & Rs & Rp & _).
    exists None, w'. split; [done |]. split; [| done].
    destruct M as [_ _ _ _ _ _ _ _ _ (new & Hnew & F)].
    exists new. by rewrite I.
  - rewrite (refreshContainers_failed w Hps). eexists _, _.
    split; [done |]. split; [apply onlyLabelAttempts_refl | done].
Qed.

End RefreshFacts2.

Section RefreshTheorems.
Context {R : Type} `{!Runtime R}.
Implicit Types w : @World R.

Lemma restorePortMappings_fold stored ms : forall acc dyn,
  fst (fold_left
    (fun (acc : list PortMapping * bool) m =>
       let '(mappings, dynamicPorts) := acc in
       let originalHostPort := m_host m in
       let containerPort := m_cport m in
       let protocol := m_proto m in
       let key := portKey containerPort protocol in
       match stored !! key with
       | Some storedPort =>
           if bool_decide (storedPort ≠ originalHostPort) then
             (mappings ++ [{| ContainerPort := containerPort;
                              HostPort := storedPort;
                              Protocol := protocol;
                              OriginalPort := originalHostPort |}], true)
           else
             (mappings ++ [{| ContainerPort := containerPort;
                              HostPort := originalHostPort;
                              Protocol := protocol;
                              OriginalPort := originalHostPort |}], dynamicPorts)
       | None =>
           (mappings ++ [{| ContainerPort := containerPort;
                            HostPort := originalHostPort;
                            Protocol := protocol;
                            OriginalPort := originalHostPort |}], dynamicPorts)
       end) ms (acc, dyn))
  = acc ++ map (restored stored) ms.
Proof.
  induction ms as [|m ms IH]; intros acc dyn; simpl.
  - by rewrite app_nil_r.
  - assert (Hr : forall hp,
      hp = default (m_host m) (stored !! portKey (m_cport m) (m_proto m)) ->
      {| ContainerPort := m_cport m; HostPort := hp; Protocol := m_proto m;
         OriginalPort := m_host m |} = restored stored m).
    { by intros hp ->. }
    destruct (stored !! portKey (m_cport m) (m_proto m)) as [sp|] eqn:E; simpl.
    + case_bool_decide as Hne; rewrite IH, <- app_assoc; simpl.
      * by rewrite (Hr sp).
      * by rewrite (Hr (m_host m)) by (simpl; congruence).
    + rewrite IH, <- app_assoc. simpl. by rewrite (Hr (m_host m)).
Qed.

Lemma restorePortMappings_map ports stored :
  fst (restorePortMappings ports stored)
  = map (restored stored) (FindAllStringSubmatch ports).
Proof. unfold restorePortMappings. by rewrite restorePortMappings_fold. Qed.

Lemma bindingsOf_spec stored id ports pm :
  pm ∈ bindingsOf stored id ports ->
  exists m, m ∈ FindAllStringSubmatch ports
    /\ ContainerPort pm = m_cport m /\ Protocol pm = m_proto m
    /\ OriginalPort pm = m_host m
    /\ HostPort pm
       = default (m_host m)
           (stored !! id ≫= fun ms => ms !! portKey (m_cport m) (m_proto m)).
Proof.
  unfold bindingsOf. destruct (stored !! id) as [ms|]; simpl.
  - rewrite restorePortMappings_map. intros Hin.
    apply list_elem_of_fmap in Hin as (m & -> & Hm). by exists m.
  - intros Hin. apply list_elem_of_fmap in Hin as (m & -> & Hm). by exists m.
Qed.

Lemma refreshContainers_success w w' :
  refreshContainers w = Done None w' ->
  exists lines, docker_ps (runtime w) = Some lines.
Proof.
  intros E. destruct (docker_ps (runtime w)) as [lines|] eqn:Hps; [by eexists |].
  by rewrite (refreshContainers_failed w Hps) in E.
Qed.

Lemma refresh_binding_listed w w' id c pm :
  refreshContainers w = Done None w' ->
  containers (store w') !! id = Some c ->
  pm ∈ PortMappings c ->
  exists lines dc m,
    docker_ps (runtime w) = Some lines
    /\ listedIn lines dc /\ dc_ID dc = id
    /\ m ∈ FindAllStringSubmatch (dc_Ports dc)
    /\ ContainerPort pm = m_cport m /\ Protocol pm = m_proto m
    /\ OriginalPort pm = m_host m
    /\ HostPort pm
       = default (m_host m)
           (portMappings (store w) !! id
              ≫= fun ms => ms !! portKey (m_cport m) (m_proto m)).
Proof.
  intros E Hc Hpm.
  destruct (refreshContainers_success w w' E) as [lines Hps].
  destruct (refreshContainers_listed lines w Hps)
    as (fresh & w1 & w2 & _ & E2 & _ & S2 & _ & _ & _ & _ & _ & _ & _ & L).
  rewrite E in E2. injection E2 as <-.
  rewrite S2 in Hc. simpl in Hc.
  destruct (L id c Hc) as (dc & Hl & Hid & _ & _ & Hb).
  rewrite Hb in Hpm. apply bindingsOf_spec in Hpm as (m & Hm & ?).
  by exists lines, dc, m.
Qed.

(** X24: after a successful refresh every binding of a tracked
    container comes from a match of the ports the refresh read for
    that container, with its container port and protocol; its
    [OriginalPort] is the host port of that match, whatever an earlier
    refresh recorded, while its [HostPort] is the port remembered for
    the key [<container-port>/<proto>] in the store the refresh
    started from when there is one, and the listed port otherwise.  A
    binding of a container with no remembered ports has
    original = current. *)
Theorem refresh_original_is_listed_port w w' id c pm :
  refreshContainers w = Done None w' ->
  containers (store w') !! id = Some c ->
  pm ∈ PortMappings c ->
  (exists lines dc m,
     docker_ps (runtime w) = Some lines
     /\ listedIn lines dc /\ dc_ID dc = id
     /\ m ∈ FindAllStringSubmatch (dc_Ports dc)
     /\ ContainerPort pm = m_cport m /\ Protocol pm = m_proto m
     /\ OriginalPort pm = m_host m
     /\ HostPort pm
        = default (m_host m)
            (portMappings (store w) !! id
               ≫= fun ms => ms !! portKey (m_cport m) (m_proto m)))
  /\ (portMappings (store w) !! id = None -> OriginalPort pm = HostPort pm).
Proof.
  intros E Hc Hpm.
  destruct (refresh_binding_listed w w' id c pm E Hc Hpm)
    as (lines & dc & m & Hps & Hl & Hid & Hm & Hcp & Hq & Ho & Hh).
  split.
  - by exists lines, dc, m.
  - intros Hnone. rewrite Hnone in Hh. simpl in Hh. congruence.
Qed.

(** What a refresh does to the stores a reader can observe: when
    listing the containers fails, [refreshContainers] returns the
    error and the world, with the three maps of the store, is exactly
    as before; when it succeeds, the containers and the port mappings
    are replaced in one exclusive section, the last one, and every
    store observable before it has the old containers and port
    mappings; what the sections in between change is the processed
    set. *)
Theorem refresh_failure_and_single_swap w :
  match docker_ps (runtime w) with
  | None => refreshContainers w = Done (Some "error listing containers") w
  | Some lines =>
      exists w' mid,
        refreshContainers w = Done None w'
        /\ snapshots w' = store w' :: mid ++ snapshots w
        /\ Forall (fun s => containers s = containers (store w)
                            /\ portMappings s = portMappings (store w)
                            /\ forall id,
                                 processedContainers (store w) !! id = Some true ->
                                 processedContainers s !! id = Some true) mid
  end.
Proof.
  destruct (docker_ps (runtime w)) as [lines|] eqn:Hps.
  - destruct (refreshContainers_listed lines w Hps)
      as (fresh & w1 & w' & _ & E & M & S & N & _).
    destruct M as [_ _ _ _ _ _ _ _ (mid & Hmid & F) _].
    exists w', mid. split; [done |]. split; [| done].
    by rewrite N, S, Hmid.
  - by apply refreshContainers_failed.
Qed.

End RefreshTheorems.

Section OrderFacts.

Context {V : Type}.
Implicit Types (rank : string -> Z) (m : list (string * V)).

Lemma insertBy_Permutation rank e m : insertBy rank e m ≡ₚ e :: m.
Proof.
  induction m as [|x m IH]; simpl; [done |].
  destruct (rank e.1 <=? rank x.1); [done |].
  rewrite IH. apply Permutation_swap.
Qed.

(** A loop visits every entry of the map, each once. *)
Lemma visitBy_Permutation rank m : visitBy rank m ≡ₚ m.
Proof.
  induction m as [|e m IH]; simpl; [done |].
  by rewrite insertBy_Permutation, IH.
Qed.

Lemma In_visitBy rank m e : In e (visitBy rank m) <-> In e m.
Proof.
  rewrite <- !list_elem_of_In. by rewrite visitBy_Permutation.
Qed.

Lemma visitBy_nil rank m : visitBy rank m = [] <-> m = [].
Proof.
  split; [| by intros ->].
  intros Hnil. apply Permutation_nil_r. by rewrite <- Hnil, visitBy_Permutation.
Qed.

(** With one rank for every key the entries come as the list has
    them. *)
Lemma visitBy_constant rank m :
  (forall k k', rank k = rank k') -> visitBy rank m = m.
Proof.
  intros Hc. induction m as [|e m IH]; simpl; [done |].
  rewrite IH. destruct m as [|x m]; simpl; [done |].
  rewrite (Hc e.1 x.1), Z.leb_refl. done.
Qed.

Lemma lookup_insertBy rank e m k :
  ~ In e.1 (map fst m) ->
  Dyn.lookup (insertBy rank e m) k
  = if bool_decide (e.1 = k) then Some e.2 else Dyn.lookup m k.
Proof.
  destruct e as [k0 v0]. simpl.
  induction m as [|[k1 v1] m IH]; simpl; intros Hnot; [done |].
  destruct (rank k0 <=? rank k1); simpl; [done |].
  rewrite IH by tauto.
  repeat case_bool_decide; subst; try done. tauto.
Qed.

(** The order of a loop does not change what the map holds. *)
Lemma lookup_visitBy rank m k :
  NoDup (map fst m) -> Dyn.lookup (visitBy rank m) k = Dyn.lookup m k.
Proof.
  induction m as [|[k0 v0] m IH]; simpl; intros Hnd; [done |].
  apply NoDup_cons in Hnd as [Hnot Hnd].
  rewrite lookup_insertBy.
  - simpl. by rewrite IH.
  - simpl. intros Hin. apply Hnot. apply list_elem_of_In.
    apply in_map_iff in Hin as (e & He & Hin).
    apply in_map_iff. exists e. split; [done |]. by apply In_visitBy in Hin.
Qed.

(** *** Every order is the order of some rank *)

Lemma insertBy_sorted rank e m :
  StronglySorted (fun x y => rank x.1 <= rank y.1) m ->
  StronglySorted (fun x y => rank x.1 <= rank y.1) (insertBy rank e m).
Proof.
  induction 1 as [| x m Hs IH Hx]; simpl.
  - repeat constructor.
  - destruct (rank e.1 <=? rank x.1) eqn:Hle.
    + apply Z.leb_le in Hle. constructor; [by constructor |].
      constructor; [done |].
      eapply Forall_impl; [exact Hx |]. simpl. intros y Hy. lia.
    + apply Z.leb_gt in Hle. constructor; [done |].
      rewrite insertBy_Permutation. constructor; [lia | done].
Qed.

Lemma visitBy_sorted rank m :
  StronglySorted (fun x y => rank x.1 <= rank y.1) (visitBy rank m).
Proof.
  induction m as [| e m IH]; simpl; [constructor | by apply insertBy_sorted].
Qed.

Lemma place_nonneg m k : 0 <= place m k.
Proof. induction m; simpl; [done |]. case_bool_decide; lia. Qed.

Lemma place_inj m k1 k2 :
  k1 ∈ map fst m -> k2 ∈ map fst m -> place m k1 = place m k2 -> k1 = k2.
Proof.
  induction m as [| x m IH]; simpl; intros H1 H2 E; [by inv H1 |].
  pose proof (place_nonneg m k1). pose proof (place_nonneg m k2).
  repeat case_bool_decide; try congruence; try lia.
  apply IH; [| | lia].
  - apply elem_of_cons in H1 as [? | ?]; [congruence | done].
  - apply elem_of_cons in H2 as [? | ?]; [congruence | done].
Qed.

Lemma place_sorted m :
  NoDup (map fst m) ->
  StronglySorted (fun x y => place m x.1 <= place m y.1) m.
Proof.
  induction m as [| x m IH]; simpl; intros Hnd; [constructor |].
  apply NoDup_cons in Hnd as [Hx Hnd]. constructor.
  - assert (Hin : forall y, y ∈ m -> y.1 ≠ x.1).
    { intros y Hy Heq. apply Hx. rewrite <- Heq.
      apply list_elem_of_fmap. by exists y. }
    specialize (IH Hnd). clear Hx Hnd.
    revert IH Hin. generalize (place m) as f. intros f IH Hin.
    induction IH as [| y l Hs IHs Hy]; [constructor |].
    constructor.
    + apply IHs. intros z Hz. apply Hin. by right.
    + apply Forall_forall. intros z Hz. rewrite Forall_forall in Hy.
      specialize (Hy z Hz). simpl in Hy.
      rewrite !bool_decide_eq_false_2.
      * lia.
      * intros Heq. apply (Hin z); [by right | done].
      * intros Heq. apply (Hin y); [by left | done].
  - rewrite bool_decide_eq_true_2 by done.
    apply Forall_forall. intros y _. case_bool_decide; [done |].
    pose proof (place_nonneg m y.1). lia.
Qed.

Lemma distinct_keys_functional m k v1 v2 :
  NoDup (map fst m) -> (k, v1) ∈ m -> (k, v2) ∈ m -> v1 = v2.
Proof.
  induction m as [| [k0 v0] m IH]; simpl; intros Hnd H1 H2; [by inv H1 |].
  apply NoDup_cons in Hnd as [Hk Hnd].
  assert (Hno : forall v, (k0, v) ∈ m -> False).
  { intros v Hv. apply Hk. apply list_elem_of_fmap. by exists (k0, v). }
  apply elem_of_cons in H1 as [[= -> ->] | H1];
    apply elem_of_cons in H2 as [[= ?] | H2]; subst;
    first [done | by destruct (Hno _ H1) | by destruct (Hno _ H2) | by apply IH].
Qed.

(** Whatever order a loop visits a map in, some rank gives it. *)
Lemma visitBy_any_order m m' :
  NoDup (map fst m) -> m' ≡ₚ m -> exists rank, visitBy rank m = m'.
Proof.
  intros Hnd Hp. exists (place m').
  assert (Hnd' : NoDup (map fst m')) by (by rewrite Hp).
  apply (StronglySorted_unique_strong
           (fun x y => place m' x.1 <= place m' y.1)).
  - intros x1 x2 H1 H2 Hle Hge.
    rewrite visitBy_Permutation, <- Hp in H1.
    assert (Hk : x1.1 = x2.1).
    { apply (place_inj m'); [| | lia]; apply list_elem_of_fmap; by eexists. }
    destruct x1 as [k v1], x2 as [k2 v2]. simpl in Hk. subst k2.
    f_equal. by apply (distinct_keys_functional m' k).
  - apply visitBy_sorted.
  - by apply place_sorted.
  - by rewrite visitBy_Permutation.
Qed.

End OrderFacts.

Section StartFacts.
Context {R : Type} `{!Runtime R}.
Implicit Types w : @World R.

Lemma lookup_assign {V} (m : list (string * V)) k v k' :
  Dyn.lookup (Dyn.assign m k v) k'
  = if bool_decide (k = k') then Some v else Dyn.lookup m k'.
Proof.
  induction m as [|[k0 v0] m IH]; simpl.
  - done.
  - destruct (bool_decide (k0 = k)) eqn:E0; simpl.
    + apply bool_decide_eq_true in E0 as ->.
      by destruct (bool_decide (k = k')).
    + rewrite IH. apply bool_decide_eq_false in E0.
      repeat case_bool_decide; congruence.
Qed.

Lemma drawn_0 w : drawn 0 w = w.
Proof. destruct w. unfold drawn. simpl. by rewrite Nat.add_0_r. Qed.

(** [checkPortCollision] follows the relocation rule, and only draws. *)
Lemma checkPortCollision_rule id hostPort q p w :
  0 < rangeWidth (store w) ->
  Atoi hostPort = (p, true) ->
  exists (b : bool) newPort (k : nat),
    checkPortCollision id hostPort q w = Done (b, newPort) (drawn k w)
    /\ (b = true <-> mustRelocate (store w) id p q).
Proof.
  intros Hw Ha. unfold checkPortCollision. rewrite Ha. simpl.
  unfold bind at 1, getStore.
  destruct (allocateRandomPort_first_fit w Hw) as (k & E & _).
  destruct ((portRangeMin (store w) <=? p) && (p <=? portRangeMax (store w)))
    eqn:Hr.
  - apply andb_true_iff in Hr as [H1 H2].
    apply Z.leb_le in H1, H2.
    unfold bind at 1, isPortUsedByOtherContainer, bind at 1, getStore, ret at 1.
    destruct (usedByOther (store w) id p q) eqn:Hu.
    + rewrite (bind_done _ _ _ _ _ E).
      eexists true, _, _. split; [reflexivity |].
      split; [intros _; left; by split | done].
    + exists false, hostPort, 0%nat. rewrite drawn_0. split; [done |].
      split; [done |]. intros [[_ ?] | ?]; [congruence | lia].
  - rewrite (bind_done _ _ _ _ _ E).
    eexists true, _, _. split; [reflexivity |].
    split; [| done]. intros _. right.
    apply andb_false_iff in Hr as [H1 | H2]; [apply Z.leb_gt in H1 | apply Z.leb_gt in H2]; lia.
Qed.

Lemma checkPortCollision_not_a_number id hostPort q z w :
  Atoi hostPort = (z, false) ->
  checkPortCollision id hostPort q w = Done (false, hostPort) w.
Proof. intros Ha. unfold checkPortCollision. by rewrite Ha. Qed.

Lemma allInDynamicRange_done s pb w :
  wellFormedBindings pb ->
  exists b : bool,
    allInDynamicRange s pb w = Done b w
    /\ (b = true <-> allBoundInRange s pb).
Proof.
  induction pb as [|[key bindings] pb IH]; intros Hwf; simpl.
  - exists true. split; [done |]. split; [| done].
    intros _. unfold allBoundInRange. intros ? ? ? [].
  - destruct IH as (b & E & Hb).
    { intros k bs Hin. apply (Hwf k bs). by right. }
    assert (Hrest : allBoundInRange s ((key, bindings) :: pb) <->
                    (forall hp, firstBinding bindings = HostPortOf hp ->
                                inDynamicRange s hp = true)
                    /\ allBoundInRange s pb).
    { split.
      - intros Hall. split.
        + intros hp Hf. apply (Hall key bindings hp); [by left | done].
        + intros k bs hp Hin Hf. apply (Hall k bs hp); [by right | done].
      - intros [Hhd Htl] k bs hp [[= <- <-] | Hin]; [apply Hhd | exact (Htl k bs hp Hin)]. }
    unfold bind at 1, firstHostPort.
    destruct (firstBinding bindings) as [| |hp] eqn:Hf.
    + exists b. split; [done |]. rewrite Hrest, <- Hb.
      split; [intros ->; split; [congruence | done] | tauto].
    + exfalso. apply (Hwf key bindings); [by left | done].
    + simpl. destruct (inDynamicRange s hp) eqn:Hin.
      * exists b. split; [done |]. rewrite Hrest, <- Hb.
        split; [intros ->; split; [congruence | done] | tauto].
      * exists false. split; [done |]. rewrite Hrest.
        split; [done |]. intros [Hhd _]. specialize (Hhd hp eq_refl). congruence.
Qed.

Lemma In_assign_key {V} (m : list (string * V)) k v key :
  is_Some (Dyn.lookup (Dyn.assign m k v) key)
  <-> key = k \/ is_Some (Dyn.lookup m key).
Proof.
  rewrite lookup_assign. case_bool_decide as Hk.
  - subst. split; [by left | by eexists].
  - split; [by right | intros [-> | ?]; done].
Qed.

Lemma scheduleEntry_spec id acc key bindings w :
  0 < rangeWidth (store w) ->
  firstBinding bindings <> NotAMap ->
  exists acc' (k : nat),
    scheduleEntry id acc (key, bindings) w = Done acc' (drawn k w)
    /\ (forall key0, is_Some (Dyn.lookup acc' key0)
          <-> is_Some (Dyn.lookup acc key0)
              \/ (key0 = key /\ exists hostPort containerPort q p,
                    firstBinding bindings = HostPortOf hostPort
                    /\ Split key "/" = [containerPort; q]
                    /\ Atoi hostPort = (p, true)
                    /\ mustRelocate (store w) id p q)).
Proof.
  intros Hw Hwf.
  assert (Hskip :
    ~ (exists hostPort containerPort q p,
         firstBinding bindings = HostPortOf hostPort
         /\ Split key "/" = [containerPort; q]
         /\ Atoi hostPort = (p, true)
         /\ mustRelocate (store w) id p q) ->
    exists acc' (k : nat),
      Done acc w = Done acc' (drawn k w)
      /\ (forall key0, is_Some (Dyn.lookup acc' key0)
            <-> is_Some (Dyn.lookup acc key0)
                \/ (key0 = key /\ exists hostPort containerPort q p,
                      firstBinding bindings = HostPortOf hostPort
                      /\ Split key "/" = [containerPort; q]
                      /\ Atoi hostPort = (p, true)
                      /\ mustRelocate (store w) id p q))).
  { intros Hno. exists acc, 0%nat. rewrite drawn_0. split; [done |].
    intros key0. split; [by left | intros [? | [_ ?]]; tauto]. }
  unfold scheduleEntry, bind at 1, firstHostPort.
  destruct (firstBinding bindings) as [| |hp] eqn:Hf; [| done |].
  { apply Hskip. intros (? & ? & ? & ? & ? & _). congruence. }
  simpl.
  destruct (Split key "/") as [|cp [|q [|? ?]]] eqn:Hsp.
  1,2,4: apply Hskip; intros (? & ? & ? & ? & _ & ? & _); congruence.
  destruct (Atoi hp) as [p ok] eqn:Ha. destruct ok.
  2:{ rewrite (bind_done _ _ _ _ _
                 (checkPortCollision_not_a_number id hp q p w Ha)).
      apply Hskip. intros (? & ? & ? & ? & [= <-] & _ & ? & _). congruence. }
  destruct (checkPortCollision_rule id hp q p w Hw Ha)
    as (b & newPort & k0 & E0 & Hb).
  rewrite (bind_done _ _ _ _ _ E0). destruct b.
  - eexists _, k0. split; [reflexivity |].
    intros key0. rewrite In_assign_key. split; [| tauto].
    intros [-> | ?]; [| tauto].
    right. split; [done |]. exists hp, cp, q, p.
    split_and!; try done. by apply Hb.
  - destruct Hskip as (acc' & k & [= <- Hk] & Hs).
    + intros (? & ? & ? & ? & [= <-] & [= <- <-] & Ha' & Hm).
      rewrite Ha in Ha'. injection Ha' as <-.
      apply Hb in Hm. congruence.
    + exists acc, k0. split; [done | exact Hs].
Qed.

Lemma scheduleLoop_spec id pb : forall acc w,
  0 < rangeWidth (store w) ->
  wellFormedBindings pb ->
  exists sched (k : nat),
    forEach (scheduleEntry id) acc pb w = Done sched (drawn k w)
    /\ (forall key, is_Some (Dyn.lookup sched key)
                    <-> is_Some (Dyn.lookup acc key)
                        \/ selected (store w) id pb key).
Proof.
  induction pb as [|[key bindings] pb IH]; intros acc w Hw Hwf; simpl.
  - exists acc, 0%nat. rewrite drawn_0. split; [done |].
    intros k. split; [by left |]. intros [? | (? & ? & ? & ? & ? & [] & _)]. done.
  - assert (Hwf' : wellFormedBindings pb).
    { intros k bs Hin. apply (Hwf k bs). by right. }
    assert (Hsel : forall k0, selected (store w) id ((key, bindings) :: pb) k0
              <-> (k0 = key /\ exists hostPort containerPort q p,
                     firstBinding bindings = HostPortOf hostPort
                     /\ Split key "/" = [containerPort; q]
                     /\ Atoi hostPort = (p, true)
                     /\ mustRelocate (store w) id p q)
                  \/ selected (store w) id pb k0).
    { intros k0. split.
      - intros (bs & hp & cp & q & p & [[= <- <-] | Hin] & ?).
        + left. split; [done |]. by exists hp, cp, q, p.
        + right. by exists bs, hp, cp, q, p.
      - intros [[-> (hp & cp & q & p & ?)] | (bs & hp & cp & q & p & Hin & ?)].
        + exists bindings, hp, cp, q, p. split; [by left | done].
        + exists bs, hp, cp, q, p. split; [by right | done]. }
    destruct (scheduleEntry_spec id acc key bindings w Hw)
      as (acc1 & k1 & E1 & H1).
    { apply (Hwf key bindings). by left. }
    rewrite (bind_done _ _ _ _ _ E1).
    destruct (IH acc1 (drawn k1 w) Hw Hwf') as (sched & k & E & Hs).
    exists sched, (k1 + k)%nat. rewrite drawn_drawn in E. split; [exact E |].
    intros key0. rewrite Hs, H1, Hsel. simpl. tauto.
Qed.

Lemma scheduleRemaps_spec id pb w :
  0 < rangeWidth (store w) ->
  wellFormedBindings pb ->
  exists sched (k : nat),
    scheduleRemaps id pb w = Done sched (drawn k w)
    /\ (forall key, is_Some (Dyn.lookup sched key)
                    <-> selected (store w) id pb key).
Proof.
  intros Hw Hwf.
  destruct (scheduleLoop_spec id pb [] w Hw Hwf) as (sched & k & E & Hs).
  exists sched, k. split; [exact E |].
  intros key. rewrite Hs. simpl. split; [| tauto].
  intros [[? ?] | ?]; done.
Qed.

(** With an empty range the first port to relocate makes the draw
    panic. *)
Lemma checkPortCollision_empty_range id hostPort q p w :
  rangeWidth (store w) <= 0 ->
  Atoi hostPort = (p, true) ->
  (mustRelocate (store w) id p q ->
     checkPortCollision id hostPort q w
     = Panicked "invalid argument to Intn" w)
  /\ (~ mustRelocate (store w) id p q ->
      checkPortCollision id hostPort q w = Done (false, hostPort) w).
Proof.
  intros Hw Ha.
  assert (E : allocateRandomPort w = Panicked "invalid argument to Intn" w)
    by apply (allocateAttempts_panics 100 w Hw).
  unfold checkPortCollision. rewrite Ha. cbn [negb].
  cbv [bind getStore isPortUsedByOtherContainer ret].
  destruct ((portRangeMin (store w) <=? p) && (p <=? portRangeMax (store w)))
    eqn:Hr.
  - apply andb_true_iff in Hr as [H1 H2].
    apply Z.leb_le in H1, H2.
    destruct (usedByOther (store w) id p q) eqn:Hu.
    + rewrite E. split; [done |].
      intros Hn. destruct Hn. left. by split.
    + split; [| done].
      intros [[_ ?] | ?]; [congruence | lia].
  - rewrite E. split; [done |].
    intros Hn. destruct Hn. right.
    apply andb_false_iff in Hr as [H1 | H2];
      [apply Z.leb_gt in H1 | apply Z.leb_gt in H2]; lia.
Qed.

Lemma mustRelocate_decided s id p q :
  mustRelocate s id p q \/ ~ mustRelocate s id p q.
Proof.
  unfold mustRelocate.
  destruct (usedByOther s id p q);
    destruct (Z_le_dec (portRangeMin s) p), (Z_le_dec p (portRangeMax s));
    first [by left; left | by left; right; lia
          | right; intros [[? ?] | ?]; first [done | lia]].
Qed.

Lemma scheduleEntry_empty_range id acc key bindings w :
  rangeWidth (store w) <= 0 ->
  firstBinding bindings <> NotAMap ->
  ((exists hostPort containerPort q p,
      firstBinding bindings = HostPortOf hostPort
      /\ Split key "/" = [containerPort; q]
      /\ Atoi hostPort = (p, true)
      /\ mustRelocate (store w) id p q)
   /\ scheduleEntry id acc (key, bindings) w
      = Panicked "invalid argument to Intn" w)
  \/ (~ (exists hostPort containerPort q p,
           firstBinding bindings = HostPortOf hostPort
           /\ Split key "/" = [containerPort; q]
           /\ Atoi hostPort = (p, true)
           /\ mustRelocate (store w) id p q)
      /\ scheduleEntry id acc (key, bindings) w = Done acc w).
Proof.
  intros Hw Hwf.
  remember (scheduleEntry id acc (key, bindings) w) as out eqn:Eo.
  unfold scheduleEntry, bind at 1, firstHostPort in Eo.
  destruct (firstBinding bindings) as [| |hp] eqn:Hf; [| done |].
  { right. split; [| done]. intros (? & ? & ? & ? & ? & _). congruence. }
  simpl in Eo.
  destruct (Split key "/") as [|cp [|q [|? ?]]] eqn:Hsp.
  1,2,4: right; (split; [| done]);
         intros (? & ? & ? & ? & _ & ? & _); congruence.
  destruct (Atoi hp) as [p ok] eqn:Ha. destruct ok.
  2:{ right.
      rewrite (bind_done _ _ _ _ _
                 (checkPortCollision_not_a_number id hp q p w Ha)) in Eo.
      split; [| done].
      intros (? & ? & ? & ? & [= <-] & _ & ? & _). congruence. }
  destruct (checkPortCollision_empty_range id hp q p w Hw Ha) as [Hyes Hno].
  destruct (mustRelocate_decided (store w) id p q) as [Hm | Hm].
  - left. split; [by exists hp, cp, q, p |].
    unfold bind in Eo. by rewrite (Hyes Hm) in Eo.
  - right. rewrite (bind_done _ _ _ _ _ (Hno Hm)) in Eo. split; [| done].
    intros (? & ? & ? & ? & [= <-] & [= <- <-] & Ha' & Hm').
    rewrite Ha in Ha'. by injection Ha' as <-.
Qed.

Lemma scheduleLoop_empty_range id pb : forall acc w,
  rangeWidth (store w) <= 0 ->
  wellFormedBindings pb ->
  ((exists key, selected (store w) id pb key)
   /\ forEach (scheduleEntry id) acc pb w
      = Panicked "invalid argument to Intn" w)
  \/ ((forall key, ~ selected (store w) id pb key)
      /\ forEach (scheduleEntry id) acc pb w = Done acc w).
Proof.
  induction pb as [|[key bindings] pb IH]; intros acc w Hw Hwf.
  - right. split; [| done]. intros key (? & ? & ? & ? & ? & [] & _).
  - assert (Hwf' : wellFormedBindings pb).
    { intros k bs Hin. apply (Hwf k bs). by right. }
    assert (Estep : forEach (scheduleEntry id) acc ((key, bindings) :: pb) w
                    = bind (scheduleEntry id acc (key, bindings))
                        (fun acc' => forEach (scheduleEntry id) acc' pb) w)
      by reflexivity.
    rewrite Estep.
    destruct (scheduleEntry_empty_range id acc key bindings w Hw)
      as [[(hp & cp & q & p & Hsel) E] | [Hno E]].
    { apply (Hwf key bindings). by left. }
    + left. split.
      * exists key, bindings, hp, cp, q, p. split; [by left | done].
      * unfold bind. by rewrite E.
    + rewrite (bind_done _ _ _ _ _ E).
      destruct (IH acc w Hw Hwf') as [[(k0 & Hsel) E'] | [Hnone E']].
      * left. split; [| done]. exists k0.
        destruct Hsel as (bs & hp & cp & q & p & Hin & ?).
        exists bs, hp, cp, q, p. split; [by right | done].
      * right. split; [| done].
        intros k0 (bs & hp & cp & q & p & [[= <- <-] | Hin] & ?).
        -- apply Hno. by exists hp, cp, q, p.
        -- apply (Hnone k0). by exists bs, hp, cp, q, p.
Qed.

Lemma extractLabel_done id label w :
  extractLabel id label w = Done (labelOf (runtime w) id label) w.
Proof. reflexivity. Qed.

Lemma isContainerProcessed_false id w :
  processedContainers (store w) !! id <> Some true ->
  labelOf (runtime w) id sentinelLabel <> "true" ->
  isContainerProcessed id w = Done false w.
Proof.
  intros Hp Hl.
  destruct (isContainerProcessed_marks id w)
    as (b & w0 & E & _ & _ & _ & _ & Hfalse & Hiff).
  destruct b.
  - destruct Hiff as [Hiff _]. destruct (Hiff eq_refl); done.
  - by rewrite E, (Hfalse eq_refl).
Qed.

(** With every container port bound at most once, the first binding
    of an entry is its binding. *)
Lemma boundOnce_first pb :
  boundOnce pb ->
  wellFormedBindings pb
  /\ forall key hostPort,
       boundOn pb key hostPort
       <-> exists bindings,
             In (key, bindings) pb
             /\ firstBinding bindings = HostPortOf hostPort.
Proof.
  intros Hb. split.
  - intros key bindings Hin.
    destruct (Hb key bindings Hin) as [-> | [-> | [binding ->]]]; try done.
    unfold firstBinding. simpl.
    destruct (Dyn.asString (Dyn.index binding "HostPort")); [| done].
    by case_bool_decide.
  - intros key hostPort. split.
    + intros (bindings & l & b & binding & Hin & Hl & Hb0 & Hm & Hs & Hne).
      exists bindings. split; [done |].
      destruct (Hb key bindings Hin) as [-> | [-> | [binding0 ->]]].
      * done.
      * injection Hl as <-. destruct Hb0.
      * injection Hl as <-. destruct Hb0 as [<- | []].
        injection Hm as <-. unfold firstBinding. simpl. rewrite Hs.
        by rewrite bool_decide_eq_false_2.
    + intros (bindings & Hin & Hf).
      destruct (Hb key bindings Hin) as [-> | [-> | [binding ->]]];
        [done | done |].
      exists (GSlice [GMap binding]), [GMap binding], (GMap binding), binding.
      unfold firstBinding in Hf. simpl in Hf.
      destruct (Dyn.asString (Dyn.index binding "HostPort")) as [hp|] eqn:Hs;
        [| done].
      case_bool_decide as Hne; [done |]. injection Hf as <-.
      split_and!; try done. by left.
Qed.

Lemma boundOnce_range s pb :
  boundOnce pb -> (everyBoundInRange s pb <-> allBoundInRange s pb).
Proof.
  intros Hb. destruct (boundOnce_first pb Hb) as [_ Hf]. split.
  - intros Hall key bindings hostPort Hin Hfirst.
    apply (Hall key). apply Hf. by exists bindings.
  - intros Hall key hostPort Hbound.
    apply Hf in Hbound as (bindings & Hin & Hfirst).
    by apply (Hall key bindings).
Qed.

Lemma boundOnce_selected s id pb key :
  boundOnce pb -> (relocates s id pb key <-> selected s id pb key).
Proof.
  intros Hb. destruct (boundOnce_first pb Hb) as [_ Hf]. split.
  - intros (hp & cp & q & p & Hbound & ?).
    apply Hf in Hbound as (bindings & Hin & Hfirst).
    by exists bindings, hp, cp, q, p.
  - intros (bindings & hp & cp & q & p & Hin & Hfirst & ?).
    exists hp, cp, q, p. split; [| done]. apply Hf. by exists bindings.
Qed.

(** What the handler does does not depend on the order of its first two
    loops as far as the range test and the schedule go. *)
Lemma wellFormedBindings_visitBy rank pb :
  wellFormedBindings pb -> wellFormedBindings (visitBy rank pb).
Proof. intros Hwf key bindings Hin. apply (Hwf key). by apply In_visitBy in Hin. Qed.

Lemma allBoundInRange_visitBy rank s pb :
  allBoundInRange s (visitBy rank pb) <-> allBoundInRange s pb.
Proof.
  split; intros Hall key bindings hp Hin; apply (Hall key bindings hp).
  - by apply In_visitBy.
  - by apply In_visitBy in Hin.
Qed.

Lemma selected_visitBy rank s id pb key :
  selected s id (visitBy rank pb) key <-> selected s id pb key.
Proof.
  split; intros (bindings & hp & cp & q & p & Hin & ?);
    exists bindings, hp, cp, q, p; (split; [| done]).
  - by apply In_visitBy in Hin.
  - by apply In_visitBy.
Qed.

(** The handler for a container that is not processed and has port
    bindings, as its two branches. *)
Lemma handleContainerStart_unprocessed
    orders w id containerData hostConfig portBindings :
  processedContainers (store w) !! id <> Some true ->
  labelOf (runtime w) id sentinelLabel <> "true" ->
  docker_inspect_json (runtime w) id = Parsed containerData ->
  Dyn.asMap (Dyn.index containerData "HostConfig") = Some hostConfig ->
  Dyn.asMap (Dyn.index hostConfig "PortBindings") = Some portBindings ->
  portBindings <> [] ->
  handleContainerStart orders id w
  = bind (allInDynamicRange (store w) (visitBy (rangeLoop orders) portBindings))
      (fun allIn =>
         if allIn
         then bind (addDynamicPortLabel id)
                (fun _ => bind refreshContainers (fun _ => ret tt))
         else bind (scheduleRemaps id
                      (visitBy (conflictLoop orders) portBindings))
                (fun portsToRemap =>
                   bind (match portsToRemap with
                         | [] => addDynamicPortLabel id
                         | _ => remapScheduled id portBindings
                                  (visitBy (remapLoop orders) portsToRemap)
                         end)
                        (fun _ => bind refreshContainers (fun _ => ret tt))))
      w.
Proof.
  intros Hp Hl Hinspect Hhc Hpb Hne.
  unfold handleContainerStart.
  rewrite (bind_done _ _ _ _ _ (extractLabel_done _ _ w)).
  rewrite (bind_done _ _ _ _ _ (isContainerProcessed_false id w Hp Hl)).
  unfold bind at 1. rewrite query_done, Hinspect, Hhc, Hpb.
  destruct portBindings; [done | reflexivity].
Qed.

(** When the first binding of every container port is in the range,
    the container is marked and the store refreshed. *)
Lemma handleContainerStart_in_range
    orders w id containerData hostConfig portBindings :
  processedContainers (store w) !! id <> Some true ->
  labelOf (runtime w) id sentinelLabel <> "true" ->
  docker_inspect_json (runtime w) id = Parsed containerData ->
  Dyn.asMap (Dyn.index containerData "HostConfig") = Some hostConfig ->
  Dyn.asMap (Dyn.index hostConfig "PortBindings") = Some portBindings ->
  portBindings <> [] ->
  wellFormedBindings portBindings ->
  allBoundInRange (store w) portBindings ->
  exists w1 e w',
    addDynamicPortLabel id w = Done tt w1
    /\ processedContainers (store w1) !! id = Some true
    /\ refreshContainers w1 = Done e w'
    /\ handleContainerStart orders id w = Done tt w'
    /\ onlyLabelAttempts w w'
    /\ rand_pos w' = rand_pos w.
Proof.
  intros Hp Hl Hinspect Hhc Hpb Hne Hwf Hin.
  pose proof (handleContainerStart_unprocessed orders w id _ _ _
                Hp Hl Hinspect Hhc Hpb Hne) as Hhandler.
  destruct (allInDynamicRange_done (store w)
              (visitBy (rangeLoop orders) portBindings) w
              (wellFormedBindings_visitBy _ _ Hwf))
    as (allIn & Eall & Hall).
  rewrite allBoundInRange_visitBy in Hall.
  rewrite (bind_done _ _ _ _ _ Eall) in Hhandler.
  apply Hall in Hin as ->.
  destruct (addDynamicPortLabel_marks id w) as (w1 & E1 & M1 & P1 & _).
  destruct (refreshContainers_total w1) as (e & w' & E2 & L2 & R2).
  exists w1, e, w'. split_and!; try done.
  - rewrite Hhandler, (bind_done _ _ _ _ _ E1).
    by rewrite (bind_done _ _ _ _ _ E2).
  - eapply onlyLabelAttempts_trans; [apply M1 | exact L2].
  - destruct R2 as [_ ->]. apply M1.
Qed.

(** X26: the handler of start events looks at the first binding of
    each container port only.  For a container that is not processed
    and has port bindings whose first elements are maps: if the host
    port of the first binding of every container port lies in
    [[min, max]], the container is marked processed, the store is
    refreshed, nothing is drawn and the runtime is asked for nothing
    but the sentinel label, whatever the further bindings of a
    container port are. *)
Theorem start_reads_first_bindings_only
    orders w id containerData hostConfig portBindings :
  processedContainers (store w) !! id <> Some true ->
  labelOf (runtime w) id sentinelLabel <> "true" ->
  docker_inspect_json (runtime w) id = Parsed containerData ->
  Dyn.asMap (Dyn.index containerData "HostConfig") = Some hostConfig ->
  Dyn.asMap (Dyn.index hostConfig "PortBindings") = Some portBindings ->
  portBindings <> [] ->
  wellFormedBindings portBindings ->
  allBoundInRange (store w) portBindings ->
  exists w',
    handleContainerStart orders id w = Done tt w'
    /\ (exists w1 e, addDynamicPortLabel id w = Done tt w1
                     /\ processedContainers (store w1) !! id = Some true
                     /\ refreshContainers w1 = Done e w')
    /\ onlyLabelAttempts w w'
    /\ rand_pos w' = rand_pos w.
Proof.
  intros Hp Hl Hinspect Hhc Hpb Hne Hwf Hin.
  destruct (handleContainerStart_in_range orders w id _ _ _
              Hp Hl Hinspect Hhc Hpb Hne Hwf Hin)
    as (w1 & e & w' & E1 & P1 & E2 & E & L & Hr).
  exists w'. split_and!; try done. by exists w1, e.
Qed.

(** C4, as amended: a start event for a container that is not yet
    processed and has port bindings, shaped as the runtime emits them
    with no container port bound twice.  In whatever order the loops
    of the handler visit the bindings: if every bound host port lies
    in [[min, max]] the container is marked processed, the store is
    refreshed and the runtime is asked for nothing but the sentinel
    label; otherwise, with a range that is not empty, the container
    ports scheduled for relocation are exactly those with a binding
    whose host port [p] is a number and, with the protocol [q] of the
    key, satisfies the rule (in range and held by another tracked
    container, or out of range), and the handler goes on to remap
    them; with an empty range the handler panics in [rand.Intn] if the
    rule selects a binding, and otherwise schedules nothing and marks
    the container. *)
Theorem start_of_unprocessed_container
    orders w id containerData hostConfig portBindings :
  processedContainers (store w) !! id <> Some true ->
  labelOf (runtime w) id sentinelLabel <> "true" ->
  docker_inspect_json (runtime w) id = Parsed containerData ->
  Dyn.asMap (Dyn.index containerData "HostConfig") = Some hostConfig ->
  Dyn.asMap (Dyn.index hostConfig "PortBindings") = Some portBindings ->
  portBindings <> [] ->
  boundOnce portBindings ->
  (everyBoundInRange (store w) portBindings ->
     exists w1 e w',
       addDynamicPortLabel id w = Done tt w1
       /\ processedContainers (store w1) !! id = Some true
       /\ refreshContainers w1 = Done e w'
       /\ handleContainerStart orders id w = Done tt w'
       /\ onlyLabelAttempts w w'
       /\ rand_pos w' = rand_pos w)
  /\ (~ everyBoundInRange (store w) portBindings ->
      0 < rangeWidth (store w) ->
      exists sched (k : nat),
        scheduleRemaps id (visitBy (conflictLoop orders) portBindings) w
        = Done sched (drawn k w)
        /\ (forall key, is_Some (Dyn.lookup sched key)
                        <-> relocates (store w) id portBindings key)
        /\ handleContainerStart orders id w
           = bind (match sched with
                   | [] => addDynamicPortLabel id
                   | _ => remapScheduled id portBindings
                            (visitBy (remapLoop orders) sched)
                   end)
                  (fun _ => bind refreshContainers (fun _ => ret tt))
                  (drawn k w))
  /\ (~ everyBoundInRange (store w) portBindings ->
      rangeWidth (store w) <= 0 ->
      ((exists key, relocates (store w) id portBindings key) ->
         handleContainerStart orders id w
         = Panicked "invalid argument to Intn" w)
      /\ ((forall key, ~ relocates (store w) id portBindings key) ->
          handleContainerStart orders id w
          = bind (addDynamicPortLabel id)
                 (fun _ => bind refreshContainers (fun _ => ret tt)) w)).
Proof.
  intros Hp Hl Hinspect Hhc Hpb Hne Hb.
  pose proof (handleContainerStart_unprocessed orders w id _ _ _
                Hp Hl Hinspect Hhc Hpb Hne) as Hhandler.
  destruct (boundOnce_first portBindings Hb) as [Hwf _].
  destruct (allInDynamicRange_done (store w)
              (visitBy (rangeLoop orders) portBindings) w
              (wellFormedBindings_visitBy _ _ Hwf))
    as (allIn & Eall & Hall).
  rewrite allBoundInRange_visitBy, <- boundOnce_range in Hall by done.
  rewrite (bind_done _ _ _ _ _ Eall) in Hhandler.
  split_and!.
  - intros Hin.
    apply (handleContainerStart_in_range orders w id _ _ _
             Hp Hl Hinspect Hhc Hpb Hne Hwf).
    by apply boundOnce_range.
  - intros Hout Hw. destruct allIn; [by destruct Hout; apply Hall |].
    destruct (scheduleRemaps_spec id
                (visitBy (conflictLoop orders) portBindings) w Hw
                (wellFormedBindings_visitBy _ _ Hwf))
      as (sched & k & E & Hs).
    exists sched, k. split_and!; try done.
    + intros key. by rewrite Hs, selected_visitBy, boundOnce_selected.
    + by rewrite Hhandler, (bind_done _ _ _ _ _ E).
  - intros Hout Hw. destruct allIn; [by destruct Hout; apply Hall |].
    destruct (scheduleLoop_empty_range id
                (visitBy (conflictLoop orders) portBindings) [] w Hw
                (wellFormedBindings_visitBy _ _ Hwf))
      as [[(k0 & Hsel) E] | [Hnone E]]; unfold scheduleRemaps in Hhandler.
    + split.
      * intros _. rewrite Hhandler. unfold bind at 1. by rewrite E.
      * intros Hno. destruct (Hno k0).
        by rewrite boundOnce_selected, <- selected_visitBy.
    + split.
      * intros (k0 & Hrel). destruct (Hnone k0).
        by rewrite selected_visitBy, <- boundOnce_selected.
      * intros _. by rewrite Hhandler, (bind_done _ _ _ _ _ E).
Qed.

End StartFacts.

Section RemapFacts.
Context {R : Type} `{!Runtime R}.
Implicit Types w : @World R.

Lemma readOnly_ret {A} (a : A) : readOnly (R := R) (ret a).
Proof. by intros w. Qed.

Lemma readOnly_panic {A} msg : readOnly (@panic R A msg).
Proof. by intros w. Qed.

Lemma readOnly_query {A} (f : R -> A) : readOnly (query f).
Proof. by intros w. Qed.

Lemma readOnly_getStore : readOnly (@getStore R).
Proof. by intros w. Qed.

Lemma readOnly_must {A} (o : option A) msg : readOnly (R := R) (must o msg).
Proof. by destruct o. Qed.

Lemma readOnly_bind {A B} (m : @Go R A) (k : A -> @Go R B) :
  readOnly m -> (forall a, readOnly (k a)) -> readOnly (bind m k).
Proof.
  intros Hm Hk w. unfold bind. specialize (Hm w).
  destruct (m w) as [a w1|msg w1]; simpl in Hm; subst; [apply Hk | done].
Qed.

Lemma readOnly_mapM {A B} (f : A -> @Go R B) l :
  (forall a, readOnly (f a)) -> readOnly (mapM f l).
Proof.
  intros Hf. induction l as [|x l IH]; simpl.
  - apply readOnly_ret.
  - apply readOnly_bind; [apply Hf |]. intros y.
    apply readOnly_bind; [apply IH |]. intros ys. apply readOnly_ret.
Qed.

Lemma readOnly_forEach {A B} (f : B -> A -> @Go R B) l :
  (forall b a, readOnly (f b a)) -> forall acc, readOnly (forEach f acc l).
Proof.
  intros Hf. induction l as [|x l IH]; intros acc; simpl.
  - apply readOnly_ret.
  - apply readOnly_bind; [apply Hf | apply IH].
Qed.

Lemma readOnly_done {A} (m : @Go R A) w a w' :
  readOnly m -> m w = Done a w' -> w' = w.
Proof. intros Hm E. specialize (Hm w). by rewrite E in Hm. Qed.

Lemma readOnly_panicked {A} (m : @Go R A) w msg w' :
  readOnly m -> m w = Panicked msg w' -> w' = w.
Proof. intros Hm E. specialize (Hm w). by rewrite E in Hm. Qed.

Ltac read_only :=
  repeat first
    [ apply readOnly_ret | apply readOnly_panic | apply readOnly_query
    | apply readOnly_getStore | apply readOnly_must
    | apply readOnly_mapM; intros ?
    | apply readOnly_forEach; intros ? ?
    | apply readOnly_bind; [| intros ?]
    | match goal with
      | |- readOnly (match ?x with _ => _ end) => destruct x
      | |- readOnly (if ?x then _ else _) => destruct x
      | |- readOnly (let '(_, _) := ?x in _) => destruct x
      end ].

Lemma readOnly_readBinding b : readOnly (R := R) (readBinding b).
Proof. unfold readBinding. read_only. Qed.

Lemma readOnly_collectRunArgs id newHostPort containerPort protocol info :
  readOnly (collectRunArgs id newHostPort containerPort protocol info).
Proof.
  unfold collectRunArgs, extractLabel, volumeArgsOf, keptBindings.
  read_only. all: try apply readOnly_readBinding.
Qed.

Lemma created_app l1 l2 : created (l1 ++ l2) = created l1 ++ created l2.
Proof. unfold created. by rewrite filter_app, map_app. Qed.

Lemma created_cons_other i l : isRun i = false -> created (i :: l) = created l.
Proof.
  intros Hi. unfold created. rewrite filter_cons.
  destruct (decide (isRun i = true)); [congruence | done].
Qed.

Lemma created_cons_run i l :
  isRun i = true -> created (i :: l) = TrimSpace (inv_out i) :: created l.
Proof.
  intros Hi. unfold created. rewrite filter_cons.
  destruct (decide (isRun i = true)); [done | congruence].
Qed.

Lemma grows_refl w : grows w w.
Proof. constructor; [done |]. exists nil. split; [done | intros ? []]. Qed.

Lemma grows_trans w1 w2 w3 : grows w1 w2 -> grows w2 w3 -> grows w1 w3.
Proof.
  intros [P1 (new1 & I1 & C1)] [P2 (new2 & I2 & C2)]. constructor.
  - intros id Hid. by apply P2, P1.
  - exists (new2 ++ new1). split; [by rewrite I2, I1, app_assoc |].
    intros id. rewrite created_app, in_app_iff.
    intros [Hin | Hin]; [by apply C2 | by apply P2, C1].
Qed.

Lemma marksOnly_grows w w' : marksOnly w w' -> grows w w'.
Proof.
  intros M. constructor; [apply M |].
  destruct (mo_invocations _ _ M) as (new & Hnew & F).
  exists new. split; [done |].
  assert (Hc : created (invocations w') = created (invocations w)).
  { apply onlyLabelAttempts_created, M. }
  rewrite Hnew, created_app in Hc.
  destruct (created new); [intros ? [] |].
  apply (f_equal (@length string)) in Hc. rewrite length_app in Hc.
  simpl in Hc. lia.
Qed.

(** A docker command that is not [run]: nothing is created, the store is
    untouched. *)
Lemma docker_other verb rest w :
  verb <> "run" ->
  exists ok out w',
    docker (verb :: rest) w = Done (ok, out) w'
    /\ store w' = store w /\ snapshots w' = snapshots w
    /\ exists i, invocations w' = i :: invocations w /\ isRun i = false.
Proof.
  intros Hv. unfold docker.
  destruct (docker_exec (runtime w) (verb :: rest)) as [r [ok out]].
  eexists ok, out, _. split; [reflexivity |]. simpl. split_and!; try done.
  eexists. split; [reflexivity |]. unfold isRun. simpl.
  by rewrite bool_decide_eq_false_2.
Qed.

Lemma replaceContainer_spec id runArgs w :
  exists e w',
    replaceContainer id runArgs w = Done e w'
    /\ grows w w'
    /\ (exists later, snapshots w' = later ++ snapshots w)
    /\ (e = None ->
        exists i rest, invocations w' = i :: rest /\ isRun i = true
          /\ processedContainers (store w') !! TrimSpace (inv_out i)
             = Some true).
Proof.
  unfold replaceContainer.
  destruct (docker_other "stop" ["--time"; "10"; id] w ltac:(done))
    as (stopped & o1 & w1 & E1 & S1 & N1 & i1 & I1 & R1).
  rewrite (bind_done _ _ _ _ _ E1).
  (* the world once the container is down, or the failure to bring it down *)
  assert (Hdown : exists (down : bool) w2 new,
    (if stopped then ret true
     else bind (docker ["kill"; id]) (fun x => let '(killed, _) := x in ret killed))
      w1 = Done down w2
    /\ store w2 = store w /\ snapshots w2 = snapshots w
    /\ invocations w2 = new ++ invocations w /\ created new = []).
  { destruct stopped.
    - exists true, w1, [i1].
      split_and!; [done | congruence | congruence | by rewrite I1
                  | by rewrite created_cons_other].
    - destruct (docker_other "kill" [id] w1 ltac:(done))
        as (killed & o2 & w2 & E2 & S2 & N2 & i2 & I2 & R2).
      rewrite (bind_done _ _ _ _ _ E2).
      exists killed, w2, [i2; i1].
      split_and!; [done | congruence | congruence | by rewrite I2, I1
                  | by rewrite !created_cons_other]. }
  destruct Hdown as (down & w2 & new2 & E2 & S2 & N2 & I2 & C2).
  rewrite (bind_done _ _ _ _ _ E2).
  assert (Hquiet : forall w' new,
    store w' = store w -> invocations w' = new ++ invocations w ->
    created new = [] -> grows w w').
  { intros w' new Hs Hi Hc. constructor; [by rewrite Hs |].
    exists new. split; [done |]. rewrite Hc. intros ? []. }
  destruct down; simpl.
  2:{ exists (Some "failed to stop/kill container"), w2.
      split_and!; try done; [by eapply Hquiet | exists nil; by rewrite N2]. }
  destruct (docker_other "rm" [id] w2 ltac:(done))
    as (removed & o3 & w3 & E3 & S3 & N3 & i3 & I3 & R3).
  rewrite (bind_done _ _ _ _ _ E3).
  assert (I3' : invocations w3 = (i3 :: new2) ++ invocations w)
    by (by rewrite I3, I2).
  assert (C3 : created (i3 :: new2) = []) by (by rewrite created_cons_other).
  destruct removed; simpl.
  2:{ exists (Some "failed to remove container"), w3.
      split_and!; try done.
      - eapply Hquiet; [| exact I3' | exact C3]. congruence.
      - exists nil. simpl. congruence. }
  unfold bind at 1, docker at 1.
  destruct (docker_exec (runtime w3) ("run" :: "-d" :: runArgs))
    as [r [created0 out]].
  destruct created0; simpl.
  2:{ eexists _, _. split; [reflexivity |]. simpl. split_and!; try done.
      - eapply Hquiet with (new := _ :: i3 :: new2); simpl.
        + congruence.
        + by rewrite I3'.
        + rewrite created_cons_other; [exact C3 | done].
      - exists nil. simpl. congruence. }
  eexists None, _. split; [reflexivity |]. simpl. split_and!.
  - constructor; simpl.
    + intros id' Hid. rewrite S3, S2.
      destruct (decide (TrimSpace out = id')) as [->|Hne];
        [apply lookup_insert_eq | by rewrite lookup_insert_ne].
    + eexists (_ :: i3 :: new2). split; [by rewrite I3' |].
      rewrite created_cons_run by done. rewrite C3. simpl.
      intros id' [<- | []]. apply lookup_insert_eq.
  - eexists [_]. simpl. by rewrite N3, N2.
  - intros _. eexists _, _. split; [reflexivity |]. split; [done |].
    simpl. apply lookup_insert_eq.
Qed.

Lemma remapContainerPort_spec id old new cp q w :
  (exists later,
     snapshots (afterwards (remapContainerPort id old new cp q w))
     = later ++ setProcessed id (store w) :: snapshots w)
  /\ processedContainers
       (store (afterwards (remapContainerPort id old new cp q w))) !! id
     = Some true
  /\ grows w (afterwards (remapContainerPort id old new cp q w))
  /\ (forall w', remapContainerPort id old new cp q w = Done None w' ->
        exists i rest, invocations w' = i :: rest /\ isRun i = true
          /\ processedContainers (store w') !! TrimSpace (inv_out i)
             = Some true).
Proof.
  remember (remapContainerPort id old new cp q w) as o eqn:Ho.
  unfold remapContainerPort in Ho.
  destruct (addDynamicPortLabel_marks id w)
    as (w1 & E1 & M1 & P1 & S1 & mid & N1).
  rewrite (bind_done _ _ _ _ _ E1) in Ho.
  unfold bind at 1 in Ho. rewrite query_done in Ho.
  assert (Hstop :
    (exists later, snapshots w1 = later ++ setProcessed id (store w) :: snapshots w)
    /\ processedContainers (store w1) !! id = Some true
    /\ grows w w1
    /\ forall msg w',
         Done (A := error) (Some msg) w1 = Done None w' ->
         exists i rest, invocations w' = i :: rest /\ isRun i = true
           /\ processedContainers (store w') !! TrimSpace (inv_out i)
              = Some true).
  { split_and!; [by exists mid | done | by apply marksOnly_grows | intros ? ? [=]]. }
  destruct Hstop as (H1 & H2 & H3 & H4).
  destruct (docker_inspect (runtime w1) id) as [| |[|info rest]];
    simpl in Ho.
  1,2,3: subst o; split_and!; [exact H1 | exact H2 | exact H3 | apply H4].
  pose proof (readOnly_collectRunArgs id new cp q info w1) as Hro.
  unfold bind in Ho.
  destruct (collectRunArgs id new cp q info w1) as [args w2|msg w2];
    simpl in Hro; subst w2.
  2:{ subst o. simpl. split_and!; [exact H1 | exact H2 | exact H3 | intros ? [=]]. }
  destruct (replaceContainer_spec id args w1)
    as (e & w' & E & G & (later & N) & Hnew).
  rewrite E in Ho. subst o. simpl. split_and!.
  - exists (later ++ mid). by rewrite N, N1, app_assoc.
  - by apply G.
  - eapply grows_trans; [by apply marksOnly_grows | exact G].
  - intros w'' [= -> <-]. by apply Hnew.
Qed.

End RemapFacts.

Section ChainFacts.
Context {R : Type} `{!Runtime R}.
Implicit Types w : @World R.

Lemma remapEntry_grows id pb entry w w' :
  remapEntry id pb tt entry w = Done tt w' -> grows w w'.
Proof.
  destruct entry as [key newHostPort]. unfold remapEntry.
  repeat (match goal with
          | |- context [must ?o _] => destruct o; simpl; [| by intros [=]]
          end; rewrite (bind_done _ _ _ _ _ eq_refl)).
  unfold bind.
  match goal with
  | |- context [remapContainerPort id ?old newHostPort ?cp ?q w] =>
      pose proof (remapContainerPort_spec id old newHostPort cp q w)
        as (_ & _ & G & _);
      destruct (remapContainerPort id old newHostPort cp q w);
        [| by intros [=]]
  end.
  by intros [= <-].
Qed.

Lemma remapScheduled_grows id pb sched : forall w w',
  remapScheduled id pb sched w = Done tt w' -> grows w w'.
Proof.
  unfold remapScheduled.
  induction sched as [|entry sched IH]; intros w w'; simpl.
  - intros [= <-]. apply grows_refl.
  - unfold bind.
    destruct (remapEntry id pb tt entry w) as [[] w1|] eqn:E1; [| by intros [=]].
    intros E2. eapply grows_trans; [by eapply remapEntry_grows | by apply IH].
Qed.

Lemma grows_drawn k w : grows w (drawn k w).
Proof. constructor; [done |]. exists nil. split; [done | intros ? []]. Qed.

Lemma allocateAttempts_draws n w p w' :
  allocateAttempts n w = Done p w' -> exists k : nat, w' = drawn k w.
Proof.
  intros E. destruct (Z.lt_ge_cases 0 (rangeWidth (store w))) as [Hw | Hw].
  - destruct (allocateAttempts_done n w Hw) as (k & Ek & _).
    rewrite Ek in E. injection E as _ <-. by eexists.
  - rewrite allocateAttempts_panics in E by lia. done.
Qed.

Lemma checkPortCollision_draws id hostPort q w x w' :
  checkPortCollision id hostPort q w = Done x w' -> exists k : nat, w' = drawn k w.
Proof.
  unfold checkPortCollision. destruct (Atoi hostPort) as [p ok].
  destruct ok; simpl.
  2:{ intros [= _ <-]. exists 0%nat. by rewrite drawn_0. }
  unfold bind at 1, getStore.
  assert (Halloc : forall w0 w'0 x0,
    bind allocateRandomPort (fun newPort => ret (true, Itoa newPort)) w0
    = Done x0 w'0 -> exists k : nat, w'0 = drawn k w0).
  { intros w0 w'0 x0. unfold bind.
    destruct (allocateRandomPort w0) as [p0 w1|] eqn:Ea; [| by intros [=]].
    intros [= _ <-]. by eapply allocateAttempts_draws. }
  destruct ((portRangeMin (store w) <=? p) && (p <=? portRangeMax (store w))).
  - unfold bind at 1, isPortUsedByOtherContainer, bind at 1, getStore, ret at 1.
    destruct (usedByOther (store w) id p q); [apply Halloc |].
    intros [= _ <-]. exists 0%nat. by rewrite drawn_0.
  - apply Halloc.
Qed.

Lemma scheduleEntry_draws id acc entry w acc' w' :
  scheduleEntry id acc entry w = Done acc' w' -> exists k : nat, w' = drawn k w.
Proof.
  destruct entry as [key bindings].
  unfold scheduleEntry, bind at 1, firstHostPort.
  assert (Hsame : Done acc w = Done acc' w' -> exists k : nat, w' = drawn k w).
  { intros [= _ <-]. exists 0%nat. by rewrite drawn_0. }
  destruct (firstBinding bindings) as [| |hp]; simpl; [done | by intros [=] |].
  destruct (Split key "/") as [|cp [|q [|? ?]]]; try done.
  unfold bind.
  destruct (checkPortCollision id hp q w) as [[b newPort] w1|] eqn:E;
    [| by intros [=]].
  apply checkPortCollision_draws in E as [k ->].
  destruct b; intros [= _ <-]; by exists k.
Qed.

Lemma scheduleRemaps_draws id pb w sched w' :
  scheduleRemaps id pb w = Done sched w' -> exists k : nat, w' = drawn k w.
Proof.
  unfold scheduleRemaps. generalize (@nil (string * string)) as acc.
  revert w. induction pb as [|entry pb IH]; intros w acc; simpl.
  - intros [= _ <-]. exists 0%nat. by rewrite drawn_0.
  - unfold bind.
    destruct (scheduleEntry id acc entry w) as [acc1 w1|] eqn:E1;
      [| by intros [=]].
    apply scheduleEntry_draws in E1 as [k1 ->].
    intros E2. apply IH in E2 as [k2 ->].
    exists (k1 + k2)%nat. by rewrite drawn_drawn.
Qed.

Lemma readOnly_firstHostPort b : readOnly (R := R) (firstHostPort b).
Proof. unfold firstHostPort. by destruct (firstBinding b). Qed.

Lemma readOnly_allInDynamicRange s pb : readOnly (R := R) (allInDynamicRange s pb).
Proof.
  induction pb as [|[key b] pb IH]; simpl.
  - apply readOnly_ret.
  - apply readOnly_bind; [apply readOnly_firstHostPort |].
    intros [hp|]; [| done]. destruct (inDynamicRange s hp); [done |].
    apply readOnly_ret.
Qed.

(** What a start event leaves behind when it returns: processed marks
    are kept and cover every container it created, up to a final
    refresh. *)
Lemma handleContainerStart_grows orders id w w1 :
  handleContainerStart orders id w = Done tt w1 ->
  exists w0, grows w w0
    /\ (w1 = w0 \/ exists e, refreshContainers w0 = Done e w1).
Proof.
  unfold handleContainerStart.
  rewrite (bind_done _ _ _ _ _ (extractLabel_done _ _ w)).
  destruct (isContainerProcessed_marks id w)
    as (b & wp & Ep & Mp & _).
  rewrite (bind_done _ _ _ _ _ Ep).
  apply marksOnly_grows in Mp.
  assert (Hrefresh : forall w0,
    grows w w0 ->
    bind refreshContainers (fun _ => ret tt) w0 = Done tt w1 ->
    exists w0', grows w w0'
      /\ (w1 = w0' \/ exists e, refreshContainers w0' = Done e w1)).
  { intros w0 G. unfold bind.
    destruct (refreshContainers w0) as [e w2|] eqn:Er; [| by intros [=]].
    intros [= <-]. exists w0. split; [done |]. right. by exists e. }
  assert (Hret : Done tt wp = Done tt w1 ->
    exists w0, grows w w0
      /\ (w1 = w0 \/ exists e, refreshContainers w0 = Done e w1)).
  { intros [= <-]. exists wp. split; [done | by left]. }
  destruct b; [by apply Hrefresh |].
  unfold bind at 1. rewrite query_done.
  destruct (docker_inspect_json (runtime wp) id) as [| |containerData];
    [done | done |].
  destruct (Dyn.asMap (Dyn.index containerData "HostConfig"))
    as [hostConfig|]; [| done].
  destruct (Dyn.asMap (Dyn.index hostConfig "PortBindings"))
    as [[|entry pb]|]; [done | | done].
  unfold bind at 1, getStore. unfold bind at 1.
  pose proof (readOnly_allInDynamicRange (store wp)
                (visitBy (rangeLoop orders) (entry :: pb)) wp) as Hro.
  destruct (allInDynamicRange (store wp)
              (visitBy (rangeLoop orders) (entry :: pb)) wp) as [allIn w2|];
    simpl in Hro; [subst w2 | by intros [=]].
  destruct allIn.
  - destruct (addDynamicPortLabel_marks id wp) as (w3 & E3 & M3 & _).
    rewrite (bind_done _ _ _ _ _ E3). apply Hrefresh.
    eapply grows_trans; [exact Mp | by apply marksOnly_grows].
  - unfold bind at 1.
    destruct (scheduleRemaps id (visitBy (conflictLoop orders) (entry :: pb))
                             wp) as [sched w3|] eqn:Es;
      [| by intros [=]].
    apply scheduleRemaps_draws in Es as [k ->].
    unfold bind at 1.
    destruct sched as [|s0 sched].
    + destruct (addDynamicPortLabel_marks id (drawn k wp)) as (w4 & E4 & M4 & _).
      rewrite E4. apply Hrefresh.
      eapply grows_trans; [exact Mp |].
      eapply grows_trans; [apply grows_drawn | by apply marksOnly_grows].
    + destruct (remapScheduled id (entry :: pb)
                  (visitBy (remapLoop orders) (s0 :: sched)) (drawn k wp))
        as [[] w4|] eqn:E4; [| by intros [=]].
      apply Hrefresh.
      eapply grows_trans; [exact Mp |].
      eapply grows_trans; [apply grows_drawn | by eapply remapScheduled_grows].
Qed.

Lemma handleContainerStart_processed orders id w :
  processedContainers (store w) !! id = Some true
  \/ labelOf (runtime w) id sentinelLabel = "true" ->
  exists w', handleContainerStart orders id w = Done tt w'
    /\ onlyLabelAttempts w w'.
Proof.
  intros Hp. unfold handleContainerStart.
  rewrite (bind_done _ _ _ _ _ (extractLabel_done _ _ w)).
  destruct (isContainerProcessed_marks id w)
    as (b & wp & Ep & Mp & _ & Ip & _ & _ & Hiff).
  rewrite (bind_done _ _ _ _ _ Ep).
  apply Hiff in Hp as ->.
  destruct (refreshContainers_total wp) as (e & w' & Er & (new & Hnew & F) & _).
  rewrite (bind_done _ _ _ _ _ Er).
  exists w'. split; [done |]. exists new. by rewrite Hnew, Ip.
Qed.

Lemma isContainerProcessed_memory id w :
  processedContainers (store w) !! id = Some true ->
  isContainerProcessed id w = Done true w.
Proof.
  intros Hp. unfold isContainerProcessed, bind, getStore. by rewrite Hp.
Qed.

(** A refresh keeps the mark of every container it still tracks. *)
Lemma refreshContainers_keeps_mark id w e w' :
  refreshContainers w = Done e w' ->
  processedContainers (store w) !! id = Some true ->
  is_Some (containers (store w') !! id) ->
  processedContainers (store w') !! id = Some true.
Proof.
  intros E Hp Hin.
  destruct (docker_ps (runtime w)) as [lines|] eqn:Hps.
  - destruct (refreshContainers_listed lines w Hps)
      as (fresh & w1 & w2 & _ & E2 & _ & S2 & _ & _ & _ & _ & _ & _ & C & _).
    rewrite E in E2. injection E2 as -> ->.
    rewrite S2 in Hin |- *. simpl in *. by apply C.
  - rewrite (refreshContainers_failed w Hps) in E. by injection E as _ <-.
Qed.

(** C1: once a container id is in the processed set, a start event for
    it only refreshes the store; a remap marks the old id in its first
    exclusive section, whatever happens afterwards, and marks the id of
    the container it created before it returns; so, when the start
    event of a container led to the creation of exactly one
    replacement, the start event of the replacement, still tracked or
    still labelled, creates nothing: one recreation in total.  All of
    it in whatever order the loops of the handler visit their maps. *)
Theorem restart_loop_absent :
  (forall orders w id,
     processedContainers (store w) !! id = Some true ->
     exists e w',
       refreshContainers w = Done e w'
       /\ handleContainerStart orders id w = Done tt w'
       /\ onlyLabelAttempts w w')
  /\ (forall w id old new cp q,
        (exists later,
           snapshots (afterwards (remapContainerPort id old new cp q w))
           = later ++ setProcessed id (store w) :: snapshots w)
        /\ processedContainers
             (store (afterwards (remapContainerPort id old new cp q w))) !! id
           = Some true
        /\ forall w',
             remapContainerPort id old new cp q w = Done None w' ->
             exists i rest,
               invocations w' = i :: rest /\ isRun i = true
               /\ processedContainers (store w') !! TrimSpace (inv_out i)
                  = Some true)
  /\ (forall orders orders' w (E E' : string) w1,
        handleContainerStart orders E w = Done tt w1 ->
        created (invocations w1) = E' :: created (invocations w) ->
        is_Some (containers (store w1) !! E')
        \/ labelOf (runtime w1) E' sentinelLabel = "true" ->
        exists w2,
          handleContainerStart orders' E' w1 = Done tt w2
          /\ onlyLabelAttempts w1 w2
          /\ created (invocations w2) = E' :: created (invocations w)).
Proof.
  split_and!.
  - intros orders w id Hp. unfold handleContainerStart.
    rewrite (bind_done _ _ _ _ _ (extractLabel_done _ _ w)).
    rewrite (bind_done _ _ _ _ _ (isContainerProcessed_memory id w Hp)).
    destruct (refreshContainers_total w) as (e & w' & Er & La & _).
    exists e, w'. rewrite (bind_done _ _ _ _ _ Er). by split_and!.
  - intros w id old new cp q.
    destruct (remapContainerPort_spec id old new cp q w) as (H1 & H2 & _ & H4).
    by split_and!.
  - intros orders orders' w E E' w1 Hstart Hcreated Hseen.
    destruct (handleContainerStart_grows orders E w w1 Hstart)
      as (w0 & [Gp (new & Hnew & Gc)] & Hw1).
    assert (Hc0 : created (invocations w1) = created (invocations w0)).
    { destruct Hw1 as [-> | [e Er]]; [done |].
      destruct (refreshContainers_total w0) as (e' & w' & Er' & La & _).
      rewrite Er in Er'. injection Er' as _ <-.
      by apply onlyLabelAttempts_created. }
    assert (Hmark0 : processedContainers (store w0) !! E' = Some true).
    { apply Gc. rewrite Hc0, Hnew, created_app in Hcreated.
      change (E' :: created (invocations w))
        with ([E'] ++ created (invocations w)) in Hcreated.
      apply app_inv_tail in Hcreated. rewrite Hcreated. by left. }
    assert (Hmark1 : processedContainers (store w1) !! E' = Some true
                     \/ labelOf (runtime w1) E' sentinelLabel = "true").
    { destruct Hseen as [Htracked | Hlabel]; [left | by right].
      destruct Hw1 as [-> | [e Er]]; [done |].
      by eapply refreshContainers_keeps_mark. }
    destruct (handleContainerStart_processed orders' E' w1 Hmark1)
      as (w2 & E2 & La).
    exists w2. split_and!; try done.
    by rewrite (onlyLabelAttempts_created _ _ La).
Qed.

End ChainFacts.

Section PanicFacts.
Context {R : Type} `{!Runtime R}.
Implicit Types w : @World R.

Lemma In_assign_other {V} (m : list (string * V)) k v k' v' :
  In (k', v') m -> k' <> k -> In (k', v') (Dyn.assign m k v).
Proof.
  induction m as [|[k0 v0] m IH]; simpl; [done |].
  intros [[= -> ->] | Hin] Hne.
  - rewrite bool_decide_eq_false_2 by done. by left.
  - case_bool_decide; [by right | right; by apply IH].
Qed.

(** The loop that turns the labels into arguments returns only if every
    value is a string. *)
Lemma labelArgs_done labels : forall acc w r w',
  forEach
    (fun (acc : list string) (kv : string * GoValue) =>
       bind (must (Dyn.asString (snd kv)) conversion)
            (fun v => ret (acc ++ ["--label"; fst kv +:+ "=" +:+ v])))
    acc labels w = Done r w' ->
  forall k v, In (k, v) labels -> Dyn.asString v <> None.
Proof.
  induction labels as [|[k0 v0] labels IH]; intros acc w r w'; simpl.
  - intros _ ? ? [].
  - unfold bind at 1, bind at 1.
    destruct (Dyn.asString v0) as [s0|] eqn:E0; simpl; [| by intros [=]].
    intros Hrest k v [[= <- <-] | Hin]; [congruence |].
    by eapply IH.
Qed.

Lemma collectRunArgs_done id newHostPort cp q info w args w' :
  collectRunArgs id newHostPort cp q info w = Done args w' ->
  ~ unexpectedInspect info.
Proof.
  unfold collectRunArgs.
  unfold bind at 1.
  destruct (Dyn.asString (Dyn.index info "Name")) as [name|] eqn:HName;
    simpl; [| by intros [=]].
  unfold bind at 1. destruct name as [|c name]; simpl; [by intros [=] |].
  rewrite (bind_done _ _ _ _ _ (extractLabel_done _ _ w)).
  unfold bind at 1.
  destruct (Dyn.asMap (Dyn.index info "Config")) as [config|] eqn:HConfig;
    simpl; [| by intros [=]].
  unfold bind at 1.
  destruct (Dyn.asString (Dyn.index config "Image")) as [image|] eqn:HImage;
    simpl; [| by intros [=]].
  unfold bind at 1.
  destruct (Dyn.asMap (Dyn.index info "HostConfig")) as [hostConfig|] eqn:HHost;
    simpl; [| by intros [=]].
  unfold bind at 1.
  destruct (Dyn.asString (Dyn.index hostConfig "NetworkMode"))
    as [networkMode|] eqn:HNet; simpl; [| by intros [=]].
  unfold bind at 1.
  destruct (Dyn.asSlice (Dyn.index config "Env")) as [env|] eqn:HEnv;
    simpl; [| by intros [=]].
  unfold bind at 1.
  destruct (mapM _ env w) as [envVars w1|]; [| by intros [=]].
  unfold bind at 1.
  destruct (volumeArgsOf info w1) as [volumeArgs w2|]; [| by intros [=]].
  unfold bind at 1.
  destruct (keptBindings hostConfig (portKey cp q) w2) as [kept w3|];
    [| by intros [=]].
  unfold bind at 1.
  destruct (Dyn.asMap (Dyn.index config "Labels")) as [labels|] eqn:HLabels;
    simpl; [| by intros [=]].
  unfold bind at 1.
  destruct (forEach _ [] (Dyn.assign labels sentinelLabel (GString "true")) w3)
    as [labelArgs w4|] eqn:HArgs; [| by intros [=]].
  intros _.
  pose proof (labelArgs_done _ _ _ _ _ HArgs) as Hstr.
  intros [? | [? | [? | [(config' & Hc & Hbad) | (hc' & Hh & ?)]]]];
    try congruence.
  rewrite HConfig in Hc. injection Hc as <-.
  destruct Hbad as [? | [? | [? | (labels' & k & v & Hl & Hin & Hne & Hv)]]];
    try congruence.
  rewrite HLabels in Hl. injection Hl as <-.
  apply (Hstr k v); [by apply In_assign_other | done].
Qed.

(** C9: when the inspection data lacks [Name], [Config], [Config.Image],
    [Config.Env], [Config.Labels], [HostConfig] or
    [HostConfig.NetworkMode] as a value of the asserted type, or has a
    label whose value is not a string, [remapContainerPort] does not
    return an error: it panics, after having marked the container. *)
Theorem remapContainerPort_panics_on_unexpected_inspect
    w id old new cp q w1 info rest :
  addDynamicPortLabel id w = Done tt w1 ->
  docker_inspect (runtime w1) id = Parsed (info :: rest) ->
  unexpectedInspect info ->
  exists msg, remapContainerPort id old new cp q w = Panicked msg w1.
Proof.
  intros Hmark Hinspect Hbad. unfold remapContainerPort.
  rewrite (bind_done _ _ _ _ _ Hmark).
  unfold bind at 1. rewrite query_done, Hinspect.
  pose proof (readOnly_collectRunArgs id new cp q info w1) as Hro.
  unfold bind.
  destruct (collectRunArgs id new cp q info w1) as [args w2|msg w2] eqn:E;
    simpl in Hro; subst w2.
  - by apply collectRunArgs_done in E.
  - by exists msg.
Qed.

End PanicFacts.

Section ComposeFacts.
Context {R : Type} `{!Runtime R}.
Implicit Types w : @World R.

Lemma holdsPort_any port q c :
  holdsPort port (Some q) c = true -> holdsPort port None c = true.
Proof.
  unfold holdsPort. rewrite !existsb_exists.
  intros (pm & Hin & Hpm). exists pm. split; [done |].
  apply andb_true_iff in Hpm as [Hp _]. by rewrite Hp.
Qed.

Lemma tracked_any s port q :
  tracked s port (Some q) = true -> tracked s port None = true.
Proof.
  unfold tracked. rewrite !existsb_exists.
  intros ([id c] & Hin & Hc). exists (id, c). split; [done |].
  by eapply holdsPort_any.
Qed.

Lemma conflicting_drawn k w p : conflicting (drawn k w) p = conflicting w p.
Proof. reflexivity. Qed.

(** One entry of a [ports] list: a remapping is recorded iff the entry
    has a numeric host port that is in conflict. *)
Lemma checkComposePort_spec svc acc pm w :
  0 < rangeWidth (store w) ->
  exists acc' (k : nat),
    checkComposePort svc acc pm w = Done acc' (drawn k w)
    /\ (forall key, is_Some (Dyn.lookup acc' key)
          <-> is_Some (Dyn.lookup acc key)
              \/ exists hostPort containerPort protocol p,
                   parseComposePort pm = (hostPort, containerPort, protocol)
                   /\ hostPort <> EmptyString /\ containerPort <> EmptyString
                   /\ Atoi hostPort = (p, true)
                   /\ conflicting w p = true
                   /\ key = svc +:+ ":" +:+ hostPort)
    /\ (forall key v, Dyn.lookup acc' key = Some v ->
          Dyn.lookup acc key = Some v
          \/ exists n : nat, v = Itoa (nthDraw w n)).
Proof.
  intros Hw. unfold checkComposePort.
  destruct (parseComposePort pm) as [[hp cp] proto] eqn:Hparse.
  assert (Hskip :
    ~ (exists p, hp <> EmptyString /\ cp <> EmptyString
                 /\ Atoi hp = (p, true) /\ conflicting w p = true) ->
    exists acc' (k : nat),
      Done acc w = Done acc' (drawn k w)
      /\ (forall key, is_Some (Dyn.lookup acc' key)
            <-> is_Some (Dyn.lookup acc key)
                \/ exists hostPort containerPort protocol p,
                     (hp, cp, proto) = (hostPort, containerPort, protocol)
                     /\ hostPort <> EmptyString /\ containerPort <> EmptyString
                     /\ Atoi hostPort = (p, true)
                     /\ conflicting w p = true
                     /\ key = svc +:+ ":" +:+ hostPort)
      /\ (forall key v, Dyn.lookup acc' key = Some v ->
            Dyn.lookup acc key = Some v
            \/ exists n : nat, v = Itoa (nthDraw w n))).
  { intros Hno. exists acc, 0%nat. rewrite drawn_0. split; [done |].
    split; [| by left].
    intros key. split; [by left |].
    intros [? | (? & ? & ? & p & [= <- <- <-] & ? & ? & ? & ? & _)]; [done |].
    destruct Hno. by exists p. }
  destruct (bool_decide (hp = EmptyString) || bool_decide (cp = EmptyString))
    eqn:Hempty.
  { apply Hskip. intros (p & Hh & Hc & _).
    apply orb_true_iff in Hempty as [He | He];
      apply bool_decide_eq_true in He; done. }
  apply orb_false_iff in Hempty as [Hh Hc].
  apply bool_decide_eq_false in Hh, Hc.
  destruct (Atoi hp) as [p ok] eqn:Ha. destruct ok; simpl.
  2:{ apply Hskip. intros (? & _ & _ & [=] & _). }
  unfold bind at 1, getStore.
  assert (Hin :
    (if tracked (store w) p (Some proto) then ret true
     else bind (isPortAvailable p) (fun free => ret (negb free))) w
    = Done (conflicting w p) w).
  { unfold conflicting. destruct (tracked (store w) p (Some proto)) eqn:Ht.
    - by rewrite (tracked_any _ _ _ Ht).
    - rewrite (bind_done _ _ _ _ _ (isPortAvailable_done p w)).
      unfold available, ret. f_equal.
      by destruct (tracked (store w) p None), (listen_ok w p). }
  rewrite (bind_done _ _ _ _ _ Hin).
  destruct (conflicting w p) eqn:Hconf.
  - destruct (allocateRandomPort_first_fit w Hw) as (k & E & _).
    rewrite (bind_done _ _ _ _ _ E).
    eexists _, (S k). split; [reflexivity |]. split.
    + intros key. rewrite In_assign_key. split.
      * intros [-> | ?]; [right | by left].
        by exists hp, cp, proto, p.
      * intros [? | (? & ? & ? & ? & [= <- <- <-] & _ & _ & _ & _ & ->)];
          [by right | by left].
    + intros key v. rewrite lookup_assign.
      case_bool_decide; [intros [= <-]; right; by exists k | by left].
  - apply Hskip. intros (p' & _ & _ & [= <-] & ?). congruence.
Qed.

Lemma checkComposePorts_spec svc ports : forall acc w,
  0 < rangeWidth (store w) ->
  exists acc' (k : nat),
    forEach (checkComposePort svc) acc ports w = Done acc' (drawn k w)
    /\ (forall key, is_Some (Dyn.lookup acc' key)
          <-> is_Some (Dyn.lookup acc key)
              \/ exists pm hostPort containerPort protocol p,
                   In pm ports
                   /\ parseComposePort pm = (hostPort, containerPort, protocol)
                   /\ hostPort <> EmptyString /\ containerPort <> EmptyString
                   /\ Atoi hostPort = (p, true)
                   /\ conflicting w p = true
                   /\ key = svc +:+ ":" +:+ hostPort)
    /\ (forall key v, Dyn.lookup acc' key = Some v ->
          Dyn.lookup acc key = Some v
          \/ exists n : nat, v = Itoa (nthDraw w n)).
Proof.
  induction ports as [|pm ports IH]; intros acc w Hw; simpl.
  - exists acc, 0%nat. rewrite drawn_0. split; [done |]. split; [| by left].
    intros key. split; [by left | intros [? | (? & ? & ? & ? & ? & [] & _)]; done].
  - destruct (checkComposePort_spec svc acc pm w Hw) as (acc1 & k1 & E1 & H1 & V1).
    rewrite (bind_done _ _ _ _ _ E1).
    destruct (IH acc1 (drawn k1 w) Hw) as (acc2 & k2 & E2 & H2 & V2).
    exists acc2, (k1 + k2)%nat. rewrite drawn_drawn in E2. split; [exact E2 |].
    split.
    2:{ intros key v Hv. destruct (V2 key v Hv) as [Hv1 | [n ->]].
        - by apply V1.
        - right. exists (k1 + n)%nat. by rewrite nthDraw_drawn. }
    intros key. rewrite H2, H1. split.
    + intros [[? | (hp & cp & q & p & ?)] | (pm' & hp & cp & q & p & Hin & ?)].
      * by left.
      * right. exists pm, hp, cp, q, p. split; [by left | done].
      * right. exists pm', hp, cp, q, p. split; [by right | done].
    + intros [? | (pm' & hp & cp & q & p & [<- | Hin] & ?)].
      * left. by left.
      * left. right. by exists hp, cp, q, p.
      * right. by exists pm', hp, cp, q, p.
Qed.

Lemma checkComposeServices_spec services : forall acc w,
  0 < rangeWidth (store w) ->
  exists acc' (k : nat),
    forEach
      (fun (acc : list (string * string)) (svc : string * GoValue) =>
         let '(serviceName, serviceConfig) := svc in
         match Dyn.asMap serviceConfig with
         | None => ret acc
         | Some serviceMap =>
             match Dyn.asSlice (Dyn.index serviceMap "ports") with
             | None => ret acc
             | Some ports => forEach (checkComposePort serviceName) acc ports
             end
         end)
      acc services w = Done acc' (drawn k w)
    /\ (forall key, is_Some (Dyn.lookup acc' key)
          <-> is_Some (Dyn.lookup acc key) \/ conflictKey w services key)
    /\ (forall key v, Dyn.lookup acc' key = Some v ->
          Dyn.lookup acc key = Some v
          \/ exists n : nat, v = Itoa (nthDraw w n)).
Proof.
  induction services as [|[svc cfg] services IH]; intros acc w Hw; simpl.
  - exists acc, 0%nat. rewrite drawn_0. split; [done |]. split; [| by left].
    intros key. split; [by left |].
    intros [? | (? & ? & ? & ? & ? & ? & (? & ? & ? & [] & _) & _)]. done.
  - assert (Hhere : exists acc1 (k1 : nat),
      match Dyn.asMap cfg with
      | None => ret acc
      | Some serviceMap =>
          match Dyn.asSlice (Dyn.index serviceMap "ports") with
          | None => ret acc
          | Some ports => forEach (checkComposePort svc) acc ports
          end
      end w = Done acc1 (drawn k1 w)
      /\ (forall key, is_Some (Dyn.lookup acc1 key)
            <-> is_Some (Dyn.lookup acc key)
                \/ exists serviceMap ports pm hostPort containerPort protocol p,
                     Dyn.asMap cfg = Some serviceMap
                     /\ Dyn.asSlice (Dyn.index serviceMap "ports") = Some ports
                     /\ In pm ports
                     /\ parseComposePort pm = (hostPort, containerPort, protocol)
                     /\ hostPort <> EmptyString /\ containerPort <> EmptyString
                     /\ Atoi hostPort = (p, true)
                     /\ conflicting w p = true
                     /\ key = svc +:+ ":" +:+ hostPort)
      /\ (forall key v, Dyn.lookup acc1 key = Some v ->
            Dyn.lookup acc key = Some v
            \/ exists n : nat, v = Itoa (nthDraw w n))).
    { destruct (Dyn.asMap cfg) as [serviceMap|] eqn:Hm.
      2:{ exists acc, 0%nat. rewrite drawn_0. split; [done |].
          split; [| by left].
          intros key. split; [by left | intros [? | (? & ? & ? & ? & ? & ? & ? & [=] & _)]; done]. }
      destruct (Dyn.asSlice (Dyn.index serviceMap "ports")) as [ports|] eqn:Hp.
      2:{ exists acc, 0%nat. rewrite drawn_0. split; [done |].
          split; [| by left].
          intros key. split; [by left |].
          intros [? | (? & ? & ? & ? & ? & ? & ? & [= <-] & Hp' & _)]; [done |].
          congruence. }
      destruct (checkComposePorts_spec svc ports acc w Hw)
        as (acc1 & k1 & E1 & H1 & V1).
      exists acc1, k1. split; [done |]. split; [| done].
      intros key. rewrite H1. split.
      - intros [? | (pm & hp & cp & q & p & ?)]; [by left |].
        right. by exists serviceMap, ports, pm, hp, cp, q, p.
      - intros [? | (? & ? & pm & hp & cp & q & p & [= <-] & Hp' & ?)]; [by left |].
        rewrite Hp in Hp'. injection Hp' as <-.
        right. by exists pm, hp, cp, q, p. }
    destruct Hhere as (acc1 & k1 & E1 & H1 & V1).
    rewrite (bind_done _ _ _ _ _ E1).
    destruct (IH acc1 (drawn k1 w) Hw) as (acc2 & k2 & E2 & H2 & V2).
    exists acc2, (k1 + k2)%nat. rewrite drawn_drawn in E2. split; [exact E2 |].
    split.
    2:{ intros key v Hv. destruct (V2 key v Hv) as [Hv1 | [n ->]].
        - by apply V1.
        - right. exists (k1 + n)%nat. by rewrite nthDraw_drawn. }
    intros key. rewrite H2, H1. unfold conflictKey, declared. split.
    + intros [[? | (sm & ports & pm & hp & cp & q & p & ? & ? & ? & ?)]
             | (svc' & pm & hp & cp & q & p & (sc & sm & ports & Hin & ?) & ?)].
      * by left.
      * right. exists svc, pm, hp, cp, q, p. split; [| done].
        exists cfg, sm, ports. split; [by left | done].
      * right. exists svc', pm, hp, cp, q, p. split; [| done].
        exists sc, sm, ports. split; [by right | done].
    + intros [? | (svc' & pm & hp & cp & q & p
                   & (sc & sm & ports & [[= <- <-] | Hin] & ? & ? & ?) & ?)].
      * left. by left.
      * left. right. by exists sm, ports, pm, hp, cp, q, p.
      * right. exists svc', pm, hp, cp, q, p. split; [| done].
        by exists sc, sm, ports.
Qed.

(** The pre-planner records a remapping for exactly the declared
    entries whose host port is in conflict. *)
Lemma CheckComposePortConflicts_spec file config services w :
  compose_config (runtime w) file = Parsed config ->
  Dyn.asMap (Dyn.index config "services") = Some services ->
  0 < rangeWidth (store w) ->
  exists remappings (k : nat),
    CheckComposePortConflicts file w = Done (remappings, None) (drawn k w)
    /\ (forall key, is_Some (Dyn.lookup remappings key)
                    <-> conflictKey w services key)
    /\ (forall key v, Dyn.lookup remappings key = Some v ->
          exists n : nat, v = Itoa (nthDraw w n)).
Proof.
  intros Hcfg Hsvc Hw. unfold CheckComposePortConflicts.
  unfold bind at 1. rewrite query_done, Hcfg, Hsvc.
  destruct (checkComposeServices_spec services [] w Hw)
    as (acc & k & E & Hacc & Vacc).
  rewrite (bind_done _ _ _ _ _ E).
  exists acc, k. split; [done |]. split.
  - intros key. rewrite Hacc. simpl. split; [| tauto].
    intros [[? ?] | ?]; done.
  - intros key v Hv. by destruct (Vacc key v Hv).
Qed.

End ComposeFacts.

Section SplitFacts.

Lemma append_nil (b : string) : EmptyString +:+ b = b.
Proof. reflexivity. Qed.

Lemma append_cons x (a b : string) : String x a +:+ b = String x (a +:+ b).
Proof. reflexivity. Qed.

Lemma append_assoc (a b c : string) : (a +:+ b) +:+ c = a +:+ (b +:+ c).
Proof.
  induction a as [|x a IH]; [done |]. rewrite !append_cons. by f_equal.
Qed.

Lemma Split_nonempty s c : Split s c <> [].
Proof.
  destruct s as [|a s]; simpl; [done |].
  case_bool_decide; [done |]. by destruct (Split s c).
Qed.

Lemma without_cons c a s :
  without c (String a s) <-> a <> c /\ without c s.
Proof. unfold without. simpl. tauto. Qed.

Lemma Split_fields_without s c : forall f, In f (Split s c) -> without c f.
Proof.
  induction s as [|a s IH]; simpl; intros f.
  - intros [<- | []]. by intros [].
  - case_bool_decide as Ha.
    + intros [<- | Hin]; [by intros [] | by apply IH].
    + destruct (Split s c) as [|f0 fs] eqn:E; [by destruct (Split_nonempty s c) |].
      intros [<- | Hin].
      * apply without_cons. split; [done |]. apply IH. by left.
      * apply IH. by right.
Qed.

Lemma Split_single s c a : Split s c = [a] -> s = a.
Proof.
  revert a. induction s as [|x s IH]; simpl; intros a.
  - by intros [= <-].
  - case_bool_decide as Hx.
    + intros [= <- Hs]. by destruct (Split_nonempty s c).
    + destruct (Split s c) as [|f0 [|f1 fs]] eqn:E.
      * by destruct (Split_nonempty s c).
      * intros [= <-]. by rewrite (IH f0 eq_refl).
      * by intros [=].
Qed.

Lemma Split_cons s c : forall a b l,
  Split s c = a :: b :: l ->
  exists t, s = a +:+ String c t /\ Split t c = b :: l.
Proof.
  induction s as [|x s IH]; simpl; intros a b l.
  - by intros [=].
  - case_bool_decide as Hx.
    + intros [= <- Hs]. subst x. by exists s.
    + destruct (Split s c) as [|f0 fs] eqn:E; [by intros [=] |].
      intros [= <- Hfs]. subst fs.
      destruct (IH f0 b l eq_refl) as (t & -> & Ht).
      exists t. by rewrite append_cons.
Qed.

Lemma Split_two s c a b : Split s c = [a; b] -> s = a +:+ String c b.
Proof.
  intros Hs. destruct (Split_cons s c a b [] Hs) as (t & -> & Ht).
  by rewrite (Split_single t c b Ht).
Qed.

Lemma Split_app c a : forall t,
  without c a -> Split (a +:+ String c t) c = a :: Split t c.
Proof.
  induction a as [|x a IH]; intros t Hw.
  - rewrite append_nil. simpl. by rewrite bool_decide_eq_true_2.
  - apply without_cons in Hw as [Hx Hw]. rewrite append_cons. simpl.
    rewrite bool_decide_eq_false_2 by done. by rewrite IH.
Qed.

Lemma HasPrefix_app p : forall t, HasPrefix (p +:+ t) p = true.
Proof.
  induction p as [|x p IH]; intros t.
  - rewrite append_nil. by destruct t.
  - rewrite append_cons. simpl. by rewrite bool_decide_eq_true_2, IH.
Qed.

Lemma HasPrefix_inv p : forall s, HasPrefix s p = true -> exists t, s = p +:+ t.
Proof.
  induction p as [|x p IH]; simpl; intros s.
  - intros _. by exists s.
  - destruct s as [|y s]; [done |]. intros Hp.
    apply andb_true_iff in Hp as [Hx Hp]. apply bool_decide_eq_true in Hx as ->.
    destruct (IH s Hp) as [t ->]. exists t. by rewrite append_cons.
Qed.

Lemma first_field c a : forall a' x x',
  a +:+ String c x = a' +:+ String c x' ->
  without c a -> without c a' -> a = a' /\ x = x'.
Proof.
  induction a as [|y a IH]; intros [|y' a'] x x';
    rewrite ?append_nil, ?append_cons.
  - by intros [= <-].
  - intros [= <- _] _ Hw. apply without_cons in Hw as [? _]. done.
  - intros [= -> _] Hw _. apply without_cons in Hw as [? _]. done.
  - intros [= <- Heq] Hw Hw'.
    apply without_cons in Hw as [_ Hw]. apply without_cons in Hw' as [_ Hw'].
    destruct (IH a' x x' Heq Hw Hw') as [-> ->]. done.
Qed.

(** With a separator-free [old], a string has the prefix [old ++ sep]
    and splits in two iff its first field is [old]. *)
Lemma prefix_is_first_field c s old h rest :
  without c old ->
  Split s c = [h; rest] ->
  HasPrefix s (old +:+ String c EmptyString) = true <-> h = old.
Proof.
  intros Hold Hs. pose proof (Split_two s c h rest Hs) as ->.
  assert (Hh : without c h).
  { apply (Split_fields_without (h +:+ String c rest) c). rewrite Hs. by left. }
  split.
  - intros Hp. apply HasPrefix_inv in Hp as [t Ht].
    rewrite append_assoc, append_cons, append_nil in Ht.
    by destruct (first_field c h old rest t Ht Hh Hold).
  - intros ->.
    replace (old +:+ String c rest)
      with ((old +:+ String c EmptyString) +:+ rest)
      by (by rewrite append_assoc, append_cons, append_nil).
    apply HasPrefix_app.
Qed.

End SplitFacts.

Section RewriteFacts.

Lemma index_assign (m : GoObject) k v : Dyn.index (Dyn.assign m k v) k = v.
Proof.
  unfold Dyn.index. rewrite lookup_assign. by rewrite bool_decide_eq_true_2.
Qed.

Lemma index_assign_ne (m : GoObject) k v k' :
  k <> k' -> Dyn.index (Dyn.assign m k v) k' = Dyn.index m k'.
Proof.
  intros Hne. unfold Dyn.index. rewrite lookup_assign.
  by rewrite bool_decide_eq_false_2.
Qed.

Lemma Split_without c a : without c a -> Split a c = [a].
Proof.
  induction a as [|x a IH]; simpl; intros Hw; [done |].
  apply without_cons in Hw as [Hx Hw].
  rewrite bool_decide_eq_false_2 by done. by rewrite IH.
Qed.

Lemma Split_key svc old :
  without ":" svc -> without ":" old ->
  Split (svc +:+ ":" +:+ old) ":" = [svc; old].
Proof.
  intros Hs Ho. rewrite append_cons, append_nil.
  rewrite Split_app by done. by rewrite Split_without.
Qed.

(** An entry whose host port is not [old] is left as it is. *)
Lemma rewritePort_other old new pm :
  without ":" old -> old <> EmptyString ->
  hostOfEntry pm <> old -> rewritePort old new pm = pm.
Proof.
  intros Hold Hne. unfold hostOfEntry.
  destruct pm as [| | | |s| |m]; simpl; try done.
  - (* string form *)
    destruct (Split s ":") as [|h [|rest [|? ?]]] eqn:Hs; simpl;
      try (intros _; by destruct (HasPrefix s (old +:+ ":"))).
    intros Hh. destruct (HasPrefix s (old +:+ ":")) eqn:Hp; [| done].
    apply (prefix_is_first_field ":" s old h rest Hold Hs) in Hp. done.
  - (* table form *)
    destruct (Dyn.index m "published") as [| |z| |p| |] eqn:Hpub; simpl;
      rewrite ?Hpub; simpl; try done.
    + intros Hz. by rewrite bool_decide_eq_false_2.
    + intros Hp. rewrite bool_decide_eq_false_2 by done.
      by rewrite Hpub.
Qed.

(** An entry whose host port is [old] keeps its form and everything but
    the host port, which becomes [new]. *)
Lemma rewritePort_hit old new pm :
  without ":" old -> old <> EmptyString ->
  hostOfEntry pm = old ->
  match pm with
  | GString s =>
      exists rest, Split s ":" = [old; rest]
                   /\ rewritePort old new pm = GString (new +:+ ":" +:+ rest)
  | GMap m =>
      (Dyn.asString (Dyn.index m "published") = Some old
       /\ rewritePort old new pm
          = GMap (Dyn.assign m "published" (GString new)))
      \/ (exists z, Dyn.asInt (Dyn.index m "published") = Some z
                    /\ Itoa z = old
                    /\ rewritePort old new pm
                       = GMap (Dyn.assign m "published"
                                 (GInt (fst (Atoi new)))))
  | _ => False
  end.
Proof.
  intros Hold Hne. unfold hostOfEntry.
  destruct pm as [| | | |s| |m]; simpl; try (intros <-; done).
  - destruct (Split s ":") as [|h [|rest [|? ?]]] eqn:Hs; simpl;
      try (intros <-; done).
    intros ->. exists rest. split; [done |].
    by rewrite (proj2 (prefix_is_first_field ":" s old old rest Hold Hs) eq_refl).
  - destruct (Dyn.index m "published") as [| |z| |p| |] eqn:Hpub; simpl;
      rewrite ?Hpub; simpl; try (intros <-; done).
    + intros Hz. right. exists z. split; [done |]. split; [done |].
      by rewrite bool_decide_eq_true_2.
    + intros ->. left. split; [done |].
      rewrite bool_decide_eq_true_2 by done.
      by rewrite index_assign.
Qed.

(** After a hit the host port is the new port, in the form of the
    entry. *)
Lemma hostOfEntry_after_hit old new pm :
  without ":" old -> old <> EmptyString -> without ":" new ->
  hostOfEntry pm = old ->
  hostOfEntry (rewritePort old new pm) = new
  \/ hostOfEntry (rewritePort old new pm) = Itoa (fst (Atoi new)).
Proof.
  intros Hold Hne Hnew Hhit.
  pose proof (rewritePort_hit old new pm Hold Hne Hhit) as Hr.
  destruct pm as [| | | |s| |m]; try done.
  - destruct Hr as (rest & Hs & ->). left.
    assert (Hrest : without ":" rest).
    { apply (Split_fields_without s ":"). rewrite Hs. right. by left. }
    unfold hostOfEntry. simpl. by rewrite Split_key.
  - destruct Hr as [[_ ->] | (z & _ & _ & ->)]; unfold hostOfEntry; simpl;
      rewrite index_assign; simpl; [by left | by right].
Qed.

Lemma rewriteFor_key svc s old new pm :
  without ":" s -> without ":" old ->
  rewriteFor svc (s +:+ ":" +:+ old, new) pm
  = if bool_decide (s = svc) then rewritePort old new pm else pm.
Proof.
  intros Hs Ho. unfold rewriteFor. simpl. by rewrite Split_key.
Qed.

Lemma substituted_cons svc r rest pm :
  substituted svc (r :: rest) pm = substituted svc rest (rewriteFor svc r pm).
Proof. reflexivity. Qed.

(** Remappings that do not concern the host port of an entry leave it
    as it is. *)
Lemma substituted_stable svc rest : forall pm,
  (forall key new, In (key, new) rest ->
     exists s old, key = s +:+ ":" +:+ old
       /\ without ":" s /\ without ":" old /\ old <> EmptyString
       /\ (s = svc -> hostOfEntry pm <> old)) ->
  substituted svc rest pm = pm.
Proof.
  induction rest as [|[key new] rest IH]; intros pm Hrest; [done |].
  destruct (Hrest key new ltac:(by left)) as (s & old & -> & Hs & Ho & Hne & Hmiss).
  rewrite substituted_cons, rewriteFor_key by done.
  assert (Hsame : (if bool_decide (s = svc) then rewritePort old new pm else pm)
                  = pm).
  { case_bool_decide; [| done].
    apply (rewritePort_other old new pm); [done | done | by apply Hmiss]. }
  rewrite Hsame. apply IH. intros k n Hin. apply (Hrest k n). by right.
Qed.

Lemma key_inj s old s' old' :
  without ":" s -> without ":" s' ->
  s +:+ ":" +:+ old = s' +:+ ":" +:+ old' -> s = s' /\ old = old'.
Proof.
  intros Hs Hs'. rewrite !append_cons, !append_nil. intros Heq.
  by apply (first_field ":" s s' old old').
Qed.

(** Under plain remappings an entry is rewritten by the remapping
    recorded for its service and host port, if there is one, and is
    otherwise left as it is. *)
Lemma substituted_plain svc remappings : forall pm,
  without ":" svc ->
  plainRemappings remappings ->
  substituted svc remappings pm
  = match Dyn.lookup remappings (svc +:+ ":" +:+ hostOfEntry pm) with
    | Some new => rewritePort (hostOfEntry pm) new pm
    | None => pm
    end.
Proof.
  induction remappings as [|[key new] rest IH]; intros pm Hsvc Hplain; [done |].
  destruct Hplain as (Hnodup & Hkeys & Hchain).
  assert (Hplain' : plainRemappings rest).
  { split_and!.
    - by inversion Hnodup.
    - intros k n Hin. apply (Hkeys k n). by right.
    - intros k n s o n' Hin Hin'. apply (Hchain k n s o n'); by right. }
  destruct (Hkeys key new ltac:(by left)) as (Hnew & s & old & -> & Hs & Ho & Hne).
  rewrite substituted_cons, rewriteFor_key by done. simpl.
  destruct (decide (s = svc /\ hostOfEntry pm = old)) as [[-> Hhit] | Hmiss].
  - (* this remapping rewrites the entry; the later ones leave it *)
    rewrite !bool_decide_eq_true_2 by (by rewrite ?Hhit).
    rewrite Hhit. apply substituted_stable.
    intros k n Hin.
    destruct (Hkeys k n ltac:(by right)) as (_ & s' & old' & -> & Hs' & Ho' & Hne').
    exists s', old'. split_and!; try done. intros _.
    destruct (Hchain (svc +:+ ":" +:+ old) new s' old' n
                ltac:(by left) ltac:(by right)) as [Hc1 Hc2].
    destruct (hostOfEntry_after_hit old new pm Ho Hne Hnew Hhit) as [-> | ->];
      done.
  - (* this remapping leaves the entry; its key is not the entry's *)
    assert (Hsame : (if bool_decide (s = svc) then rewritePort old new pm else pm)
                    = pm).
    { case_bool_decide as Hsv; [| done].
      apply (rewritePort_other old new pm);
        [done | done | intros Hh; apply Hmiss; by split]. }
    rewrite Hsame, IH by done.
    rewrite bool_decide_eq_false_2; [done |].
    intros Heq. apply key_inj in Heq as [-> ->]; [| done | done].
    by apply Hmiss.
Qed.

(** One remapping rewrites the [ports] list of its service entry by
    entry and leaves the other lists alone. *)
Lemma portsOf_applyRemapping services remapping svc :
  portsOf (applyRemapping services remapping) svc
  = map (rewriteFor svc remapping) <$> portsOf services svc.
Proof.
  destruct remapping as [key new]. unfold applyRemapping, rewriteFor. simpl.
  assert (Hid : forall o : option (list GoValue), o = map (fun pm => pm) <$> o).
  { intros [l|]; simpl; [by rewrite map_id | done]. }
  destruct (Split key ":") as [|s [|old [|? ?]]]; try apply Hid.
  case_bool_decide as Hs.
  - subst s. unfold portsOf at 2.
    destruct (Dyn.asMap (Dyn.index services svc)) as [cfg|] eqn:Hcfg;
      [| unfold portsOf; by rewrite Hcfg].
    destruct (Dyn.asSlice (Dyn.index cfg "ports")) as [ports|] eqn:Hports;
      [| unfold portsOf; by rewrite Hcfg, Hports].
    unfold portsOf. rewrite index_assign. simpl. by rewrite index_assign.
  - destruct (Dyn.asMap (Dyn.index services s)) as [cfg|]; [| apply Hid].
    destruct (Dyn.asSlice (Dyn.index cfg "ports")) as [ports|]; [| apply Hid].
    unfold portsOf. rewrite index_assign_ne by done. apply Hid.
Qed.

Lemma portsOf_remapped remappings : forall services svc,
  portsOf (fold_left applyRemapping remappings services) svc
  = map (substituted svc remappings) <$> portsOf services svc.
Proof.
  induction remappings as [|r rest IH]; intros services svc; simpl.
  - destruct (portsOf services svc) as [l|]; simpl; [by rewrite map_id | done].
  - rewrite IH, portsOf_applyRemapping.
    destruct (portsOf services svc) as [l|]; simpl; [| done].
    by rewrite map_map.
Qed.

End RewriteFacts.

Section ComposeTheorem.
Context {R : Type} `{!Runtime R}.
Implicit Types w : @World R.

(** The descriptor [GenerateRemappedComposeFile] emits: the one it read,
    with the remappings applied to its services. *)
Lemma GenerateRemappedComposeFile_emits file remappings config services w r name :
  read_compose_file (runtime w) file = Parsed config ->
  Dyn.asMap (Dyn.index config "services") = Some services ->
  write_temp_compose (runtime w)
    (Dyn.assign config "services"
       (GMap (fold_left applyRemapping remappings services)))
  = (r, Some name) ->
  GenerateRemappedComposeFile file remappings w
  = Done (name,
          Some (Dyn.assign config "services"
                  (GMap (fold_left applyRemapping remappings services))),
          None)
         (facing r w).
Proof.
  intros Hread Hsvc Hwrite. unfold GenerateRemappedComposeFile.
  unfold bind at 1. rewrite query_done, Hread, Hsvc.
  unfold bind, writeTemp. by rewrite Hwrite.
Qed.

(** X25: with a range that is not empty, the pre-planner records a
    remapping ["<service>:<host>"] to a newly drawn port for exactly
    the declared entries whose numeric host port is held by a tracked
    binding under any protocol or fails the TCP probe; the descriptor
    it emits is the one it read with every [ports] list rewritten
    entry by entry; under plain remappings an entry is rewritten by
    the remapping recorded for its service and host port and otherwise
    left unchanged; and a rewritten entry keeps its form: a string
    stays a string with the same container part, a table stays a table
    whose [published] keeps its dynamic type. *)
Theorem compose_preplanning :
  (forall w file config services,
     compose_config (runtime w) file = Parsed config ->
     Dyn.asMap (Dyn.index config "services") = Some services ->
     0 < rangeWidth (store w) ->
     exists remappings (k : nat),
       CheckComposePortConflicts file w = Done (remappings, None) (drawn k w)
       /\ (forall key, is_Some (Dyn.lookup remappings key)
                       <-> conflictKey w services key)
       /\ (forall key v, Dyn.lookup remappings key = Some v ->
             exists n : nat, v = Itoa (nthDraw w n)))
  /\ (forall w file remappings config services r name,
        read_compose_file (runtime w) file = Parsed config ->
        Dyn.asMap (Dyn.index config "services") = Some services ->
        write_temp_compose (runtime w)
          (Dyn.assign config "services"
             (GMap (fold_left applyRemapping remappings services)))
        = (r, Some name) ->
        GenerateRemappedComposeFile file remappings w
        = Done (name,
                Some (Dyn.assign config "services"
                        (GMap (fold_left applyRemapping remappings services))),
                None)
               (facing r w)
        /\ forall svc,
             portsOf (fold_left applyRemapping remappings services) svc
             = map (substituted svc remappings) <$> portsOf services svc)
  /\ (forall svc remappings pm,
        without ":" svc -> plainRemappings remappings ->
        substituted svc remappings pm
        = match Dyn.lookup remappings (svc +:+ ":" +:+ hostOfEntry pm) with
          | Some new => rewritePort (hostOfEntry pm) new pm
          | None => pm
          end)
  /\ (forall old new pm,
        without ":" old -> old <> EmptyString ->
        (hostOfEntry pm <> old -> rewritePort old new pm = pm)
        /\ (hostOfEntry pm = old ->
            match pm with
            | GString s =>
                exists rest,
                  Split s ":" = [old; rest]
                  /\ rewritePort old new pm = GString (new +:+ ":" +:+ rest)
            | GMap m =>
                (Dyn.asString (Dyn.index m "published") = Some old
                 /\ rewritePort old new pm
                    = GMap (Dyn.assign m "published" (GString new)))
                \/ (exists z,
                      Dyn.asInt (Dyn.index m "published") = Some z
                      /\ Itoa z = old
                      /\ rewritePort old new pm
                         = GMap (Dyn.assign m "published"
                                   (GInt (fst (Atoi new)))))
            | _ => False
            end)).
Proof.
  split_and!.
  - intros w file config services. apply CheckComposePortConflicts_spec.
  - intros w file remappings config services r name Hread Hsvc Hwrite.
    split; [by apply GenerateRemappedComposeFile_emits |].
    intros svc. apply portsOf_remapped.
  - intros svc remappings pm. apply substituted_plain.
  - intros old new pm Hold Hne. split.
    + by apply rewritePort_other.
    + by apply rewritePort_hit.
Qed.

End ComposeTheorem.

Section Scenarios.

Import Scenario.

(** Case analysis on the entries of a concrete list. *)
Ltac entries :=
  repeat match goal with
         | H : _ \/ _ |- _ => destruct H as [H | H]
         | H : False |- _ => destruct H
         end;
  simplify_eq.

(** Scenario S6: after the start event of [B] created [new1], the start
    event of [new1] only refreshes; one container was created in
    all. *)
Lemma restart_loop_absent_witness :
  (exists e w',
     refreshContainers afterConflict = Done e w'
     /\ handleContainerStart asListed "new1" afterConflict = Done tt w')
  /\ (exists i rest,
        invocations afterConflict = i :: rest /\ isRun i = true
        /\ TrimSpace (inv_out i) = "new1")
  /\ (exists w2,
        handleContainerStart asListed "new1" afterConflict = Done tt w2
        /\ created (invocations w2) = ["new1"]).
Proof.
  destruct (restart_loop_absent (R := Sim.State))
    as (Hprocessed & Hremap & Hchain).
  split_and!.
  - destruct (Hprocessed asListed afterConflict "new1")
      as (e & w' & Er & Eh & _).
    + vm_compute. reflexivity.
    + exists e, w'. split; [exact Er | exact Eh].
  - destruct (Hremap conflict "B" "8080" "11234" "80" "tcp")
      as (_ & _ & Hnew).
    destruct (Hnew (afterwards
                      (remapContainerPort "B" "8080" "11234" "80" "tcp"
                                          conflict)))
      as (i & rest & Ei & Hrun & _).
    + vm_compute. reflexivity.
    + exists i, rest. vm_compute in Ei. injection Ei as <- <-.
      split_and!; vm_compute; reflexivity.
  - destruct (Hchain asListed asListed conflict "B" "new1" afterConflict)
      as (w2 & E & _ & C).
    + vm_compute. reflexivity.
    + vm_compute. reflexivity.
    + left. exists (theContainer afterConflict "new1").
      vm_compute. reflexivity.
    + exists w2. split; [exact E | exact C].
Defined.

(** C2: a container first listed on host port 32768 is listed on 32769
    after a restart.  The refresh then records 32769 as the original
    port of the binding, which was 32768 when the binding was first
    observed, and keeps 32768, which the runtime no longer binds, as
    its current port, as if the port had been remapped, although no
    container was ever created. *)
Theorem original_follows_the_listing :
  dc_Ports (entryOf (runtime firstSeen) "X") = "0.0.0.0:32768->80/tcp"
  /\ dc_Ports (entryOf restarted "X") = "0.0.0.0:32769->80/tcp"
  /\ PortMappings (theContainer firstSeen "X")
  = [{| ContainerPort := "80"; HostPort := "32768"; Protocol := "tcp";
        OriginalPort := "32768" |}]
  /\ refreshContainers (facing restarted firstSeen) = Done None seenAgain
  /\ PortMappings (theContainer seenAgain "X")
     = [{| ContainerPort := "80"; HostPort := "32768"; Protocol := "tcp";
           OriginalPort := "32769" |}]
  /\ created (invocations seenAgain) = []
  /\ ~ originalNeverMutates (R := Sim.State).
Proof.
  split_and!; [vm_compute; reflexivity | vm_compute; reflexivity
               | vm_compute; reflexivity | vm_compute; reflexivity
               | vm_compute; reflexivity | vm_compute; reflexivity |].
  intros H.
  specialize (H (Sim.world [boxX "32768"] [] emptyStore draw1234 free)
                firstSeen seenAgain restarted "X"
                (theContainer firstSeen "X") (theContainer seenAgain "X")
                {| ContainerPort := "80"; HostPort := "32768";
                   Protocol := "tcp"; OriginalPort := "32768" |}
                {| ContainerPort := "80"; HostPort := "32768";
                   Protocol := "tcp"; OriginalPort := "32769" |}).
  assert (C : "32769" = "32768"); [| discriminate C].
  apply H; try (vm_compute; reflexivity); vm_compute; constructor.
Qed.

(** The refresh after the restart of [X]: the original port of its
    binding is the 32769 of the new listing. *)
Lemma refresh_original_is_listed_port_witness :
  exists lines dc m,
    docker_ps restarted = Some lines
    /\ listedIn lines dc /\ dc_ID dc = "X"
    /\ m ∈ FindAllStringSubmatch (dc_Ports dc)
    /\ m_host m = "32769".
Proof.
  destruct (refresh_original_is_listed_port
              (facing restarted firstSeen) seenAgain "X"
              (theContainer seenAgain "X")
              {| ContainerPort := "80"; HostPort := "32768";
                 Protocol := "tcp"; OriginalPort := "32769" |})
    as [(lines & dc & m & Hps & Hl & Hid & Hm & _ & _ & Ho & _) _].
  - vm_compute. reflexivity.
  - vm_compute. reflexivity.
  - vm_compute. constructor.
  - exists lines, dc, m. split_and!; first [done | by symmetry].
Defined.

(** C3: in scenario S2 ([A] tracked on 8080->80/tcp, start event for
    [B] on 8080->80/tcp) the handler recreates [B] as [new1]; the store
    then holds exactly [A] and [new1], and the binding of [new1] has
    its current host port 11234 in the range, but its original port is
    11234 as well: the port 8080 the container was moved from is
    recorded nowhere.  The container has one binding, so the order of
    the loops of the handler plays no part. *)
Theorem relocation_forgets_original_port :
  PortMappings (theContainer conflict "A")
  = [{| ContainerPort := "80"; HostPort := "8080"; Protocol := "tcp";
        OriginalPort := "8080" |}]
  /\ bindingsIn conflict "B"
     = [("80/tcp", GSlice [GMap [("HostIp", GString EmptyString);
                                 ("HostPort", GString "8080")]])]
  /\ (forall orders,
        handleContainerStart orders "B" conflict = Done tt afterConflict)
  /\ created (invocations afterConflict) = ["new1"]
  /\ map fst (map_to_list (containers (store afterConflict))) = ["A"; "new1"]
  /\ containers (store afterConflict) !! "B" = None
  /\ PortMappings (theContainer afterConflict "new1")
     = [{| ContainerPort := "80"; HostPort := "11234"; Protocol := "tcp";
           OriginalPort := "11234" |}]
  /\ inDynamicRange (store afterConflict) "11234" = true.
Proof. split_and!; try intros orders; vm_compute; reflexivity. Qed.

(** C4 as stated fails: a container without port bindings has no bound
    host port outside the range, yet its start event leaves it
    unmarked: the handler returns at once. *)
Lemma start_without_bindings_marks_nothing :
  bindingsIn plain "P" = []
  /\ (forall orders, handleContainerStart orders "P" plain = Done tt plain)
  /\ ~ startMarksWhenAllInRange (R := Sim.State).
Proof.
  assert (E : forall orders, handleContainerStart orders "P" plain
                             = Done tt plain)
    by (intros orders; vm_compute; reflexivity).
  split_and!; [by vm_compute | exact E |].
  intros H.
  destruct (H asListed plain "P" (dataOf plain "P") (hostConfigOf plain "P")
              [])
    as (w' & E' & Hin).
  - by vm_compute.
  - by vm_compute.
  - vm_compute. reflexivity.
  - vm_compute. reflexivity.
  - vm_compute. reflexivity.
  - intros key bindings [].
  - intros key bindings hostPort [].
  - rewrite E in E'. injection E' as <-. destruct Hin.
Qed.

(** The three branches: [D], bound to 54321 inside the range, is marked
    and the runtime is asked for nothing but the label; [B] of S2,
    bound to 8080 outside the range, has its port 80/tcp scheduled;
    and with the range from 20000 to 20000 the start of [B] panics. *)
Lemma start_of_unprocessed_container_witness :
  (exists w',
     handleContainerStart asListed "D" dynamic = Done tt w'
     /\ onlyLabelAttempts dynamic w')
  /\ (exists sched (k : nat),
        scheduleRemaps "B"
          (visitBy (conflictLoop asListed) (bindingsIn conflict "B")) conflict
        = Done sched (drawn k conflict)
        /\ is_Some (Dyn.lookup sched "80/tcp"))
  /\ handleContainerStart asListed "B" onePort
     = Panicked "invalid argument to Intn" onePort.
Proof.
  split_and!.
  - destruct (start_of_unprocessed_container asListed
                dynamic "D" (dataOf dynamic "D") (hostConfigOf dynamic "D")
                (bindingsIn dynamic "D")) as [Hin _].
    + by vm_compute.
    + by vm_compute.
    + vm_compute. reflexivity.
    + vm_compute. reflexivity.
    + vm_compute. reflexivity.
    + by vm_compute.
    + intros key bindings Hb. vm_compute in Hb. entries.
      right. right. eexists. reflexivity.
    + destruct Hin as (w1 & e & w' & _ & _ & _ & E & L & _).
      * intros key hostPort (bindings & l & b & binding & Hb & Hl & Hb0
                             & Hm & Hs & _).
        vm_compute in Hb. entries. injection Hl as <-.
        destruct Hb0 as [<- | []]. injection Hm as <-.
        vm_compute in Hs. injection Hs as <-. by vm_compute.
      * exists w'. split; [exact E | exact L].
  - assert (Hbound : boundOn (bindingsIn conflict "B") "80/tcp" "8080").
    { eexists _, _, _, _. split_and!.
      - vm_compute. left. reflexivity.
      - reflexivity.
      - left. reflexivity.
      - reflexivity.
      - vm_compute. reflexivity.
      - discriminate. }
    destruct (start_of_unprocessed_container asListed
                conflict "B" (dataOf conflict "B") (hostConfigOf conflict "B")
                (bindingsIn conflict "B")) as (_ & Hout & _).
    + by vm_compute.
    + by vm_compute.
    + vm_compute. reflexivity.
    + vm_compute. reflexivity.
    + vm_compute. reflexivity.
    + by vm_compute.
    + intros key bindings Hb. vm_compute in Hb. entries.
      right. right. eexists. reflexivity.
    + destruct Hout as (sched & k & E & Hs & _).
      * intros Hall. specialize (Hall "80/tcp" "8080" Hbound).
        vm_compute in Hall. discriminate Hall.
      * vm_compute. reflexivity.
      * exists sched, k. split; [exact E |]. apply Hs.
        exists "8080", "80", "tcp", 8080.
        split_and!; [exact Hbound | reflexivity | vm_compute; reflexivity |].
        right. intros [Hmin _]. vm_compute in Hmin. by apply Hmin.
  - assert (Hbound : boundOn (bindingsIn onePort "B") "80/tcp" "8080").
    { eexists _, _, _, _. split_and!.
      - vm_compute. left. reflexivity.
      - reflexivity.
      - left. reflexivity.
      - reflexivity.
      - vm_compute. reflexivity.
      - discriminate. }
    destruct (start_of_unprocessed_container asListed
                onePort "B" (dataOf onePort "B") (hostConfigOf onePort "B")
                (bindingsIn onePort "B")) as (_ & _ & Hempty).
    + by vm_compute.
    + by vm_compute.
    + vm_compute. reflexivity.
    + vm_compute. reflexivity.
    + vm_compute. reflexivity.
    + by vm_compute.
    + intros key bindings Hb. vm_compute in Hb. entries.
      right. right. eexists. reflexivity.
    + destruct Hempty as [Hpanic _].
      * intros Hall. specialize (Hall "80/tcp" "8080" Hbound).
        vm_compute in Hall. discriminate Hall.
      * by vm_compute.
      * apply Hpanic. exists "80/tcp", "8080", "80", "tcp", 8080.
        split_and!; [exact Hbound | reflexivity | vm_compute; reflexivity |].
        right. intros [Hmin _]. vm_compute in Hmin. by apply Hmin.
Defined.

(** C6 as stated fails: two running containers publish port 8080/tcp on
    two host addresses; the listing is parsed without the address, so
    after the refresh both are tracked on host port 8080/tcp, and both
    are still listed. *)
Lemma same_port_on_two_addresses :
  let w' := afterwards (refreshContainers twoAddresses) in
  dc_Ports (entryOf (runtime twoAddresses) "L1") = "127.0.0.1:8080->80/tcp"
  /\ dc_Ports (entryOf (runtime twoAddresses) "L2") = "127.0.0.2:8080->80/tcp"
  /\ refreshContainers twoAddresses = Done None w'
  /\ PortMappings (theContainer w' "L1")
     = [{| ContainerPort := "80"; HostPort := "8080"; Protocol := "tcp";
           OriginalPort := "8080" |}]
  /\ PortMappings (theContainer w' "L2")
     = [{| ContainerPort := "80"; HostPort := "8080"; Protocol := "tcp";
           OriginalPort := "8080" |}]
  /\ stillListed (runtime w') "L1" /\ stillListed (runtime w') "L2"
  /\ ~ doubleBindingOnlyWithGone (R := Sim.State).
Proof.
  intros w'.
  assert (L : forall id,
             In id ["L1"; "L2"] -> stillListed (runtime w') id).
  { intros id Hid. exists (listing (runtime w')), (entryOf (runtime w') id).
    simpl in Hid. destruct Hid as [<- | [<- | []]].
    - split_and!; [vm_compute; reflexivity | vm_compute; tauto
                   | vm_compute; reflexivity].
    - split_and!; [vm_compute; reflexivity | vm_compute; tauto
                   | vm_compute; reflexivity]. }
  split_and!.
  - vm_compute. reflexivity.
  - vm_compute. reflexivity.
  - vm_compute. reflexivity.
  - vm_compute. reflexivity.
  - vm_compute. reflexivity.
  - apply L. simpl. tauto.
  - apply L. simpl. tauto.
  - intros H.
    destruct (H twoAddresses w' "L1" "L2"
                (theContainer w' "L1") (theContainer w' "L2")) as [N | N].
    + vm_compute. reflexivity.
    + vm_compute. reflexivity.
    + vm_compute. reflexivity.
    + discriminate.
    + exists {| ContainerPort := "80"; HostPort := "8080"; Protocol := "tcp";
                OriginalPort := "8080" |},
             {| ContainerPort := "80"; HostPort := "8080"; Protocol := "tcp";
                OriginalPort := "8080" |}.
      split_and!; [vm_compute; constructor | vm_compute; constructor
                   | reflexivity | reflexivity].
    + apply N, L. simpl. tauto.
    + apply N, L. simpl. tauto.
Qed.

(** A container with a label whose value is a number: the remap
    panics. *)
Lemma remapContainerPort_panics_on_unexpected_inspect_witness :
  exists msg,
    remapContainerPort "O" "8080" "11234" "80" "tcp" odd
    = Panicked msg (afterwards (addDynamicPortLabel "O" odd)).
Proof.
  apply (remapContainerPort_panics_on_unexpected_inspect
           odd "O" "8080" "11234" "80" "tcp" _ (Sim.box_inspect boxOdd) []).
  - vm_compute. reflexivity.
  - vm_compute. reflexivity.
  - right. right. right. left.
    exists [ ("Image", GString "nginx"); ("Env", GSlice []);
             ("Labels", GMap [("weight", GFloat 3)]) ].
    split; [reflexivity |]. right. right. right.
    exists [("weight", GFloat 3)], "weight", (GFloat 3).
    split_and!; [reflexivity | by left | by vm_compute | reflexivity].
Defined.

(** The failure branch of C8 on a daemon that cannot be reached: the
    error is returned and the world, store included, is unchanged. *)
Example refresh_when_daemon_is_down :
  refreshContainers (Down.world (tracking [boxA]))
  = Done (Some "error listing containers") (Down.world (tracking [boxA])).
Proof. vm_compute. reflexivity. Qed.

(** C8: [A] is tracked and [D], published on 54321 inside the range,
    has come up.  While the refresh runs, its loop marks [D] as
    processed in the store in an exclusive section of its own: a
    reader then sees a store that still tracks [A] alone but has [D]
    in the processed set, which is neither the store before the
    refresh nor the one after it.  The swap that follows installs the
    processed set computed from the copy taken at the start, so the
    mark is gone again, although the refresh has just recorded [D] as
    a container with dynamic ports. *)
Theorem refresh_marks_are_seen_and_lost :
  let w' := afterwards (refreshContainers arriving) in
  refreshContainers arriving = Done None w'
  /\ snapshots w' = [store w'; setProcessed "D" (store arriving)]
  /\ map fst (map_to_list (containers (store arriving))) = ["A"]
  /\ processedContainers (store arriving) !! "D" = None
  /\ map fst (map_to_list (containers (setProcessed "D" (store arriving))))
     = ["A"]
  /\ processedContainers (setProcessed "D" (store arriving)) !! "D"
     = Some true
  /\ map fst (map_to_list (containers (store w'))) = ["A"; "D"]
  /\ processedContainers (store w') !! "D" = None
  /\ DynamicPorts (theContainer w' "D") = true
  /\ ~ refreshIsAtomic (R := Sim.State).
Proof.
  intros w'.
  assert (E : refreshContainers arriving = Done None w')
    by (vm_compute; reflexivity).
  assert (S : snapshots w' = [store w'; setProcessed "D" (store arriving)])
    by (vm_compute; reflexivity).
  split_and!; [exact E | exact S | vm_compute; reflexivity
               | vm_compute; reflexivity | vm_compute; reflexivity
               | vm_compute; reflexivity | vm_compute; reflexivity
               | vm_compute; reflexivity | vm_compute; reflexivity |].
  intros H.
  destruct (H arriving w' [store w'; setProcessed "D" (store arriving)]
              (setProcessed "D" (store arriving)) E) as [C | C].
  - rewrite S. vm_compute. reflexivity.
  - right. left. reflexivity.
  - apply (f_equal (fun s => processedContainers s !! "D")) in C.
    vm_compute in C. discriminate C.
  - apply (f_equal (fun s => processedContainers s !! "D")) in C.
    vm_compute in C. discriminate C.
Qed.

(** C7: the store tracks a binding of host port 53 over UDP; the
    descriptor declares 53 over TCP and the probe succeeds; no tracked
    binding holds (53, tcp), yet the pre-planner records a remapping
    for it: [isPortAvailable], called after the test that compares
    protocols, looks the port up again under any protocol. *)
Theorem tracked_udp_port_conflicts_with_tcp :
  PortMappings (theContainer planning "N")
  = [{| ContainerPort := "53"; HostPort := "53"; Protocol := "udp";
        OriginalPort := "53" |}]
  /\ parseComposePort (GString "53:53") = ("53", "53", "tcp")
  /\ conflictingAsSpecified planning 53 "tcp" = false
  /\ CheckComposePortConflicts composeFile planning
     = Done ([("web:8080", "11234"); ("dns:53", "11235")], None)
            (drawn 2 planning)
  /\ ~ conflictsAsSpecified (R := Sim.State).
Proof.
  assert (E : CheckComposePortConflicts composeFile planning
              = Done ([("web:8080", "11234"); ("dns:53", "11235")], None)
                     (drawn 2 planning)) by (vm_compute; reflexivity).
  split_and!.
  - vm_compute. reflexivity.
  - vm_compute. reflexivity.
  - vm_compute. reflexivity.
  - exact E.
  - intros H.
    assert (Hc1 : compose_config (runtime planning) composeFile
                  = Parsed descriptor) by (vm_compute; reflexivity).
    assert (Hc2 : Dyn.asMap (Dyn.index descriptor "services")
                  = Some (servicesOf descriptor)) by (vm_compute; reflexivity).
    destruct (H planning composeFile descriptor (servicesOf descriptor)
                _ _ Hc1 Hc2 E "dns:53") as [Hkey _].
    clear H E Hc1 Hc2.
    destruct Hkey as (svc & pm & hostPort & containerPort & protocol & p
                      & (sc & sm & ports & Hs & Hsm & Hp & Hpm)
                      & Hparse & _ & _ & Hatoi & Hc & Hkey).
    { exists "11235". vm_compute. reflexivity. }
    vm_compute in Hs. entries; vm_compute in Hsm; simplify_eq;
      vm_compute in Hp; simplify_eq; vm_compute in Hpm; entries;
      vm_compute in Hparse; simplify_eq; vm_compute in Hkey;
      try discriminate Hkey.
    vm_compute in Hatoi. injection Hatoi as <-.
    vm_compute in Hc. discriminate Hc.
Qed.

(** The only way to read a key of [planned] as service, colon, port. *)
Ltac split_key svc :=
  repeat (destruct svc as [| ? svc];
          match goal with
          | H : _ = _ |- _ =>
              progress (rewrite ?append_cons, ?append_nil in H); simplify_eq
          end).

Ltac no_colon := vm_compute; intros ?; entries.

(** The remappings of the scenario are plain. *)
Lemma planned_plain : plainRemappings planned.
Proof.
  split_and!.
  - compute_done.
  - intros key new Hin. vm_compute in Hin. entries.
    + split; [no_colon |]. exists "web", "8080".
      split_and!; [reflexivity | no_colon | no_colon | done].
    + split; [no_colon |]. exists "dns", "53".
      split_and!; [reflexivity | no_colon | no_colon | done].
  - intros key new svc old new' Hin Hin'. simpl in Hin, Hin'.
    destruct Hin as [Hin | [Hin | []]];
      destruct Hin' as [Hin' | [Hin' | []]];
      injection Hin as <- <-; injection Hin' as Hk <-;
      split_key svc; split; by vm_compute.
Qed.

(** Scenario S5: [web] and [dns] are remapped, [db] is not; the emitted
    descriptor has the new ports in place, in the form they had. *)
Lemma compose_preplanning_witness :
  (exists remappings (k : nat),
     CheckComposePortConflicts composeFile planning
     = Done (remappings, None) (drawn k planning)
     /\ is_Some (Dyn.lookup remappings "web:8080")
     /\ Dyn.lookup remappings "db:5432" = None)
  /\ portsOf (fold_left applyRemapping planned (servicesOf descriptor)) "dns"
     = Some [GString "11235:53"]
  /\ substituted "web" planned (GString "8080:80") = GString "11234:80"
  /\ rewritePort "5432" "15432" table
     = GMap [("published", GInt 15432); ("target", GInt 5432)].
Proof.
  destruct (compose_preplanning (R := Sim.State)) as (P1 & P2 & P3 & P4).
  assert (Hc : Dyn.asMap (Dyn.index descriptor "services")
               = Some (servicesOf descriptor)) by (vm_compute; reflexivity).
  split_and!.
  - assert (Hf : compose_config (runtime planning) composeFile
                 = Parsed descriptor) by (vm_compute; reflexivity).
    assert (Hw : 0 < rangeWidth (store planning))
      by (vm_compute; reflexivity).
    destruct (P1 planning composeFile descriptor (servicesOf descriptor)
                 Hf Hc Hw) as (remappings & k & E & Hiff & _).
    exists remappings, k. split_and!; [exact E | |].
    + apply Hiff.
      exists "web", (GString "8080:80"), "8080", "80", "tcp", 8080.
      split_and!.
      * exists (GMap webService), webService, [GString "8080:80"].
        split_and!; [vm_compute; tauto | reflexivity
                     | vm_compute; reflexivity | vm_compute; tauto].
      * vm_compute. reflexivity.
      * discriminate.
      * discriminate.
      * vm_compute. reflexivity.
      * vm_compute. reflexivity.
      * vm_compute. reflexivity.
    + destruct (Dyn.lookup remappings "db:5432") as [v |] eqn:Hdb;
        [| reflexivity].
      destruct (proj1 (Hiff "db:5432")) as
        (svc & pm & hostPort & containerPort & protocol & p
         & (sc & sm & ports & Hs & Hsm & Hp & Hpm)
         & Hparse & _ & _ & Hatoi & Hcf & Hkey); [by exists v |].
      clear Hiff E Hdb Hf Hc.
      vm_compute in Hs. entries; vm_compute in Hsm; simplify_eq;
        vm_compute in Hp; simplify_eq; vm_compute in Hpm; entries;
        vm_compute in Hparse; simplify_eq; vm_compute in Hkey;
        try discriminate Hkey.
      vm_compute in Hatoi. injection Hatoi as <-.
      vm_compute in Hcf. discriminate Hcf.
  - assert (Hf : read_compose_file (runtime planning) composeFile
                 = Parsed descriptor) by (vm_compute; reflexivity).
    assert (Hw : write_temp_compose
                   (runtime planning)
                   (Dyn.assign descriptor "services"
                      (GMap (fold_left applyRemapping planned
                               (servicesOf descriptor))))
                 = (fst (write_temp_compose
                           (runtime planning)
                           (Dyn.assign descriptor "services"
                              (GMap (fold_left applyRemapping planned
                                       (servicesOf descriptor))))),
                    Some "/tmp/dynamic-port-mapper-compose-1.yml"))
      by (vm_compute; reflexivity).
    destruct (P2 planning composeFile planned descriptor
                 (servicesOf descriptor) _ _ Hf Hc Hw) as [_ Hports].
    rewrite (Hports "dns"). vm_compute. reflexivity.
  - assert (Hs : without ":" "web") by no_colon.
    rewrite (P3 "web" planned (GString "8080:80") Hs planned_plain).
    vm_compute. reflexivity.
  - assert (Ho : without ":" "5432") by no_colon.
    assert (Hn : "5432" <> EmptyString) by discriminate.
    assert (Hh : hostOfEntry table = "5432") by (vm_compute; reflexivity).
    destruct (P4 "5432" "15432" table Ho Hn) as [_ Hhit].
    destruct (Hhit Hh) as [[Hs _] | (z & _ & _ & ->)].
    + vm_compute in Hs. discriminate Hs.
    + vm_compute. reflexivity.
Defined.

End Scenarios.

Section NumberFacts.

Ltac dlia := Z.div_mod_to_equations; lia.

Lemma digit_char_spec d :
  0 <= d <= 9 ->
  is_digit (digit_char d) = true /\ byte_val (digit_char d) - 48 = d
  /\ digit_char d <> "-"%char /\ digit_char d <> "+"%char.
Proof.
  intros Hd.
  assert (H : d = 0 \/ d = 1 \/ d = 2 \/ d = 3 \/ d = 4 \/ d = 5 \/ d = 6
              \/ d = 7 \/ d = 8 \/ d = 9) by lia.
  repeat (destruct H as [-> | H]); try subst d; by vm_compute.
Qed.

Lemma itoa_digits_S k n acc :
  itoa_digits (S k) n acc
  = if n / 10 =? 0 then String (digit_char (n mod 10)) acc
    else itoa_digits k (n / 10) (String (digit_char (n mod 10)) acc).
Proof. reflexivity. Qed.

Lemma itoa_digits_head k n acc :
  0 <= n ->
  exists d rest, 0 <= d <= 9
    /\ itoa_digits (S k) n acc = String (digit_char d) rest.
Proof.
  revert n acc. induction k as [| k IH]; intros n acc Hn.
  - exists (n mod 10), acc. split; [dlia |].
    rewrite itoa_digits_S. by destruct (n / 10 =? 0).
  - rewrite itoa_digits_S. destruct (n / 10 =? 0).
    + exists (n mod 10), acc. split; [dlia | done].
    + apply IH. dlia.
Qed.

Lemma parseUintLoop_cons n c s' :
  parseUintLoop n (String c s')
  = if is_digit c then
      if maxUint64 / 10 + 1 <=? n then URange
      else if maxUint64 <? n * 10 + (byte_val c - 48) then URange
           else parseUintLoop (n * 10 + (byte_val c - 48)) s'
    else USyntax.
Proof. reflexivity. Qed.

Lemma parseUintLoop_digit m d rest :
  0 <= d <= 9 -> 0 <= m -> m * 10 + d <= maxUint64 ->
  parseUintLoop m (String (digit_char d) rest)
  = parseUintLoop (m * 10 + d) rest.
Proof.
  intros Hd Hm Hmax.
  destruct (digit_char_spec d Hd) as (Hdig & Hval & _).
  rewrite parseUintLoop_cons, Hdig, Hval.
  assert ((maxUint64 / 10 + 1 <=? m) = false) as ->.
  { apply Z.leb_gt. change (maxUint64 / 10 + 1) with 1844674407370955162.
    unfold maxUint64 in Hmax.
    change (2 ^ 64 - 1) with 18446744073709551615 in Hmax. lia. }
  by assert ((maxUint64 <? m * 10 + d) = false) as -> by lia.
Qed.

Lemma parse_itoa_digits fuel : forall n acc,
  0 <= n < 10 ^ Z.of_nat fuel -> n <= maxUint64 -> (0 < fuel)%nat ->
  parseUintLoop 0 (itoa_digits fuel n acc) = parseUintLoop n acc.
Proof.
  induction fuel as [| k IH]; intros n acc Hn Hmax Hk; [lia |].
  assert (Hd : 0 <= n mod 10 <= 9) by dlia.
  rewrite itoa_digits_S. destruct (n / 10 =? 0) eqn:Hq.
  - apply Z.eqb_eq in Hq.
    rewrite parseUintLoop_digit; [| done | lia | unfold maxUint64 in *; dlia].
    f_equal. dlia.
  - apply Z.eqb_neq in Hq.
    destruct k as [| k'].
    { change (10 ^ Z.of_nat 1) with 10 in Hn. dlia. }
    rewrite IH; [| | unfold maxUint64 in *; dlia | lia].
    + rewrite parseUintLoop_digit;
        [| done | dlia | unfold maxUint64 in *; dlia].
      f_equal. dlia.
    + split; [dlia |].
      replace (Z.of_nat (S (S k'))) with (Z.succ (Z.of_nat (S k'))) in Hn
        by lia.
      rewrite Z.pow_succ_r in Hn by lia. dlia.
Qed.

(** [strconv.Atoi] reads back what [strconv.Itoa] prints, for every
    [int]. *)
Lemma Atoi_Itoa n :
  minInt64 <= n <= maxInt64 -> Atoi (Itoa n) = (n, true).
Proof.
  unfold minInt64, maxInt64. intros Hn. unfold Itoa.
  destruct (n <? 0) eqn:Hneg.
  - apply Z.ltb_lt in Hneg.
    destruct (itoa_digits_head 19 (- n) EmptyString) as (d & rest & Hd & E);
      [lia |].
    assert (P : parseUintLoop 0 (itoa_digits 20 (- n) EmptyString)
                = UOk (- n)).
    { rewrite parse_itoa_digits; [done | | unfold maxUint64; lia | lia].
      change (10 ^ Z.of_nat 20) with 100000000000000000000. lia. }
    unfold Atoi. rewrite bool_decide_eq_true_2 by done. simpl orb. cbv iota.
    unfold ParseUint. rewrite E in *. rewrite P. simpl negb. simpl andb.
    assert ((2 ^ 63 <? - n) = false) as -> by lia.
    f_equal. lia.
  - apply Z.ltb_ge in Hneg.
    destruct (itoa_digits_head 19 n EmptyString) as (d & rest & Hd & E);
      [lia |].
    destruct (digit_char_spec d Hd) as (_ & _ & Hm & Hp).
    assert (P : parseUintLoop 0 (itoa_digits 20 n EmptyString) = UOk n).
    { rewrite parse_itoa_digits; [done | | unfold maxUint64; lia | lia].
      change (10 ^ Z.of_nat 20) with 100000000000000000000. lia. }
    rewrite E in *. unfold Atoi.
    rewrite !bool_decide_eq_false_2 by done. simpl orb. cbv iota.
    unfold ParseUint. rewrite P. simpl negb. simpl andb.
    by assert ((2 ^ 63 <=? n) = false) as -> by lia.
Qed.

End NumberFacts.

Section RegexFacts.

Lemma span_spec p s a b :
  span p s = (a, b) -> s = a ++ b /\ Forall (fun c => p c = true) a.
Proof.
  revert a b. induction s as [| c s IH]; intros a b E; simpl in E.
  - by injection E as <- <-.
  - destruct (p c) eqn:Hp.
    + destruct (span p s) as [a' b'] eqn:Es. injection E as <- <-.
      destruct (IH a' b' eq_refl) as [-> F].
      split; [done | by constructor].
    + by injection E as <- <-.
Qed.

Lemma run1_spec p s a b :
  run1 p s = Some (a, b) ->
  s = a ++ b /\ a <> [] /\ Forall (fun c => p c = true) a.
Proof.
  unfold run1. destruct (span p s) as [a' b'] eqn:Es.
  destruct (span_spec p s a' b' Es) as [-> F].
  destruct a' as [| c a']; [done |].
  intros [= <- <-]. done.
Qed.

Lemma lit_spec c s s' : lit c s = Some s' -> s = c :: s'.
Proof.
  destruct s as [| d s]; [done |]. simpl.
  case_bool_decide; [| done]. by intros [= <-]; subst.
Qed.

Lemma match_core_spec s m rest :
  match_core s = Some (m, rest) ->
  exists h c p,
    s = h ++ "-"%char :: ">"%char :: c ++ "/"%char :: p ++ rest
    /\ shaped m h c p.
Proof.
  unfold match_core. intros E.
  destruct (run1 is_digit s) as [[h s1] |] eqn:E1; [| done].
  simpl in E.
  destruct (lit "-" s1) as [s2 |] eqn:E2; [| done]. simpl in E.
  destruct (lit ">" s2) as [s3 |] eqn:E3; [| done]. simpl in E.
  destruct (run1 is_digit s3) as [[c s4] |] eqn:E4; [| done]. simpl in E.
  destruct (lit "/" s4) as [s5 |] eqn:E5; [| done]. simpl in E.
  destruct (run1 is_word s5) as [[p s6] |] eqn:E6; [| done]. simpl in E.
  injection E as <- <-.
  apply run1_spec in E1 as (-> & ? & ?).
  apply lit_spec in E2 as ->. apply lit_spec in E3 as ->.
  apply run1_spec in E4 as (-> & ? & ?).
  apply lit_spec in E5 as ->.
  apply run1_spec in E6 as (-> & ? & ?).
  exists h, c, p. split; [done |]. by repeat split.
Qed.

Lemma match_addr_spec s s' :
  match_addr s = Some s' -> exists a, s = a ++ s'.
Proof.
  unfold match_addr. intros E.
  destruct (run1 is_digit s) as [[a1 s1] |] eqn:E1; [| done]. simpl in E.
  destruct (lit "." s1) as [s2 |] eqn:E2; [| done]. simpl in E.
  destruct (run1 is_digit s2) as [[a2 s3] |] eqn:E3; [| done]. simpl in E.
  destruct (lit "." s3) as [s4 |] eqn:E4; [| done]. simpl in E.
  destruct (run1 is_digit s4) as [[a3 s5] |] eqn:E5; [| done]. simpl in E.
  destruct (lit "." s5) as [s6 |] eqn:E6; [| done]. simpl in E.
  destruct (run1 is_digit s6) as [[a4 s7] |] eqn:E7; [| done]. simpl in E.
  apply run1_spec in E1 as (-> & _). apply lit_spec in E2 as ->.
  apply run1_spec in E3 as (-> & _). apply lit_spec in E4 as ->.
  apply run1_spec in E5 as (-> & _). apply lit_spec in E6 as ->.
  apply run1_spec in E7 as (-> & _). apply lit_spec in E as ->.
  exists (a1 ++ "."%char :: a2 ++ "."%char :: a3 ++ "."%char :: a4
             ++ [":"%char]).
  repeat (rewrite <- app_assoc; simpl). reflexivity.
Qed.

Lemma match_here_spec s m rest :
  match_here s = Some (m, rest) ->
  exists a h c p,
    s = a ++ h ++ "-"%char :: ">"%char :: c ++ "/"%char :: p ++ rest
    /\ shaped m h c p.
Proof.
  unfold match_here. intros E.
  destruct (match_addr s ≫= match_core) as [r |] eqn:Ea.
  - injection E as ->.
    destruct (match_addr s) as [s' |] eqn:Eaddr; [| done]. simpl in Ea.
    apply match_addr_spec in Eaddr as [a ->].
    apply match_core_spec in Ea as (h & c & p & -> & Hs).
    by exists a, h, c, p.
  - apply match_core_spec in E as (h & c & p & -> & Hs).
    by exists [], h, c, p.
Qed.

Lemma scan_spec s : forall skip m,
  In m (scan skip s) ->
  exists pre a h c p rest,
    s = pre ++ a ++ h ++ "-"%char :: ">"%char :: c ++ "/"%char :: p ++ rest
    /\ shaped m h c p.
Proof.
  induction s as [| x s IH]; intros skip m Hin; [done |].
  assert (Hrest : forall k, In m (scan k s) ->
            exists pre a h c p rest,
              x :: s = pre ++ a ++ h
                       ++ "-"%char :: ">"%char :: c ++ "/"%char :: p ++ rest
              /\ shaped m h c p).
  { intros k Hk. destruct (IH k m Hk) as (pre & a & h & c & p & rest & -> & Hs).
    by exists (x :: pre), a, h, c, p, rest. }
  simpl in Hin. destruct skip as [| k]; [| by apply (Hrest k)].
  destruct (match_here (x :: s)) as [[m' rest] |] eqn:Eh.
  - destruct Hin as [<- | Hin]; [| by eapply Hrest].
    apply match_here_spec in Eh as (a & h & c & p & E & Hs).
    by exists [], a, h, c, p, rest.
  - by apply (Hrest 0%nat).
Qed.

Lemma parseUintLoop_digits h : forall n,
  0 <= n -> Forall (fun x => is_digit x = true) h ->
  parseUintLoop n (string_of_list_ascii h) = URange
  \/ exists v, 0 <= v /\ parseUintLoop n (string_of_list_ascii h) = UOk v.
Proof.
  induction h as [| c h IH]; intros n Hn Hd; simpl.
  - right. by exists n.
  - apply Forall_cons in Hd as [Hc Hd]. rewrite Hc.
    destruct (maxUint64 / 10 + 1 <=? n); [by left |].
    destruct (maxUint64 <? n * 10 + (byte_val c - 48)); [by left |].
    apply IH; [| done].
    unfold is_digit in Hc. apply andb_true_iff in Hc as [Hc _].
    apply Z.leb_le in Hc. lia.
Qed.

Lemma Atoi_digits h :
  h <> [] -> Forall (fun x => is_digit x = true) h ->
  Atoi (string_of_list_ascii h) = (maxInt64, false)
  \/ exists p, 0 <= p /\ Atoi (string_of_list_ascii h) = (p, true).
Proof.
  intros Hne Hd. destruct h as [| c h]; [done |].
  pose proof (parseUintLoop_digits (c :: h) 0 ltac:(lia) Hd) as Hp.
  apply Forall_cons in Hd as [Hc Hd].
  assert (Hm : c <> "-"%char) by (intros ->; by vm_compute in Hc).
  assert (Hq : c <> "+"%char) by (intros ->; by vm_compute in Hc).
  change (string_of_list_ascii (c :: h))
    with (String c (string_of_list_ascii h)) in *.
  unfold Atoi. rewrite !bool_decide_eq_false_2 by done.
  cbn [orb negb andb]. unfold ParseUint.
  destruct Hp as [-> | (v & Hv & ->)]; [by left |].
  destruct (2 ^ 63 <=? v); [by left |]. right. by exists v.
Qed.

(** X1: Every match [FindAllStringSubmatch] returns for
    [portRegex] is read from the text: the ports string contains, one
    after the other, the host port, ["->"], the container port, ["/"]
    and the protocol; both ports are non-empty runs of digits and the
    protocol a non-empty run of word bytes.  So a string without
    [">"] has no match, and [strconv.Atoi] never fails on a matched
    host port with a syntax error: it yields a number that is not
    negative, or overflows. *)
Theorem portRegex_matches_are_read_from_the_text ports :
  (forall m,
     m ∈ FindAllStringSubmatch ports ->
     (exists pre a h c p rest,
        list_ascii_of_string ports
        = pre ++ a ++ h ++ "-"%char :: ">"%char :: c ++ "/"%char :: p ++ rest
        /\ shaped m h c p)
     /\ (Atoi (m_host m) = (maxInt64, false)
         \/ exists n, 0 <= n /\ Atoi (m_host m) = (n, true)))
  /\ (~ In ">"%char (list_ascii_of_string ports) ->
      FindAllStringSubmatch ports = []).
Proof.
  assert (Hm : forall m, m ∈ FindAllStringSubmatch ports ->
             exists pre a h c p rest,
               list_ascii_of_string ports
               = pre ++ a ++ h
                 ++ "-"%char :: ">"%char :: c ++ "/"%char :: p ++ rest
               /\ shaped m h c p).
  { intros m Hin. apply list_elem_of_In in Hin.
    by apply (scan_spec _ 0%nat). }
  split.
  - intros m Hin. split; [by apply Hm |].
    destruct (Hm m Hin)
      as (pre & a & h & c & p & rest & _ & (-> & _ & _ & Hh & _ & _ & Hd & _)).
    by apply Atoi_digits.
  - intros Hno. destruct (FindAllStringSubmatch ports) as [| m ms] eqn:E;
      [done |].
    destruct (Hm m) as (pre & a & h & c & p & rest & Hs & _); [by left |].
    exfalso. apply Hno. rewrite Hs.
    apply in_or_app. right. apply in_or_app. right. apply in_or_app. right.
    right. by left.
Qed.

End RegexFacts.

Section RefreshInvariants.
Context {R : Type} `{!Runtime R}.
Implicit Types w : @World R.

(** *** The runtime under label attempts *)

Lemma docker_container_neutral rest w :
  labelNeutral ->
  runtime (afterwards (docker ("container" :: rest) w)) = runtime w.
Proof.
  intros N. unfold docker. specialize (N (runtime w) rest).
  destruct (docker_exec (runtime w) ("container" :: rest)) as [r [ok out]].
  exact N.
Qed.

Lemma addDynamicPortLabel_neutral id w w' :
  labelNeutral -> addDynamicPortLabel id w = Done tt w' ->
  runtime w' = runtime w.
Proof.
  intros N. unfold addDynamicPortLabel.
  destruct (locked_setProcessed id w) as (w1 & E1 & _ & _ & _ & R1 & _).
  rewrite (bind_done _ _ _ _ _ E1). unfold bind at 1. rewrite query_done.
  destruct (docker_inspect_format (runtime w1) "{{.ID}}" id).
  2:{ intros [= <-]. done. }
  pose proof (docker_container_neutral
                ["update"; "--label"; sentinelLabel +:+ "=true"; id] w1 N)
    as N1.
  unfold bind at 1.
  destruct (docker _ w1) as [[ok out] w2 |] eqn:E2; [| done].
  simpl in N1. destruct ok.
  - intros [= <-]. congruence.
  - pose proof (docker_container_neutral
                  ["label"; id; sentinelLabel +:+ "=true"] w2 N) as N2.
    unfold bind at 1.
    destruct (docker _ w2) as [res3 w3 |] eqn:E3; [| done].
    simpl in N2. intros [= <-]. congruence.
Qed.

Lemma parsePorts_neutral id ports cur w res w' :
  labelNeutral ->
  parsePortsWithoutRemapping id ports cur w = Done res w' ->
  runtime w' = runtime w.
Proof.
  intros N. unfold parsePortsWithoutRemapping.
  destruct (cur !! id) as [m |]; [by intros [= _ <-] |].
  destruct (isContainerProcessed_marks id w)
    as (b & w1 & E1 & _ & R1 & _).
  rewrite (bind_done _ _ _ _ _ E1). destruct b; [by intros [= _ <-] |].
  unfold bind at 1, getStore.
  destruct (FindAllStringSubmatch ports) as [| m0 ms]; [by intros [= _ <-] |].
  destruct (forallb _ _); [| by intros [= _ <-]].
  destruct (addDynamicPortLabel_marks id w1) as (w2 & E2 & _).
  rewrite (bind_done _ _ _ _ _ E2). intros [= _ <-].
  rewrite (addDynamicPortLabel_neutral id w1 w2 N E2). done.
Qed.

(** *** One line of the listing *)

Lemma refreshLine_cases cur proc acc line w :
  exists acc' w',
    refreshLine cur proc acc line w = Done acc' w'
    /\ (labelNeutral -> runtime w' = runtime w)
    /\ match line with
       | None => acc' = acc
       | Some dc =>
           match docker_inspect_format (runtime w) "{{.ID}}" (dc_ID dc) with
           | None => acc' = acc
           | Some _ =>
               exists c, acc' = record proc acc c /\ copies dc c
                 /\ PortMappings c = bindingsOf cur (dc_ID dc) (dc_Ports dc)
           end
       end.
Proof.
  unfold refreshLine. destruct line as [dc |]; [| by exists acc, w].
  unfold bind at 1. rewrite query_done.
  destruct (docker_inspect_format (runtime w) "{{.ID}}" (dc_ID dc));
    [| by exists acc, w].
  destruct (composeNames_pure dc w) as [names Hn].
  rewrite (bind_done _ _ _ _ _ Hn).
  destruct (parsePorts_marks (dc_ID dc) (dc_Ports dc) cur w)
    as (dyn & w1 & Hp & _).
  rewrite (bind_done _ _ _ _ _ Hp).
  eexists _, w1. split; [reflexivity |]. split.
  - intros N. by eapply parsePorts_neutral.
  - eexists. split; [reflexivity |]. by repeat split.
Qed.

(** *** What [record] keeps true of the new maps *)

Lemma consistent_empty proc :
  consistent proc {| newContainers := ∅; newPortMappings := ∅;
                     newProcessedContainers := ∅ |}.
Proof.
  constructor; simpl; intros *; rewrite ?lookup_empty; try done.
Qed.

Lemma consistent_record proc f c :
  consistent proc f -> consistent proc (record proc f c).
Proof.
  intros [P M D T I]. constructor; unfold record; simpl.
  - intros id b.
    destruct (decide (ID c = id)) as [<- | Hne].
    + rewrite lookup_insert_eq.
      destruct (proc !! ID c) as [[|] |] eqn:Hp.
      * rewrite lookup_insert_eq. intros [= <-].
        split_and!; first [done | by eexists].
      * intros Hb. destruct (P _ _ Hb) as (_ & _ & ?). congruence.
      * intros Hb. destruct (P _ _ Hb) as (_ & _ & ?). congruence.
    + rewrite lookup_insert_ne by done. intros Hb.
      destruct (proc !! ID c) as [[|] |];
        rewrite ?lookup_insert_ne in Hb by done; by apply P.
  - intros id Hin Hp.
    destruct (decide (ID c = id)) as [<- | Hne].
    + rewrite Hp. apply lookup_insert_eq.
    + rewrite lookup_insert_ne in Hin by done.
      destruct (proc !! ID c) as [[|] |];
        rewrite ?lookup_insert_ne by done; by apply M.
  - intros id.
    destruct (decide (ID c = id)) as [<- | Hne].
    + intros _. rewrite lookup_insert_eq. by eexists.
    + rewrite (lookup_insert_ne (newContainers f)) by done.
      destruct (PortMappings c);
        rewrite ?lookup_insert_ne by done; apply D.
  - intros id c'.
    destruct (decide (ID c = id)) as [<- | Hne].
    + rewrite lookup_insert_eq. intros [= <-] Hpm.
      destruct (PortMappings c) eqn:E; [done |].
      by rewrite lookup_insert_eq.
    + rewrite lookup_insert_ne by done. intros Hc Hpm.
      destruct (PortMappings c);
        rewrite ?lookup_insert_ne by done; by apply T.
  - intros id c'.
    destruct (decide (ID c = id)) as [<- | Hne].
    + rewrite lookup_insert_eq. by intros [= <-].
    + rewrite lookup_insert_ne by done. apply I.
Qed.

Lemma refreshLoop_consistent cur proc lines : forall acc w acc' w',
  forEach (refreshLine cur proc) acc lines w = Done acc' w' ->
  consistent proc acc -> consistent proc acc'.
Proof.
  induction lines as [| line lines IH]; intros acc w acc' w' E Hc; simpl in E.
  - by injection E as <- _.
  - destruct (refreshLine_cases cur proc acc line w)
      as (acc1 & w1 & E1 & _ & Hcase).
    rewrite (bind_done _ _ _ _ _ E1) in E.
    apply (IH _ _ _ _ E).
    destruct line as [dc |]; [| by subst].
    destruct (docker_inspect_format _ _ _); [| by subst].
    destruct Hcase as (c & -> & _). by apply consistent_record.
Qed.

Lemma refreshContainers_consistent w w' :
  refreshContainers w = Done None w' ->
  consistent (processedContainers (store w))
             {| newContainers := containers (store w');
                newPortMappings := portMappings (store w');
                newProcessedContainers := processedContainers (store w') |}.
Proof.
  intros E. destruct (refreshContainers_success w w' E) as [lines Hps].
  destruct (refreshContainers_listed lines w Hps)
    as (fresh & w1 & w2 & E1 & E2 & _ & S2 & _).
  rewrite E in E2. injection E2 as <-. rewrite S2. simpl.
  pose proof (refreshLoop_consistent _ _ _ _ _ _ _ E1
                (consistent_empty _)) as C.
  by destruct fresh.
Qed.

End RefreshInvariants.

Section RestoreFacts.

Lemma existsb_ext_In {A} (f g : A -> bool) (l : list A) :
  (forall x, In x l -> f x = g x) -> existsb f l = existsb g l.
Proof.
  induction l as [| x l IH]; intros Hfg; simpl; [done |].
  rewrite (Hfg x) by by left. f_equal. apply IH. intros y Hy.
  apply Hfg. by right.
Qed.

Lemma storedMappingsOf_snoc pms pm :
  storedMappingsOf (pms ++ [pm])
  = <[portKey (ContainerPort pm) (Protocol pm) := HostPort pm]>
      (storedMappingsOf pms).
Proof. unfold storedMappingsOf. by rewrite fold_left_app. Qed.

Lemma storedMappingsOf_lookup pms : forall key hp,
  storedMappingsOf pms !! key = Some hp ->
  exists pm, pm ∈ pms /\ key = portKey (ContainerPort pm) (Protocol pm)
             /\ hp = HostPort pm.
Proof.
  induction pms as [| pm pms IH] using rev_ind; intros key hp.
  - unfold storedMappingsOf. simpl. by rewrite lookup_empty.
  - rewrite storedMappingsOf_snoc.
    destruct (decide (portKey (ContainerPort pm) (Protocol pm) = key))
      as [<- | Hne].
    + rewrite lookup_insert_eq. intros [= <-]. exists pm.
      split; [| done]. apply elem_of_app. right. by left.
    + rewrite lookup_insert_ne by done. intros Hl.
      destruct (IH key hp Hl) as (pm' & Hin & ?). exists pm'.
      split; [| done]. apply elem_of_app. by left.
Qed.

Lemma storedMappingsOf_elem pms : forall pm,
  pm ∈ pms ->
  is_Some (storedMappingsOf pms !! portKey (ContainerPort pm) (Protocol pm)).
Proof.
  induction pms as [| pm' pms IH] using rev_ind; intros pm Hin.
  - by apply elem_of_nil in Hin.
  - rewrite storedMappingsOf_snoc.
    destruct (decide (portKey (ContainerPort pm') (Protocol pm')
                      = portKey (ContainerPort pm) (Protocol pm)))
      as [-> | Hne].
    + rewrite lookup_insert_eq. by eexists.
    + rewrite lookup_insert_ne by done. apply IH.
      apply elem_of_app in Hin as [Hin | Hin]; [done |].
      apply list_elem_of_singleton in Hin. by subst.
Qed.

Lemma storedMappingsOf_functional pms pm :
  (forall pm1 pm2, pm1 ∈ pms -> pm2 ∈ pms ->
     portKey (ContainerPort pm1) (Protocol pm1)
     = portKey (ContainerPort pm2) (Protocol pm2) ->
     HostPort pm1 = HostPort pm2) ->
  pm ∈ pms ->
  storedMappingsOf pms !! portKey (ContainerPort pm) (Protocol pm)
  = Some (HostPort pm).
Proof.
  intros Hfun Hin.
  destruct (storedMappingsOf_elem pms pm Hin) as [hp Hhp].
  destruct (storedMappingsOf_lookup pms _ _ Hhp) as (pm' & Hin' & Hk & ->).
  rewrite Hhp. f_equal. by apply Hfun.
Qed.

Lemma restorePortMappings_flag_fold stored ms : forall acc dyn,
  snd (fold_left
    (fun (acc : list PortMapping * bool) m =>
       let '(mappings, dynamicPorts) := acc in
       let originalHostPort := m_host m in
       let containerPort := m_cport m in
       let protocol := m_proto m in
       let key := portKey containerPort protocol in
       match stored !! key with
       | Some storedPort =>
           if bool_decide (storedPort ≠ originalHostPort) then
             (mappings ++ [{| ContainerPort := containerPort;
                              HostPort := storedPort;
                              Protocol := protocol;
                              OriginalPort := originalHostPort |}], true)
           else
             (mappings ++ [{| ContainerPort := containerPort;
                              HostPort := originalHostPort;
                              Protocol := protocol;
                              OriginalPort := originalHostPort |}], dynamicPorts)
       | None =>
           (mappings ++ [{| ContainerPort := containerPort;
                            HostPort := originalHostPort;
                            Protocol := protocol;
                            OriginalPort := originalHostPort |}], dynamicPorts)
       end) ms (acc, dyn))
  = dyn || existsb (fun m => bool_decide (HostPort (restored stored m)
                                          ≠ OriginalPort (restored stored m)))
                   ms.
Proof.
  induction ms as [| m ms IH]; intros acc dyn; simpl.
  - by rewrite orb_false_r.
  - unfold restored; simpl.
    destruct (stored !! portKey (m_cport m) (m_proto m)) as [sp |]; simpl.
    + case_bool_decide as Hne; rewrite IH; unfold restored; simpl.
      * by rewrite orb_true_r.
      * done.
    + rewrite IH. unfold restored; simpl.
      rewrite (bool_decide_eq_false_2 (m_host m ≠ m_host m)) by (by intros []).
      done.
Qed.

Lemma restorePortMappings_flag ports stored :
  snd (restorePortMappings ports stored)
  = existsb (fun m => bool_decide (HostPort (restored stored m)
                                   ≠ OriginalPort (restored stored m)))
            (FindAllStringSubmatch ports).
Proof. unfold restorePortMappings. by rewrite restorePortMappings_flag_fold. Qed.

(** X2: [restorePortMappings] reports dynamic ports
    exactly when one of the bindings it returns has a current host port
    that differs from its original port. *)
Theorem restorePortMappings_flags_moved_ports ports stored :
  snd (restorePortMappings ports stored) = true
  <-> exists pm, pm ∈ fst (restorePortMappings ports stored)
                 /\ HostPort pm <> OriginalPort pm.
Proof.
  rewrite restorePortMappings_flag, restorePortMappings_map, existsb_exists.
  split.
  - intros (m & Hin & Hb). exists (restored stored m). split.
    + apply list_elem_of_fmap. exists m. split; [done |].
      by apply list_elem_of_In.
    + by apply bool_decide_eq_true in Hb.
  - intros (pm & Hin & Hne).
    apply list_elem_of_fmap in Hin as (m & -> & Hm). exists m. split.
    + by apply list_elem_of_In.
    + by apply bool_decide_eq_true.
Qed.

(** X3: Restoring against the table built from
    restored bindings changes nothing: when the listing shows no
    container port and protocol on two different host ports, the table
    a refresh stores from the bindings of [restorePortMappings] makes
    the next call return the same bindings and the same flag. *)
Theorem restorePortMappings_stable ports stored :
  (forall m1 m2,
     m1 ∈ FindAllStringSubmatch ports -> m2 ∈ FindAllStringSubmatch ports ->
     portKey (m_cport m1) (m_proto m1) = portKey (m_cport m2) (m_proto m2) ->
     m_host m1 = m_host m2) ->
  restorePortMappings ports
    (storedMappingsOf (fst (restorePortMappings ports stored)))
  = restorePortMappings ports stored.
Proof.
  intros Hfun.
  set (table := storedMappingsOf (fst (restorePortMappings ports stored))).
  assert (Hsame : forall m, m ∈ FindAllStringSubmatch ports ->
                            restored table m = restored stored m).
  { intros m Hm. unfold restored at 1. unfold table.
    rewrite restorePortMappings_map.
    rewrite (storedMappingsOf_functional _ (restored stored m)).
    - done.
    - intros pm1 pm2 H1 H2 Hk.
      apply list_elem_of_fmap in H1 as (m1 & -> & Hm1).
      apply list_elem_of_fmap in H2 as (m2 & -> & Hm2).
      simpl in *. rewrite Hk. by rewrite (Hfun m1 m2 Hm1 Hm2 Hk).
    - apply list_elem_of_fmap. by exists m. }
  destruct (restorePortMappings ports table) as [pms dyn] eqn:E1.
  destruct (restorePortMappings ports stored) as [pms' dyn'] eqn:E2.
  pose proof (restorePortMappings_map ports table) as M1.
  pose proof (restorePortMappings_map ports stored) as M2.
  pose proof (restorePortMappings_flag ports table) as F1.
  pose proof (restorePortMappings_flag ports stored) as F2.
  rewrite E1 in M1, F1. rewrite E2 in M2, F2. cbn [fst snd] in *.
  f_equal.
  - rewrite M1, M2. apply map_ext_in. intros m Hm.
    apply Hsame. by apply list_elem_of_In.
  - rewrite F1, F2. apply existsb_ext_In. intros m Hm.
    rewrite Hsame; [done |]. by apply list_elem_of_In.
Qed.

End RestoreFacts.

Section RefreshProperties.
Context {R : Type} `{!Runtime R}.
Implicit Types w : @World R.

(** X4: After a successful refresh the processed set
    holds exactly the containers it tracks that were marked when the
    refresh began: marks of containers no longer tracked are dropped,
    and so are the marks set while the refresh was running. *)
Theorem refresh_prunes_processed w w' :
  refreshContainers w = Done None w' ->
  forall id,
    (processedContainers (store w') !! id = Some true
     <-> is_Some (containers (store w') !! id)
         /\ processedContainers (store w) !! id = Some true)
    /\ processedContainers (store w') !! id <> Some false.
Proof.
  intros E id. destruct (refreshContainers_consistent w w' E) as [P M _ _ _].
  simpl in *. split; [split |].
  - intros Hp. by destruct (P id true Hp) as (_ & ? & ?).
  - intros [Hc Hp]. by apply M.
  - intros Hp. by destruct (P id false Hp) as (? & _).
Qed.

(** X5: After a successful refresh the port table has
    entries for tracked containers only, and the entry of a tracked
    container with bindings holds, for the key
    [<container-port>/<proto>] of each binding, the current host port
    of a binding with that key, and nothing else. *)
Theorem refresh_port_table w w' :
  refreshContainers w = Done None w' ->
  (forall id, is_Some (portMappings (store w') !! id) ->
              is_Some (containers (store w') !! id))
  /\ (forall id c,
        containers (store w') !! id = Some c -> PortMappings c <> [] ->
        exists table,
          portMappings (store w') !! id = Some table
          /\ table = storedMappingsOf (PortMappings c)
          /\ (forall pm, pm ∈ PortMappings c ->
                is_Some (table !! portKey (ContainerPort pm) (Protocol pm)))
          /\ (forall key hp, table !! key = Some hp ->
                exists pm, pm ∈ PortMappings c
                  /\ key = portKey (ContainerPort pm) (Protocol pm)
                  /\ hp = HostPort pm)).
Proof.
  intros E. destruct (refreshContainers_consistent w w' E) as [_ _ D T _].
  simpl in *. split; [exact D |].
  intros id c Hc Hpm. exists (storedMappingsOf (PortMappings c)).
  split_and!; [by apply T | done | apply storedMappingsOf_elem
               | apply storedMappingsOf_lookup].
Qed.

End RefreshProperties.

Section TrackingFacts.
Context {R : Type} `{!Runtime R}.
Implicit Types w : @World R.

Lemma copies_ID dc c : copies dc c -> ID c = dc_ID dc.
Proof. by intros (? & _). Qed.

Lemma refreshLoop_copies cur proc lines : forall acc w acc' w',
  forEach (refreshLine cur proc) acc lines w = Done acc' w' ->
  forall id c, newContainers acc' !! id = Some c ->
    newContainers acc !! id = Some c
    \/ exists dc, listedIn lines dc /\ dc_ID dc = id /\ copies dc c.
Proof.
  induction lines as [| line lines IH]; intros acc w acc' w' E id c Hc;
    simpl in E.
  - injection E as <- _. by left.
  - destruct (refreshLine_cases cur proc acc line w)
      as (acc1 & w1 & E1 & _ & Hcase).
    rewrite (bind_done _ _ _ _ _ E1) in E.
    destruct (IH _ _ _ _ E id c Hc) as [Hin | (dc & Hl & Hid & Hcp)].
    2:{ right. exists dc. split; [by right | done]. }
    destruct line as [dc |]; [| subst; by left].
    destruct (docker_inspect_format _ _ _); [| subst; by left].
    destruct Hcase as (c1 & -> & Hcp & _). unfold record in Hin. simpl in Hin.
    destruct (decide (ID c1 = id)) as [<- | Hne].
    + rewrite lookup_insert_eq in Hin. injection Hin as <-.
      right. exists dc. split_and!; [by left | by rewrite (copies_ID dc c1) | done].
    + rewrite lookup_insert_ne in Hin by done. by left.
Qed.

Lemma refreshLoop_tracks cur proc lines : forall acc w acc' w',
  labelNeutral ->
  forEach (refreshLine cur proc) acc lines w = Done acc' w' ->
  runtime w' = runtime w
  /\ forall id,
       is_Some (newContainers acc' !! id)
       <-> is_Some (newContainers acc !! id)
           \/ exists dc, listedIn lines dc /\ dc_ID dc = id
                /\ is_Some (docker_inspect_format (runtime w) "{{.ID}}" id).
Proof.
  induction lines as [| line lines IH]; intros acc w acc' w' N E; simpl in E.
  - injection E as <- <-. split; [done |]. intros id. split; [by left |].
    by intros [? | (dc & [] & _)].
  - destruct (refreshLine_cases cur proc acc line w)
      as (acc1 & w1 & E1 & R1 & Hcase).
    rewrite (bind_done _ _ _ _ _ E1) in E. specialize (R1 N).
    destruct (IH _ _ _ _ N E) as [R2 T]. rewrite R1 in R2, T.
    split; [done |]. intros id. rewrite T. clear T.
    destruct line as [dc |].
    2:{ subst acc1. split; [intros [? | (dc & Hl & ?)] | intros [? | (dc & Hl & ?)]].
        - by left.
        - right. exists dc. split; [by right | done].
        - by left.
        - destruct Hl as [? | Hl]; [done |]. right. by exists dc. }
    destruct (docker_inspect_format (runtime w) "{{.ID}}" (dc_ID dc))
      as [out |] eqn:Hchk.
    + destruct Hcase as (c1 & -> & Hcp & _). unfold record. simpl.
      rewrite (copies_ID dc c1 Hcp).
      split.
      * intros [Hin | (dc' & Hl & ?)].
        -- destruct (decide (dc_ID dc = id)) as [<- | Hne].
           ++ right. exists dc. split_and!; [by left | done | by rewrite Hchk].
           ++ rewrite lookup_insert_ne in Hin by done. by left.
        -- right. exists dc'. split; [by right | done].
      * intros [Hin | (dc' & Hl & Hid & Hi)].
        -- left. destruct (decide (dc_ID dc = id)) as [<- | Hne].
           ++ rewrite lookup_insert_eq. by eexists.
           ++ by rewrite lookup_insert_ne.
        -- destruct Hl as [[= ->] | Hl].
           ++ left. rewrite Hid, lookup_insert_eq. by eexists.
           ++ right. by exists dc'.
    + subst acc1. split.
      * intros [? | (dc' & Hl & ?)]; [by left |].
        right. exists dc'. split; [by right | done].
      * intros [? | (dc' & Hl & Hid & Hi)]; [by left |].
        destruct Hl as [[= ->] | Hl].
        -- rewrite <- Hid, Hchk in Hi. by destruct Hi.
        -- right. by exists dc'.
Qed.

(** What the scanner yields are the lines the refresh [reads]. *)
Lemma reads_scanLines output dc :
  reads output dc <-> listedIn (scanLines output) dc.
Proof.
  unfold listedIn. induction output as [| l output IH]; simpl.
  - split; [| done]. intros (before & line & after & Hout & _).
    by destruct before.
  - destruct (line_bytes l <? MaxScanTokenSize) eqn:Hl.
    + apply Z.ltb_lt in Hl. simpl. rewrite <- IH. split.
      * intros (before & line & after & Hout & Hshort & Hjson).
        destruct before as [| l0 before]; simpl in Hout.
        -- injection Hout as -> ->. by left.
        -- injection Hout as -> ->. right.
           exists before, line, after. split_and!; try done.
           by apply Forall_cons in Hshort as [_ ?].
      * intros [Hjson | (before & line & after & -> & Hshort & Hjson)].
        -- exists [], l, output. split_and!; try done.
           by apply Forall_singleton.
        -- exists (l :: before), line, after. split_and!; try done.
           simpl. by apply Forall_cons.
    + apply Z.ltb_ge in Hl. split; [| done].
      intros (before & line & after & Hout & Hshort & _).
      destruct before as [| l0 before]; simpl in Hout, Hshort;
        injection Hout as -> ->; apply Forall_cons in Hshort as [? _]; lia.
Qed.

(** X6: With a runtime that label attempts leave as it is, a refresh
    whose [docker ps] succeeds tracks exactly the containers it reads
    from the output that pass the inspection check: the containers of
    the lines that decode, up to the first line of 64 KiB or more,
    where the scanner gives up and the rest of the output is lost.
    Every tracked container repeats such a line with its id, field by
    field; lines that do not decode add nothing.  The refresh returns
    [nil] and the runtime is left as it was. *)
Theorem refresh_tracks_what_is_listed w output :
  labelNeutral ->
  docker_ps_output (runtime w) = Some output ->
  exists w',
    refreshContainers w = Done None w'
    /\ runtime w' = runtime w
    /\ (forall id,
          is_Some (containers (store w') !! id)
          <-> exists dc, reads output dc /\ dc_ID dc = id
                /\ is_Some (docker_inspect_format (runtime w) "{{.ID}}" id))
    /\ (forall id c,
          containers (store w') !! id = Some c ->
          exists dc, reads output dc /\ dc_ID dc = id /\ copies dc c).
Proof.
  intros N Hout.
  assert (Hps : docker_ps (runtime w) = Some (scanLines output))
    by (unfold docker_ps; by rewrite Hout).
  destruct (refreshContainers_listed _ w Hps)
    as (fresh & w1 & w' & E1 & E & _ & S & _ & Rw & _).
  exists w'. split; [done |].
  destruct (refreshLoop_tracks _ _ _ _ _ _ _ N E1) as [R1 T].
  split; [congruence |]. rewrite S. simpl. split.
  - intros id. rewrite T. simpl. rewrite lookup_empty. split.
    + intros [[? ?] | (dc & Hl & ?)]; [done |].
      exists dc. split; [by apply reads_scanLines | done].
    + intros (dc & Hr & ?). right. exists dc.
      split; [by apply reads_scanLines | done].
  - intros id c Hc.
    destruct (refreshLoop_copies _ _ _ _ _ _ _ E1 id c Hc)
      as [Hin | (dc & Hl & ?)].
    + simpl in Hin. by rewrite lookup_empty in Hin.
    + exists dc. split; [by apply reads_scanLines | done].
Qed.

Lemma handleContainerStop_total w id :
  exists w',
    handleContainerStop id w = Done tt w'
    /\ onlyLabelAttempts w w'
    /\ rand_pos w' = rand_pos w.
Proof.
  unfold handleContainerStop. unfold bind at 1. rewrite query_done.
  unfold bind at 1. unfold locked at 1.
  set (w1 := {| store := forget id (store w); runtime := runtime w;
                rand_src := rand_src w; rand_pos := rand_pos w;
                listen_ok := listen_ok w; invocations := invocations w;
                snapshots := forget id (store w) :: snapshots w |}).
  destruct (refreshContainers_total w1) as (e & w' & E & L & _ & Rp).
  rewrite (bind_done _ _ _ _ _ E). by exists w'.
Qed.

(** X7: A stop event always returns and asks the runtime
    for nothing but labels; afterwards the container is not in the
    processed set, and if the refresh tracks it again its bindings have
    current = original: the ports remembered for it are gone.  When the
    listing fails the store is the old one without the container. *)
Theorem stop_forgets_container w id :
  exists w',
    handleContainerStop id w = Done tt w'
    /\ onlyLabelAttempts w w'
    /\ rand_pos w' = rand_pos w
    /\ processedContainers (store w') !! id <> Some true
    /\ (forall c pm, containers (store w') !! id = Some c ->
          pm ∈ PortMappings c -> HostPort pm = OriginalPort pm)
    /\ (docker_ps (runtime w) = None -> store w' = forget id (store w)).
Proof.
  unfold handleContainerStop. unfold bind at 1. rewrite query_done.
  unfold bind at 1. unfold locked at 1.
  set (w1 := {| store := forget id (store w); runtime := runtime w;
                rand_src := rand_src w; rand_pos := rand_pos w;
                listen_ok := listen_ok w; invocations := invocations w;
                snapshots := forget id (store w) :: snapshots w |}).
  destruct (refreshContainers_total w1) as (e & w' & E & L & _ & Rp).
  rewrite (bind_done _ _ _ _ _ E). exists w'.
  split; [reflexivity |]. split; [exact L |]. split; [exact Rp |].
  destruct (docker_ps (runtime w)) as [lines |] eqn:Hps.
  - destruct (refreshContainers_listed lines w1 Hps)
      as (fresh & w2 & w3 & _ & E3 & _).
    rewrite E in E3. injection E3 as -> <-.
    split_and!.
    + intros Hp.
      destruct (refreshContainers_consistent w1 w' E) as [P _ _ _ _].
      destruct (P id true Hp) as (_ & _ & Hold). simpl in Hold.
      by rewrite lookup_delete_eq in Hold.
    + intros c pm Hc Hpm.
      destruct (refresh_binding_listed w1 w' id c pm E Hc Hpm)
        as (l & dc & m & _ & _ & _ & _ & _ & _ & Ho & Hh).
      simpl in Hh. rewrite lookup_delete_eq in Hh. simpl in Hh. congruence.
    + done.
  - rewrite (refreshContainers_failed w1 Hps) in E. injection E as _ <-.
    simpl. split_and!; try done.
    + by rewrite lookup_delete_eq.
    + intros c pm Hc. by rewrite lookup_delete_eq in Hc.
Qed.

(** X8: The refresh of a store that remembers no port
    and has no processed container, as the one [NewContainerStore]
    starts with: every tracked container gets one binding per match of
    its ports string, with original = current = the listed host port,
    and no container is in the processed set afterwards, whatever
    label or port the containers have. *)
Theorem first_refresh_records_the_listing w w' :
  portMappings (store w) = ∅ ->
  processedContainers (store w) = ∅ ->
  refreshContainers w = Done None w' ->
  processedContainers (store w') = ∅
  /\ portRangeMin (store w') = portRangeMin (store w)
  /\ portRangeMax (store w') = portRangeMax (store w)
  /\ forall id c,
       containers (store w') !! id = Some c ->
       PortMappings c = map observed (FindAllStringSubmatch (Ports c)).
Proof.
  intros Hpm Hproc E.
  destruct (refreshContainers_success w w' E) as [lines Hps].
  destruct (refreshContainers_listed lines w Hps)
    as (fresh & w1 & w2 & _ & E2 & M & S2 & _ & _ & _ & _ & _ & _ & _ & L).
  rewrite E in E2. injection E2 as <-.
  destruct (refreshContainers_consistent w w' E) as [P _ _ _ _].
  simpl in P. destruct M as [_ _ Hmin Hmax _ _ _ _ _ _].
  split_and!.
  - apply map_empty. intros id.
    destruct (processedContainers (store w') !! id) as [b |] eqn:Eb; [| done].
    destruct (P id b Eb) as (_ & _ & Hold).
    by rewrite Hproc, lookup_empty in Hold.
  - by rewrite S2.
  - by rewrite S2.
  - intros id c Hc. rewrite S2 in Hc. simpl in Hc.
    destruct (L id c Hc) as (dc & _ & _ & _ & -> & ->).
    unfold bindingsOf. by rewrite Hpm, lookup_empty.
Qed.

End TrackingFacts.

Section EventFacts.
Context {R : Type} `{!Runtime R}.
Implicit Types w : @World R.

(** X9: A start event for a container that is not
    processed and whose inspection fails, does not decode, or shows no
    port binding changes nothing at all: the container is not marked,
    the store is not refreshed and the runtime is asked for nothing. *)
Theorem start_without_inspection_changes_nothing orders w id :
  processedContainers (store w) !! id <> Some true ->
  labelOf (runtime w) id sentinelLabel <> "true" ->
  nothingToManage (runtime w) id ->
  handleContainerStart orders id w = Done tt w.
Proof.
  intros Hp Hl Hn. unfold handleContainerStart.
  unfold bind at 1. rewrite extractLabel_done.
  rewrite (bind_done _ _ _ _ _ (isContainerProcessed_false id w Hp Hl)).
  unfold bind at 1. rewrite query_done.
  unfold nothingToManage in Hn.
  destruct (docker_inspect_json (runtime w) id) as [| | data]; try done.
  destruct (Dyn.asMap (Dyn.index data "HostConfig")) as [hc |]; [| done].
  destruct (Dyn.asMap (Dyn.index hc "PortBindings")) as [[| b pb] |]; done.
Qed.

(** X10: Only a start event can replace a container: the
    handling of any other event returns, asks the runtime for nothing
    but labels (nothing is stopped, killed, removed or created) and
    draws no port. *)
Theorem only_start_events_replace_containers orders w event :
  ev_Type event <> "container" \/ ev_Status event <> "start" ->
  exists w',
    dispatch orders event w = Done tt w'
    /\ onlyLabelAttempts w w'
    /\ created (invocations w') = created (invocations w)
    /\ rand_pos w' = rand_pos w.
Proof.
  intros Hev.
  assert (G : exists w', dispatch orders event w = Done tt w'
                         /\ onlyLabelAttempts w w' /\ rand_pos w' = rand_pos w).
  { unfold dispatch. case_bool_decide as Ht.
    { exists w. split_and!; [done | apply onlyLabelAttempts_refl | done]. }
    case_bool_decide as Hs; [by destruct Hev |].
    case_bool_decide.
    { destruct (handleContainerStop_total w (ev_ID event))
        as (w' & E & L & Rp).
      by exists w'. }
    case_bool_decide.
    { exists w. split_and!; [done | apply onlyLabelAttempts_refl | done]. }
    destruct (refreshContainers_total w) as (e & w' & E & L & _ & Rp).
    exists w'. by rewrite (bind_done _ _ _ _ _ E). }
  destruct G as (w' & E & L & Rp). exists w'. split_and!; try done.
  by apply onlyLabelAttempts_created.
Qed.

End EventFacts.

Section ReplacementFacts.
Context {R : Type} `{!Runtime R}.
Implicit Types w : @World R.

Lemma docker_log args w :
  exists ok out w',
    docker args w = Done (ok, out) w'
    /\ store w' = store w
    /\ invocations w'
       = {| inv_args := args; inv_ok := ok; inv_out := out |} :: invocations w.
Proof.
  unfold docker. destruct (docker_exec (runtime w) args) as [r [ok out]].
  by eexists _, _, _.
Qed.

(** X11: The replacement of a container always returns,
    and the commands it issued are one of these sequences: the
    container is brought down by a stop, or by a kill after a failed
    stop (when both fail nothing else is tried); only then it is
    removed; only after a successful removal the replacement is run,
    with the arguments given.  The result is [nil] exactly when the run
    succeeded, and then the id it printed is marked as processed. *)
Theorem replacement_steps_in_order w id runArgs :
  let stop := ["stop"; "--time"; "10"; id] in
  let kill := ["kill"; id] in
  let rm := ["rm"; id] in
  let run := "run" :: "-d" :: runArgs in
  exists e w' new,
    replaceContainer id runArgs w = Done e w'
    /\ invocations w' = new ++ invocations w
    /\ ((steps new = [(stop, false); (kill, false)]
         /\ e = Some "failed to stop/kill container")
        \/ exists down,
             (down = [(stop, true)] \/ down = [(stop, false); (kill, true)])
             /\ ((steps new = down ++ [(rm, false)]
                  /\ e = Some "failed to remove container")
                 \/ (steps new = down ++ [(rm, true); (run, false)]
                     /\ e = Some "failed to create new container with remapped port")
                 \/ (steps new = down ++ [(rm, true); (run, true)]
                     /\ e = None
                     /\ exists i, head new = Some i
                          /\ processedContainers (store w')
                               !! TrimSpace (inv_out i) = Some true))).
Proof.
  intros stop kill rm run. unfold replaceContainer.
  destruct (docker_log stop w) as (ok1 & o1 & w1 & E1 & S1 & I1).
  rewrite (bind_done _ _ _ _ _ E1).
  assert (Hdown : exists (down : bool) w2 log,
    (if ok1 then ret true
     else bind (docker ["kill"; id]) (fun x => let '(killed, _) := x in ret killed))
      w1 = Done down w2
    /\ store w2 = store w
    /\ invocations w2 = log ++ invocations w
    /\ (if down
        then steps log = [(stop, true)]
             \/ steps log = [(stop, false); (kill, true)]
        else steps log = [(stop, false); (kill, false)])).
  { destruct ok1.
    - exists true, w1, [{| inv_args := stop; inv_ok := true; inv_out := o1 |}].
      split_and!; [done | done | by rewrite I1 | by left].
    - destruct (docker_log kill w1) as (ok2 & o2 & w2 & E2 & S2 & I2).
      rewrite (bind_done _ _ _ _ _ E2).
      exists ok2, w2,
        [{| inv_args := kill; inv_ok := ok2; inv_out := o2 |};
         {| inv_args := stop; inv_ok := false; inv_out := o1 |}].
      split_and!; [done | congruence | by rewrite I2, I1 |].
      destruct ok2; [by right | done]. }
  destruct Hdown as (down & w2 & log2 & E2 & S2 & I2 & D2).
  rewrite (bind_done _ _ _ _ _ E2).
  destruct down; simpl.
  2:{ exists (Some "failed to stop/kill container"), w2, log2.
      split_and!; [done | done | by left]. }
  assert (Hd : exists down,
             (down = [(stop, true)] \/ down = [(stop, false); (kill, true)])
             /\ steps log2 = down).
  { destruct D2 as [D | D].
    - exists [(stop, true)]. split; [by left | done].
    - exists [(stop, false); (kill, true)]. split; [by right | done]. }
  destruct Hd as (down & Hd & D).
  assert (Hsnoc : forall i, steps (i :: log2)
                            = down ++ [(inv_args i, inv_ok i)]).
  { intros i. unfold steps in *. simpl. by rewrite map_app, D. }
  destruct (docker_log rm w2) as (ok3 & o3 & w3 & E3 & S3 & I3).
  rewrite (bind_done _ _ _ _ _ E3).
  destruct ok3; simpl.
  2:{ eexists _, w3, (_ :: log2). split; [reflexivity |].
      split; [by rewrite I3, I2 |]. right. exists down. split; [done |].
      left. by rewrite Hsnoc. }
  assert (Hsnoc2 : forall i j, steps (j :: i :: log2)
                     = down ++ [(inv_args i, inv_ok i);
                                (inv_args j, inv_ok j)]).
  { intros i j. unfold steps in *. simpl.
    by rewrite !map_app, D, <- app_assoc. }
  destruct (docker_log run w3) as (ok4 & o4 & w4 & E4 & S4 & I4).
  rewrite (bind_done _ _ _ _ _ E4).
  destruct ok4; simpl.
  2:{ eexists _, w4, (_ :: _ :: log2). split; [reflexivity |].
      split; [by rewrite I4, I3, I2 |]. right. exists down. split; [done |].
      right. left. by rewrite Hsnoc2. }
  eexists None, _, (_ :: _ :: log2). split; [reflexivity |]. simpl.
  split; [by rewrite I4, I3, I2 |]. right. exists down. split; [done |].
  right. right. rewrite Hsnoc2. split_and!; [done | done |].
  eexists. split; [reflexivity |]. simpl. apply lookup_insert_eq.
Qed.

Lemma passes_app_l flag value a b :
  passes flag value a -> passes flag value (a ++ b).
Proof.
  intros (pre & post & ->). exists pre, (post ++ b).
  by rewrite <- app_assoc.
Qed.

Lemma passes_app_r flag value a b :
  passes flag value b -> passes flag value (a ++ b).
Proof.
  intros (pre & post & ->). exists (a ++ pre), post.
  by rewrite <- app_assoc.
Qed.

Lemma passes_cons flag value x a :
  passes flag value a -> passes flag value (x :: a).
Proof. apply (passes_app_r flag value [x]). Qed.

Lemma labelArgs_passes labels : forall acc w r w',
  forEach
    (fun (acc : list string) (kv : string * GoValue) =>
       bind (must (Dyn.asString (snd kv)) conversion)
            (fun v => ret (acc ++ ["--label"; fst kv +:+ "=" +:+ v])))
    acc labels w = Done r w' ->
  (forall f v, passes f v acc -> passes f v r)
  /\ forall k v, In (k, GString v) labels ->
        passes "--label" (k +:+ "=" +:+ v) r.
Proof.
  induction labels as [| [k0 v0] labels IH]; intros acc w r w'; simpl.
  - intros [= <- _]. split; [done | by intros ? ? []].
  - unfold bind at 1, bind at 1.
    destruct (Dyn.asString v0) as [s0 |] eqn:E0; simpl; [| by intros [=]].
    intros Hrest. destruct (IH _ _ _ _ Hrest) as [Hacc Hin]. split.
    + intros f v Hp. by apply Hacc, passes_app_l.
    + intros k v [[= -> ->] | Hl]; [| by apply Hin].
      simpl in E0. injection E0 as <-. apply Hacc.
      apply passes_app_r. by exists [], [].
Qed.

Lemma envVars_strings env : forall w envVars w',
  mapM (fun e => must (Dyn.asString e) conversion) env w = Done envVars w' ->
  w' = w /\ env = map GString envVars.
Proof.
  induction env as [| e env IH]; intros w envVars w'; simpl.
  - by intros [= <- <-].
  - unfold bind at 1. destruct e as [| | | | s | |]; simpl; try by intros [=].
    unfold bind at 1.
    destruct (mapM _ env w) as [vs w1 |] eqn:E; [| by intros [=]].
    intros [= <- <-]. destruct (IH _ _ _ E) as [-> ->]. done.
Qed.

Lemma envArgs_passes envVars e :
  In e envVars -> passes "-e" e (flat_map (fun e => ["-e"; e]) envVars).
Proof.
  induction envVars as [| e0 envVars IH]; [done |].
  intros [-> | Hin]; simpl.
  - by exists [], (flat_map (fun e => ["-e"; e]) envVars).
  - by apply passes_cons, passes_cons, IH.
Qed.

Lemma publishArgs_passes (portBindings : list (string * list (string * string)))
    port hostPort :
  In (port, [(EmptyString, hostPort)]) portBindings ->
  passes "-p" (hostPort +:+ ":" +:+ port) (publishArgs portBindings).
Proof.
  induction portBindings as [| [p bs] rest IH]; [done |].
  intros [[= -> ->] | Hin]; unfold publishArgs; simpl.
  - by exists [], (publishArgs rest).
  - apply passes_app_r. by apply IH.
Qed.

Lemma In_assign_same {V} (m : list (string * V)) k v :
  In (k, v) (Dyn.assign m k v).
Proof.
  induction m as [| [k0 v0] m IH]; simpl; [by left |].
  case_bool_decide; [by left | by right].
Qed.

(** X12: The arguments [remapContainerPort] gives to
    [docker run] are read from the inspection data without changing
    anything, and they are: the name without its leading slash first,
    the image last (nothing follows it: the command of the old
    container is not passed on), and in between a [-p] that publishes
    the container port on the new host port on all interfaces, a [-e]
    for every environment variable, a [--label] for every label of the
    container and one for the sentinel label. *)
Theorem replacement_run_arguments id newHostPort cp q info w args w' :
  collectRunArgs id newHostPort cp q info w = Done args w' ->
  w' = w
  /\ exists fullName name config image env labels middle,
       Dyn.asString (Dyn.index info "Name") = Some fullName
       /\ (fullName = String "/" name
           \/ fullName = name /\ HasPrefix name "/" = false)
       /\ Dyn.asMap (Dyn.index info "Config") = Some config
       /\ Dyn.asString (Dyn.index config "Image") = Some image
       /\ Dyn.asSlice (Dyn.index config "Env") = Some env
       /\ Dyn.asMap (Dyn.index config "Labels") = Some labels
       /\ args = "--name" :: name :: middle ++ [image]
       /\ passes "-p" (newHostPort +:+ ":" +:+ portKey cp q) middle
       /\ passes "--label" (sentinelLabel +:+ "=true") middle
       /\ (forall e, In (GString e) env -> passes "-e" e middle)
       /\ (forall k v, In (k, GString v) labels -> k <> sentinelLabel ->
              passes "--label" (k +:+ "=" +:+ v) middle).
Proof.
  intros E. split.
  { pose proof (readOnly_collectRunArgs id newHostPort cp q info w) as Hr.
    rewrite E in Hr. exact Hr. }
  revert E. unfold collectRunArgs.
  unfold bind at 1.
  destruct (Dyn.asString (Dyn.index info "Name")) as [fullName |] eqn:HName;
    simpl; [| by intros [=]].
  unfold bind at 1. destruct fullName as [| c name0] eqn:Hfull; simpl;
    [by intros [=] |].
  rewrite (bind_done _ _ _ _ _ (extractLabel_done _ _ w)).
  unfold bind at 1.
  destruct (Dyn.asMap (Dyn.index info "Config")) as [config |] eqn:HConfig;
    simpl; [| by intros [=]].
  unfold bind at 1.
  destruct (Dyn.asString (Dyn.index config "Image")) as [image |] eqn:HImage;
    simpl; [| by intros [=]].
  unfold bind at 1.
  destruct (Dyn.asMap (Dyn.index info "HostConfig")) as [hostConfig |]
    eqn:HHost; simpl; [| by intros [=]].
  unfold bind at 1.
  destruct (Dyn.asString (Dyn.index hostConfig "NetworkMode"))
    as [networkMode |] eqn:HNet; simpl; [| by intros [=]].
  unfold bind at 1.
  destruct (Dyn.asSlice (Dyn.index config "Env")) as [env |] eqn:HEnv;
    simpl; [| by intros [=]].
  unfold bind at 1.
  destruct (mapM _ env w) as [envVars w1 |] eqn:HVars; [| by intros [=]].
  destruct (envVars_strings _ _ _ _ HVars) as [-> Henv].
  unfold bind at 1.
  destruct (volumeArgsOf info w) as [volumeArgs w2 |]; [| by intros [=]].
  unfold bind at 1.
  destruct (keptBindings hostConfig (portKey cp q) w2) as [kept w3 |];
    [| by intros [=]].
  unfold bind at 1.
  destruct (Dyn.asMap (Dyn.index config "Labels")) as [labels |] eqn:HLabels;
    simpl; [| by intros [=]].
  unfold bind at 1.
  destruct (forEach _ [] (Dyn.assign labels sentinelLabel (GString "true")) w3)
    as [labelArgs w4 |] eqn:HArgs; [| by intros [=]].
  destruct (labelArgs_passes _ _ _ _ _ HArgs) as [_ Hlabels].
  intros [= <- _].
  exists (String c name0),
         (if bool_decide (c = "/"%char) then name0 else String c name0),
         config, image, env, labels,
         ((if bool_decide (networkMode ≠ EmptyString)
              && bool_decide (networkMode ≠ "default")
           then ["--network"; networkMode] else [])
          ++ (if bool_decide (restartPolicyOf hostConfig ≠ EmptyString)
              then ["--restart"; restartPolicyOf hostConfig] else [])
          ++ volumeArgs
          ++ publishArgs (Dyn.assign kept (portKey cp q)
                            [(EmptyString, newHostPort)])
          ++ flat_map (fun e => ["-e"; e]) envVars ++ labelArgs).
  split; [done |]. split.
  { case_bool_decide as Hc.
    - left. by rewrite Hc.
    - right. split; [done |]. simpl. rewrite bool_decide_eq_false_2; [done |].
      congruence. }
  split; [done |]. split; [done |]. split; [done |]. split; [done |].
  split.
  { f_equal. f_equal. by rewrite <- !app_assoc. }
  split_and!.
  - do 3 apply passes_app_r. apply passes_app_l.
    apply publishArgs_passes, In_assign_same.
  - do 5 apply passes_app_r. apply Hlabels, In_assign_same.
  - intros e He. do 4 apply passes_app_r. apply passes_app_l, envArgs_passes.
    rewrite Henv in He. apply in_map_iff in He as (e' & [= ->] & ?). done.
  - intros k v Hin Hne. do 5 apply passes_app_r. apply Hlabels.
    by apply In_assign_other.
Qed.

(** X13: When the inspection of the container fails, does not decode
    or is empty, [remapContainerPort] returns an error before anything
    is stopped: the runtime was asked for nothing but labels.  The
    container has been marked as processed all the same. *)
Theorem remap_gives_up_on_failed_inspection w id old new cp q :
  let w1 := afterwards (addDynamicPortLabel id w) in
  docker_inspect (runtime w1) id = CmdFailed
  \/ docker_inspect (runtime w1) id = Malformed
  \/ docker_inspect (runtime w1) id = Parsed [] ->
  exists msg,
    remapContainerPort id old new cp q w = Done (Some msg) w1
    /\ onlyLabelAttempts w w1
    /\ processedContainers (store w1) !! id = Some true.
Proof.
  intros w1 Hi. unfold remapContainerPort.
  destruct (addDynamicPortLabel_marks id w) as (w2 & E & M & P & _).
  assert (Hw : w1 = w2) by (unfold w1; by rewrite E). rewrite Hw in *.
  rewrite (bind_done _ _ _ _ _ E). unfold bind at 1. rewrite query_done.
  destruct M as [_ _ _ _ _ _ _ _ _ L].
  destruct Hi as [-> | [-> | ->]]; eexists; by split_and!.
Qed.

End ReplacementFacts.

Section AllocationFacts.
Context {R : Type} `{!Runtime R}.
Implicit Types w : @World R.

Lemma inDynamicRange_Itoa (s : ContainerStore) p :
  minInt64 <= p <= maxInt64 ->
  portRangeMin s <= p <= portRangeMax s ->
  inDynamicRange s (Itoa p) = true.
Proof.
  intros Hp Hr. unfold inDynamicRange. rewrite (Atoi_Itoa p Hp). simpl.
  apply negb_true_iff, orb_false_iff. split; lia.
Qed.

(** X14: With a range that is not empty and fits the
    64-bit [int], whenever [checkPortCollision] asks for a relocation
    the new port it returns is the decimal form of a port of
    [[min, max - 1]]: it reads back as that number and the range test
    of the start handler accepts it. *)
Theorem relocation_target_is_in_range w id hostPort q newPort w' :
  minInt64 <= portRangeMin (store w) ->
  portRangeMax (store w) <= maxInt64 ->
  0 < portRangeMax (store w) - portRangeMin (store w) <= maxInt64 ->
  checkPortCollision id hostPort q w = Done (true, newPort) w' ->
  exists p,
    newPort = Itoa p /\ Atoi newPort = (p, true)
    /\ portRangeMin (store w) <= p < portRangeMax (store w)
    /\ inDynamicRange (store w') newPort = true.
Proof.
  intros Hmin Hmax Hw.
  assert (Hwidth : 0 < rangeWidth (store w)).
  { destruct (nthDraw_below_max w 0 Hmin Hmax Hw) as [-> _]. lia. }
  destruct (allocateRandomPort_first_fit w Hwidth) as (k & Ea & _).
  assert (Hk : exists p, p = nthDraw w k
               /\ portRangeMin (store w) <= p < portRangeMax (store w)).
  { exists (nthDraw w k). split; [done |].
    by destruct (nthDraw_below_max w k Hmin Hmax Hw). }
  destruct Hk as (p & Hpk & Hp). rewrite <- Hpk in Ea.
  assert (Hint : minInt64 <= p <= maxInt64) by lia.
  assert (Hgoal : forall w0, store w0 = store w ->
            Itoa p = Itoa p /\ Atoi (Itoa p) = (p, true)
            /\ portRangeMin (store w) <= p < portRangeMax (store w)
            /\ inDynamicRange (store w0) (Itoa p) = true).
  { intros w0 Hs. split_and!; [done | by apply Atoi_Itoa | lia | lia |].
    rewrite Hs. apply inDynamicRange_Itoa; lia. }
  unfold checkPortCollision.
  destruct (Atoi hostPort) as [portInt ok]. destruct ok; simpl; [| by intros [=]].
  unfold bind at 1, getStore.
  destruct ((portRangeMin (store w) <=? portInt)
            && (portInt <=? portRangeMax (store w))).
  - unfold bind at 1, isPortUsedByOtherContainer, bind at 1, getStore, ret.
    destruct (usedByOther (store w) id portInt q); [| by intros [=]].
    rewrite (bind_done _ _ _ _ _ Ea). intros [= <- <-].
    exists p. by apply Hgoal.
  - rewrite (bind_done _ _ _ _ _ Ea). intros [= <- <-].
    exists p. by apply Hgoal.
Qed.

End AllocationFacts.

Section ComposeProperties.
Context {R : Type} `{!Runtime R}.
Implicit Types w : @World R.

Lemma assign_keys {V} (m : list (string * V)) k v :
  is_Some (Dyn.lookup m k) -> map fst (Dyn.assign m k v) = map fst m.
Proof.
  induction m as [| [k0 v0] m IH]; simpl.
  - by intros [? ?].
  - case_bool_decide as Hk; simpl.
    + intros _. by rewrite Hk.
    + intros Hs. f_equal. by apply IH.
Qed.

Lemma asMap_index_lookup (m : GoObject) k sm :
  Dyn.asMap (Dyn.index m k) = Some sm -> is_Some (Dyn.lookup m k).
Proof.
  unfold Dyn.index. destruct (Dyn.lookup m k); [by eexists | done].
Qed.

Lemma asSlice_index_lookup (m : GoObject) k l :
  Dyn.asSlice (Dyn.index m k) = Some l -> is_Some (Dyn.lookup m k).
Proof.
  unfold Dyn.index. destruct (Dyn.lookup m k); [by eexists | done].
Qed.

Lemma sameButPorts_refl services : sameButPorts services services.
Proof. split_and!; [done | | done]. intros svc sm E. by exists sm. Qed.

Lemma sameButPorts_trans s1 s2 s3 :
  sameButPorts s1 s2 -> sameButPorts s2 s3 -> sameButPorts s1 s3.
Proof.
  intros (K1 & M1 & N1) (K2 & M2 & N2). split_and!.
  - congruence.
  - intros svc sm E. destruct (M1 svc sm E) as (sm2 & E2 & Kk & L2).
    destruct (M2 svc sm2 E2) as (sm3 & E3 & Kk3 & L3).
    exists sm3. split_and!; [done | congruence |].
    intros k Hk. by rewrite L3, L2.
  - intros svc E. rewrite N2, N1; [done | done |].
    unfold Dyn.index. rewrite (N1 svc E). exact E.
Qed.

Lemma applyRemapping_sameButPorts services remapping :
  sameButPorts services (applyRemapping services remapping).
Proof.
  unfold applyRemapping. destruct remapping as [key newPort].
  destruct (Split key ":") as [| name [| old [| ? ?]]];
    try apply sameButPorts_refl.
  destruct (Dyn.asMap (Dyn.index services name)) as [cfg |] eqn:Ecfg;
    [| apply sameButPorts_refl].
  destruct (Dyn.asSlice (Dyn.index cfg "ports")) as [ports |] eqn:Eports;
    [| apply sameButPorts_refl].
  split_and!.
  - apply assign_keys. by eapply asMap_index_lookup.
  - intros svc sm E. destruct (decide (name = svc)) as [<- | Hne].
    + rewrite index_assign. simpl. eexists. split; [reflexivity |].
      rewrite Ecfg in E. injection E as <-. split.
      * apply assign_keys. by eapply asSlice_index_lookup.
      * intros k Hk. rewrite lookup_assign.
        by rewrite bool_decide_eq_false_2 by done.
    + rewrite index_assign_ne by done. by exists sm.
  - intros svc E. rewrite lookup_assign.
    case_bool_decide as Hk; [| done]. subst. congruence.
Qed.

Lemma remapped_sameButPorts remappings : forall services,
  sameButPorts services (fold_left applyRemapping remappings services).
Proof.
  induction remappings as [| r rs IH]; intros services; simpl.
  - apply sameButPorts_refl.
  - eapply sameButPorts_trans; [apply applyRemapping_sameButPorts | apply IH].
Qed.

(** X15: The descriptor [GenerateRemappedComposeFile] emits
    differs from the one it read in the [ports] lists only: the same
    top-level keys with the same values except [services]; the same
    services, each with the same keys and the same values except
    [ports]; and every [ports] list has as many entries as before. *)
Theorem emitted_descriptor_differs_in_ports_only
    w file remappings name emitted w' :
  GenerateRemappedComposeFile file remappings w
  = Done (name, Some emitted, None) w' ->
  exists config services services',
    read_compose_file (runtime w) file = Parsed config
    /\ Dyn.asMap (Dyn.index config "services") = Some services
    /\ Dyn.asMap (Dyn.index emitted "services") = Some services'
    /\ map fst emitted = map fst config
    /\ (forall k, k <> "services" ->
          Dyn.lookup emitted k = Dyn.lookup config k)
    /\ sameButPorts services services'
    /\ (forall svc ports,
          portsOf services svc = Some ports ->
          exists ports',
            portsOf services' svc = Some ports'
            /\ length ports' = length ports).
Proof.
  unfold GenerateRemappedComposeFile. unfold bind at 1. rewrite query_done.
  destruct (read_compose_file (runtime w) file) as [| | config] eqn:Er;
    try by intros [=].
  destruct (Dyn.asMap (Dyn.index config "services")) as [services |] eqn:Es;
    [| by intros [=]].
  unfold bind at 1.
  destruct (writeTemp _ w) as [[tmp |] w1 |]; try by intros [=].
  intros [= <- <- <-].
  exists config, services, (fold_left applyRemapping remappings services).
  split_and!; try done.
  - by rewrite index_assign.
  - apply assign_keys. by eapply asMap_index_lookup.
  - intros k Hk. rewrite lookup_assign.
    by rewrite bool_decide_eq_false_2 by done.
  - apply remapped_sameButPorts.
  - intros svc ports Hp. rewrite portsOf_remapped, Hp. simpl.
    eexists. split; [reflexivity |]. by rewrite length_map.
Qed.

(** X16: With a range that is not empty and fits the
    64-bit [int], every new port the pre-planner records is the
    decimal form of a port of [[min, max - 1]] and reads back as that
    number; rewriting a table entry whose [published] is the integer
    of the old port stores that number as the new integer. *)
Theorem planned_ports_are_in_range w file config services :
  compose_config (runtime w) file = Parsed config ->
  Dyn.asMap (Dyn.index config "services") = Some services ->
  minInt64 <= portRangeMin (store w) ->
  portRangeMax (store w) <= maxInt64 ->
  0 < portRangeMax (store w) - portRangeMin (store w) <= maxInt64 ->
  exists remappings (k : nat),
    CheckComposePortConflicts file w = Done (remappings, None) (drawn k w)
    /\ forall key v,
         Dyn.lookup remappings key = Some v ->
         exists p,
           v = Itoa p /\ Atoi v = (p, true)
           /\ portRangeMin (store w) <= p < portRangeMax (store w)
           /\ forall old m z,
                Dyn.asInt (Dyn.index m "published") = Some z ->
                Itoa z = old ->
                rewritePort old v (GMap m)
                = GMap (Dyn.assign m "published" (GInt p)).
Proof.
  intros Hf Hs Hmin Hmax Hw.
  assert (Hwidth : 0 < rangeWidth (store w)).
  { destruct (nthDraw_below_max w 0 Hmin Hmax Hw) as [-> _]. lia. }
  destruct (CheckComposePortConflicts_spec file config services w Hf Hs Hwidth)
    as (remappings & k & E & _ & Hv).
  exists remappings, k. split; [done |]. intros key v Hl.
  destruct (Hv key v Hl) as [n ->].
  destruct (nthDraw_below_max w n Hmin Hmax Hw) as [_ Hp].
  assert (Hint : minInt64 <= nthDraw w n <= maxInt64) by lia.
  exists (nthDraw w n). split_and!; [done | by apply Atoi_Itoa | lia | lia |].
  intros old m z Hz Ho. unfold rewritePort.
  destruct (Dyn.index m "published") as [| | zz | | | |] eqn:Ep;
    simpl in Hz; try done.
  injection Hz as ->. simpl. rewrite Ep. simpl.
  rewrite bool_decide_eq_true_2 by done.
  by rewrite (Atoi_Itoa _ Hint).
Qed.

(** X17: A string entry of a [ports] list that does not
    split at [":"] into exactly two parts (a container port alone, or
    a host address before the host port) is passed over by the
    pre-planner, which records nothing and draws nothing for it, and
    is never rewritten, whatever the remapping. *)
Theorem other_string_forms_are_passed_over (s : string) :
  length (Split s ":") <> 2%nat ->
  (forall svc acc w, checkComposePort svc acc (GString s) w = Done acc w)
  /\ (forall old new, rewritePort old new (GString s) = GString s)
  /\ (forall svc remappings,
        substituted svc remappings (GString s) = GString s).
Proof.
  intros Hlen.
  assert (Hr : forall old new, rewritePort old new (GString s) = GString s).
  { intros old new. unfold rewritePort.
    destruct (HasPrefix s (old +:+ ":")); [| done].
    destruct (Split s ":") as [| a [| b [| ? ?]]]; done. }
  split_and!; [| done |].
  - intros svc acc w. unfold checkComposePort, parseComposePort.
    destruct (Split s ":") as [| a [| b [| ? ?]]]; done.
  - intros svc remappings. unfold substituted.
    induction remappings as [| r rs IH]; simpl; [done |].
    unfold rewriteFor at 2.
    destruct (Split r.1 ":") as [| a [| b [| ? ?]]]; try done.
    case_bool_decide; [by rewrite Hr | done].
Qed.

End ComposeProperties.

Section ViewFacts.

(** A pass over the entries that writes, at most, the key of the entry
    it visits. *)
Lemma keyed_pass {V}
    (step : gmap string string -> string * V -> gmap string string)
    (h : option string -> V -> option string) :
  (forall acc id c,
     step acc (id, c) = match h (acc !! id) c with
                        | Some v => <[id := v]> acc
                        | None => acc
                        end) ->
  forall cs acc,
    NoDup (map fst cs) ->
    (forall id, id ∉ map fst cs -> fold_left step cs acc !! id = acc !! id)
    /\ (forall id c, In (id, c) cs ->
          fold_left step cs acc !! id
          = match h (acc !! id) c with
            | Some v => Some v
            | None => acc !! id
            end).
Proof.
  intros Hstep. induction cs as [| [id0 c0] cs IH]; intros acc Hnd; simpl.
  - split; [done | by intros ? ? []].
  - apply NoDup_cons in Hnd as [Hnotin Hnd].
    destruct (IH (step acc (id0, c0)) Hnd) as [Hout Hin].
    assert (Hother : forall id, id <> id0 ->
                       step acc (id0, c0) !! id = acc !! id).
    { intros id Hne. rewrite Hstep.
      destruct (h (acc !! id0) c0); [by rewrite lookup_insert_ne | done]. }
    split.
    + intros id Hid. apply not_elem_of_cons in Hid as [Hne Hid].
      rewrite Hout by done. by apply Hother.
    + intros id c [[= -> ->] | Hc].
      * rewrite Hout by done. rewrite Hstep.
        destruct (h (acc !! id) c); [by rewrite lookup_insert_eq | done].
      * rewrite (Hin id c Hc). rewrite Hother; [done |].
        intros ->. apply Hnotin. apply list_elem_of_In.
        apply in_map_iff. by exists (id0, c).
Qed.

Lemma projectsByID_spec first second id c :
  NoDup (map fst first) -> NoDup (map fst second) ->
  In (id, c) first -> In (id, c) second ->
  default "standalone"
          (inferredProjects second (declaredProjects first) !! id)
  = projectOf c.
Proof.
  intros Hnd1 Hnd2 Hin1 Hin2.
  pose (h1 := fun (_ : option string) (container : Container) =>
       if bool_decide (ComposeProject container ≠ EmptyString)
          && bool_decide (ComposeProject container ≠ "<no value>")
       then Some (ComposeProject container) else None).
  pose (h2 := fun (o : option string) (container : Container) =>
       match o with
       | Some _ => None
       | None =>
           let parts := Split (TrimPrefix (Names container) "/") "_" in
           if 2 <=? Z.of_nat (length parts) then
             let projectName := default EmptyString (parts !! 0%nat) in
             if bool_decide (projectName ≠ EmptyString)
             then Some projectName else None
           else None
       end).
  assert (E1 : declaredProjects first !! id
               = match h1 ((∅ : gmap string string) !! id) c with
                 | Some v => Some v
                 | None => (∅ : gmap string string) !! id
                 end).
  { unfold declaredProjects.
    apply (keyed_pass _ h1); [| done | done].
    intros acc i k. unfold h1. simpl. by destruct (_ && _). }
  assert (E2 : inferredProjects second (declaredProjects first) !! id
               = match h2 (declaredProjects first !! id) c with
                 | Some v => Some v
                 | None => declaredProjects first !! id
                 end).
  { unfold inferredProjects.
    apply (keyed_pass _ h2); [| done | done].
    intros acc i k. unfold h2. simpl. destruct (acc !! i); [done |].
    destruct (2 <=? _); [| done]. by destruct (bool_decide _). }
  rewrite E2, E1. unfold h1, h2, projectOf. rewrite lookup_empty.
  destruct (bool_decide (ComposeProject c ≠ EmptyString)
            && bool_decide (ComposeProject c ≠ "<no value>")); [done |].
  destruct (Split (TrimPrefix (Names c) "/") "_") as [| a [| b rest]];
    simpl; try done.
  replace (2 <=? Z.of_nat (S (S (length rest)))) with true
    by (symmetry; apply Z.leb_le; lia).
  by case_bool_decide.
Qed.

(** What an order of visit is: its keys are distinct and its entries
    are those of the map. *)
Lemma visits_spec s order :
  visits s order ->
  NoDup (map fst order)
  /\ forall id c, In (id, c) order <-> containers s !! id = Some c.
Proof.
  unfold visits. intros Hv. split.
  - assert (Hp : map fst order ≡ₚ map fst (map_to_list (containers s)))
      by (by apply fmap_Permutation).
    rewrite Hp. apply NoDup_fst_map_to_list.
  - intros id c. rewrite <- list_elem_of_In, Hv.
    apply elem_of_map_to_list.
Qed.

(** The third pass, for any way to name the project of an id. *)
Lemma grouping_pass (g : string -> string) cs : forall acc p,
  let groups :=
    fold_left
      (fun (projects : gmap string (list Container))
           (entry : string * Container) =>
         let '(id, container) := entry in
         <[g id := default [] (projects !! g id) ++ [container]]> projects)
      cs acc in
  default [] (groups !! p)
  = default [] (acc !! p)
    ++ map snd (filter (fun ic => g ic.1 = p) cs)
  /\ (groups !! p = None
      <-> acc !! p = None /\ filter (fun ic => g ic.1 = p) cs = []).
Proof.
  induction cs as [| [id c] cs IH]; intros acc p; simpl.
  - rewrite app_nil_r. split; [done | tauto].
  - destruct (IH (<[g id := default [] (acc !! g id) ++ [c]]> acc) p)
      as [Hd Hn].
    rewrite filter_cons. simpl in *.
    destruct (decide (g id = p)) as [<- | Hne].
    + rewrite lookup_insert_eq in Hd, Hn. simpl in *. split.
      * rewrite Hd. by rewrite <- app_assoc.
      * rewrite Hn. split; [by intros [? _] | by intros [_ ?]].
    + rewrite lookup_insert_ne in Hd, Hn by done. done.
Qed.

Lemma filter_entries (g : string -> string) (p : string)
    (cs : list (string * Container)) :
  (forall id c, In (id, c) cs -> g id = projectOf c) ->
  map snd (filter (fun ic => g ic.1 = p) cs)
  = filter (fun c => projectOf c = p) (map snd cs).
Proof.
  induction cs as [| [id c] cs IH]; intros Hg; [done |].
  simpl. rewrite !filter_cons. simpl.
  rewrite (Hg id c) by by left.
  rewrite <- IH by (intros i k Hik; apply Hg; by right).
  by destruct (decide (projectOf c = p)).
Qed.

(** X18: [GetContainersByComposeProject] puts every tracked
    container in exactly one group, the one [projectOf] names, in
    whatever order its three loops visit the map: the group of a
    project holds the tracked containers of that project, each as
    often as [GetContainers] returns it (once), in the order of the
    third loop; and no group is empty. *)
Theorem containers_are_grouped_by_project
    (s : ContainerStore) first second third :
  visits s first -> visits s second -> visits s third ->
  let groups := GetContainersByComposeProject first second third in
  (forall p,
     default [] (groups !! p)
     = filter (fun c => projectOf c = p) (GetContainers third))
  /\ (forall p order,
        visits s order ->
        default [] (groups !! p)
        ≡ₚ filter (fun c => projectOf c = p) (GetContainers order))
  /\ (forall p, groups !! p <> Some [])
  /\ (forall p c,
        c ∈ default [] (groups !! p)
        <-> projectOf c = p /\ exists id, containers s !! id = Some c).
Proof.
  intros Hv1 Hv2 Hv3 groups.
  destruct (visits_spec _ _ Hv1) as [Hnd1 Hin1].
  destruct (visits_spec _ _ Hv2) as [Hnd2 Hin2].
  destruct (visits_spec _ _ Hv3) as [Hnd3 Hin3].
  set (g := fun id =>
              default "standalone"
                      (inferredProjects second (declaredProjects first)
                         !! id)).
  assert (Hg : forall id c, In (id, c) third -> g id = projectOf c).
  { intros id c Hin. apply projectsByID_spec; [done | done | |].
    - apply Hin1. by apply Hin3.
    - apply Hin2. by apply Hin3. }
  assert (Hpass : forall p,
            default [] (groups !! p)
            = map snd (filter (fun ic => g ic.1 = p) third)
            /\ (groups !! p = None
                <-> filter (fun ic => g ic.1 = p) third = [])).
  { intros p. destruct (grouping_pass g third ∅ p) as [Hd Hn].
    rewrite lookup_empty in Hd, Hn. simpl in Hd. split; [exact Hd |].
    split.
    + intros Hnone. by destruct (proj1 Hn Hnone).
    + intros Hnil. by apply (proj2 Hn). }
  assert (Hgroup : forall p,
            default [] (groups !! p)
            = filter (fun c => projectOf c = p) (GetContainers third)).
  { intros p. destruct (Hpass p) as [-> _]. by apply filter_entries. }
  split_and!.
  - exact Hgroup.
  - intros p order Hv. rewrite Hgroup. unfold GetContainers.
    apply filter_Permutation. apply fmap_Permutation.
    unfold visits in Hv, Hv3. by rewrite Hv, Hv3.
  - intros p Hp. destruct (Hpass p) as [Hd Hn].
    rewrite Hp in Hd. simpl in Hd.
    assert (Hnil : filter (fun ic => g ic.1 = p) third = []).
    { destruct (filter _ third); [done | discriminate Hd]. }
    apply Hn in Hnil. congruence.
  - intros p c. rewrite Hgroup, list_elem_of_filter. unfold GetContainers.
    split.
    + intros [Hp Hin]. split; [done |].
      apply list_elem_of_fmap in Hin as ([id c'] & -> & Hin).
      exists id. apply Hin3. by apply list_elem_of_In.
    + intros [Hp (id & Hc)]. split; [done |].
      apply list_elem_of_fmap. exists (id, c). split; [done |].
      apply list_elem_of_In. by apply Hin3.
Qed.

End ViewFacts.

Section SiblingFacts.
Context {R : Type} `{!Runtime R}.
Implicit Types w : @World R.

(** X19: [parsePortMappings] and
    [parsePortsWithoutRemapping] do the same, result and effects, for a
    container that has remembered ports, or is processed (in memory or
    by its label), or whose listed host ports are all in the range:
    the two differ only where the first relocates. *)
Theorem parsePortMappings_agrees_without_relocation id ports existing w :
  is_Some (existing !! id)
  \/ processedContainers (store w) !! id = Some true
  \/ labelOf (runtime w) id sentinelLabel = "true"
  \/ Forall (fun m => inDynamicRange (store w) (m_host m) = true)
            (FindAllStringSubmatch ports) ->
  parsePortMappings id ports existing w
  = parsePortsWithoutRemapping id ports existing w.
Proof.
  intros Hcase. unfold parsePortMappings, parsePortsWithoutRemapping.
  destruct (existing !! id) as [m |]; [done |].
  destruct (isContainerProcessed_marks id w)
    as (b & w1 & E1 & _ & _ & _ & _ & Hfalse & Hiff).
  rewrite !(bind_done _ _ _ _ _ E1). destruct b; [done |].
  rewrite (Hfalse eq_refl) in *.
  destruct Hcase as [[? ?] | [Hp | [Hl | Hall]]]; [done | | |].
  - assert (false = true) by (apply Hiff; by left). done.
  - assert (false = true) by (apply Hiff; by right). done.
  - unfold bind at 1 3, getStore.
    destruct (FindAllStringSubmatch ports) as [| m0 ms] eqn:Em.
    + by simpl.
    + assert (Hf : forallb (fun m => inDynamicRange (store w) (m_host m))
                     (m0 :: ms) = true).
      { apply forallb_forall. intros m Hm.
        rewrite Forall_forall in Hall. apply Hall. by apply list_elem_of_In. }
      rewrite Hf.
      replace (0 <? Z.of_nat (length (m0 :: ms))) with true
        by (symmetry; apply Z.ltb_lt; simpl length; lia).
      simpl andb. cbv iota.
      rewrite (bind_done (fun w0 => Done (store w0) w0) _ w (store w) w eq_refl).
      cbv beta. by rewrite Hf.
Qed.

Lemma parseAndRemap_keeps id (all : list Submatch) acc m w acc' w' :
  parseAndRemap id acc m w = Done acc' w' ->
  m ∈ all ->
  (forall pm, pm ∈ acc.1 ->
     exists m, m ∈ all
       /\ ContainerPort pm = m_cport m /\ Protocol pm = m_proto m
       /\ OriginalPort pm = m_host m
       /\ (HostPort pm <> OriginalPort pm -> acc.2 = true)) ->
  forall pm, pm ∈ acc'.1 ->
    exists m, m ∈ all
      /\ ContainerPort pm = m_cport m /\ Protocol pm = m_proto m
      /\ OriginalPort pm = m_host m
      /\ (HostPort pm <> OriginalPort pm -> acc'.2 = true).
Proof.
  destruct acc as [mappings dyn]. unfold parseAndRemap.
  intros E Hm Hacc. revert E. unfold bind at 1.
  destruct (checkPortCollision id (m_host m) (m_proto m) w)
    as [[needsRemap newPort] w1 |]; [| by intros [=]].
  assert (Hold : forall dyn' pm, pm ∈ mappings -> (dyn = true -> dyn' = true) ->
            exists m, m ∈ all
              /\ ContainerPort pm = m_cport m /\ Protocol pm = m_proto m
              /\ OriginalPort pm = m_host m
              /\ (HostPort pm <> OriginalPort pm -> dyn' = true)).
  { intros dyn' pm Hpm Hd. destruct (Hacc pm Hpm) as (m' & ? & ? & ? & ? & Hmoved).
    exists m'. split_and!; try done. intros Hne. by apply Hd, Hmoved. }
  destruct needsRemap.
  - unfold bind at 1.
    destruct (remapContainerPort id (m_host m) newPort (m_cport m) (m_proto m) w1)
      as [[err |] w2 |]; try by intros [=].
    + intros [= <- _] pm Hpm. simpl in *. by apply Hold.
    + intros [= <- _] pm Hpm. simpl in *.
      apply elem_of_app in Hpm as [Hpm | Hpm]; [by apply Hold |].
      apply list_elem_of_singleton in Hpm as ->. by exists m.
  - intros [= <- _] pm Hpm. simpl in *.
    apply elem_of_app in Hpm as [Hpm | Hpm]; [by apply Hold |].
    apply list_elem_of_singleton in Hpm as ->. exists m. by split_and!.
Qed.

Lemma parseLoop_keeps id (all : list Submatch) ms : forall acc w acc' w',
  forEach (parseAndRemap id) acc ms w = Done acc' w' ->
  (forall m, m ∈ ms -> m ∈ all) ->
  (forall pm, pm ∈ acc.1 ->
     exists m, m ∈ all
       /\ ContainerPort pm = m_cport m /\ Protocol pm = m_proto m
       /\ OriginalPort pm = m_host m
       /\ (HostPort pm <> OriginalPort pm -> acc.2 = true)) ->
  forall pm, pm ∈ acc'.1 ->
    exists m, m ∈ all
      /\ ContainerPort pm = m_cport m /\ Protocol pm = m_proto m
      /\ OriginalPort pm = m_host m
      /\ (HostPort pm <> OriginalPort pm -> acc'.2 = true).
Proof.
  induction ms as [| m ms IH]; intros acc w acc' w' E Hall Hacc; simpl in E.
  - by injection E as <- _.
  - revert E. unfold bind at 1.
    destruct (parseAndRemap id acc m w) as [acc1 w1 |] eqn:E1; [| by intros [=]].
    intros E. apply (IH _ _ _ _ E).
    + intros m' Hm'. apply Hall. by right.
    + eapply parseAndRemap_keeps; [exact E1 | | exact Hacc].
      apply Hall. by left.
Qed.

(** X20: Every binding [parsePortMappings] returns
    comes from a match of the listing, with its container port and
    protocol, and has the listed host port as its original port, also
    when the binding was relocated; and a binding whose current port
    differs from its original one makes the function report dynamic
    ports. *)
Theorem parsePortMappings_keeps_listed_port_as_original
    id ports existing w pms dyn w' :
  parsePortMappings id ports existing w = Done (pms, dyn) w' ->
  forall pm, pm ∈ pms ->
    exists m, m ∈ FindAllStringSubmatch ports
      /\ ContainerPort pm = m_cport m /\ Protocol pm = m_proto m
      /\ OriginalPort pm = m_host m
      /\ (HostPort pm <> OriginalPort pm -> dyn = true).
Proof.
  unfold parsePortMappings.
  assert (Hobs : forall pm, pm ∈ map observed (FindAllStringSubmatch ports) ->
            exists m, m ∈ FindAllStringSubmatch ports
              /\ ContainerPort pm = m_cport m /\ Protocol pm = m_proto m
              /\ OriginalPort pm = m_host m
              /\ (HostPort pm <> OriginalPort pm -> true = true)).
  { intros pm Hpm. apply list_elem_of_fmap in Hpm as (m & -> & Hm).
    by exists m. }
  destruct (existing !! id) as [stored |].
  { intros [= E] pm Hpm.
    pose proof (restorePortMappings_map ports stored) as Hmap.
    pose proof (restorePortMappings_flag ports stored) as Hflag.
    rewrite E in Hmap, Hflag. simpl in Hmap, Hflag. rewrite Hmap in Hpm.
    apply list_elem_of_fmap in Hpm as (m & -> & Hm).
    exists m. split_and!; try done. intros Hne.
    rewrite Hflag. apply existsb_exists. exists m.
    split; [by apply list_elem_of_In | by apply bool_decide_eq_true]. }
  destruct (isContainerProcessed_marks id w) as (b & w1 & E1 & _).
  rewrite (bind_done _ _ _ _ _ E1). destruct b.
  { intros [= <- <- _]. exact Hobs. }
  unfold bind at 1, getStore.
  destruct (_ && _).
  { unfold bind at 1.
    destruct (addDynamicPortLabel id w1) as [[] w2 |]; [| by intros [=]].
    intros [= <- <- _]. exact Hobs. }
  unfold bind at 1.
  destruct (forEach (parseAndRemap id) ([], false)
                    (FindAllStringSubmatch ports) w1)
    as [[mappings dynamicPorts] w2 |] eqn:El; [| by intros [=]].
  unfold bind at 1.
  destruct ((if dynamicPorts then addDynamicPortLabel id else ret tt) w2)
    as [[] w3 |]; [| by intros [=]].
  intros [= <- <- _].
  apply (parseLoop_keeps id (FindAllStringSubmatch ports) _ _ _ _ _ El);
    [done |].
  simpl. intros pm Hpm. by apply elem_of_nil in Hpm.
Qed.

End SiblingFacts.

Section ComposeCommand.
Context {R : Type} `{!Runtime R} `{!Host R}.
Implicit Types w : @World R.

Lemma assign_not_nil {V} (m : list (string * V)) k v : Dyn.assign m k v <> [].
Proof. destruct m as [| [k0 v0] m]; simpl; [done |]. by case_bool_decide. Qed.

Lemma checkComposePort_nil svc acc pm w w' :
  checkComposePort svc acc pm w = Done [] w' -> acc = [] /\ w' = w.
Proof.
  unfold checkComposePort.
  destruct (parseComposePort pm) as [[hostPort containerPort] protocol].
  destruct (_ || _); [by intros [= -> ->] |].
  destruct (Atoi hostPort) as [portInt ok].
  destruct (negb ok); [by intros [= -> ->] |].
  unfold bind at 1, getStore. unfold bind at 1.
  destruct (tracked (store w) portInt (Some protocol)).
  - unfold ret at 1. unfold bind at 1.
    destruct (allocateRandomPort w) as [p w1 |]; [| by intros [=]].
    intros [= Ha _]. by apply assign_not_nil in Ha.
  - unfold bind at 1. rewrite isPortAvailable_done.
    unfold ret at 1. destruct (negb (available w portInt)).
    + unfold bind at 1.
      destruct (allocateRandomPort w) as [p w1 |]; [| by intros [=]].
      intros [= Ha _]. by apply assign_not_nil in Ha.
    + by intros [= -> ->].
Qed.

Lemma checkComposePorts_nil svc ports : forall acc w w',
  forEach (checkComposePort svc) acc ports w = Done [] w' ->
  acc = [] /\ w' = w.
Proof.
  induction ports as [| pm ports IH]; intros acc w w'; simpl.
  - by intros [= -> ->].
  - unfold bind at 1.
    destruct (checkComposePort svc acc pm w) as [acc1 w1 |] eqn:E1;
      [| by intros [=]].
    intros E. destruct (IH _ _ _ E) as [-> ->].
    by apply checkComposePort_nil in E1.
Qed.

Lemma checkComposeServices_nil services : forall acc w w',
  forEach
    (fun (acc : list (string * string)) (svc : string * GoValue) =>
       let '(serviceName, serviceConfig) := svc in
       match Dyn.asMap serviceConfig with
       | None => ret acc
       | Some serviceMap =>
           match Dyn.asSlice (Dyn.index serviceMap "ports") with
           | None => ret acc
           | Some ports => forEach (checkComposePort serviceName) acc ports
           end
       end)
    acc services w = Done [] w' ->
  acc = [] /\ w' = w.
Proof.
  induction services as [| [name cfg] services IH]; intros acc w w'; simpl.
  - by intros [= -> ->].
  - unfold bind at 1.
    destruct (Dyn.asMap cfg) as [serviceMap |].
    2:{ unfold ret at 1. apply IH. }
    destruct (Dyn.asSlice (Dyn.index serviceMap "ports")) as [ports |].
    2:{ unfold ret at 1. apply IH. }
    destruct (forEach (checkComposePort name) acc ports w)
      as [acc1 w2 |] eqn:E1; [| by intros [=]].
    intros E. destruct (IH _ _ _ E) as [-> ->].
    by apply checkComposePorts_nil in E1.
Qed.

Lemma CheckComposePortConflicts_nil file w e w' :
  CheckComposePortConflicts file w = Done ([], e) w' -> w' = w.
Proof.
  unfold CheckComposePortConflicts. unfold bind at 1. rewrite query_done.
  destruct (compose_config (runtime w) file) as [| | config];
    try by intros [= _ <-].
  destruct (Dyn.asMap (Dyn.index config "services")) as [services |];
    [| by intros [= _ <-]].
  unfold bind at 1.
  destruct (forEach _ [] services w) as [acc w1 |] eqn:E; [| by intros [=]].
  intros [= -> _ <-]. by apply checkComposeServices_nil in E as [_ ->].
Qed.

(** X21: [runComposeCommand]: when the descriptor
    cannot be checked, nothing is run and the error is returned; when
    no declared port conflicts, nothing is drawn or written and
    [docker-compose] is run once on the original file with the given
    arguments; when some port conflicts and the new descriptor is
    written, [docker-compose] is run once on the generated file, which
    is removed afterwards whether the command succeeded or not, and
    the result of the command is returned. *)
Theorem compose_command_outcomes w file args :
  (forall config,
     compose_config (runtime w) file = CmdFailed
     \/ compose_config (runtime w) file = Malformed
     \/ (compose_config (runtime w) file = Parsed config
         /\ Dyn.asMap (Dyn.index config "services") = None) ->
     runComposeCommand file args w
     = Done (Some "failed to check for port conflicts") w)
  /\ (forall config services,
        compose_config (runtime w) file = Parsed config ->
        Dyn.asMap (Dyn.index config "services") = Some services ->
        0 < rangeWidth (store w) ->
        (forall key, ~ conflictKey w services key) ->
        runComposeCommand file args w
        = dockerCompose ("-f" :: file :: args) w)
  /\ (forall config services key,
        compose_config (runtime w) file = Parsed config ->
        Dyn.asMap (Dyn.index config "services") = Some services ->
        0 < rangeWidth (store w) ->
        conflictKey w services key ->
        exists remappings (k : nat),
          CheckComposePortConflicts file w
          = Done (remappings, None) (drawn k w)
          /\ is_Some (Dyn.lookup remappings key)
          /\ (forall name emitted msg w1,
                GenerateRemappedComposeFile file remappings (drawn k w)
                = Done (name, emitted, Some msg) w1 ->
                runComposeCommand file args w
                = Done (Some "failed to generate remapped compose file") w1)
          /\ (forall name emitted w1,
                GenerateRemappedComposeFile file remappings (drawn k w)
                = Done (name, emitted, None) w1 ->
                let ran := compose_run (runtime w1) ("-f" :: name :: args) in
                runComposeCommand file args w
                = Done (if ran.2 then None else Some "exit status")
                       (facing (remove_file ran.1 name) w1))).
Proof.
  split_and!.
  - intros config Hc. unfold runComposeCommand, CheckComposePortConflicts.
    unfold bind at 1. unfold bind at 1. rewrite query_done.
    destruct Hc as [-> | [-> | [-> ->]]]; done.
  - intros config services Hf Hs Hw Hno.
    destruct (CheckComposePortConflicts_spec file config services w Hf Hs Hw)
      as (remappings & k & E & Hiff & _).
    destruct remappings as [| [key v] rest].
    + pose proof (CheckComposePortConflicts_nil _ _ _ _ E) as Hw0.
      unfold runComposeCommand. rewrite (bind_done _ _ _ _ _ E).
      by rewrite Hw0.
    + exfalso. apply (Hno key), Hiff. simpl.
      rewrite bool_decide_eq_true_2 by done. by eexists.
  - intros config services key Hf Hs Hw Hkey.
    destruct (CheckComposePortConflicts_spec file config services w Hf Hs Hw)
      as (remappings & k & E & Hiff & _).
    exists remappings, k. split; [done |].
    assert (Hsome : is_Some (Dyn.lookup remappings key)) by by apply Hiff.
    split; [done |].
    assert (Hne : remappings <> []).
    { intros ->. by destruct Hsome. }
    split.
    + intros name emitted msg w1 Eg. unfold runComposeCommand.
      rewrite (bind_done _ _ _ _ _ E).
      destruct remappings as [| r rest]; [done |].
      by rewrite (bind_done _ _ _ _ _ Eg).
    + intros name emitted w1 Eg ran. unfold runComposeCommand.
      rewrite (bind_done _ _ _ _ _ E).
      destruct remappings as [| r rest]; [done |].
      rewrite (bind_done _ _ _ _ _ Eg).
      unfold bind at 1, dockerCompose. subst ran.
      destruct (compose_run (runtime w1) ("-f" :: name :: args)) as [r1 ok].
      reflexivity.
Qed.

End ComposeCommand.

Section NameFacts.
Context {R : Type} `{!Runtime R}.
Implicit Types w : @World R.

(** X22: The project [refreshContainers] reads off a
    container name, when it finds one, is the start of the name
    (without its leading slash) up to the first underscore, or, failing
    that, up to the first of at least two hyphens; and a name that
    starts with a non-empty part free of underscores followed by an
    underscore always gives that part. *)
Theorem inferred_project_starts_the_name names :
  let name := TrimPrefix names "/" in
  (inferProject names <> EmptyString ->
   (exists rest,
      name = inferProject names +:+ String "_" rest
      /\ without "_" (inferProject names))
   \/ (exists mid rest,
         name = inferProject names +:+ String "-" (mid +:+ String "-" rest)
         /\ without "-" (inferProject names) /\ without "-" mid))
  /\ (forall p rest,
        p <> EmptyString -> without "_" p ->
        name = p +:+ String "_" rest -> inferProject names = p).
Proof.
  intros name. split.
  - unfold inferProject. fold name.
    destruct (Split name "_") as [| a [| b l]] eqn:Eu.
    { by destruct (Split_nonempty name "_"). }
    + (* no underscore *)
      simpl. destruct (Split name "-") as [| x [| y [| z l]]] eqn:Eh;
        simpl; try done.
      replace (3 <=? Z.of_nat (S (S (S (length l))))) with true
        by (symmetry; apply Z.leb_le; lia).
      simpl. case_bool_decide as Hx; [| done]. intros _. right.
      destruct (Split_cons name "-" x y (z :: l) Eh) as (t & Hn & Ht).
      destruct (Split_cons t "-" y z l Ht) as (t' & Ht' & _).
      exists y, t'. split_and!.
      * by rewrite Hn, Ht'.
      * apply (Split_fields_without name "-"). rewrite Eh. by left.
      * apply (Split_fields_without name "-"). rewrite Eh. right. by left.
    + replace (2 <=? Z.of_nat (length (a :: b :: l))) with true
        by (symmetry; apply Z.leb_le; simpl length; lia).
      simpl. case_bool_decide as Ha; simpl.
      * intros _. left.
        destruct (Split_cons name "_" a b l Eu) as (t & Hn & _).
        exists t. split; [done |].
        apply (Split_fields_without name "_"). rewrite Eu. by left.
      * destruct (Split name "-") as [| x [| y [| z l']]] eqn:Eh;
          simpl; try done.
        replace (3 <=? Z.of_nat (S (S (S (length l'))))) with true
          by (symmetry; apply Z.leb_le; lia).
        simpl. case_bool_decide as Hx; [| done]. intros _. right.
        destruct (Split_cons name "-" x y (z :: l') Eh) as (t & Hn & Ht).
        destruct (Split_cons t "-" y z l' Ht) as (t' & Ht' & _).
        exists y, t'. split_and!.
        -- by rewrite Hn, Ht'.
        -- apply (Split_fields_without name "-"). rewrite Eh. by left.
        -- apply (Split_fields_without name "-"). rewrite Eh. right. by left.
  - intros p rest Hp Hw Hn. unfold inferProject. fold name. rewrite Hn.
    rewrite (Split_app "_" p rest Hw).
    destruct (Split rest "_") as [| b l] eqn:Er.
    { by destruct (Split_nonempty rest "_"). }
    replace (2 <=? Z.of_nat (length (p :: b :: l))) with true
      by (symmetry; apply Z.leb_le; simpl length; lia).
    simpl. by rewrite bool_decide_eq_true_2.
Qed.


End NameFacts.

Section ObservableStores.
Context {R : Type} `{!Runtime R}.
Implicit Types w : @World R.

Variable ports : string -> string.

(** *** Keys determine the protocol *)

Lemma append_list s t :
  list_ascii_of_string (s +:+ t)
  = list_ascii_of_string s ++ list_ascii_of_string t.
Proof. induction s as [| a s IH]; simpl; [done | by rewrite IH]. Qed.

Lemma digits_slash c1 : forall c2 q1 q2,
  Forall (fun x => is_digit x = true) c1 ->
  Forall (fun x => is_digit x = true) c2 ->
  c1 ++ "/"%char :: q1 = c2 ++ "/"%char :: q2 -> q1 = q2.
Proof.
  induction c1 as [| a c1 IH]; intros c2 q1 q2 H1 H2 E.
  - destruct c2 as [| b c2]; simpl in E; [congruence |].
    injection E as <- _. apply Forall_cons in H2 as [Hb _]. done.
  - destruct c2 as [| b c2]; simpl in E.
    + injection E as -> _. apply Forall_cons in H1 as [Ha _]. done.
    + injection E as _ E. apply Forall_cons in H1 as [_ H1].
      apply Forall_cons in H2 as [_ H2]. by eapply IH.
Qed.

Lemma match_key_protocol p1 p2 m1 m2 :
  m1 ∈ FindAllStringSubmatch p1 -> m2 ∈ FindAllStringSubmatch p2 ->
  portKey (m_cport m1) (m_proto m1) = portKey (m_cport m2) (m_proto m2) ->
  m_proto m1 = m_proto m2.
Proof.
  intros H1 H2 Hk. apply list_elem_of_In in H1, H2.
  apply scan_spec in H1 as (_ & _ & h1 & c1 & q1 & _ & _ & S1).
  apply scan_spec in H2 as (_ & _ & h2 & c2 & q2 & _ & _ & S2).
  destruct S1 as (_ & Ec1 & Eq1 & _ & _ & _ & _ & D1 & _).
  destruct S2 as (_ & Ec2 & Eq2 & _ & _ & _ & _ & D2 & _).
  unfold portKey in Hk. rewrite Ec1, Eq1, Ec2, Eq2 in Hk. rewrite Eq1, Eq2.
  apply (f_equal list_ascii_of_string) in Hk.
  rewrite !append_list, !list_ascii_of_string_of_list_ascii in Hk.
  simpl in Hk. by rewrite (digits_slash c1 c2 q1 q2 D1 D2 Hk).
Qed.

(** *** Stores that mirror the listings *)

Lemma mirrors_same s s' :
  containers s' = containers s -> portMappings s' = portMappings s ->
  mirrors ports s -> mirrors ports s'.
Proof. intros Hc Hp (M1 & M2 & M3). unfold mirrors. by rewrite Hc, Hp. Qed.

Lemma mirrors_setProcessed id s :
  mirrors ports s -> mirrors ports (setProcessed id s).
Proof. by apply mirrors_same. Qed.

Lemma mirrors_forget id s : mirrors ports s -> mirrors ports (forget id s).
Proof.
  intros (M1 & M2 & M3). split_and!; simpl.
  - intros id1 id2 [c1 H1] [c2 H2].
    apply lookup_delete_Some in H1 as [_ H1].
    apply lookup_delete_Some in H2 as [_ H2].
    apply M1; by eexists.
  - intros i c pm Hc. apply lookup_delete_Some in Hc as [_ Hc]. by apply M2.
  - intros i table key h Ht. apply lookup_delete_Some in Ht as [_ Ht].
    by apply M3.
Qed.

Lemma mirrors_empty s :
  containers s = ∅ -> portMappings s = ∅ -> mirrors ports s.
Proof.
  intros Hc Hp. split_and!.
  - intros id1 id2 [c Hs]. by rewrite Hc, lookup_empty in Hs.
  - intros id c pm Hs. by rewrite Hc, lookup_empty in Hs.
  - intros id table key h Hs. by rewrite Hp, lookup_empty in Hs.
Qed.

Hypothesis listings_steady :
  forall (r : R) lines, docker_ps r = Some lines -> steady ports lines.

Lemma mirrors_noDoubleBinding s : mirrors ports s -> noDoubleBinding s.
Proof.
  intros (M1 & M2 & _) id1 id2 c1 c2 Hc1 Hc2 Hne
         (pm1 & pm2 & Hin1 & Hin2 & Hh & Hq).
  destruct (M2 id1 c1 pm1 Hc1 Hin1) as (m1 & Hm1 & _ & Hq1 & Hh1).
  destruct (M2 id2 c2 pm2 Hc2 Hin2) as (m2 & Hm2 & _ & Hq2 & Hh2).
  destruct (M1 id1 id2) as (r & lines & dc1 & dc2 & Hps & Hl1 & Hi1 & Hl2 & Hi2);
    [by eexists | by eexists |].
  destruct (listings_steady r lines Hps) as [Hports Huniq].
  apply Hne. rewrite <- Hi1, <- Hi2.
  apply (Huniq dc1 dc2 m1 m2); try done.
  - by rewrite (Hports dc1 Hl1), Hi1.
  - by rewrite (Hports dc2 Hl2), Hi2.
  - congruence.
  - congruence.
Qed.

(** *** A refresh *)

(** Every remembered port the loop of a refresh writes is the current
    port of a binding it recorded for a line with that id. *)
Lemma refreshLoop_tables cur proc lines : forall acc w acc' w',
  forEach (refreshLine cur proc) acc lines w = Done acc' w' ->
  forall id table,
    newPortMappings acc' !! id = Some table ->
    newPortMappings acc !! id = Some table
    \/ exists dc, listedIn lines dc /\ dc_ID dc = id
         /\ table = storedMappingsOf (bindingsOf cur id (dc_Ports dc)).
Proof.
  unfold listedIn.
  induction lines as [| line lines IH]; intros acc w acc' w' E id table Ht;
    simpl in E.
  - injection E as <- _. by left.
  - destruct (refreshLine_cases cur proc acc line w)
      as (acc1 & w1 & E1 & _ & Hcase).
    rewrite (bind_done _ _ _ _ _ E1) in E.
    destruct (IH _ _ _ _ E id table Ht) as [Hacc1 | (dc & Hl & Hid & Htab)].
    2:{ right. exists dc. split; [by right | done]. }
    destruct line as [dc |]; [| subst; by left].
    destruct (docker_inspect_format _ _ _); [| subst; by left].
    destruct Hcase as (c & -> & Hcp & Hpm).
    unfold record in Hacc1. simpl in Hacc1.
    destruct (PortMappings c) as [| pm pms] eqn:Epm; [by left |].
    destruct Hcp as (Hid & _).
    destruct (decide (ID c = id)) as [Heq | Hne].
    + rewrite Heq, lookup_insert_eq in Hacc1. injection Hacc1 as <-.
      right. exists dc. split; [by left |]. split; [congruence |].
      rewrite <- Heq, Hid, <- Hpm. done.
    + rewrite lookup_insert_ne in Hacc1 by done. by left.
Qed.

Lemma mirrors_refresh w w' :
  refreshContainers w = Done None w' ->
  mirrors ports (store w) -> mirrors ports (store w').
Proof.
  intros E (_ & _ & M3).
  destruct (refreshContainers_success w w' E) as [lines Hps].
  destruct (refreshContainers_listed lines w Hps)
    as (fresh & w1 & w2 & E1 & E2 & _ & S2 & _ & _ & _ & _ & _ & _ & _ & L).
  rewrite E in E2. injection E2 as <-.
  destruct (listings_steady _ _ Hps) as [Hports _].
  assert (Hbind : forall id dc pm,
            listedIn lines dc -> dc_ID dc = id ->
            pm ∈ bindingsOf (portMappings (store w)) id (dc_Ports dc) ->
            exists m, m ∈ FindAllStringSubmatch (ports id)
              /\ portKey (ContainerPort pm) (Protocol pm)
                 = portKey (m_cport m) (m_proto m)
              /\ Protocol pm = m_proto m /\ HostPort pm = m_host m).
  { intros id dc pm Hl Hid Hpm.
    apply bindingsOf_spec in Hpm as (m & Hm & Hcp & Hq & _ & Hh).
    rewrite (Hports dc Hl), Hid in Hm.
    destruct (portMappings (store w) !! id) as [table |] eqn:Et; simpl in Hh.
    - destruct (table !! portKey (m_cport m) (m_proto m)) as [h |] eqn:Ek;
        simpl in Hh.
      + destruct (M3 id table _ h Et Ek) as (m' & Hm' & Hk' & Hh').
        exists m'. split_and!; [done | congruence | | congruence].
        rewrite Hq. by eapply match_key_protocol.
      + exists m. split_and!; congruence.
    - exists m. split_and!; congruence. }
  rewrite S2. split_and!; simpl.
  - intros id1 id2 [c1 H1] [c2 H2].
    destruct (L id1 c1 H1) as (dc1 & Hl1 & Hi1 & _).
    destruct (L id2 c2 H2) as (dc2 & Hl2 & Hi2 & _).
    by exists (runtime w), lines, dc1, dc2.
  - intros id c pm Hc Hpm.
    destruct (L id c Hc) as (dc & Hl & Hid & _ & _ & Hb).
    rewrite Hb in Hpm. by eapply Hbind.
  - intros id table key h Ht Hk.
    destruct (refreshLoop_tables _ _ _ _ _ _ _ E1 id table Ht)
      as [Hempty | (dc & Hl & Hid & ->)].
    + simpl in Hempty. by rewrite lookup_empty in Hempty.
    + apply storedMappingsOf_lookup in Hk as (pm & Hpm & -> & ->).
      destruct (Hbind id dc pm Hl Hid Hpm) as (m & Hm & Hkey & _ & Hh).
      by exists m.
Qed.

(** *** Calls that keep it so *)

Lemma allMirror_same w w' :
  store w' = store w -> snapshots w' = snapshots w ->
  allMirror ports w -> allMirror ports w'.
Proof. unfold allMirror. by intros -> ->. Qed.

Lemma keeps_ret {A} (a : A) : keeps (R := R) ports (ret a).
Proof. by intros w. Qed.

Lemma keeps_panic {A} msg : keeps ports (@panic R A msg).
Proof. by intros w. Qed.

Lemma keeps_readOnly {A} (m : @Go R A) : readOnly m -> keeps ports m.
Proof. intros Hro w. by rewrite Hro. Qed.

Lemma keeps_bind {A B} (m : @Go R A) (k : A -> @Go R B) :
  keeps ports m -> (forall a, keeps ports (k a)) -> keeps ports (bind m k).
Proof.
  intros Hm Hk w Hw. specialize (Hm w Hw). unfold bind.
  destruct (m w) as [a w1 | msg w1]; simpl in *; [by apply Hk | done].
Qed.

Lemma keeps_forEach {A B} (f : B -> A -> @Go R B) l :
  (forall acc x, keeps ports (f acc x)) ->
  forall acc, keeps ports (forEach f acc l).
Proof.
  intros Hf. induction l as [| x l IH]; intros acc; simpl.
  - apply keeps_ret.
  - apply keeps_bind; [apply Hf | apply IH].
Qed.

Lemma keeps_locked f :
  (forall s, mirrors ports s -> mirrors ports (f s)) ->
  keeps ports (locked (R := R) f).
Proof.
  intros Hf w Hw. unfold allMirror in *. simpl.
  pose proof (Forall_inv Hw) as Hs.
  apply Forall_cons. split; [by apply Hf |].
  apply Forall_cons. split; [by apply Hf |]. by apply Forall_inv_tail in Hw.
Qed.

Lemma keeps_docker args : keeps ports (docker (R := R) args).
Proof.
  intros w Hw. unfold docker.
  destruct (docker_exec (runtime w) args) as [r [ok out]]. by simpl.
Qed.

Lemma keeps_Intn n : keeps ports (Intn (R := R) n).
Proof. intros w Hw. unfold Intn. by destruct (n <=? 0). Qed.

Lemma keeps_refreshContainers : keeps ports (refreshContainers (R := R)).
Proof.
  intros w Hw.
  destruct (docker_ps (runtime w)) as [lines |] eqn:Hps.
  - destruct (refreshContainers_listed lines w Hps)
      as (fresh & w1 & w' & _ & E & M & S & N & _).
    pose proof (mirrors_refresh w w' E (Forall_inv Hw)) as H'.
    rewrite E. simpl. unfold allMirror in *. rewrite N, <- S.
    apply Forall_cons. split; [done |].
    apply Forall_cons. split; [done |].
    destruct M as [_ _ _ _ _ _ _ _ (mid & -> & F) _].
    apply Forall_app. split; [| by apply Forall_inv_tail in Hw].
    eapply Forall_impl; [exact F |].
    intros s (Hc & Hp & _). eapply mirrors_same; [done | done |].
    by apply Forall_inv in Hw.
  - by rewrite (refreshContainers_failed w Hps).
Qed.

Ltac keeps_steps :=
  repeat first
    [ apply keeps_ret
    | apply keeps_panic
    | apply keeps_readOnly; first [ apply readOnly_query | apply readOnly_getStore
                                  | apply readOnly_must ]
    | apply keeps_docker
    | apply keeps_Intn
    | apply keeps_refreshContainers
    | apply keeps_locked; intros ?; first [ apply mirrors_setProcessed
                                          | apply mirrors_forget ]
    | apply keeps_bind; [| intros ?]
    | match goal with
      | |- keeps _ (match ?x with _ => _ end) => destruct x
      end ].

Lemma keeps_addDynamicPortLabel id :
  keeps ports (addDynamicPortLabel (R := R) id).
Proof. unfold addDynamicPortLabel. keeps_steps. Qed.

Lemma keeps_extractLabel id label :
  keeps ports (extractLabel (R := R) id label).
Proof. unfold extractLabel. keeps_steps. Qed.

Lemma keeps_isContainerProcessed id :
  keeps ports (isContainerProcessed (R := R) id).
Proof.
  unfold isContainerProcessed. keeps_steps.
Qed.

Lemma keeps_isPortAvailable port : keeps ports (isPortAvailable (R := R) port).
Proof. unfold isPortAvailable. keeps_steps. Qed.

Lemma keeps_drawPort : keeps ports (drawPort (R := R)).
Proof. unfold drawPort. keeps_steps. Qed.

Lemma keeps_allocateAttempts n : keeps ports (allocateAttempts (R := R) n).
Proof.
  induction n as [| n IH]; simpl; [apply keeps_drawPort |].
  apply keeps_bind; [apply keeps_drawPort | intros port].
  apply keeps_bind; [apply keeps_isPortAvailable | intros free].
  destruct free; [apply keeps_ret | apply IH].
Qed.

Lemma keeps_checkPortCollision id hostPort q :
  keeps ports (checkPortCollision (R := R) id hostPort q).
Proof.
  unfold checkPortCollision, allocateRandomPort, isPortUsedByOtherContainer.
  destruct (Atoi hostPort) as [p ok].
  keeps_steps; try apply keeps_allocateAttempts.
Qed.

Lemma keeps_scheduleRemaps id pb : keeps ports (scheduleRemaps (R := R) id pb).
Proof.
  unfold scheduleRemaps. apply keeps_forEach. intros acc [key bindings].
  unfold scheduleEntry.
  apply keeps_bind; [apply keeps_readOnly, readOnly_firstHostPort |].
  intros [hp |]; [| apply keeps_ret].
  destruct (Split key "/") as [| cp [| q [| ? ?]]]; try apply keeps_ret.
  apply keeps_bind; [apply keeps_checkPortCollision |].
  intros [b newPort]. destruct b; apply keeps_ret.
Qed.

Lemma keeps_replaceContainer id runArgs :
  keeps ports (replaceContainer (R := R) id runArgs).
Proof. unfold replaceContainer. keeps_steps. Qed.

Lemma keeps_remapContainerPort id old new cp q :
  keeps ports (remapContainerPort (R := R) id old new cp q).
Proof.
  unfold remapContainerPort.
  apply keeps_bind; [apply keeps_addDynamicPortLabel | intros _].
  apply keeps_bind; [apply keeps_readOnly, readOnly_query | intros inspected].
  destruct inspected as [| | [| info rest]]; try apply keeps_ret.
  apply keeps_bind;
    [apply keeps_readOnly, readOnly_collectRunArgs | intros runArgs].
  apply keeps_replaceContainer.
Qed.

Lemma keeps_remapScheduled id pb sched :
  keeps ports (remapScheduled (R := R) id pb sched).
Proof.
  unfold remapScheduled. apply keeps_forEach. intros [] [key newHostPort].
  unfold remapEntry.
  repeat (apply keeps_bind;
          [apply keeps_readOnly, readOnly_must | intros ?]).
  apply keeps_bind; [apply keeps_remapContainerPort | intros _].
  apply keeps_ret.
Qed.

Lemma keeps_handleContainerStart orders id :
  keeps ports (handleContainerStart (R := R) orders id).
Proof.
  unfold handleContainerStart.
  apply keeps_bind; [apply keeps_extractLabel | intros _].
  apply keeps_bind; [apply keeps_isContainerProcessed | intros processed].
  destruct processed; [keeps_steps |].
  apply keeps_bind; [apply keeps_readOnly, readOnly_query | intros output].
  destruct output as [| | containerData]; try apply keeps_ret.
  destruct (Dyn.asMap (Dyn.index containerData "HostConfig"))
    as [hostConfig |]; [| apply keeps_ret].
  destruct (Dyn.asMap (Dyn.index hostConfig "PortBindings"))
    as [[| entry pb] |]; try apply keeps_ret.
  apply keeps_bind; [apply keeps_readOnly, readOnly_getStore | intros s].
  apply keeps_bind;
    [apply keeps_readOnly, readOnly_allInDynamicRange | intros allIn].
  destruct allIn.
  - apply keeps_bind; [apply keeps_addDynamicPortLabel | intros _].
    keeps_steps.
  - apply keeps_bind; [apply keeps_scheduleRemaps | intros sched].
    apply keeps_bind; [| intros _; keeps_steps].
    destruct sched; [apply keeps_addDynamicPortLabel |].
    apply keeps_remapScheduled.
Qed.

Lemma keeps_handleContainerStop id :
  keeps ports (handleContainerStop (R := R) id).
Proof. unfold handleContainerStop. keeps_steps. Qed.

Lemma keeps_dispatch orders event :
  keeps ports (dispatch (R := R) orders event).
Proof.
  unfold dispatch.
  repeat case_bool_decide; try apply keeps_ret.
  - apply keeps_handleContainerStart.
  - apply keeps_handleContainerStop.
  - keeps_steps.
Qed.

(** C6, as amended: take a runtime that is steady: every listing shows
    each container with the same ports, and none shows a host port and
    protocol under two container ids.  Then in every store a reader
    can observe in a world reached from the empty store by refreshes
    and the handling of events, in any order and whatever the runtime
    does in between, no host port and protocol is bound by two tracked
    containers. *)
Theorem observable_stores_have_no_double_binding w0 w :
  containers (store w0) = ∅ ->
  portMappings (store w0) = ∅ ->
  snapshots w0 = [] ->
  reachable w0 w ->
  Forall noDoubleBinding (store w :: snapshots w).
Proof.
  intros Hc Hp Hs Hreach.
  assert (H : allMirror ports w).
  { induction Hreach as [| w Hr IH | w orders event Hr IH | w r Hr IH].
    - unfold allMirror. rewrite Hs. apply Forall_singleton.
      by apply mirrors_empty.
    - by apply keeps_refreshContainers.
    - by apply keeps_dispatch.
    - exact IH. }
  eapply Forall_impl; [exact H |]. apply mirrors_noDoubleBinding.
Qed.

End ObservableStores.

Section SteadyScenario.

Import Scenario.

Ltac cases :=
  repeat match goal with
         | H : _ \/ _ |- _ => destruct H as [H | H]
         | H : False |- _ => destruct H
         end;
  simplify_eq.

(** The runtime with two containers is steady. *)
Lemma two_containers_steady (r : Steady.State) lines :
  docker_ps r = Some lines -> steady Steady.portsOf lines.
Proof.
  intros Hps. split.
  - intros dc Hl. unfold listedIn in Hl.
    destruct r as [[|] [|]]; vm_compute in Hps; injection Hps as <-;
      simpl in Hl; cases; reflexivity.
  - intros dc1 dc2 m1 m2 H1 H2 Hm1 Hm2 Hh Hq.
    unfold listedIn in H1, H2. apply list_elem_of_In in Hm1, Hm2.
    destruct r as [[|] [|]]; vm_compute in Hps; injection Hps as <-;
      simpl in H1, H2; cases; try reflexivity;
      vm_compute in Hm1, Hm2; cases; discriminate Hh.
Qed.

(** Both containers up, [B] down and its [die] event handled, [B] up
    again and a refresh: five stores could be observed, the last two
    refreshes starting from a store that remembers ports; none has a
    double binding. *)
Lemma observable_stores_have_no_double_binding_witness :
  Forall noDoubleBinding (store busy :: snapshots busy)
  /\ length (snapshots busy) = 4%nat
  /\ map fst (map_to_list (containers (store busy))) = ["A"; "B"].
Proof.
  split_and!.
  - apply (observable_stores_have_no_double_binding
             Steady.portsOf two_containers_steady bothUp busy).
    + vm_compute. reflexivity.
    + vm_compute. reflexivity.
    + vm_compute. reflexivity.
    + unfold busy.
      apply reach_refresh, reach_runtime, reach_event, reach_runtime,
            reach_refresh, reach_start.
  - vm_compute. reflexivity.
  - vm_compute. reflexivity.
Defined.

End SteadyScenario.

Section FurtherScenarios.

Import Scenario.

Ltac cases :=
  repeat match goal with
         | H : _ \/ _ |- _ => destruct H as [H | H]
         | H : False |- _ => destruct H
         end;
  simplify_eq.

Lemma Sim_labelNeutral : labelNeutral (R := Sim.State).
Proof. intros r rest. reflexivity. Qed.

(** A table that remembers 9000 for 80/tcp: restoring against the table
    built from the restored bindings gives them back. *)
Lemma restorePortMappings_stable_witness :
  restorePortMappings "0.0.0.0:8080->80/tcp"
    (storedMappingsOf
       (fst (restorePortMappings "0.0.0.0:8080->80/tcp" remembered)))
  = ([{| ContainerPort := "80"; HostPort := "9000"; Protocol := "tcp";
         OriginalPort := "8080" |}], true).
Proof.
  rewrite (restorePortMappings_stable "0.0.0.0:8080->80/tcp" remembered).
  - vm_compute. reflexivity.
  - intros m1 m2 H1 H2 _.
    apply list_elem_of_In in H1, H2. vm_compute in H1, H2. cases.
    reflexivity.
Defined.

(** The mark of [A] survives the refresh, the one of the container that
    is gone does not. *)
Lemma refresh_prunes_processed_witness :
  processedContainers (store (afterwards (refreshContainers stale))) !! "A"
  = Some true
  /\ processedContainers (store (afterwards (refreshContainers stale)))
       !! "gone" <> Some true.
Proof.
  assert (E : refreshContainers stale
              = Done None (afterwards (refreshContainers stale)))
    by (vm_compute; reflexivity).
  split.
  - destruct (refresh_prunes_processed stale _ E "A") as [[_ Hm] _].
    apply Hm. split; [| vm_compute; reflexivity].
    exists (theContainer (afterwards (refreshContainers stale)) "A").
    vm_compute. reflexivity.
  - destruct (refresh_prunes_processed stale _ E "gone") as [[Hm _] _].
    intros Hp. destruct (Hm Hp) as [[c Hc] _]. vm_compute in Hc.
    discriminate Hc.
Defined.

(** After the refresh the table of [A] holds 8080 for 80/tcp. *)
Lemma refresh_port_table_witness :
  exists table,
    portMappings (store (afterwards (refreshContainers stale))) !! "A"
    = Some table
    /\ table !! "80/tcp" = Some "8080".
Proof.
  assert (E : refreshContainers stale
              = Done None (afterwards (refreshContainers stale)))
    by (vm_compute; reflexivity).
  destruct (refresh_port_table stale _ E) as [_ Htable].
  assert (Hc : containers (store (afterwards (refreshContainers stale)))
                 !! "A"
               = Some (theContainer (afterwards (refreshContainers stale))
                                    "A"))
    by (vm_compute; reflexivity).
  assert (Hp : PortMappings
                 (theContainer (afterwards (refreshContainers stale)) "A")
               <> [])
    by (vm_compute; discriminate).
  destruct (Htable "A" _ Hc Hp) as (table & Ht & Hs & _).
  exists table. split; [exact Ht |].
  rewrite Hs. vm_compute. reflexivity.
Defined.



(** Three containers are up and the line of the second has more than
    64 KiB: the refresh tracks the first and returns; the third, whose
    line comes after the long one, is not tracked. *)
Lemma refresh_tracks_what_is_listed_witness :
  exists w',
    refreshContainers crowded = Done None w'
    /\ map (fun l => line_bytes l <? MaxScanTokenSize)
           (outputOf (runtime crowded))
       = [true; false; true]
    /\ is_Some (containers (store w') !! "A")
    /\ containers (store w') !! "W" = None
    /\ containers (store w') !! "N" = None.
Proof.
  destruct (refresh_tracks_what_is_listed crowded (outputOf (runtime crowded))
              Sim_labelNeutral)
    as (w' & E & _ & Hin & _).
  - vm_compute. reflexivity.
  - assert (Hgone : forall id, id = "W" \/ id = "N" ->
                      containers (store w') !! id = None).
    { intros id Hid.
      destruct (containers (store w') !! id) as [c |] eqn:Hc; [| reflexivity].
      destruct (proj1 (Hin id)) as (dc & Hr & Hdc & _); [by eexists |].
      apply reads_scanLines in Hr. unfold listedIn in Hr.
      vm_compute in Hr. destruct Hr as [Hr | []]. injection Hr as <-.
      vm_compute in Hdc. destruct Hid as [-> | ->]; discriminate Hdc. }
    exists w'. split_and!.
    + exact E.
    + vm_compute. reflexivity.
    + apply Hin. exists (entryOf (runtime crowded) "A").
      split_and!.
      * apply reads_scanLines. unfold listedIn. vm_compute. left. reflexivity.
      * vm_compute. reflexivity.
      * eexists. vm_compute. reflexivity.
    + apply Hgone. by left.
    + apply Hgone. by right.
Defined.

(** The first refresh of the two containers on 127.0.0.1 and 127.0.0.2:
    [L1] gets the binding its line shows. *)
Lemma first_refresh_records_the_listing_witness :
  PortMappings (theContainer (afterwards (refreshContainers twoAddresses)) "L1")
  = [{| ContainerPort := "80"; HostPort := "8080"; Protocol := "tcp";
        OriginalPort := "8080" |}]
  /\ processedContainers (store (afterwards (refreshContainers twoAddresses)))
     = ∅.
Proof.
  assert (E : refreshContainers twoAddresses
              = Done None (afterwards (refreshContainers twoAddresses)))
    by (vm_compute; reflexivity).
  assert (H1 : portMappings (store twoAddresses) = ∅)
    by (vm_compute; reflexivity).
  assert (H2 : processedContainers (store twoAddresses) = ∅)
    by (vm_compute; reflexivity).
  destruct (first_refresh_records_the_listing twoAddresses _ H1 H2 E)
    as (Hp & _ & _ & Hc).
  split; [| exact Hp].
  rewrite (Hc "L1" (theContainer (afterwards (refreshContainers twoAddresses))
                                 "L1")).
  - vm_compute. reflexivity.
  - vm_compute. reflexivity.
Defined.

(** The start of a container that publishes no port. *)
Lemma start_without_inspection_changes_nothing_witness :
  handleContainerStart asListed "P" plain = Done tt plain.
Proof.
  apply start_without_inspection_changes_nothing.
  - vm_compute. discriminate.
  - vm_compute. discriminate.
  - vm_compute. exact I.
Defined.

(** The stop of [A] in S2 creates no container. *)
Lemma only_start_events_replace_containers_witness :
  exists w',
    dispatch asListed stopOfA conflict = Done tt w'
    /\ created (invocations w') = created (invocations conflict)
    /\ rand_pos w' = rand_pos conflict.
Proof.
  destruct (only_start_events_replace_containers asListed conflict stopOfA)
    as (w' & E & _ & Hc & Hr).
  - right. vm_compute. discriminate.
  - exists w'. split; [exact E |]. split; [exact Hc | exact Hr].
Defined.


(** The replacement of [B] in S2 is run with its name first, its image
    last, the new publication and its environment in between. *)
Lemma replacement_run_arguments_witness :
  exists name middle image,
    runArgsOfB = "--name" :: name :: middle ++ [image]
    /\ passes "-p" "11234:80/tcp" middle
    /\ passes "-e" "MODE=prod" middle
    /\ passes "--label" "com.dynamic-port-mapper.has-dynamic-ports=true"
              middle.
Proof.
  assert (E : collectRunArgs "B" "11234" "80" "tcp" (infoOf conflict "B")
                             conflict
              = Done runArgsOfB conflict) by (vm_compute; reflexivity).
  destruct (replacement_run_arguments _ _ _ _ _ _ _ _ E)
    as (_ & fullName & name & config & image & env & labels & middle
        & _ & _ & Hconfig & _ & Henv & _ & Hargs & Hp & Hs & He & _).
  exists name, middle, image.
  split; [exact Hargs |]. split; [exact Hp |]. split; [| exact Hs].
  apply He.
  vm_compute in Hconfig. injection Hconfig as <-.
  vm_compute in Henv. injection Henv as <-.
  left. reflexivity.
Defined.

(** With the daemon down the remap of [A] gives up after marking it. *)
Lemma remap_gives_up_on_failed_inspection_witness :
  exists msg w1,
    remapContainerPort "A" "8080" "11234" "80" "tcp"
                       (Down.world (tracking [boxA]))
    = Done (Some msg) w1
    /\ processedContainers (store w1) !! "A" = Some true.
Proof.
  destruct (remap_gives_up_on_failed_inspection
              (Down.world (tracking [boxA])) "A" "8080" "11234" "80" "tcp")
    as (msg & E & _ & Hm).
  - left. vm_compute. reflexivity.
  - exists msg. eexists. split; [exact E | exact Hm].
Defined.

(** The port drawn for [B] in S2. *)
Lemma relocation_target_is_in_range_witness :
  exists p,
    Atoi "11234" = (p, true) /\ 10000 <= p < 65000.
Proof.
  destruct (relocation_target_is_in_range conflict "B" "8080" "tcp"
              "11234" (drawn 1 conflict))
    as (p & _ & Ha & Hr & _).
  - vm_compute. discriminate.
  - vm_compute. discriminate.
  - vm_compute. split; [reflexivity | discriminate].
  - vm_compute. reflexivity.
  - exists p. split; [exact Ha | exact Hr].
Defined.

(** The descriptor emitted for the plan of S5 keeps the three services
    and the table form of [db]. *)
Lemma emitted_descriptor_differs_in_ports_only_witness :
  exists services',
    Dyn.asMap (Dyn.index emitted "services") = Some services'
    /\ map fst services' = ["web"; "db"; "dns"]
    /\ map fst emitted = ["version"; "services"].
Proof.
  assert (E : GenerateRemappedComposeFile composeFile planned planning
              = Done (temporary, Some emitted, None)
                     (afterwards
                        (GenerateRemappedComposeFile composeFile planned
                                                     planning)))
    by (vm_compute; reflexivity).
  destruct (emitted_descriptor_differs_in_ports_only _ _ _ _ _ _ E)
    as (config & services & services' & Hr & Hs & Hs' & Hk & _ & Hsame & _).
  exists services'. split; [exact Hs' |].
  vm_compute in Hr. injection Hr as <-.
  vm_compute in Hs. injection Hs as <-.
  split.
  - rewrite (proj1 Hsame). vm_compute. reflexivity.
  - rewrite Hk. vm_compute. reflexivity.
Defined.

(** The ports planned in S5 are in the default range. *)
Lemma planned_ports_are_in_range_witness :
  exists remappings (k : nat),
    CheckComposePortConflicts composeFile planning
    = Done (remappings, None) (drawn k planning)
    /\ forall key v,
         Dyn.lookup remappings key = Some v ->
         exists p, v = Itoa p /\ 10000 <= p < 65000.
Proof.
  destruct (planned_ports_are_in_range planning composeFile descriptor
              (servicesOf descriptor))
    as (remappings & k & E & H).
  - vm_compute. reflexivity.
  - vm_compute. reflexivity.
  - vm_compute. discriminate.
  - vm_compute. discriminate.
  - vm_compute. split; [reflexivity | discriminate].
  - exists remappings, k. split; [exact E |].
    intros key v Hl. destruct (H key v Hl) as (p & Hv & _ & Hr & _).
    exists p. split; [exact Hv | exact Hr].
Defined.

(** A port published on one address is never rewritten. *)
Lemma other_string_forms_are_passed_over_witness :
  rewritePort "8080" "11234" (GString qualified) = GString qualified.
Proof.
  destruct (other_string_forms_are_passed_over (R := Sim.State) qualified)
    as (_ & H & _).
  - vm_compute. discriminate.
  - apply H.
Defined.


(** A container published inside the range: both functions record its
    listed port. *)
Lemma parsePortMappings_agrees_without_relocation_witness :
  parsePortMappings "D" "0.0.0.0:54321->80/tcp" ∅ dynamic
  = parsePortsWithoutRemapping "D" "0.0.0.0:54321->80/tcp" ∅ dynamic.
Proof.
  apply parsePortMappings_agrees_without_relocation.
  right. right. right. vm_compute.
  constructor; [reflexivity | constructor].
Defined.

(** In S2 the unused sibling relocates [B] to 11234 and keeps 8080 as
    its original port. *)
Lemma parsePortMappings_keeps_listed_port_as_original_witness :
  exists w',
    parsePortMappings "B" "0.0.0.0:8080->80/tcp" ∅ conflict
    = Done ([{| ContainerPort := "80"; HostPort := "11234";
                Protocol := "tcp"; OriginalPort := "8080" |}], true) w'
    /\ exists m, m ∈ FindAllStringSubmatch "0.0.0.0:8080->80/tcp"
                 /\ m_host m = "8080".
Proof.
  exists (afterwards (parsePortMappings "B" "0.0.0.0:8080->80/tcp" ∅ conflict)).
  assert (E : parsePortMappings "B" "0.0.0.0:8080->80/tcp" ∅ conflict
              = Done ([{| ContainerPort := "80"; HostPort := "11234";
                          Protocol := "tcp"; OriginalPort := "8080" |}], true)
                     (afterwards (parsePortMappings "B" "0.0.0.0:8080->80/tcp"
                                                    ∅ conflict)))
    by (vm_compute; reflexivity).
  split; [exact E |].
  destruct (parsePortMappings_keeps_listed_port_as_original _ _ _ _ _ _ _ E
              {| ContainerPort := "80"; HostPort := "11234";
                 Protocol := "tcp"; OriginalPort := "8080" |})
    as (m & Hm & _ & _ & Ho & _).
  - apply list_elem_of_singleton. reflexivity.
  - exists m. split; [exact Hm |]. symmetry. exact Ho.
Defined.

(** S5 with [up -d]: the ports of [web] and [dns] conflict, the
    descriptor is written to a temporary file, [docker-compose] runs on
    it and the file is removed. *)
Lemma compose_command_outcomes_witness :
  exists w',
    runComposeCommand composeFile ["up"; "-d"] planning = Done None w'
    /\ map fst (Sim.files (runtime w')) = [composeFile].
Proof.
  destruct (compose_command_outcomes planning composeFile ["up"; "-d"])
    as (_ & _ & H).
  destruct (H descriptor (servicesOf descriptor) "web:8080")
    as (remappings & k & E & _ & _ & Hrun).
  - vm_compute. reflexivity.
  - vm_compute. reflexivity.
  - vm_compute. reflexivity.
  - exists "web", (GString "8080:80"), "8080", "80", "tcp", 8080.
    split.
    { exists (GMap webService), webService, [GString "8080:80"].
      split; [left; reflexivity |].
      split; [reflexivity |].
      split; [vm_compute; reflexivity | left; reflexivity]. }
    split; [vm_compute; reflexivity |].
    split; [discriminate |]. split; [discriminate |].
    split; [vm_compute; reflexivity |].
    split; vm_compute; reflexivity.
  - assert (E' : CheckComposePortConflicts composeFile planning
                 = Done (planned, None) (drawn 2 planning))
      by (vm_compute; reflexivity).
    rewrite E' in E. injection E as Hr Hk.
    assert (Hd : drawn k planning = drawn 2 planning).
    { unfold drawn. f_equal. exact (eq_sym Hk). }
    rewrite <- Hr, Hd in Hrun.
    assert (G : GenerateRemappedComposeFile composeFile planned
                  (drawn 2 planning)
                = Done (temporary, Some emitted, None)
                       (afterwards
                          (GenerateRemappedComposeFile composeFile planned
                                                       (drawn 2 planning))))
      by (vm_compute; reflexivity).
    eexists. split.
    + rewrite (Hrun _ _ _ G). vm_compute. reflexivity.
    + vm_compute. reflexivity.
Defined.

(** The two publications of a line, and a line without any. *)
Lemma portRegex_matches_are_read_from_the_text_example :
  FindAllStringSubmatch "80/tcp, 8080/udp" = []
  /\ forall m,
       m ∈ FindAllStringSubmatch "0.0.0.0:8080->80/tcp, :::53->53/udp" ->
       exists n, 0 <= n /\ Atoi (m_host m) = (n, true).
Proof.
  split.
  - apply (portRegex_matches_are_read_from_the_text "80/tcp, 8080/udp").
    vm_compute. intuition discriminate.
  - intros m Hm.
    destruct (proj1 (portRegex_matches_are_read_from_the_text _) m Hm)
      as [_ [Ho | Hn]]; [| exact Hn].
    apply list_elem_of_In in Hm. vm_compute in Hm.
    destruct Hm as [<- | [<- | []]]; vm_compute in Ho; discriminate Ho.
Defined.


(** [shop_web_1] is shown under [shop] and [a] under [standalone],
    also when the second loop visits the map the other way round. *)
Lemma containers_are_grouped_by_project_witness :
  map Names (default [] (GetContainersByComposeProject listed (rev listed)
                                                       listed !! "shop"))
  = ["shop_web_1"]
  /\ map Names (default [] (GetContainersByComposeProject
                              listed (rev listed) listed !! "standalone"))
     = ["a"].
Proof.
  assert (Hv : visits grouped listed) by (unfold visits, listed; reflexivity).
  assert (Hr : visits grouped (rev listed)).
  { unfold visits. symmetry. apply Permutation_rev. }
  destruct (containers_are_grouped_by_project grouped listed (rev listed)
              listed Hv Hr Hv) as (Hg & _).
  split; rewrite Hg; vm_compute; reflexivity.
Defined.

(** Port 80 of [T] is published on 20000 and on 8080: the start of
    [T] marks it and creates nothing, although 8080 is outside the
    range and held by [A]. *)
Lemma start_reads_first_bindings_only_witness :
  boundOn (bindingsIn twice "T") "80/tcp" "8080"
  /\ inDynamicRange (store twice) "8080" = false
  /\ exists w',
       handleContainerStart asListed "T" twice = Done tt w'
       /\ onlyLabelAttempts twice w'
       /\ rand_pos w' = rand_pos twice.
Proof.
  split_and!.
  - eexists _, _, _, _. split_and!.
    + vm_compute. left. reflexivity.
    + reflexivity.
    + right. left. reflexivity.
    + reflexivity.
    + vm_compute. reflexivity.
    + discriminate.
  - vm_compute. reflexivity.
  - destruct (start_reads_first_bindings_only asListed
                twice "T" (dataOf twice "T") (hostConfigOf twice "T")
                (bindingsIn twice "T")) as (w' & E & _ & L & Hr).
    + by vm_compute.
    + by vm_compute.
    + vm_compute. reflexivity.
    + vm_compute. reflexivity.
    + vm_compute. reflexivity.
    + by vm_compute.
    + intros key bindings Hb. vm_compute in Hb.
      destruct Hb as [[= <- <-] | []]. by vm_compute.
    + intros key bindings hostPort Hb Hf. vm_compute in Hb.
      destruct Hb as [[= <- <-] | []]. vm_compute in Hf.
      injection Hf as <-. vm_compute. reflexivity.
    + by exists w'.
Defined.

End FurtherScenarios.
